(* ===== verification/_CoqProject ===== *)
-Q . S2P
Prelude.v
Errors.v
Fees.v
Pool.v
BigVec.v
Borsh.v
ValidatorList.v
Runtime.v
Platform.v
Checks.v
UnitTests.v
Scenario.v
Admin.v
Tracking.v
Deposit.v
Withdraw.v
Validators.v
Update.v
Init.v
Instruction.v
Process.v
Entry.v
Trace.v
Spec.v
UserSteps.v
StakerSteps.v
Contracts.v
Refinement.v
DepositCorrect.v
WithdrawCorrect.v
UpdateCorrect.v
StakerCorrect.v
MoveStake.v
InitCorrect.v
Rejects.v
Builders.v
BuildersCorrect.v
Docs.v
Idl.v
Client.v
Commands.v
Output.v
Main.v
ClientDemo.v
ClientCorrect.v
UpdateCommand.v
DepositCommand.v
WithdrawPlan.v
Signing.v
CommandCases.v
Clap.v
CliApp.v
CliMain.v
CliCorrect.v
CliProgram.v
