(* ===== verification/Prelude.v ===== *)
(** * Verification of the stake pool program

    The program (src/program) is an on-chain stake pool.  Users hand in SOL or
    stake and receive pool tokens; the pool keeps the SOL in a reserve and
    delegates it to a list of validators through one stake account per validator,
    with transient accounts in between while stake is on the move; once per epoch
    the list and the pool are brought up to date and the manager is paid a fee on
    the growth.  A manager controls fees and authorities, a staker the validators.

    ** How the library is laid out

    The data model:
    - Prelude: results with errors and panics, machine-width integers, bytes, the
      generic lemmas and tactics.
    - Errors: [StakePoolError] and its codes (error.rs).
    - Fees: [Fee], [FutureEpoch], [FeeType] and the cap on fee increases (state.rs,
      lib.rs).
    - Pool: the [StakePool] record, exchange rate, fees on tokens, [update_fee]
      (state.rs), and the ledger of deposits, withdrawals and rewards.
    - BigVec: the vector inside an account's bytes (big_vec.rs).
    - Borsh: the encodings of the account types (state.rs).
    - ValidatorList: list entries, statuses, byte predicates, list (state.rs).

    The processor (processor.rs, with the checks of state.rs and lib.rs):
    - Runtime: accounts, account references, borrows, sysvars and cross-program
      invocation, and the state-and-error monad [M] the handlers are written in.
    - Checks: derived addresses, account checks, helpers that call other programs.
    - Admin, Deposit, Withdraw, Validators, Update, Init: one definition per handler
      with all its guards and calls, in the order of the source.
    - Instruction, Process: the instruction enum, its wire format, the dispatcher;
      Entry: the entry point (entrypoint.rs) and the texts of errors (processor.rs,
      error.rs).
    - UnitTests: the program's own tests of its data structures (the [tests] modules
      of state.rs, big_vec.rs and lib.rs), run on the model.

    The client side (instruction.rs, src/clients/cli, src/stake-pool-idl):
    - Builders: the functions that make the instructions, with their accounts,
      flags, derived addresses and data.
    - Client: the client's view of the network: transactions and who signs them, a
      node that answers questions and takes transactions, the monad [CLI] of
      commands, the readers of client.rs, signing and sending (main.rs).
    - Commands: one definition per command of main.rs; Output: the records and
      texts of output.rs and the listing commands; Main: the compute unit option
      and the dispatch of [main] over a type of commands.
    - Clap: declarations of command lines, the matches clap returns for them and
      what it guarantees of those ([conforms]); CliApp: the command line [main]
      declares; CliMain: how [main] reads its configuration and a command from the
      matches, and [client_main], the whole of [main].
    - Docs: the accounts that the doc comments of the instruction enum list, and
      how they compare with the builders.
    - Idl: the interface description, its accounts, arguments and data types, and
      how it compares with the builders and the wire format.

    The theory:
    - Platform: the laws the processor's theorems assume of the runtime
      ([RuntimeLaws]) and a concrete platform that satisfies them; Scenario: a pool
      on that platform, on which the witnesses run the handlers.
    - Tracking: the class [Keeps] of computations that leave the program's accounts
      alone; Trace: the class [Emits] of computations with a known list of calls.
    - Spec: the abstract specification, a step relation [pool_step] on pools with
      the signatures each step needs; UserSteps, StakerSteps: every handler is such
      a step; Contracts: what passing the checks says; Refinement: the dispatcher
      refines the specification, and what follows for sequences of transactions.
    - DepositCorrect, WithdrawCorrect, UpdateCorrect, StakerCorrect, MoveStake,
      InitCorrect: what each handler does when it succeeds; Rejects: what is
      refused; BuildersCorrect: what the builders of the epoch update make, and
      that running it through the dispatcher completes the update.
    - ClientDemo: concrete crates and a node with a ledger, for witnesses;
      ClientCorrect: inversion of runs and what they add to the history;
      UpdateCommand, DepositCommand: the update command and the deposit command
      down to the chain; WithdrawPlan: the plan
      of a stake withdrawal; Signing: runs without panics; CommandCases: the seed
      of a new validator, listing, the compute unit option, and inputs on which
      commands fail or do more than they say; CliCorrect: the command line is read
      as it is declared; CliProgram: the client from its command line on.

    ** How the model corresponds to the code

    A handler is a function of the list of account references and the arguments to
    [M unit]: [World -> presult (unit * World)], where a [World] has the accounts,
    the borrows of account data that are held ([RefCell] borrows, so that a
    conflicting borrow fails or panics as in the source), the id of the running
    program and the trace of completed invocations.  [?] and early returns are
    [Err]; [unwrap], slicing out of bounds and unchecked overflow are [Panic].  An
    error or panic has no resulting world, as the runtime rolls the transaction
    back.  Integers are [Z] with the checked, saturating and wrapping operations of
    their width; account data is bytes, and the validator list is searched and
    written in place in them.  Long handlers are split into named parts (the checks,
    the amounts, the accounting) that are called where the source has them inline.
    Log output is left out.

    A command of the client is a [CLI A]: a function from the history of what this
    run asked and sent (and the number of keys it generated) to a result and the
    history afterwards, which keeps what was sent before an error or a panic.  The
    node ([Node]) answers as a function of that history, so that nothing is assumed
    about other clients.  Other crates ([Crates]: instructions of other programs,
    decoders, floating-point amounts, keys) and the texts of their types ([Texts])
    are parameters; [Transaction::new] panics when the keys that sign are not those
    the message needs; the unchecked operators panic or wrap according to the build
    profile.

    Everything outside the repository is a field of [Runtime]: address derivation,
    sysvars, the decoders of stake, mint and token accounts, sessions, and the
    effect of a cross-program invocation.  [RuntimeLaws] assumes of them that an
    invoked program does not change data or owner of the caller's accounts and that
    numbers handed over have their type.  Theorems on one handler state the calls it
    makes as the list appended to the trace, so they do not depend on what other
    programs do beyond that.

    ** What is shown

    - Authority and invariants: [process_refines_spec], [pool_invariant],
      [manager_authority], [staker_authority], [stale_pool_rejected].
    - Value: [process_price_monotone], [no_dilution], [deposit_withdraw_no_profit],
      [epoch_fee_value], [withdraw_amount_correct], [fee_apply_correct].
    - Handlers: [initialize_correct], [deposit_sol_correct],
      [deposit_stake_correct], [deposit_wsol_correct], [withdraw_sol_correct],
      [withdraw_stake_correct], [withdraw_wsol_correct], [update_pool_correct],
      [update_list_correct], [cleanup_correct], [add_validator_correct],
      [remove_validator_correct], [increase_correct], [decrease_correct]: the
      accounts that were accepted, the amounts, the state afterwards and the exact
      calls.  [leaving_validator_removed]: a leaving validator does leave.
    - Client and program together: [epoch_update_completes] (what the builders of
      the epoch update make, once it runs, leaves no entry and no pool behind) and
      [update_command_completes] (the same from the update command on);
      [deposit_command_completes] (the update, the transaction and the deposit that
      the program makes of it); [update_builders_total].
    - The client: [arguments_well_typed] (for all matches clap can return, what is
      read is typed, and which command lines are not handled),
      [client_never_panics] from the command line on; [main_safe] for every
      command, [commands_never_panic] for eighteen of them,
      [command_update_correct], [prepare_withdraw_correct],
      [add_validator_terminates], [command_list_correct],
      [compute_unit_limit_correct].
    - Descriptions: [idl_data_agrees], [idl_accounts_agree] for the interface
      description, and where it does not agree [idl_entry_differs],
      [idl_accounts_fall_short]; [documented_accounts] for the doc comments.
    - Errors: [entry_reports_errors].
    - The program's tests: [tests_hold]; [fee_calculation_fails] has inputs on which
      a property test of the program fails.
    - Data structures: [vec_retain_correct], [vec_push_correct],
      [vec_find_correct], [in_place_list_agrees], [list_capacity],
      [removal_status_machine], [instruction_roundtrip],
      [stake_pool_account_roundtrip].
    - Fee changes: [check_withdrawal_cap] and, outside its range,
      [check_withdrawal_overflow_bypass]; [future_epoch_delivery],
      [epoch_fee_exceeds_floor].
    - Cases the client gets wrong: [zero_fee_withdrawal_fails],
      [resumed_creation_panics], [deposit_creates_unused_account],
      [withdrawal_check_wrong_unit], [deposit_wsol_unhandled],
      [deposit_authority_dropped].

    Loops are structural recursion on the list they consume; the two loops over a
    buffer ([find] and [retain]) run on the number of elements the buffer stores,
    which the correctness theorems show to be all of them; the fuel of [chunks] is
    the length of the list, and each chunk takes at least one entry.  The one
    unbounded loop, the search for a seed in [command_vsa_add], has a bound as an
    argument and says when it is not over; [add_validator_terminates] shows that
    one round is enough.

    The ids of sysvars and the builder of the stake program that Builders needs are
    the class [ClientIds]; [epoch_update_completes] assumes that the clock account
    holds what [Clock::get] returns.

    ** Not modelled

    The parser of clap, of which [conforms] states what the client relies on; the
    loading of keys and of the configuration file and floating-point numbers, which
    are parameters ([ClapUtils], [Crates]); JSON output, which serde derives; the
    texts of fees and the messages the client prints along the way; the security
    contact text; the test that compares floating-point rates
    ([approximate_apr_calculation]) and the tests that run the program in an
    emulated bank; the other clients (JavaScript, Python). *)

From Stdlib Require Export ZArith Lia.
From Stdlib Require Export Strings.Byte.
From stdpp Require Export prelude gmap strings list list_numbers.

#[global] Open Scope Z_scope.

(** ** Results

    Rust's [Result<A, E>], extended with [Panic] for the ways Rust code can
    abort: indexing out of bounds, [unwrap] of a failure and overflow of the
    unchecked operators.  On chain an [Err] and a panic both revert the
    transaction, but they are different observable outcomes. *)
Inductive result (E A : Type) : Type :=
| Ok (a : A)
| Err (e : E)
| Panic.
Arguments Ok {E A} _.
Arguments Err {E A} _.
Arguments Panic {E A}.

#[export] Instance result_ret E : MRet (result E) := fun A a => Ok a.
#[export] Instance result_bind E : MBind (result E) := fun A B f m =>
  match m with Ok a => f a | Err e => Err e | Panic => Panic end.
#[export] Instance result_fmap E : FMap (result E) := fun A B f m =>
  match m with Ok a => Ok (f a) | Err e => Err e | Panic => Panic end.

(** [Option::ok_or] *)
Definition ok_or {E A} (e : E) (o : option A) : result E A :=
  match o with Some a => Ok a | None => Err e end.

(** [Result::ok] *)
Definition result_ok {E A} (r : result E A) : option A :=
  match r with Ok a => Some a | _ => None end.

(** [Result::map_err], and the [From] conversion that [?] inserts. *)
Definition map_err {E E' A} (f : E -> E') (r : result E A) : result E' A :=
  match r with Ok a => Ok a | Err e => Err (f e) | Panic => Panic end.

(** [if c { return Err(e) }] *)
Definition err_if {E} (c : bool) (e : E) : result E unit :=
  if c then Err e else Ok tt.

(** [Option::unwrap] *)
Definition unwrap {E A} (o : option A) : result E A :=
  match o with Some a => Ok a | None => Panic end.

Definition is_Ok {E A} (r : result E A) : bool :=
  match r with Ok _ => true | _ => false end.

Lemma bind_Ok {E A B} (f : A -> result E B) (m : result E A) b :
  m ≫= f = Ok b <-> exists a, m = Ok a /\ f a = Ok b.
Proof. destruct m; naive_solver. Qed.

Lemma fmap_Ok {E A B} (f : A -> B) (m : result E A) b :
  f <$> m = Ok b <-> exists a, m = Ok a /\ b = f a.
Proof. destruct m; naive_solver. Qed.

Lemma ok_or_Ok {E A} (e : E) (o : option A) a : ok_or e o = Ok a <-> o = Some a.
Proof. destruct o; naive_solver. Qed.

Lemma unwrap_Ok {E A} (o : option A) a : @unwrap E A o = Ok a <-> o = Some a.
Proof. destruct o; naive_solver. Qed.

Lemma err_if_Ok {E} c (e : E) u : err_if c e = Ok u <-> c = false.
Proof. destruct c, u; naive_solver. Qed.

Lemma map_err_Ok {E E' A} (f : E -> E') (r : result E A) a :
  map_err f r = Ok a <-> r = Ok a.
Proof. destruct r; naive_solver. Qed.

(** ** Machine integers

    A [w]-bit unsigned integer is a [Z]; [is_uint w] is its type invariant.
    The checked, saturating and wrapping operations are Rust's. *)
Definition is_uint (w x : Z) : Prop := 0 <= x < 2 ^ w.
#[global] Hint Unfold is_uint : core.

Definition checked_add (w x y : Z) : option Z :=
  if x + y <? 2 ^ w then Some (x + y) else None.
Definition checked_sub (x y : Z) : option Z :=
  if y <=? x then Some (x - y) else None.
Definition checked_mul (w x y : Z) : option Z :=
  if x * y <? 2 ^ w then Some (x * y) else None.
Definition checked_div (x y : Z) : option Z :=
  if y =? 0 then None else Some (x / y).
Definition checked_rem (x y : Z) : option Z :=
  if y =? 0 then None else Some (x mod y).
Definition saturating_add (w x y : Z) : Z := Z.min (x + y) (2 ^ w - 1).
Definition saturating_sub (x y : Z) : Z := Z.max (x - y) 0.
Definition saturating_mul (w x y : Z) : Z := Z.min (x * y) (2 ^ w - 1).
(** [uW::try_from] of a wider unsigned value *)
Definition try_from (w x : Z) : option Z := if x <? 2 ^ w then Some x else None.

Lemma checked_add_Some w x y z :
  checked_add w x y = Some z <-> z = x + y /\ x + y < 2 ^ w.
Proof. unfold checked_add. destruct (Z.ltb_spec (x + y) (2 ^ w)); naive_solver lia. Qed.

Lemma checked_sub_Some x y z : checked_sub x y = Some z <-> z = x - y /\ y <= x.
Proof. unfold checked_sub. destruct (Z.leb_spec y x); naive_solver lia. Qed.

Lemma checked_mul_Some w x y z :
  checked_mul w x y = Some z <-> z = x * y /\ x * y < 2 ^ w.
Proof. unfold checked_mul. destruct (Z.ltb_spec (x * y) (2 ^ w)); naive_solver lia. Qed.

Lemma checked_div_Some x y z : checked_div x y = Some z <-> z = x / y /\ y <> 0.
Proof. unfold checked_div. destruct (Z.eqb_spec y 0); naive_solver lia. Qed.

Lemma try_from_Some w x z : try_from w x = Some z <-> z = x /\ x < 2 ^ w.
Proof. unfold try_from. destruct (Z.ltb_spec x (2 ^ w)); naive_solver lia. Qed.

(** The operations succeed when the exact result fits. *)
Lemma checked_add_fits w x y : x + y < 2 ^ w -> checked_add w x y = Some (x + y).
Proof. intros. by apply checked_add_Some. Qed.
Lemma checked_sub_fits x y : y <= x -> checked_sub x y = Some (x - y).
Proof. intros. by apply checked_sub_Some. Qed.
Lemma checked_mul_fits w x y : x * y < 2 ^ w -> checked_mul w x y = Some (x * y).
Proof. intros. by apply checked_mul_Some. Qed.
Lemma checked_div_fits x y : y <> 0 -> checked_div x y = Some (x / y).
Proof. intros. by apply checked_div_Some. Qed.
Lemma try_from_fits w x : x < 2 ^ w -> try_from w x = Some x.
Proof. intros. by apply try_from_Some. Qed.

(** The product of two [u64] values always fits a [u128]. *)
Lemma u64_mul_u128 x y : is_uint 64 x -> is_uint 64 y -> 0 <= x * y <= (2^64 - 1) * (2^64 - 1).
Proof. unfold is_uint. intros. nia. Qed.

Lemma u64_checked_mul_u128 x y :
  is_uint 64 x -> is_uint 64 y -> checked_mul 128 x y = Some (x * y).
Proof.
  intros Hx Hy. apply checked_mul_Some. split; [done|].
  pose proof (u64_mul_u128 x y Hx Hy). lia.
Qed.

(** Floor division: the two inequalities that characterise [n / d]. *)
Lemma div_bounds n d : 0 < d -> d * (n / d) <= n < d * (n / d) + d.
Proof. intros. pose proof (Z.div_mod n d). pose proof (Z.mod_pos_bound n d). lia. Qed.

Lemma div_le_of_mul n d q : 0 < d -> n <= q * d -> n / d <= q.
Proof. intros. apply Z.div_le_upper_bound; lia. Qed.

Lemma le_div_of_mul n d q : 0 < d -> q * d <= n -> q <= n / d.
Proof. intros. apply Z.div_le_lower_bound; lia. Qed.

Lemma mul_cancel_le a b c : 0 < c -> a * c <= b * c -> a <= b.
Proof. intros Hc. by apply Z.mul_le_mono_pos_r. Qed.

(** Two bounds that share the factors [d] and [f] compose. *)
Lemma mul_le_compose d f l q r s :
  0 < d -> 0 <= l -> 0 <= s -> d * q <= s * f -> l * f <= r * d -> l * q <= r * s.
Proof.
  intros Hd Hl Hs H1 H2. apply (mul_cancel_le _ _ d Hd).
  transitivity (l * (s * f)).
  - rewrite <- Z.mul_assoc. apply Z.mul_le_mono_nonneg_l; lia.
  - replace (l * (s * f)) with (s * (l * f)) by lia.
    replace (r * s * d) with (s * (r * d)) by lia. by apply Z.mul_le_mono_nonneg_l.
Qed.

(** ** Bytes *)
Definition byte_of_Z (z : Z) : byte :=
  match Byte.of_N (Z.to_N (z mod 256)) with Some b => b | None => x00 end.
Definition Z_of_byte (b : byte) : Z := Z.of_N (Byte.to_N b).

#[export] Instance byte_eq_dec' : EqDecision byte := Byte.byte_eq_dec.
#[export] Program Instance byte_countable : Countable byte :=
  inj_countable Byte.to_N Byte.of_N _.
Next Obligation. intros b. apply Byte.of_to_N. Qed.

Lemma Z_of_byte_range b : 0 <= Z_of_byte b < 256.
Proof.
  unfold Z_of_byte. pose proof (Byte.to_N_bounded b). lia.
Qed.

Lemma Z_of_byte_of_Z z : Z_of_byte (byte_of_Z z) = z mod 256.
Proof.
  unfold Z_of_byte, byte_of_Z. pose proof (Z.mod_pos_bound z 256 ltac:(lia)).
  destruct (Byte.of_N (Z.to_N (z mod 256))) as [b|] eqn:Hb.
  - apply Byte.to_of_N in Hb. rewrite Hb. lia.
  - apply Byte.of_N_None_iff in Hb. lia.
Qed.

Lemma byte_of_Z_of_byte b : byte_of_Z (Z_of_byte b) = b.
Proof.
  unfold byte_of_Z, Z_of_byte. pose proof (Byte.to_N_bounded b).
  rewrite Z.mod_small by lia. rewrite N2Z.id. by rewrite Byte.of_to_N.
Qed.

(** Little-endian integers, as [to_le_bytes] / [from_le_bytes] and Borsh lay
    them out. *)
Fixpoint le_encode (n : nat) (z : Z) : list byte :=
  match n with
  | O => []
  | S n => byte_of_Z z :: le_encode n (z / 256)
  end.

Fixpoint le_decode (bs : list byte) : Z :=
  match bs with
  | [] => 0
  | b :: bs => Z_of_byte b + 256 * le_decode bs
  end.

Lemma length_le_encode n z : length (le_encode n z) = n.
Proof. revert z. induction n; intros z; simpl; auto. Qed.

Lemma le_decode_range bs : 0 <= le_decode bs < 256 ^ Z.of_nat (length bs).
Proof.
  induction bs as [|b bs IH]; [simpl; lia|].
  cbn [le_decode length]. rewrite Nat2Z.inj_succ, Z.pow_succ_r by lia.
  pose proof (Z_of_byte_range b). nia.
Qed.

Lemma le_decode_encode n z : 0 <= z < 256 ^ Z.of_nat n -> le_decode (le_encode n z) = z.
Proof.
  revert z. induction n as [|n IH]; intros z Hz; [simpl in *; lia|].
  cbn [le_decode le_encode]. rewrite Nat2Z.inj_succ, Z.pow_succ_r in Hz by lia.
  rewrite IH, Z_of_byte_of_Z.
  - pose proof (Z.div_mod z 256). lia.
  - split; [apply Z.div_pos; lia|]. apply Z.div_lt_upper_bound; lia.
Qed.

Lemma le_encode_decode bs : le_encode (length bs) (le_decode bs) = bs.
Proof.
  induction bs as [|b bs IH]; [done|]. cbn [length le_decode le_encode].
  pose proof (Z_of_byte_range b) as Hb. f_equal.
  - rewrite <- (byte_of_Z_of_byte b) at 2. unfold byte_of_Z.
    rewrite (Z.add_comm (Z_of_byte b)), Z.mul_comm, Z.add_comm, Z.mod_add by lia. done.
  - rewrite (Z.mul_comm 256), Z.div_add, Z.div_small by lia. by rewrite Z.add_0_l.
Qed.

#[global] Arguments le_encode : simpl never.
#[global] Arguments le_decode : simpl never.

(** ** Slices

    [slice i j l] is [&l[i..j]]; [None] where Rust panics.  [splice i bs l]
    is [l[i..i + bs.len()].copy_from_slice(bs)] for a range inside [l]. *)
Definition slice {A} (i j : nat) (l : list A) : option (list A) :=
  if (i <=? j)%nat && (j <=? length l)%nat then Some (take (j - i) (drop i l)) else None.

Definition splice {A} (i : nat) (bs l : list A) : list A :=
  take i l ++ bs ++ drop (i + length bs) l.

Section slices.
Context {A : Type}.
Implicit Types l bs p q : list A.

Lemma slice_Some i j l s :
  slice i j l = Some s <-> (i <= j <= length l)%nat /\ s = take (j - i) (drop i l).
Proof.
  unfold slice. destruct (Nat.leb_spec i j), (Nat.leb_spec j (length l)); simpl;
    (split; [intros [=<-]|intros [? ->]]; try done; try (exfalso; lia)).
  all: split_and?; auto; lia.
Qed.

Lemma length_slice i j l s : slice i j l = Some s -> length s = (j - i)%nat.
Proof. intros [? ->]%slice_Some. rewrite length_take, length_drop. lia. Qed.

Lemma slice_app p s q :
  slice (length p) (length p + length s) (p ++ s ++ q) = Some s.
Proof.
  apply slice_Some. rewrite !length_app. split; [lia|].
  rewrite drop_app_length, take_app_length'; [done|lia].
Qed.

(** A slice that starts right after a known prefix. *)
Lemma slice_app' p s q i j :
  i = length p -> j = (length p + length s)%nat -> slice i j (p ++ s ++ q) = Some s.
Proof. intros -> ->. apply slice_app. Qed.

Lemma splice_app p s q bs :
  length bs = length s -> splice (length p) bs (p ++ s ++ q) = p ++ bs ++ q.
Proof.
  intros Hl. unfold splice. rewrite take_app_length, Hl, <- drop_drop, drop_app_length.
  by rewrite drop_app_length.
Qed.

Lemma splice_app' p s q bs i :
  i = length p -> length bs = length s -> splice i bs (p ++ s ++ q) = p ++ bs ++ q.
Proof. intros ->. apply splice_app. Qed.

Lemma splice_skip p i bs l : splice (length p + i) bs (p ++ l) = p ++ splice i bs l.
Proof.
  unfold splice. rewrite take_app_add, <- Nat.add_assoc, drop_app_add. by rewrite <- app_assoc.
Qed.

Lemma length_splice i bs l :
  (i + length bs <= length l)%nat -> length (splice i bs l) = length l.
Proof. intros. unfold splice. rewrite !length_app, length_take, length_drop. lia. Qed.

(** Every list splits at two in-range indices. *)
Lemma split_at l i j :
  (i <= j <= length l)%nat ->
  exists p s q, l = p ++ s ++ q /\ length p = i /\ length s = (j - i)%nat.
Proof.
  intros. exists (take i l), (take (j - i) (drop i l)), (drop j l).
  rewrite !length_take, length_drop. split_and!; [|lia|lia].
  rewrite <- (take_drop i l) at 1. f_equal.
  rewrite <- (take_drop (j - i) (drop i l)) at 1. f_equal.
  rewrite drop_drop. f_equal. lia.
Qed.
End slices.
#[global] Arguments slice : simpl never.
#[global] Arguments splice : simpl never.

(** ** Byte arrays

    [[u8; n]]: public keys, and the [Pod] integers of the on-chain layout. *)
Record byte_array (n : nat) := mkArray {
  arr_bytes : list byte;
  arr_len : (length arr_bytes =? n)%nat = true;
}.
Arguments mkArray {n} _ _.
Arguments arr_bytes {n} _.
Arguments arr_len {n} _.

Lemma array_eq {n} (a b : byte_array n) : arr_bytes a = arr_bytes b -> a = b.
Proof.
  destruct a as [la Ha], b as [lb Hb]. simpl. intros <-. f_equal. apply proof_irrel.
Qed.

Lemma length_arr_bytes {n} (a : byte_array n) : length (arr_bytes a) = n.
Proof. destruct a as [l H]. simpl. by apply Nat.eqb_eq. Qed.

#[export] Instance array_eq_dec n : EqDecision (byte_array n).
Proof.
  intros a b. destruct (decide (arr_bytes a = arr_bytes b)) as [H|H].
  - left. by apply array_eq.
  - right. intros ->. done.
Defined.

(** Reading an array from a slice of its length. *)
Definition array_of_bytes (n : nat) (l : list byte) : option (byte_array n) :=
  match Bool.bool_dec (length l =? n)%nat true with
  | left H => Some (mkArray l H)
  | right _ => None
  end.

Lemma array_of_arr_bytes {n} (a : byte_array n) : array_of_bytes n (arr_bytes a) = Some a.
Proof.
  unfold array_of_bytes. destruct Bool.bool_dec as [H|H].
  - f_equal. by apply array_eq.
  - by destruct H, a.
Qed.

Lemma array_of_bytes_Some n l a : array_of_bytes n l = Some a <-> l = arr_bytes a.
Proof.
  split; [|intros ->; apply array_of_arr_bytes].
  unfold array_of_bytes. destruct Bool.bool_dec; naive_solver.
Qed.

Lemma array_of_bytes_total n l : length l = n -> is_Some (array_of_bytes n l).
Proof.
  intros Hl. unfold array_of_bytes. destruct Bool.bool_dec as [H|H]; [by eexists|].
  destruct H. by apply Nat.eqb_eq.
Qed.

#[export] Instance array_countable n : Countable (byte_array n).
Proof. refine (inj_countable arr_bytes (array_of_bytes n) _). intros a. apply array_of_arr_bytes. Defined.

(** [[b; n]] *)
Definition array_repeat (n : nat) (b : byte) : byte_array n :=
  mkArray (replicate n b) (proj2 (Nat.eqb_eq _ _) (length_replicate n b)).

(** [PodU64], [PodU32]: little-endian integers stored as arrays. *)
Definition array_of_uint (n : nat) (z : Z) : byte_array n :=
  default (array_repeat n x00) (array_of_bytes n (le_encode n z)).
Definition uint_of_array {n} (a : byte_array n) : Z := le_decode (arr_bytes a).

Lemma arr_bytes_of_uint n z : arr_bytes (array_of_uint n z) = le_encode n z.
Proof.
  unfold array_of_uint.
  destruct (array_of_bytes_total n (le_encode n z) (length_le_encode n z)) as [a Ha].
  rewrite Ha. simpl. symmetry. by apply array_of_bytes_Some.
Qed.

Lemma uint_of_array_of_uint n z :
  0 <= z < 256 ^ Z.of_nat n -> uint_of_array (array_of_uint n z) = z.
Proof. intros. unfold uint_of_array. rewrite arr_bytes_of_uint. by apply le_decode_encode. Qed.

Lemma array_of_uint_of_array {n} (a : byte_array n) : array_of_uint n (uint_of_array a) = a.
Proof.
  apply array_eq. rewrite arr_bytes_of_uint. unfold uint_of_array.
  rewrite <- (length_arr_bytes a) at 1. apply le_encode_decode.
Qed.

Lemma uint_of_array_range {n} (a : byte_array n) : 0 <= uint_of_array a < 256 ^ Z.of_nat n.
Proof.
  unfold uint_of_array. pose proof (le_decode_range (arr_bytes a)) as Hr.
  by rewrite length_arr_bytes in Hr.
Qed.

(** ** Public keys *)
Definition PUBKEY_BYTES : nat := 32.
Abbreviation Pubkey := (byte_array PUBKEY_BYTES).
Abbreviation pk_bytes := (arr_bytes (n:=PUBKEY_BYTES)).

Lemma length_pk_bytes (k : Pubkey) : length (pk_bytes k) = PUBKEY_BYTES.
Proof. apply length_arr_bytes. Qed.

(** [Pubkey::new_from_array([b; 32])]; [pubkey_default] is [Pubkey::default()]. *)
Definition pubkey_repeat (b : byte) : Pubkey := @mkArray PUBKEY_BYTES (replicate 32 b) eq_refl.
Definition pubkey_default : Pubkey := pubkey_repeat x00.

(** Boolean equality of keys, the [==] of the source. *)
Definition pubkey_eqb (a b : Pubkey) : bool := bool_decide (a = b).
#[global] Infix "=?ₖ" := pubkey_eqb (at level 70, no associativity).

Lemma pubkey_eqb_true a b : a =?ₖ b = true <-> a = b.
Proof. apply bool_decide_eq_true. Qed.
Lemma pubkey_eqb_false a b : a =?ₖ b = false <-> a <> b.
Proof. apply bool_decide_eq_false. Qed.
Lemma pubkey_eqb_refl a : a =?ₖ a = true.
Proof. by apply pubkey_eqb_true. Qed.

(** ** Record update

    [r <| f := v |>] is the assignment [r.f = v] of the source.  A record type
    gives its eta expansion once ([Settable]); the setter of a field is the eta
    expansion with that one projection replaced. *)
Class Settable (R : Type) := eta_expand : R -> R.
Class Setter {R T : Type} (proj : R -> T) := set_field : (T -> T) -> R -> R.
#[global] Arguments set_field {R T} proj {_} _ _ /.

Ltac derive_setter :=
  lazymatch goal with
  | |- @Setter ?R ?T ?proj =>
      let e := eval hnf in (@eta_expand R _) in
      lazymatch eval pattern proj in e with
      | ?abs _ => let s := eval cbv beta in (fun (h : T -> T) => abs (fun r => h (proj r))) in exact s
      end
  end.
#[global] Hint Extern 1 (Setter _) => derive_setter : typeclass_instances.
#[global] Notation "r <| f := v |>" := (set_field f (fun _ => v) r)
  (at level 12, f at next level, left associativity).

(** ** Automation *)
Create HintDb pool.
Create HintDb contracts.
#[export] Hint Resolve Z_of_byte_range length_le_encode length_pk_bytes : pool.
#[export] Hint Rewrite length_le_encode @length_arr_bytes @length_app @length_take @length_drop
  @length_replicate pubkey_eqb_refl : pool.

(** Substitute with one equation only. *)
Ltac subst_eq H :=
  lazymatch type of H with
  | ?x = ?y => first [is_var x; subst x | is_var y; subst y | idtac]
  | _ => idtac
  end.

(** Turn one hypothesis that says a computation succeeded into what its parts
    computed. *)
Ltac inv_ok_step H :=
  lazymatch type of H with
  | Ok _ = Ok _ => injection H as H; subst_eq H
  | mret _ = Ok _ => injection H as H; subst_eq H
  | Some _ = Some _ => injection H as H; subst_eq H
  | Err _ = Ok _ => discriminate H
  | Panic = Ok _ => discriminate H
  | None = Some _ => discriminate H
  | @mbind (result _) _ _ _ _ _ = Ok _ =>
      let a := fresh "v" in let H1 := fresh "Hb" in
      apply bind_Ok in H as (a & H1 & H); cbv beta in H; inv_ok_step H1; inv_ok_step H
  | @mbind option _ _ _ _ _ = Some _ =>
      let a := fresh "v" in let H1 := fresh "Hb" in
      apply bind_Some in H as (a & H1 & H); cbv beta in H; inv_ok_step H1; inv_ok_step H
  | err_if _ _ = Ok _ => apply err_if_Ok in H
  | ok_or _ _ = Ok _ => apply ok_or_Ok in H; inv_ok_step H
  | unwrap _ = Ok _ => apply unwrap_Ok in H; inv_ok_step H
  | map_err _ _ = Ok _ => apply map_err_Ok in H; inv_ok_step H
  | checked_add _ _ _ = Some _ => let E := fresh in apply checked_add_Some in H as [E H]; subst_eq E
  | checked_sub _ _ = Some _ => let E := fresh in apply checked_sub_Some in H as [E H]; subst_eq E
  | checked_mul _ _ _ = Some _ => let E := fresh in apply checked_mul_Some in H as [E H]; subst_eq E
  | checked_div _ _ = Some _ => let E := fresh in apply checked_div_Some in H as [E H]; subst_eq E
  | try_from _ _ = Some _ => let E := fresh in apply try_from_Some in H as [E H]; subst_eq E
  | (if ?c then _ else _) = _ =>
      let E := fresh "Hc" in destruct c eqn:E; inv_ok_step H
  | _ => idtac
  end.
Tactic Notation "inv_ok" hyp(H) := inv_ok_step H.

(** Boolean tests of the code as the propositions they decide. *)
Ltac bool_props :=
  repeat match goal with
  | H : _ && _ = true |- _ => apply andb_true_iff in H as [? ?]
  | H : _ || _ = false |- _ => apply orb_false_iff in H as [? ?]
  | H : negb _ = true |- _ => apply negb_true_iff in H
  | H : negb _ = false |- _ => apply negb_false_iff in H
  | H : _ =?ₖ _ = true |- _ => apply pubkey_eqb_true in H
  | H : _ =?ₖ _ = false |- _ => apply pubkey_eqb_false in H
  | H : (_ <? _) = true |- _ => apply Z.ltb_lt in H
  | H : (_ <? _) = false |- _ => apply Z.ltb_ge in H
  | H : (_ <=? _) = true |- _ => apply Z.leb_le in H
  | H : (_ <=? _) = false |- _ => apply Z.leb_gt in H
  | H : (_ =? _) = true |- _ => apply Z.eqb_eq in H
  | H : (_ =? _) = false |- _ => apply Z.eqb_neq in H
  end.
