(* ===== verification/Errors.v ===== *)
(** * Errors of the stake pool program (src/program/src/error.rs)

    The program's error enumeration, its conversion into the runtime's
    [ProgramError] and the translation of the session SDK's errors. *)

From S2P Require Import Prelude.

(** [StakePoolError], in declaration order: the discriminants are the error
    codes clients see. *)
Inductive StakePoolError : Type :=
| AlreadyInUse
| InvalidProgramAddress
| InvalidState
| CalculationFailure
| FeeTooHigh
| WrongAccountMint
| WrongManager
| SignatureMissing
| InvalidValidatorStakeList
| InvalidFeeAccount
| WrongPoolMint
| WrongStakeStake
| UserStakeNotActive
| ValidatorAlreadyAdded
| ValidatorNotFound
| InvalidStakeAccountAddress
| StakeListOutOfDate
| StakeListAndPoolOutOfDate
| UnknownValidatorStakeAccount
| WrongMintingAuthority
| UnexpectedValidatorListAccountSize
| WrongStaker
| NonZeroPoolTokenSupply
| StakeLamportsNotEqualToMinimum
| IncorrectDepositVoteAddress
| IncorrectWithdrawVoteAddress
| InvalidMintFreezeAuthority
| FeeIncreaseTooHigh
| WithdrawalTooSmall
| DepositTooSmall
| InvalidStakeDepositAuthority
| InvalidSolDepositAuthority
| InvalidPreferredValidator
| TransientAccountInUse
| InvalidSolWithdrawAuthority
| SolWithdrawalTooLarge
| InvalidMetadataAccount
| UnsupportedMintExtension
| UnsupportedFeeAccountExtension
| ExceededSlippage
| IncorrectMintDecimals
| ReserveDepleted
| MissingRequiredSysvar
| EpochRewardDistributionInProgress
| TooManyValidatorsInPool
| SessionExpired
| SessionUserMismatch
| SessionUnauthorizedProgram
| SessionMissingRequiredSignature
| SessionClockError
| SessionInvalidAccountData
| SessionInvalidAccountDiscriminator
| SessionInvalidAccountVersion
| SessionLimitsExceeded
| SessionRevoked.

#[export] Instance StakePoolError_eq_dec : EqDecision StakePoolError.
Proof. solve_decision. Defined.

(** All variants in declaration order; a variant's discriminant is its index. *)
Definition stake_pool_errors : list StakePoolError :=
  [AlreadyInUse; InvalidProgramAddress; InvalidState;
   CalculationFailure; FeeTooHigh; WrongAccountMint;
   WrongManager; SignatureMissing; InvalidValidatorStakeList;
   InvalidFeeAccount; WrongPoolMint; WrongStakeStake;
   UserStakeNotActive; ValidatorAlreadyAdded; ValidatorNotFound;
   InvalidStakeAccountAddress; StakeListOutOfDate; StakeListAndPoolOutOfDate;
   UnknownValidatorStakeAccount; WrongMintingAuthority; UnexpectedValidatorListAccountSize;
   WrongStaker; NonZeroPoolTokenSupply; StakeLamportsNotEqualToMinimum;
   IncorrectDepositVoteAddress; IncorrectWithdrawVoteAddress; InvalidMintFreezeAuthority;
   FeeIncreaseTooHigh; WithdrawalTooSmall; DepositTooSmall;
   InvalidStakeDepositAuthority; InvalidSolDepositAuthority; InvalidPreferredValidator;
   TransientAccountInUse; InvalidSolWithdrawAuthority; SolWithdrawalTooLarge;
   InvalidMetadataAccount; UnsupportedMintExtension; UnsupportedFeeAccountExtension;
   ExceededSlippage; IncorrectMintDecimals; ReserveDepleted;
   MissingRequiredSysvar; EpochRewardDistributionInProgress; TooManyValidatorsInPool;
   SessionExpired; SessionUserMismatch; SessionUnauthorizedProgram;
   SessionMissingRequiredSignature; SessionClockError; SessionInvalidAccountData;
   SessionInvalidAccountDiscriminator; SessionInvalidAccountVersion; SessionLimitsExceeded;
   SessionRevoked].

(** [e as u32] *)
Definition stake_pool_error_code (e : StakePoolError) : Z :=
  match e with
  | AlreadyInUse => 0
  | InvalidProgramAddress => 1
  | InvalidState => 2
  | CalculationFailure => 3
  | FeeTooHigh => 4
  | WrongAccountMint => 5
  | WrongManager => 6
  | SignatureMissing => 7
  | InvalidValidatorStakeList => 8
  | InvalidFeeAccount => 9
  | WrongPoolMint => 10
  | WrongStakeStake => 11
  | UserStakeNotActive => 12
  | ValidatorAlreadyAdded => 13
  | ValidatorNotFound => 14
  | InvalidStakeAccountAddress => 15
  | StakeListOutOfDate => 16
  | StakeListAndPoolOutOfDate => 17
  | UnknownValidatorStakeAccount => 18
  | WrongMintingAuthority => 19
  | UnexpectedValidatorListAccountSize => 20
  | WrongStaker => 21
  | NonZeroPoolTokenSupply => 22
  | StakeLamportsNotEqualToMinimum => 23
  | IncorrectDepositVoteAddress => 24
  | IncorrectWithdrawVoteAddress => 25
  | InvalidMintFreezeAuthority => 26
  | FeeIncreaseTooHigh => 27
  | WithdrawalTooSmall => 28
  | DepositTooSmall => 29
  | InvalidStakeDepositAuthority => 30
  | InvalidSolDepositAuthority => 31
  | InvalidPreferredValidator => 32
  | TransientAccountInUse => 33
  | InvalidSolWithdrawAuthority => 34
  | SolWithdrawalTooLarge => 35
  | InvalidMetadataAccount => 36
  | UnsupportedMintExtension => 37
  | UnsupportedFeeAccountExtension => 38
  | ExceededSlippage => 39
  | IncorrectMintDecimals => 40
  | ReserveDepleted => 41
  | MissingRequiredSysvar => 42
  | EpochRewardDistributionInProgress => 43
  | TooManyValidatorsInPool => 44
  | SessionExpired => 45
  | SessionUserMismatch => 46
  | SessionUnauthorizedProgram => 47
  | SessionMissingRequiredSignature => 48
  | SessionClockError => 49
  | SessionInvalidAccountData => 50
  | SessionInvalidAccountDiscriminator => 51
  | SessionInvalidAccountVersion => 52
  | SessionLimitsExceeded => 53
  | SessionRevoked => 54
  end.

(** The derived [FromPrimitive] used to print an error from its code. *)
Definition stake_pool_error_from_code (c : Z) : option StakePoolError :=
  if c <? 0 then None else stake_pool_errors !! Z.to_nat c.

(** The runtime's [ProgramError]: [Custom] carries program-specific codes, the
    other constructors are those the program returns or that the library calls
    it makes document. *)
Inductive ProgramError : Type :=
| Custom (code : Z)
| InvalidArgument
| InvalidInstructionData
| InvalidAccountData
| AccountDataTooSmall
| InsufficientFunds
| IncorrectProgramId
| MissingRequiredSignature
| NotEnoughAccountKeys
| AccountBorrowFailed
| MaxSeedLengthExceeded
| InvalidSeeds
| BorshIoError
| AccountNotRentExempt
| UnsupportedSysvar.

#[export] Instance ProgramError_eq_dec : EqDecision ProgramError.
Proof. solve_decision. Defined.

(** [impl From<StakePoolError> for ProgramError] *)
Definition into_program_error (e : StakePoolError) : ProgramError :=
  Custom (stake_pool_error_code e).

(** What a handler returns: [Result<A, ProgramError>]. *)
Abbreviation presult := (result ProgramError).

(** [return Err(StakePoolError::E.into())] *)
Definition fail_pool {A} (e : StakePoolError) : presult A := Err (into_program_error e).

(** The session SDK's error enumeration, as error.rs matches it. *)
Inductive SessionError : Type :=
| Expired
| UserMismatch
| UnauthorizedProgram
| SMissingRequiredSignature
| ClockError
| SInvalidAccountData
| InvalidAccountDiscriminator
| InvalidAccountVersion
| LimitsExceeded
| Revoked.

(** [impl From<SessionError> for StakePoolError] *)
Definition session_error_into (e : SessionError) : StakePoolError :=
  match e with
  | Expired => SessionExpired
  | UserMismatch => SessionUserMismatch
  | UnauthorizedProgram => SessionUnauthorizedProgram
  | SMissingRequiredSignature => SessionMissingRequiredSignature
  | ClockError => SessionClockError
  | SInvalidAccountData => SessionInvalidAccountData
  | InvalidAccountDiscriminator => SessionInvalidAccountDiscriminator
  | InvalidAccountVersion => SessionInvalidAccountVersion
  | LimitsExceeded => SessionLimitsExceeded
  | Revoked => SessionRevoked
  end.

(** ** Codes are faithful *)

Lemma stake_pool_error_from_code_code e :
  stake_pool_error_from_code (stake_pool_error_code e) = Some e.
Proof. by destruct e. Qed.

Lemma stake_pool_error_code_from_code c e :
  stake_pool_error_from_code c = Some e -> stake_pool_error_code e = c.
Proof.
  unfold stake_pool_error_from_code. destruct (Z.ltb_spec c 0); [done|].
  intros Hl. rewrite <- (Z2Nat.id c) by lia. revert Hl. generalize (Z.to_nat c) as n. clear.
  intros n. do 55 (destruct n as [|n]; [by intros [=<-]|]). done.
Qed.

Lemma into_program_error_inj e1 e2 :
  into_program_error e1 = into_program_error e2 -> e1 = e2.
Proof.
  intros [=Hc]. apply (f_equal stake_pool_error_from_code) in Hc.
  rewrite !stake_pool_error_from_code_code in Hc. by injection Hc.
Qed.

Lemma session_error_into_inj e1 e2 :
  session_error_into e1 = session_error_into e2 -> e1 = e2.
Proof. by destruct e1, e2. Qed.

(** error codes round trip, and the session errors occupy codes 45 to 54
    in the documented order: [FromPrimitive] recovers exactly the variant whose
    code was returned on chain, no two variants share a code, and a session
    failure is reported by a session code. *)
Theorem error_codes_roundtrip :
  (forall c e, stake_pool_error_from_code c = Some e <-> stake_pool_error_code e = c) /\
  (forall s, 45 <= stake_pool_error_code (session_error_into s) <= 54) /\
  (forall e1 e2, into_program_error e1 = into_program_error e2 -> e1 = e2).
Proof.
  split_and!.
  - intros c e. split; [apply stake_pool_error_code_from_code|].
    intros <-. apply stake_pool_error_from_code_code.
  - by intros [].
  - apply into_program_error_inj.
Qed.
