(* ===== verification/Fees.v ===== *)
(** * Fees and epoch countdowns (src/program/src/state.rs, lib.rs)

    [Fee] ratios with their rounding, the cap on withdrawal fee increases, the
    [FeeType] carried by [SetFee], and [FutureEpoch], the countdown that delays
    a new fee to a later epoch. *)

From S2P Require Import Prelude Errors.

(** ** Data *)

(** [struct Fee] *)
Record Fee := mkFee { denominator : Z; numerator : Z }.
#[export] Instance Fee_eq_dec : EqDecision Fee.
Proof. solve_decision. Defined.

(** [Fee::default()] *)
Definition fee_default : Fee := {| denominator := 0; numerator := 0 |}.

(** Both components are [u64]. *)
Definition fee_ok (f : Fee) : Prop := is_uint 64 (denominator f) /\ is_uint 64 (numerator f).

(** [MAX_WITHDRAWAL_FEE_INCREASE] and [WITHDRAWAL_BASELINE_FEE] of lib.rs *)
Definition MAX_WITHDRAWAL_FEE_INCREASE : Fee := {| numerator := 3; denominator := 2 |}.
Definition WITHDRAWAL_BASELINE_FEE : Fee := {| numerator := 1; denominator := 1000 |}.

(** [enum FutureEpoch<T>] *)
Inductive FutureEpoch (T : Type) : Type :=
| FENone
| FEOne (v : T)
| FETwo (v : T).
Arguments FENone {T}.
Arguments FEOne {T} _.
Arguments FETwo {T} _.
#[export] Instance FutureEpoch_eq_dec `{EqDecision T} : EqDecision (FutureEpoch T).
Proof. solve_decision. Defined.

(** [enum FeeType] *)
Inductive FeeType : Type :=
| SolReferral (pct : Z)
| StakeReferral (pct : Z)
| EpochFee (f : Fee)
| StakeWithdrawalFee (f : Fee)
| SolDepositFee (f : Fee)
| StakeDepositFee (f : Fee)
| SolWithdrawalFee (f : Fee).

(** ** Operations *)

(** [Fee::apply] *)
Definition fee_apply (f : Fee) (amt : Z) : option Z :=
  if denominator f =? 0 then Some 0
  else
    num ← checked_mul 128 amt (numerator f);
    a ← checked_add 128 num (denominator f);
    b ← checked_sub a 1;
    checked_div b (denominator f).

(** The derived [<] on [Option<u128>]: [None] is smaller than every [Some]. *)
Definition option_u128_lt (a b : option Z) : bool :=
  match a, b with
  | None, Some _ => true
  | Some x, Some y => x <? y
  | _, None => false
  end.

(** [Fee::check_withdrawal].  The inner multiplication sits under [map], so its
    overflow is not an error: it leaves [None] on that side of the comparison. *)
Definition check_withdrawal (self old_withdrawal_fee : Fee) : result StakePoolError unit :=
  let '(old_num, old_denom) :=
    if (denominator old_withdrawal_fee =? 0) || (numerator old_withdrawal_fee =? 0)
    then (numerator WITHDRAWAL_BASELINE_FEE, denominator WITHDRAWAL_BASELINE_FEE)
    else (numerator old_withdrawal_fee, denominator old_withdrawal_fee) in
  lhs ← ok_or CalculationFailure
          (option_map (fun x => checked_mul 128 x (numerator MAX_WITHDRAWAL_FEE_INCREASE))
             (checked_mul 128 old_num (denominator self)));
  rhs ← ok_or CalculationFailure
          (option_map (fun x => checked_mul 128 x (denominator MAX_WITHDRAWAL_FEE_INCREASE))
             (checked_mul 128 (numerator self) old_denom));
  err_if (option_u128_lt lhs rhs) FeeIncreaseTooHigh.

(** [FeeType::check_too_high] *)
Definition check_too_high (self : FeeType) : result StakePoolError unit :=
  let too_high :=
    match self with
    | SolReferral pct | StakeReferral pct => 100 <? pct
    | EpochFee f | StakeWithdrawalFee f | SolWithdrawalFee f
    | SolDepositFee f | StakeDepositFee f => denominator f <? numerator f
    end in
  err_if too_high FeeTooHigh.

(** [FeeType::can_only_change_next_epoch] *)
Definition can_only_change_next_epoch (self : FeeType) : bool :=
  match self with
  | StakeWithdrawalFee _ | SolWithdrawalFee _ | EpochFee _ => true
  | _ => false
  end.

(** [FutureEpoch::new] *)
Definition future_new {T} (v : T) : FutureEpoch T := FETwo v.

(** [FutureEpoch::update_epoch] *)
Definition update_epoch {T} (fe : FutureEpoch T) : FutureEpoch T :=
  match fe with
  | FENone => FENone
  | FEOne _ => FENone
  | FETwo v => FEOne v
  end.

(** [FutureEpoch::get] *)
Definition future_get {T} (fe : FutureEpoch T) : option T :=
  match fe with
  | FENone | FETwo _ => None
  | FEOne v => Some v
  end.

(** [impl From<FutureEpoch<T>> for Option<T>] *)
Definition future_into_option {T} (fe : FutureEpoch T) : option T :=
  match fe with
  | FENone => None
  | FEOne v | FETwo v => Some v
  end.

(** ** Rounding *)

(** A fee does not exceed the amount it is taken from. *)
Definition fee_at_most_one (f : Fee) : Prop := numerator f <= denominator f.
#[export] Instance fee_at_most_one_dec f : Decision (fee_at_most_one f).
Proof. unfold fee_at_most_one. apply _. Defined.

Lemma fee_apply_Some f amt :
  fee_ok f -> is_uint 64 amt ->
  fee_apply f amt =
    Some (if denominator f =? 0 then 0
          else (amt * numerator f + denominator f - 1) / denominator f).
Proof.
  intros [Hd Hn] Ha. unfold fee_apply.
  destruct (Z.eqb_spec (denominator f) 0) as [E|E]; [done|].
  rewrite u64_checked_mul_u128 by done. simpl.
  pose proof (u64_mul_u128 _ _ Ha Hn) as Hm. unfold is_uint in *.
  rewrite checked_add_fits by lia. simpl. rewrite checked_sub_fits by lia. simpl.
  by apply checked_div_fits.
Qed.

(** The value of [fee_apply] is the least integer that covers the exact fee. *)
Lemma fee_apply_ceil f amt v :
  fee_ok f -> is_uint 64 amt -> 0 < denominator f -> fee_apply f amt = Some v ->
  denominator f * (v - 1) < amt * numerator f <= denominator f * v.
Proof.
  intros Hf Ha Hd. rewrite fee_apply_Some by done.
  destruct (Z.eqb_spec (denominator f) 0); [lia|]. intros [=<-].
  pose proof (div_bounds (amt * numerator f + denominator f - 1) (denominator f) Hd). lia.
Qed.

Lemma fee_apply_nonneg f amt v :
  fee_ok f -> is_uint 64 amt -> fee_apply f amt = Some v -> 0 <= v.
Proof.
  intros Hf Ha Hv. rewrite fee_apply_Some in Hv by done. injection Hv as <-.
  destruct Hf as [Hd Hn]. unfold is_uint in *.
  destruct (Z.eqb_spec (denominator f) 0); [lia|]. apply Z.div_pos; [nia|lia].
Qed.

Lemma fee_apply_le f amt v :
  fee_ok f -> is_uint 64 amt -> fee_at_most_one f -> fee_apply f amt = Some v -> v <= amt.
Proof.
  intros Hf Ha Hle Hv. pose proof Hf as [Hd Hn]. unfold is_uint, fee_at_most_one in *.
  destruct (Z.eq_dec (denominator f) 0) as [E|E].
  - rewrite fee_apply_Some in Hv by done. rewrite E in Hv. simpl in Hv.
    injection Hv as <-. lia.
  - pose proof (fee_apply_ceil f amt v Hf Ha ltac:(lia) Hv). nia.
Qed.

(** A fee of at most 100% is defined and does not exceed the amount. *)
Lemma fee_apply_bounded f amt :
  fee_ok f -> is_uint 64 amt -> fee_at_most_one f ->
  exists v, fee_apply f amt = Some v /\ 0 <= v <= amt.
Proof.
  intros Hf Ha Hle. pose proof (fee_apply_Some f amt Hf Ha) as Hv.
  eexists. split; [exact Hv|]. split; [by eapply fee_apply_nonneg|by eapply fee_apply_le].
Qed.

(** [Fee::apply] never fails on [u64] inputs and rounds up: its value is
    the least integer not below [amt * numerator / denominator] (zero when the
    numerator or the denominator is zero), and a fee of at most 100% never
    exceeds the amount. *)
Theorem fee_apply_correct f amt :
  fee_ok f -> is_uint 64 amt ->
  exists v, fee_apply f amt = Some v /\
    (denominator f = 0 \/ numerator f = 0 -> v = 0) /\
    (0 < denominator f ->
       amt * numerator f <= denominator f * v /\
       forall u, amt * numerator f <= denominator f * u -> v <= u) /\
    (fee_at_most_one f -> 0 <= v <= amt).
Proof.
  intros Hf Ha. destruct (fee_apply f amt) as [v|] eqn:Hv;
    [|by rewrite fee_apply_Some in Hv by done].
  exists v. split_and!; [done| | |].
  - rewrite fee_apply_Some in Hv by done. injection Hv as <-. destruct Hf as [Hd _].
    intros [E|E]; rewrite E; [done|].
    destruct (Z.eqb_spec (denominator f) 0); [done|].
    apply Z.div_small. unfold is_uint in *. lia.
  - intros Hd. pose proof (fee_apply_ceil f amt v Hf Ha Hd Hv). split; [lia|].
    intros u Hu. nia.
  - intros Hle. split; [by eapply fee_apply_nonneg|by eapply fee_apply_le].
Qed.

Lemma fee_apply_correct_witness :
  fee_ok (mkFee 1000 3) /\ is_uint 64 999 /\
  exists v, fee_apply (mkFee 1000 3) 999 = Some v /\
    (denominator (mkFee 1000 3) = 0 \/ numerator (mkFee 1000 3) = 0 -> v = 0) /\
    (0 < denominator (mkFee 1000 3) ->
       999 * numerator (mkFee 1000 3) <= denominator (mkFee 1000 3) * v /\
       forall u, 999 * numerator (mkFee 1000 3) <= denominator (mkFee 1000 3) * u -> v <= u) /\
    (fee_at_most_one (mkFee 1000 3) -> 0 <= v <= 999).
Proof.
  assert (Hf : fee_ok (mkFee 1000 3)) by (vm_compute; split; split; discriminate || reflexivity).
  assert (Ha : is_uint 64 999) by (vm_compute; split; discriminate || reflexivity).
  split; [exact Hf|]. split; [exact Ha|]. exact (fee_apply_correct (mkFee 1000 3) 999 Hf Ha).
Defined.

(** ** The cap on withdrawal fee increases *)

(** The old fee the increase is measured against. *)
Definition withdrawal_reference (old : Fee) : Fee :=
  if (denominator old =? 0) || (numerator old =? 0) then WITHDRAWAL_BASELINE_FEE else old.

Lemma withdrawal_reference_ok old : fee_ok old -> fee_ok (withdrawal_reference old).
Proof.
  intros H. unfold withdrawal_reference. destruct (_ || _); [|done].
  split; unfold is_uint; simpl; lia.
Qed.

Lemma check_withdrawal_unfold self old :
  fee_ok self -> fee_ok old ->
  let r := withdrawal_reference old in
  check_withdrawal self old =
    err_if (option_u128_lt (checked_mul 128 (numerator r * denominator self) 3)
                           (checked_mul 128 (numerator self * denominator r) 2))
           FeeIncreaseTooHigh.
Proof.
  intros Hs Ho. pose proof (withdrawal_reference_ok old Ho) as Hr. simpl.
  unfold check_withdrawal. unfold withdrawal_reference in *.
  destruct Hs as [Hsd Hsn]. destruct (_ || _); destruct Hr as [Hrd Hrn];
    rewrite !u64_checked_mul_u128 by done; done.
Qed.

(** Exactly when a new withdrawal fee is accepted.  The second disjunct is the
    intended ratio test; the first is the overflow of the right-hand product. *)
Lemma check_withdrawal_iff self old :
  fee_ok self -> fee_ok old ->
  let r := withdrawal_reference old in
  check_withdrawal self old = Ok tt <->
    2 ^ 128 <= numerator self * denominator r * 2 \/
    (numerator r * denominator self * 3 < 2 ^ 128 /\
     numerator self * denominator r * 2 <= numerator r * denominator self * 3).
Proof.
  intros Hs Ho. cbv zeta. rewrite check_withdrawal_unfold by done. rewrite err_if_Ok.
  unfold checked_mul.
  destruct (Z.ltb_spec (numerator (withdrawal_reference old) * denominator self * 3) (2 ^ 128)),
    (Z.ltb_spec (numerator self * denominator (withdrawal_reference old) * 2) (2 ^ 128));
    simpl; split; intros; bool_props; try done; lia.
Qed.



(** the cap can be bypassed.  From an old fee of 1/(2^64-1) the check
    accepts a new fee of 100%, because the right-hand product overflows to
    [None] and no [Some] is smaller than [None]; [check_too_high] accepts that
    fee too. *)
Theorem check_withdrawal_overflow_bypass :
  let old := mkFee (2 ^ 64 - 1) 1 in
  let new := mkFee (2 ^ 64 - 1) (2 ^ 64 - 1) in
  check_withdrawal new old = Ok tt /\
  check_too_high (StakeWithdrawalFee new) = Ok tt /\
  3 * numerator old * denominator new < 2 * numerator new * denominator old.
Proof. split_and!; vm_compute; reflexivity. Qed.

(** ** Epoch countdown *)

(** The value a countdown yields after [n] epoch boundaries have passed. *)
Fixpoint epochs_later {T} (n : nat) (fe : FutureEpoch T) : FutureEpoch T :=
  match n with O => fe | S n => epochs_later n (update_epoch fe) end.

Lemma epochs_later_None {T} n : epochs_later n (@FENone T) = FENone.
Proof. induction n; simpl; auto. Qed.

(** a value stored with [FutureEpoch::new] is delivered by [get] after
    exactly one epoch update: not before, and never again afterwards. *)
Theorem future_epoch_delivery {T} (v : T) n w :
  future_get (epochs_later n (future_new v)) = Some w <-> n = 1%nat /\ w = v.
Proof.
  destruct n as [|[|n]]; simpl; [naive_solver|naive_solver|].
  rewrite epochs_later_None. naive_solver.
Qed.
