(* ===== verification/Pool.v ===== *)
(** * The [StakePool] record and its share arithmetic (src/program/src/state.rs)

    The account state of a pool, the conversions between lamports and pool
    tokens, and [update_fee].  The theorems show that the conversions round
    against the mover: no deposit, withdrawal or epoch fee ever lowers the
    value of a pool token for the other holders. *)

From S2P Require Import Prelude Errors Fees.

(** ** Data *)

(** [enum AccountType] *)
Inductive AccountType := Uninitialized | StakePoolType | ValidatorListType.
#[export] Instance AccountType_eq_dec : EqDecision AccountType.
Proof. solve_decision. Defined.

(** [stake::state::Lockup], a field of the pool; the program compares it and
    resets it to its default. *)
Record Lockup := mkLockup { unix_timestamp : Z; lockup_epoch : Z; custodian : Pubkey }.
#[export] Instance Lockup_eq_dec : EqDecision Lockup.
Proof. solve_decision. Defined.
Definition lockup_default : Lockup := mkLockup 0 0 pubkey_default.

(** [struct StakePool] *)
Record StakePool := mkStakePool {
  account_type : AccountType;
  manager : Pubkey;
  staker : Pubkey;
  stake_deposit_authority : Pubkey;
  stake_withdraw_bump_seed : Z;
  validator_list : Pubkey;
  reserve_stake : Pubkey;
  pool_mint : Pubkey;
  manager_fee_account : Pubkey;
  token_program_id : Pubkey;
  total_lamports : Z;
  pool_token_supply : Z;
  last_update_epoch : Z;
  lockup : Lockup;
  epoch_fee : Fee;
  next_epoch_fee : FutureEpoch Fee;
  preferred_deposit_validator_vote_address : option Pubkey;
  preferred_withdraw_validator_vote_address : option Pubkey;
  stake_deposit_fee : Fee;
  stake_withdrawal_fee : Fee;
  next_stake_withdrawal_fee : FutureEpoch Fee;
  stake_referral_fee : Z;
  sol_deposit_authority : option Pubkey;
  sol_deposit_fee : Fee;
  sol_referral_fee : Z;
  sol_withdraw_authority : option Pubkey;
  sol_withdrawal_fee : Fee;
  next_sol_withdrawal_fee : FutureEpoch Fee;
  last_epoch_pool_token_supply : Z;
  last_epoch_total_lamports : Z;
}.

#[export] Instance StakePool_settable : Settable StakePool := fun p =>
  mkStakePool (account_type p) (manager p) (staker p) (stake_deposit_authority p)
    (stake_withdraw_bump_seed p) (validator_list p) (reserve_stake p) (pool_mint p)
    (manager_fee_account p) (token_program_id p) (total_lamports p) (pool_token_supply p)
    (last_update_epoch p) (lockup p) (epoch_fee p) (next_epoch_fee p)
    (preferred_deposit_validator_vote_address p) (preferred_withdraw_validator_vote_address p)
    (stake_deposit_fee p) (stake_withdrawal_fee p) (next_stake_withdrawal_fee p)
    (stake_referral_fee p) (sol_deposit_authority p) (sol_deposit_fee p) (sol_referral_fee p)
    (sol_withdraw_authority p) (sol_withdrawal_fee p) (next_sol_withdrawal_fee p)
    (last_epoch_pool_token_supply p) (last_epoch_total_lamports p).

#[export] Instance StakePool_eq_dec : EqDecision StakePool.
Proof. solve_decision. Defined.

(** [StakePool::default()] *)
Definition stake_pool_default : StakePool :=
  mkStakePool Uninitialized pubkey_default pubkey_default pubkey_default 0 pubkey_default
    pubkey_default pubkey_default pubkey_default pubkey_default 0 0 0 lockup_default
    fee_default FENone None None fee_default fee_default FENone 0 None fee_default 0 None
    fee_default FENone 0 0.

(** ** Operations *)
Section StakePool_impl.
Variable self : StakePool.

(** [calc_pool_tokens_for_deposit] *)
Definition calc_pool_tokens_for_deposit (stake_lamports : Z) : option Z :=
  if (total_lamports self =? 0) || (pool_token_supply self =? 0) then Some stake_lamports
  else
    m ← checked_mul 128 stake_lamports (pool_token_supply self);
    d ← checked_div m (total_lamports self);
    try_from 64 d.

(** [calc_lamports_withdraw_amount] *)
Definition calc_lamports_withdraw_amount (pool_tokens : Z) : option Z :=
  num ← checked_mul 128 pool_tokens (total_lamports self);
  let den := pool_token_supply self in
  if (num <? den) || (den =? 0) then Some 0
  else (d ← checked_div num den; try_from 64 d).

(** [calc_pool_tokens_stake_withdrawal_fee] *)
Definition calc_pool_tokens_stake_withdrawal_fee (pool_tokens : Z) : option Z :=
  v ← fee_apply (stake_withdrawal_fee self) pool_tokens; try_from 64 v.

(** [calc_pool_tokens_sol_withdrawal_fee] *)
Definition calc_pool_tokens_sol_withdrawal_fee (pool_tokens : Z) : option Z :=
  v ← fee_apply (sol_withdrawal_fee self) pool_tokens; try_from 64 v.

(** [calc_pool_tokens_stake_deposit_fee] *)
Definition calc_pool_tokens_stake_deposit_fee (pool_tokens_minted : Z) : option Z :=
  v ← fee_apply (stake_deposit_fee self) pool_tokens_minted; try_from 64 v.

(** [calc_pool_tokens_stake_referral_fee] *)
Definition calc_pool_tokens_stake_referral_fee (deposit_fee : Z) : option Z :=
  m ← checked_mul 128 deposit_fee (stake_referral_fee self);
  d ← checked_div m 100;
  try_from 64 d.

(** [calc_pool_tokens_sol_deposit_fee] *)
Definition calc_pool_tokens_sol_deposit_fee (pool_tokens_minted : Z) : option Z :=
  v ← fee_apply (sol_deposit_fee self) pool_tokens_minted; try_from 64 v.

(** [calc_pool_tokens_sol_referral_fee] *)
Definition calc_pool_tokens_sol_referral_fee (deposit_fee : Z) : option Z :=
  m ← checked_mul 128 deposit_fee (sol_referral_fee self);
  d ← checked_div m 100;
  try_from 64 d.

(** [calc_epoch_fee_amount] *)
Definition calc_epoch_fee_amount (reward_lamports : Z) : option Z :=
  if reward_lamports =? 0 then Some 0
  else
    total ← checked_add 128 (total_lamports self) reward_lamports;
    fee_lamports ← fee_apply (epoch_fee self) reward_lamports;
    if (total =? fee_lamports) || (pool_token_supply self =? 0) then Some reward_lamports
    else
      m ← checked_mul 128 (pool_token_supply self) fee_lamports;
      s ← checked_sub total fee_lamports;
      d ← checked_div m s;
      try_from 64 d.

(** [get_lamports_per_pool_token] *)
Definition get_lamports_per_pool_token : option Z :=
  a ← checked_add 64 (total_lamports self) (pool_token_supply self);
  b ← checked_sub a 1;
  checked_div b (pool_token_supply self).

(** [is_valid] and [is_uninitialized] *)
Definition pool_is_valid : bool := bool_decide (account_type self = StakePoolType).
Definition pool_is_uninitialized : bool := bool_decide (account_type self = Uninitialized).

(** [update_fee] *)
Definition update_fee (fee : FeeType) : result StakePoolError StakePool :=
  match fee with
  | SolReferral new_fee => Ok (self <| sol_referral_fee := new_fee |>)
  | StakeReferral new_fee => Ok (self <| stake_referral_fee := new_fee |>)
  | EpochFee new_fee => Ok (self <| next_epoch_fee := future_new new_fee |>)
  | StakeWithdrawalFee new_fee =>
      check_withdrawal new_fee (stake_withdrawal_fee self);;
      Ok (self <| next_stake_withdrawal_fee := future_new new_fee |>)
  | SolWithdrawalFee new_fee =>
      check_withdrawal new_fee (sol_withdrawal_fee self);;
      Ok (self <| next_sol_withdrawal_fee := future_new new_fee |>)
  | SolDepositFee new_fee => Ok (self <| sol_deposit_fee := new_fee |>)
  | StakeDepositFee new_fee => Ok (self <| stake_deposit_fee := new_fee |>)
  end.
End StakePool_impl.

(** ** Type invariant *)

Definition future_forall {T} (P : T -> Prop) (fe : FutureEpoch T) : Prop :=
  match fe with FENone => True | FEOne v | FETwo v => P v end.

(** Every integer field fits its width. *)
Record pool_typed (p : StakePool) : Prop := {
  pt_bump : is_uint 8 (stake_withdraw_bump_seed p);
  pt_total : is_uint 64 (total_lamports p);
  pt_supply : is_uint 64 (pool_token_supply p);
  pt_epoch : is_uint 64 (last_update_epoch p);
  pt_lockup_ts : - 2 ^ 63 <= unix_timestamp (lockup p) < 2 ^ 63;
  pt_lockup_epoch : is_uint 64 (lockup_epoch (lockup p));
  pt_epoch_fee : fee_ok (epoch_fee p);
  pt_next_epoch_fee : future_forall fee_ok (next_epoch_fee p);
  pt_stake_deposit_fee : fee_ok (stake_deposit_fee p);
  pt_stake_withdrawal_fee : fee_ok (stake_withdrawal_fee p);
  pt_next_stake_withdrawal_fee : future_forall fee_ok (next_stake_withdrawal_fee p);
  pt_stake_referral : is_uint 8 (stake_referral_fee p);
  pt_sol_deposit_fee : fee_ok (sol_deposit_fee p);
  pt_sol_referral : is_uint 8 (sol_referral_fee p);
  pt_sol_withdrawal_fee : fee_ok (sol_withdrawal_fee p);
  pt_next_sol_withdrawal_fee : future_forall fee_ok (next_sol_withdrawal_fee p);
  pt_last_supply : is_uint 64 (last_epoch_pool_token_supply p);
  pt_last_total : is_uint 64 (last_epoch_total_lamports p);
}.

(** No fee exceeds 100%, neither the current ones nor the pending ones. *)
Record pool_fees_valid (p : StakePool) : Prop := {
  fv_epoch : fee_at_most_one (epoch_fee p);
  fv_next_epoch : future_forall fee_at_most_one (next_epoch_fee p);
  fv_stake_deposit : fee_at_most_one (stake_deposit_fee p);
  fv_stake_withdrawal : fee_at_most_one (stake_withdrawal_fee p);
  fv_next_stake_withdrawal : future_forall fee_at_most_one (next_stake_withdrawal_fee p);
  fv_stake_referral : stake_referral_fee p <= 100;
  fv_sol_deposit : fee_at_most_one (sol_deposit_fee p);
  fv_sol_referral : sol_referral_fee p <= 100;
  fv_sol_withdrawal : fee_at_most_one (sol_withdrawal_fee p);
  fv_next_sol_withdrawal : future_forall fee_at_most_one (next_sol_withdrawal_fee p);
}.
#[export] Hint Resolve pt_total pt_supply pt_epoch_fee pt_stake_deposit_fee
  pt_stake_withdrawal_fee pt_sol_deposit_fee pt_sol_withdrawal_fee : pool.
#[export] Hint Resolve fv_epoch fv_stake_deposit fv_stake_withdrawal fv_sol_deposit
  fv_sol_withdrawal : pool.

(** ** Conversions are exact floors *)

Lemma calc_pool_tokens_for_deposit_Some self d t :
  pool_typed self -> is_uint 64 d ->
  calc_pool_tokens_for_deposit self d = Some t <->
    (total_lamports self = 0 \/ pool_token_supply self = 0) /\ t = d \/
    0 < total_lamports self /\ 0 < pool_token_supply self /\
      t = d * pool_token_supply self / total_lamports self /\ t < 2 ^ 64.
Proof.
  intros Hp Hd. pose proof (pt_total _ Hp) as HL. pose proof (pt_supply _ Hp) as HS.
  unfold calc_pool_tokens_for_deposit.
  rewrite u64_checked_mul_u128 by done. cbn [mbind option_bind].
  destruct (Z.eqb_spec (total_lamports self) 0), (Z.eqb_spec (pool_token_supply self) 0);
    cbn [orb]; [naive_solver lia..|].
  rewrite checked_div_fits by done. cbn [mbind option_bind]. rewrite try_from_Some.
  unfold is_uint in *. split; [intros [-> ?]; right; lia|intros [[? ?]|?]; lia].
Qed.

Lemma calc_pool_tokens_for_deposit_typed self d t :
  pool_typed self -> is_uint 64 d -> calc_pool_tokens_for_deposit self d = Some t ->
  is_uint 64 t.
Proof.
  intros Hp Hd [[_ ->]|(? & ? & -> & ?)]%calc_pool_tokens_for_deposit_Some; [done| |done|done].
  split; [|done]. apply Z.div_pos; [|done]. unfold is_uint in Hd. nia.
Qed.

(** The value of a withdrawal of at most the whole supply never overflows. *)
Lemma calc_lamports_withdraw_amount_total self t :
  pool_typed self -> 0 <= t <= pool_token_supply self ->
  calc_lamports_withdraw_amount self t =
    Some (if pool_token_supply self =? 0 then 0
          else t * total_lamports self / pool_token_supply self).
Proof.
  intros Hp Ht. pose proof (pt_total _ Hp) as HL. pose proof (pt_supply _ Hp) as HS.
  unfold calc_lamports_withdraw_amount. unfold is_uint in *.
  rewrite u64_checked_mul_u128 by (unfold is_uint; lia). cbn [mbind option_bind].
  destruct (Z.eqb_spec (pool_token_supply self) 0) as [E|E]; [by rewrite orb_true_r|].
  rewrite orb_false_r. destruct (Z.ltb_spec (t * total_lamports self) (pool_token_supply self)).
  - rewrite Z.div_small by nia. done.
  - rewrite checked_div_fits by done. cbn [mbind option_bind]. apply try_from_fits.
    apply Z.div_lt_upper_bound; nia.
Qed.

Lemma calc_lamports_withdraw_amount_mul self t w :
  pool_typed self -> is_uint 64 t -> calc_lamports_withdraw_amount self t = Some w ->
  0 <= w < 2 ^ 64 /\ w * pool_token_supply self <= t * total_lamports self.
Proof.
  intros Hp Ht. pose proof (pt_total _ Hp) as HL. pose proof (pt_supply _ Hp) as HS.
  unfold calc_lamports_withdraw_amount. rewrite u64_checked_mul_u128 by done.
  cbn [mbind option_bind]. intros Hw. unfold is_uint in *.
  assert (0 <= t * total_lamports self) by nia. inv_ok Hw; [lia|]. bool_props.
  pose proof (div_bounds (t * total_lamports self) (pool_token_supply self) ltac:(lia)).
  split; [|lia]. split; [apply Z.div_pos; lia|done].
Qed.

(** ** Value of a share *)

(** [price_le p q]: a pool token is worth at least as much in [q] as in [p],
    that is [total p / supply p <= total q / supply q], multiplied out. *)
Definition price_le (p q : StakePool) : Prop :=
  total_lamports p * pool_token_supply q <= total_lamports q * pool_token_supply p.

(** The pool after a deposit of [d] lamports that minted [t] tokens, and after
    burning [t] tokens for [w] lamports. *)
Definition after_deposit (p : StakePool) (d t : Z) : StakePool :=
  p <| total_lamports := total_lamports p + d |> <| pool_token_supply := pool_token_supply p + t |>.
Definition after_withdraw (p : StakePool) (t w : Z) : StakePool :=
  p <| total_lamports := total_lamports p - w |> <| pool_token_supply := pool_token_supply p - t |>.

Lemma deposit_price_le p d t :
  pool_typed p -> is_uint 64 d -> 0 < pool_token_supply p ->
  calc_pool_tokens_for_deposit p d = Some t -> price_le p (after_deposit p d t).
Proof.
  intros Hp Hd HS Ht. apply calc_pool_tokens_for_deposit_Some in Ht; [|done..].
  pose proof (pt_total _ Hp). unfold price_le, is_uint in *. simpl.
  destruct Ht as [[[E|E] ->]|(? & ? & -> & ?)]; [nia|lia|].
  pose proof (div_bounds (d * pool_token_supply p) (total_lamports p) ltac:(lia)). nia.
Qed.

Lemma withdraw_price_le p t w :
  pool_typed p -> is_uint 64 t ->
  calc_lamports_withdraw_amount p t = Some w -> price_le p (after_withdraw p t w).
Proof.
  intros Hp Ht Hw. apply calc_lamports_withdraw_amount_mul in Hw as [? ?]; [|done..].
  unfold price_le. simpl. nia.
Qed.

Lemma price_le_trans p q r :
  0 < pool_token_supply q -> 0 <= pool_token_supply p -> 0 <= pool_token_supply r ->
  price_le p q -> price_le q r -> price_le p r.
Proof. unfold price_le. intros ? ? ? H1 H2. nia. Qed.

(** ** Epoch fee *)

Definition after_reward (p : StakePool) (r f : Z) : StakePool :=
  p <| total_lamports := total_lamports p + r |> <| pool_token_supply := pool_token_supply p + f |>.

(** The tokens minted as epoch fee, when the pool is not empty. *)
Lemma calc_epoch_fee_amount_cases p r f :
  pool_typed p -> pool_fees_valid p -> is_uint 64 r ->
  calc_epoch_fee_amount p r = Some f ->
  exists F, fee_apply (epoch_fee p) r = Some F /\ 0 <= F <= r /\ 0 <= f < 2 ^ 64 /\
    (r = 0 /\ f = 0 \/
     (total_lamports p = 0 /\ F = r \/ pool_token_supply p = 0) /\ f = r \/
     0 < total_lamports p + r - F /\ 0 < pool_token_supply p /\
       f = pool_token_supply p * F / (total_lamports p + r - F)).
Proof.
  intros Hp Hv Hr. pose proof (pt_total _ Hp). pose proof (pt_supply _ Hp).
  destruct (fee_apply_bounded (epoch_fee p) r (pt_epoch_fee _ Hp) Hr (fv_epoch _ Hv)) as (F & HF & Hle).
  unfold calc_epoch_fee_amount, is_uint in *.
  rewrite HF. destruct (Z.eqb_spec r 0) as [->|Hr0].
  { intros [=<-]. exists F. split_and!; try lia; auto. }
  rewrite checked_add_fits by lia. cbn [mbind option_bind].
  destruct (Z.eqb_spec (total_lamports p + r) F), (Z.eqb_spec (pool_token_supply p) 0);
    cbn [orb]; intros Hf; [inv_ok Hf; exists F; split_and!; try done; try lia..|].
  inv_ok Hf. exists F. split_and!; try done; try lia.
  apply Z.div_pos; nia.
Qed.

(** The epoch fee tokens are worth at most the (rounded-up) fee in lamports, and
    minting them does not lower the value of the tokens held before. *)
Lemma reward_price_le p r f :
  pool_typed p -> pool_fees_valid p -> is_uint 64 r -> 0 < pool_token_supply p ->
  calc_epoch_fee_amount p r = Some f -> price_le p (after_reward p r f).
Proof.
  intros Hp Hv Hr HS Hf. pose proof (pt_total _ Hp).
  destruct (calc_epoch_fee_amount_cases p r f Hp Hv Hr Hf) as (F & _ & HF & Hf0 & Hc).
  unfold price_le, is_uint in *. simpl.
  destruct Hc as [[-> ->]|[[[[-> ->]|?] ->]|(Hpos & _ & ->)]]; [nia|nia|lia|].
  pose proof (div_bounds (pool_token_supply p * F) (total_lamports p + r - F) Hpos) as Hd.
  set (q := _ / _) in *.
  assert (total_lamports p * F <= r * (total_lamports p + r - F)) by nia.
  assert (total_lamports p * q <= r * pool_token_supply p)
    by (apply (mul_le_compose (total_lamports p + r - F) F); lia).
  lia.
Qed.

(** ** The ledger: what deposits, withdrawals and rewards do to the totals *)

Inductive ledger_step : StakePool -> StakePool -> Prop :=
| LedgerDeposit p d t :
    is_uint 64 d -> calc_pool_tokens_for_deposit p d = Some t ->
    total_lamports p + d < 2 ^ 64 -> pool_token_supply p + t < 2 ^ 64 ->
    ledger_step p (after_deposit p d t)
| LedgerWithdraw p t w :
    is_uint 64 t -> calc_lamports_withdraw_amount p t = Some w ->
    w <= total_lamports p -> t <= pool_token_supply p ->
    ledger_step p (after_withdraw p t w)
| LedgerReward p r f :
    is_uint 64 r -> calc_epoch_fee_amount p r = Some f ->
    total_lamports p + r < 2 ^ 64 -> pool_token_supply p + f < 2 ^ 64 ->
    ledger_step p (after_reward p r f).

(** A step between two states in which somebody holds pool tokens. *)
Definition live_step (p q : StakePool) : Prop :=
  ledger_step p q /\ 0 < pool_token_supply p /\ 0 < pool_token_supply q.

(** Changing only the two totals keeps the type invariant and the fee bounds. *)
Lemma pool_typed_totals p L S :
  pool_typed p -> is_uint 64 L -> is_uint 64 S ->
  pool_typed (p <| total_lamports := L |> <| pool_token_supply := S |>).
Proof. intros [] ? ?. constructor; done. Qed.

Lemma pool_fees_valid_totals p L S :
  pool_fees_valid p -> pool_fees_valid (p <| total_lamports := L |> <| pool_token_supply := S |>).
Proof. intros []. constructor; done. Qed.

Lemma ledger_step_preserves p q :
  ledger_step p q -> pool_typed p -> pool_fees_valid p -> pool_typed q /\ pool_fees_valid q.
Proof.
  intros Hs Hp Hv. pose proof (pt_total _ Hp). pose proof (pt_supply _ Hp).
  destruct Hs as [p d t Hd Ht ? ?|p t w Ht Hw ? ?|p r f Hr Hf ? ?];
    (split; [apply pool_typed_totals|apply pool_fees_valid_totals]; try done); unfold is_uint in *.
  - lia.
  - pose proof (calc_pool_tokens_for_deposit_typed p d t Hp Hd Ht). unfold is_uint in *. lia.
  - pose proof (calc_lamports_withdraw_amount_mul p t w Hp Ht Hw). lia.
  - lia.
  - lia.
  - destruct (calc_epoch_fee_amount_cases p r f Hp Hv Hr Hf) as (? & ? & ? & ? & ?). lia.
Qed.

Lemma live_step_price_le p q :
  live_step p q -> pool_typed p -> pool_fees_valid p -> price_le p q.
Proof.
  intros (Hs & HS & _) Hp Hv. destruct Hs.
  - by apply deposit_price_le.
  - by apply withdraw_price_le.
  - by apply reward_price_le.
Qed.

Lemma live_steps_price_le p q :
  rtc live_step p q -> pool_typed p -> pool_fees_valid p -> 0 < pool_token_supply p ->
  price_le p q /\ 0 < pool_token_supply q.
Proof.
  induction 1 as [p|p q r Hpq _ IH]; intros Hp Hv HS; [by unfold price_le|].
  destruct (ledger_step_preserves p q (proj1 Hpq) Hp Hv) as [Hq Hvq].
  pose proof (live_step_price_le p q Hpq Hp Hv). destruct Hpq as (_ & _ & HSq).
  destruct (IH Hq Hvq HSq) as [Hqr HSr]. split; [|done].
  eapply (price_le_trans p q r); auto; lia.
Qed.

(** C28: no dilution.  Along any sequence of deposits, withdrawals and reward
    updates during which the pool has token holders, the value of a pool token
    never decreases; so a sequence that returns the token supply to where it
    was cannot have taken lamports out of the pool. *)
Theorem no_dilution p q :
  rtc live_step p q -> pool_typed p -> pool_fees_valid p -> 0 < pool_token_supply p ->
  price_le p q /\
  (pool_token_supply q = pool_token_supply p -> total_lamports p <= total_lamports q).
Proof.
  intros Hs Hp Hv HS. destruct (live_steps_price_le p q Hs Hp Hv HS) as [Hle _].
  split; [done|]. unfold price_le in Hle. intros E. rewrite E in Hle. nia.
Qed.

(** A pool with [L] lamports and [S] tokens and otherwise default fields. *)
Definition pool_with_totals (L S : Z) : StakePool :=
  stake_pool_default <| total_lamports := L |> <| pool_token_supply := S |>.

Lemma pool_with_totals_typed L S :
  is_uint 64 L -> is_uint 64 S -> pool_typed (pool_with_totals L S).
Proof.
  intros. apply pool_typed_totals; [|done..].
  constructor; unfold fee_ok, is_uint; simpl; auto; lia.
Qed.

Lemma pool_with_totals_fees L S : pool_fees_valid (pool_with_totals L S).
Proof. constructor; unfold fee_at_most_one; simpl; auto; lia. Qed.

Lemma no_dilution_witness :
  let p := pool_with_totals 11 10 in
  let q := after_withdraw (after_deposit p 3 2) 2 2 in
  pool_typed p /\ pool_fees_valid p /\ rtc live_step p q /\
  price_le p q /\ (pool_token_supply q = pool_token_supply p -> total_lamports p <= total_lamports q).
Proof.
  intros p q.
  assert (Hp : pool_typed p) by (apply pool_with_totals_typed; unfold is_uint; lia).
  assert (Hv : pool_fees_valid p) by apply pool_with_totals_fees.
  assert (Hs : rtc live_step p q).
  { eapply rtc_l with (y := after_deposit p 3 2).
    { split; [|simpl; lia]. apply LedgerDeposit; [unfold is_uint|reflexivity|simpl..]; lia. }
    apply rtc_once. split; [|simpl; lia].
    apply LedgerWithdraw; [unfold is_uint|reflexivity|simpl..]; lia. }
  split; [exact Hp|]. split; [exact Hv|]. split; [exact Hs|].
  exact (no_dilution p q Hs Hp Hv eq_refl).
Defined.

(** What a deposit is worth when it is redeemed in two parts. *)
Lemma redeemed_at_most_deposited p d t a w1 w2 :
  pool_typed p -> is_uint 64 d -> 0 < pool_token_supply p ->
  total_lamports p + d < 2 ^ 64 -> pool_token_supply p + t < 2 ^ 64 ->
  calc_pool_tokens_for_deposit p d = Some t -> 0 <= a <= t ->
  calc_lamports_withdraw_amount (after_deposit p d t) a = Some w1 ->
  calc_lamports_withdraw_amount (after_withdraw (after_deposit p d t) a w1) (t - a) = Some w2 ->
  w1 + w2 <= d.
Proof.
  intros Hp Hd HS HL1 HS1 Ht Ha Hw1 Hw2.
  pose proof (calc_pool_tokens_for_deposit_typed p d t Hp Hd Ht) as Htt.
  pose proof (deposit_price_le p d t Hp Hd HS Ht) as H0.
  pose proof (pt_total _ Hp) as HL. unfold is_uint in HL, Hd, Htt.
  assert (Hp1 : pool_typed (after_deposit p d t))
    by (apply pool_typed_totals; unfold is_uint; lia || done).
  assert (Hau : is_uint 64 a) by (unfold is_uint; lia).
  pose proof (calc_lamports_withdraw_amount_mul _ a w1 Hp1 Hau Hw1) as [Hw1r H1].
  simpl in H1. unfold price_le in H0. simpl in H0.
  assert (Hb1 : w1 <= total_lamports p + d) by nia.
  assert (Hp2 : pool_typed (after_withdraw (after_deposit p d t) a w1))
    by (apply pool_typed_totals; simpl; unfold is_uint; lia || done).
  assert (Hbu : is_uint 64 (t - a)) by (unfold is_uint; lia).
  pose proof (calc_lamports_withdraw_amount_mul _ (t - a) w2 Hp2 Hbu Hw2) as [Hw2r H2].
  simpl in H2. set (L1 := total_lamports p + d) in *. set (S := pool_token_supply p) in *.
  assert (Hrem : (L1 - w1 - w2) * (S + t) >= L1 * S) by nia.
  assert (total_lamports p <= L1 - w1 - w2) by (apply (mul_cancel_le _ _ (S + t)); lia).
  lia.
Qed.

(** a depositor cannot profit.  The tokens minted for a deposit of [d]
    lamports, redeemed right away in two withdrawals of any sizes (one of them
    possibly zero), return at most [d] lamports in total. *)
Theorem deposit_withdraw_no_profit p d t a w1 w2 :
  pool_typed p -> is_uint 64 d -> 0 < pool_token_supply p ->
  total_lamports p + d < 2 ^ 64 -> pool_token_supply p + t < 2 ^ 64 ->
  calc_pool_tokens_for_deposit p d = Some t -> 0 <= a <= t ->
  calc_lamports_withdraw_amount (after_deposit p d t) a = Some w1 ->
  calc_lamports_withdraw_amount (after_withdraw (after_deposit p d t) a w1) (t - a) = Some w2 ->
  w1 + w2 <= d.
Proof. apply redeemed_at_most_deposited. Qed.

Lemma deposit_withdraw_no_profit_witness :
  let p := pool_with_totals 1100000000000 1000000000000 in
  calc_pool_tokens_for_deposit p 30 = Some 27 /\ 13 + 16 <= 30.
Proof.
  split; [reflexivity|].
  apply (deposit_withdraw_no_profit (pool_with_totals 1100000000000 1000000000000) 30 27 12 13 16);
    try reflexivity; try (unfold is_uint; simpl; lia).
  apply pool_with_totals_typed; unfold is_uint; lia.
Defined.

(** a withdrawal of at most the supply always has a value, which is the
    exact floor of the share, never exceeds what the pool holds, and is all of
    it when the whole supply is redeemed. *)
Theorem withdraw_amount_correct p t :
  pool_typed p -> 0 <= t <= pool_token_supply p ->
  exists w, calc_lamports_withdraw_amount p t = Some w /\ 0 <= w <= total_lamports p /\
    (0 < pool_token_supply p ->
       w * pool_token_supply p <= t * total_lamports p < (w + 1) * pool_token_supply p /\
       (t = pool_token_supply p -> w = total_lamports p)).
Proof.
  intros Hp Ht. pose proof (pt_total _ Hp) as HL. unfold is_uint in HL.
  eexists. split; [by apply calc_lamports_withdraw_amount_total|].
  destruct (Z.eqb_spec (pool_token_supply p) 0); [lia|].
  pose proof (div_bounds (t * total_lamports p) (pool_token_supply p) ltac:(lia)).
  set (w := _ / _) in *. split; [split; nia|]. intros _. split; [lia|]. intros ->. nia.
Qed.

Lemma withdraw_amount_correct_witness :
  exists w, calc_lamports_withdraw_amount (pool_with_totals 11 10) 10 = Some w /\ 0 <= w <= 11 /\
    (0 < 10 -> w * 10 <= 10 * 11 < (w + 1) * 10 /\ (10 = 10 -> w = 11)).
Proof.
  apply (withdraw_amount_correct (pool_with_totals 11 10) 10);
    [apply pool_with_totals_typed; unfold is_uint; lia|simpl; lia].
Defined.

(** the epoch fee.  For a pool with holders the minted fee tokens, valued
    after the update, are worth at most the fee in lamports rounded up, and the
    rewards net of the fee stay with the earlier holders. *)
Theorem epoch_fee_value p r f :
  pool_typed p -> pool_fees_valid p -> is_uint 64 r ->
  0 < total_lamports p -> 0 < pool_token_supply p ->
  calc_epoch_fee_amount p r = Some f ->
  exists F, fee_apply (epoch_fee p) r = Some F /\ 0 <= F <= r /\
    f * (total_lamports p + r) <= F * (pool_token_supply p + f) /\
    price_le p (after_reward p r f).
Proof.
  intros Hp Hv Hr HL HS Hf.
  pose proof (reward_price_le p r f Hp Hv Hr HS Hf).
  destruct (calc_epoch_fee_amount_cases p r f Hp Hv Hr Hf) as (F & HF & HFr & Hf0 & Hc).
  exists F. split_and!; try done; try lia.
  destruct Hc as [[-> ->]|[[[[? ?]|?] ->]|(Hpos & _ & ->)]]; [lia|lia|lia|].
  pose proof (div_bounds (pool_token_supply p * F) (total_lamports p + r - F) Hpos). lia.
Qed.

Lemma epoch_fee_value_witness :
  let p := pool_with_totals 1000 1000 <| epoch_fee := mkFee 10 1 |> in
  exists F, fee_apply (epoch_fee p) 100 = Some F /\ 0 <= F <= 100 /\
    9 * (total_lamports p + 100) <= F * (pool_token_supply p + 9) /\
    price_le p (after_reward p 100 9).
Proof.
  intros p. apply (epoch_fee_value p 100 9); try reflexivity; try (unfold is_uint; lia).
  - constructor; unfold fee_ok, is_uint; simpl; auto; lia.
  - constructor; unfold fee_at_most_one; simpl; auto; lia.
Defined.

(** the bound with the fee rounded down does not hold.  With 10 lamports,
    10 tokens, an epoch fee of one half and a reward of one lamport, the fee
    tokens are worth one lamport although half a lamport rounds down to zero. *)
Theorem epoch_fee_exceeds_floor :
  let p := pool_with_totals 10 10 <| epoch_fee := mkFee 2 1 |> in
  calc_epoch_fee_amount p 1 = Some 1 /\
  calc_lamports_withdraw_amount (after_reward p 1 1) 1 = Some 1 /\
  1 * numerator (epoch_fee p) / denominator (epoch_fee p) = 0.
Proof. split_and!; reflexivity. Qed.

(** ** [update_fee] *)

Definition fee_type_typed (ft : FeeType) : Prop :=
  match ft with
  | SolReferral pct | StakeReferral pct => is_uint 8 pct
  | EpochFee f | StakeWithdrawalFee f | SolWithdrawalFee f
  | SolDepositFee f | StakeDepositFee f => fee_ok f
  end.

Lemma check_too_high_Ok ft :
  check_too_high ft = Ok tt <->
  match ft with
  | SolReferral pct | StakeReferral pct => pct <= 100
  | EpochFee f | StakeWithdrawalFee f | SolWithdrawalFee f
  | SolDepositFee f | StakeDepositFee f => fee_at_most_one f
  end.
Proof.
  unfold check_too_high, fee_at_most_one. rewrite err_if_Ok.
  destruct ft; rewrite Z.ltb_ge; done.
Qed.

Lemma update_fee_typed p ft q :
  pool_typed p -> fee_type_typed ft -> update_fee p ft = Ok q -> pool_typed q.
Proof.
  intros Hp Hft Hq. destruct ft; simpl in Hq, Hft; inv_ok Hq;
    destruct Hp; constructor; done.
Qed.

Lemma update_fee_fees_valid p ft q :
  pool_fees_valid p -> check_too_high ft = Ok tt -> update_fee p ft = Ok q -> pool_fees_valid q.
Proof.
  intros Hp Hft Hq. apply check_too_high_Ok in Hft. destruct ft; simpl in Hq, Hft; inv_ok Hq;
    destruct Hp; constructor; done.
Qed.

(** [update_fee] touches the fee fields only. *)
Lemma update_fee_frame p ft q :
  update_fee p ft = Ok q ->
  total_lamports q = total_lamports p /\ pool_token_supply q = pool_token_supply p /\
  manager q = manager p /\ staker q = staker p /\ last_update_epoch q = last_update_epoch p /\
  epoch_fee q = epoch_fee p /\ stake_withdrawal_fee q = stake_withdrawal_fee p /\
  sol_withdrawal_fee q = sol_withdrawal_fee p.
Proof. intros Hq. destruct ft; simpl in Hq; inv_ok Hq; done. Qed.
