(* ===== verification/BigVec.v ===== *)
(** * [BigVec]: a vector inside an account's bytes (src/program/src/big_vec.rs)

    The operations work on the raw bytes, as the source does: a [u32] length in
    the first four bytes and the elements behind it.  [vec_rep] is the abstract
    specification (the bytes hold this list) and the theorems show that every
    operation implements the corresponding list operation. *)

From S2P Require Import Prelude Errors.

(** ** Element types

    [bytemuck::Pod]: values of a fixed non-zero size, interchangeable with the
    byte arrays of that size. *)
Class Pod (T : Type) := {
  size_of : nat;
  to_bytes : T -> list byte;
  of_bytes : list byte -> option T;
  size_of_pos : (0 < size_of)%nat;
  length_to_bytes x : length (to_bytes x) = size_of;
  of_to_bytes x : of_bytes (to_bytes x) = Some x;
  to_of_bytes l x : of_bytes l = Some x -> to_bytes x = l;
  of_bytes_total l : length l = size_of -> is_Some (of_bytes l);
}.
Arguments size_of T {_}.

Definition VEC_SIZE_BYTES : nat := 4.

(** The indices of [(a..b).step_by(n)]. *)
Definition step_by (a b n : nat) : list nat :=
  (fun i => (a + i * n)%nat) <$> seq 0 ((b - a + n - 1) / n)%nat.

(** [sol_memmove] inside one buffer. *)
Definition memmove (dst src n : nat) (d : list byte) : list byte :=
  splice dst (take n (drop src d)) d.

Section BigVec.
Context {T : Type} `{Pod T}.

(** [BigVec::len] *)
Definition vec_len (d : list byte) : presult Z :=
  l ← unwrap (slice 0 VEC_SIZE_BYTES d); Ok (le_decode l).

(** [BigVec::is_empty] *)
Definition vec_is_empty (d : list byte) : presult bool :=
  n ← vec_len d; Ok (n =? 0).

(** The loop state of [retain]. *)
Record retain_state := mkRetain {
  rs_data : list byte;
  rs_vec_len : Z;
  rs_removals : nat;
  rs_dst : nat;
}.

(** [self.data[dst..hi - gap]] takes the bytes [self.data[dst + gap..hi]]; the
    slice expressions panic outside the buffer. *)
Definition close_gap (d : list byte) (dst hi gap : nat) : presult (list byte) :=
  unwrap (slice dst (hi - gap) d);;
  unwrap (slice (dst + gap) hi d);;
  Ok (memmove dst (dst + gap) (hi - gap - dst) d).

(** One iteration of the loop of [retain]. *)
Definition retain_step (predicate : list byte -> presult bool) (st : retain_state)
    (start_index : nat) : presult retain_state :=
  let end_index := (start_index + size_of T)%nat in
  s ← unwrap (slice start_index end_index (rs_data st));
  keep ← predicate s;
  if (keep : bool) then Ok st
  else
    let gap := (rs_removals st * size_of T)%nat in
    d ← (if (0 <? rs_removals st)%nat then close_gap (rs_data st) (rs_dst st) start_index gap
         else Ok (rs_data st));
    Ok (mkRetain d (rs_vec_len st - 1) (S (rs_removals st)) (start_index - gap)).

Fixpoint retain_loop (predicate : list byte -> presult bool) (idxs : list nat)
    (st : retain_state) : presult retain_state :=
  match idxs with
  | [] => Ok st
  | i :: idxs => st ← retain_step predicate st i; retain_loop predicate idxs st
  end.

(** [BigVec::retain]: the new contents of the buffer. *)
Definition vec_retain (predicate : list byte -> presult bool) (d : list byte)
    : presult (list byte) :=
  n ← vec_len d;
  let data_start_index := VEC_SIZE_BYTES in
  let data_end_index :=
    Z.to_nat (saturating_add 64 (Z.of_nat data_start_index)
                (saturating_mul 64 n (Z.of_nat (size_of T)))) in
  st ← retain_loop predicate (step_by data_start_index data_end_index (size_of T))
         (mkRetain d n 0 0);
  d ← (if (0 <? rs_removals st)%nat
       then close_gap (rs_data st) (rs_dst st) data_end_index (rs_removals st * size_of T)
       else Ok (rs_data st));
  unwrap (slice 0 VEC_SIZE_BYTES d);;
  Ok (splice 0 (le_encode VEC_SIZE_BYTES (rs_vec_len st)) d).

(** Elements of a byte range: [bytemuck::try_cast_slice]. *)
Fixpoint cast_slice (n : nat) (bs : list byte) : option (list T) :=
  match n with
  | O => match bs with [] => Some [] | _ => None end
  | S n =>
      x ← of_bytes (take (size_of T) bs);
      xs ← cast_slice n (drop (size_of T) bs);
      Some (x :: xs)
  end.

(** [BigVec::deserialize_slice] and [deserialize_mut_slice]: the elements and
    the offset where they start (where the mutable slice writes back). *)
Definition deserialize_mut_slice (skip len : Z) (d : list byte) : presult (nat * list T) :=
  n ← vec_len d;
  last_item_index ← ok_or AccountDataTooSmall (checked_add 64 skip len);
  err_if (n <? last_item_index) AccountDataTooSmall;;
  let sz := Z.of_nat (size_of T) in
  let start_index := saturating_add 64 (Z.of_nat VEC_SIZE_BYTES) (saturating_mul 64 skip sz) in
  let end_index := saturating_add 64 start_index (saturating_mul 64 len sz) in
  bs ← unwrap (slice (Z.to_nat start_index) (Z.to_nat end_index) d);
  xs ← ok_or InvalidAccountData (cast_slice (Z.to_nat len) bs);
  Ok (Z.to_nat start_index, xs).

Definition deserialize_slice (skip len : Z) (d : list byte) : presult (list T) :=
  snd <$> deserialize_mut_slice skip len d.

(** [BigVec::push]: the buffer it leaves and its result.  The length is
    written before the room is checked. *)
Definition vec_push (element : T) (d : list byte) : list byte * presult unit :=
  match slice 0 VEC_SIZE_BYTES d with
  | None => (d, Panic)
  | Some l =>
      let n := le_decode l in
      let start_index := (VEC_SIZE_BYTES + Z.to_nat n * size_of T)%nat in
      let end_index := (start_index + size_of T)%nat in
      let d := splice 0 (le_encode VEC_SIZE_BYTES ((n + 1) mod 2 ^ 32)) d in
      if (length d <? end_index)%nat then (d, Err AccountDataTooSmall)
      else (splice start_index (to_bytes element) d, Ok tt)
  end.

(** The [while] loop of [find] and [find_mut]: [k] elements remain and the
    next one starts at [current_index]. *)
Fixpoint find_loop (predicate : list byte -> presult bool) (d : list byte) (k : nat)
    (current_index : nat) : presult (option (nat * T)) :=
  match k with
  | O => Ok None
  | S k =>
      let end_index := (current_index + size_of T)%nat in
      s ← unwrap (slice current_index end_index d);
      b ← predicate s;
      if (b : bool) then (x ← unwrap (of_bytes s); Ok (Some (current_index, x)))
      else find_loop predicate d k end_index
  end.

(** [BigVec::find_mut]: the element found and its offset, where an assignment
    through the reference writes. *)
Definition vec_find_mut (predicate : list byte -> presult bool) (d : list byte)
    : presult (option (nat * T)) :=
  n ← vec_len d; find_loop predicate d (Z.to_nat n) VEC_SIZE_BYTES.

(** [BigVec::find] *)
Definition vec_find (predicate : list byte -> presult bool) (d : list byte)
    : presult (option T) :=
  option_map snd <$> vec_find_mut predicate d.

(** [*r = x] for a reference into the buffer at [offset]. *)
Definition vec_assign (offset : nat) (x : T) (d : list byte) : list byte :=
  splice offset (to_bytes x) d.
End BigVec.
Arguments retain_state : clear implicits.

(** ** Abstract specification *)
Section BigVec_spec.
Context {T : Type} `{Pod T}.
Implicit Types (xs : list T) (d : list byte) (P : T -> bool).

(** The elements as they lie in the buffer. *)
Definition vec_bytes xs : list byte := concat (to_bytes <$> xs).

(** The buffer [d] holds the vector [xs] (and whatever lies behind it). *)
Definition vec_rep xs d : Prop :=
  exists rest, d = le_encode VEC_SIZE_BYTES (Z.of_nat (length xs)) ++ vec_bytes xs ++ rest /\
    Z.of_nat (length xs) < 2 ^ 32 /\ Z.of_nat (length d) < 2 ^ 63.

(** A byte-level predicate that decides [P] on the encodings of elements. *)
Definition decides (predicate : list byte -> presult bool) P : Prop :=
  forall x, predicate (to_bytes x) = Ok (P x).

Lemma vec_bytes_app xs ys : vec_bytes (xs ++ ys) = vec_bytes xs ++ vec_bytes ys.
Proof. unfold vec_bytes. by rewrite fmap_app, concat_app. Qed.

Lemma vec_bytes_cons x xs : vec_bytes (x :: xs) = to_bytes x ++ vec_bytes xs.
Proof. done. Qed.

Lemma length_vec_bytes xs : length (vec_bytes xs) = (length xs * size_of T)%nat.
Proof.
  induction xs as [|x xs IH]; [done|].
  rewrite vec_bytes_cons, length_app, length_to_bytes, IH. simpl. lia.
Qed.

Lemma le_decode_len (n : nat) :
  Z.of_nat n < 2 ^ 32 -> le_decode (le_encode VEC_SIZE_BYTES (Z.of_nat n)) = Z.of_nat n.
Proof. intros. apply le_decode_encode. unfold VEC_SIZE_BYTES. lia. Qed.

Lemma slice_header n rest :
  slice 0 VEC_SIZE_BYTES (le_encode VEC_SIZE_BYTES n ++ rest) = Some (le_encode VEC_SIZE_BYTES n).
Proof. apply (slice_app' []); by rewrite ?length_le_encode. Qed.

Lemma vec_len_rep xs d : vec_rep xs d -> vec_len d = Ok (Z.of_nat (length xs)).
Proof.
  intros (rest & -> & Hn & _). unfold vec_len. rewrite slice_header. simpl.
  by rewrite le_decode_len.
Qed.

(** The vector of a buffer is unique. *)
Lemma vec_bytes_inj xs ys r1 r2 :
  length xs = length ys -> vec_bytes xs ++ r1 = vec_bytes ys ++ r2 -> xs = ys.
Proof.
  revert ys. induction xs as [|x xs IH]; intros [|y ys] Hl; [done|done|done|].
  rewrite !vec_bytes_cons, <- !app_assoc. intros He.
  apply app_inj_1 in He as [Hxy He]; [|by rewrite !length_to_bytes].
  injection Hl as Hl. apply IH in He as <-; [|done]. f_equal.
  apply (f_equal of_bytes) in Hxy. rewrite !of_to_bytes in Hxy. by injection Hxy.
Qed.

Lemma vec_rep_fun xs ys d : vec_rep xs d -> vec_rep ys d -> xs = ys.
Proof.
  intros Hx Hy. pose proof (vec_len_rep _ _ Hx) as Lx. rewrite (vec_len_rep _ _ Hy) in Lx.
  injection Lx as Lx. destruct Hx as (r1 & -> & _), Hy as (r2 & He & _).
  apply app_inj_1 in He as [_ He]; [|by rewrite !length_le_encode].
  eapply vec_bytes_inj; [lia|done].
Qed.

(** [find] *)
Lemma find_loop_rep predicate P p xs rest :
  decides predicate P ->
  find_loop (T:=T) predicate (p ++ vec_bytes xs ++ rest) (length xs) (length p) =
    Ok ((fun '(i, x) => ((length p + i * size_of T)%nat, x)) <$> list_find (fun x => P x = true) xs).
Proof.
  intros Hd. revert p. induction xs as [|x xs IH]; intros p; [done|].
  cbn [length find_loop]. rewrite vec_bytes_cons, <- app_assoc.
  rewrite (slice_app' p (to_bytes x)) by (rewrite ?length_to_bytes; done).
  cbn [unwrap mbind result_bind]. rewrite Hd. cbn [mbind result_bind].
  cbn [list_find]. destruct (P x) eqn:HP.
  - rewrite of_to_bytes. cbn [unwrap mbind result_bind].
    rewrite decide_True by done. simpl. by rewrite Nat.add_0_r.
  - rewrite decide_False by done.
    specialize (IH (p ++ to_bytes x)). rewrite <- app_assoc, length_app, length_to_bytes in IH.
    rewrite IH. f_equal. rewrite <- !option_fmap_compose.
    destruct (list_find _ xs) as [[i y]|]; simpl; [|done]. do 2 f_equal. lia.
Qed.

Lemma vec_find_mut_rep predicate P xs d :
  vec_rep xs d -> decides predicate P ->
  vec_find_mut predicate d =
    Ok ((fun '(i, x) => ((VEC_SIZE_BYTES + i * size_of T)%nat, x)) <$>
          list_find (fun x => P x = true) xs).
Proof.
  intros Hr Hd. unfold vec_find_mut. rewrite (vec_len_rep _ _ Hr). cbn [mbind result_bind].
  destruct Hr as (rest & -> & _). rewrite Nat2Z.id.
  pose proof (find_loop_rep predicate P
    (le_encode VEC_SIZE_BYTES (Z.of_nat (length xs))) xs rest Hd) as Hf.
  by rewrite length_le_encode in Hf.
Qed.

(** Writing through a reference returned by [find_mut]. *)
Lemma vec_assign_rep xs d i x y :
  vec_rep xs d -> xs !! i = Some x ->
  vec_rep (<[i:=y]> xs) (vec_assign (VEC_SIZE_BYTES + i * size_of T) y d).
Proof.
  intros (rest & -> & Hn & Hl) Hi. apply take_drop_middle in Hi as Hxs.
  pose proof (lookup_lt_Some _ _ _ Hi) as Hlt.
  assert (Hti : length (take i xs) = i) by (rewrite length_take; lia).
  assert (E : vec_bytes xs = vec_bytes (take i xs) ++ to_bytes x ++ vec_bytes (drop (S i) xs))
    by (rewrite <- vec_bytes_cons, <- vec_bytes_app, Hxs; done).
  exists rest. unfold vec_assign. rewrite length_insert.
  assert (E' : splice (VEC_SIZE_BYTES + i * size_of T) (to_bytes y)
      (le_encode VEC_SIZE_BYTES (Z.of_nat (length xs)) ++ vec_bytes xs ++ rest)
    = le_encode VEC_SIZE_BYTES (Z.of_nat (length xs)) ++ vec_bytes (<[i:=y]> xs) ++ rest).
  { rewrite E, insert_take_drop by done. rewrite vec_bytes_app, vec_bytes_cons.
    rewrite <- !app_assoc, (app_assoc _ (vec_bytes (take i xs))).
    rewrite (splice_app' _ (to_bytes x)); [by rewrite <- app_assoc| |by rewrite !length_to_bytes].
    rewrite length_app, length_le_encode, length_vec_bytes, Hti. done. }
  rewrite E'. split_and!; [done|done|].
  rewrite !length_app, !length_vec_bytes, ?length_insert in *. lia.
Qed.

(** [push] *)
Lemma splice_header n m rest :
  splice 0 (le_encode VEC_SIZE_BYTES m) (le_encode VEC_SIZE_BYTES n ++ rest) =
    le_encode VEC_SIZE_BYTES m ++ rest.
Proof. apply (splice_app' []); by rewrite ?length_le_encode. Qed.

Lemma vec_push_unfold x xs d :
  vec_rep xs d -> Z.of_nat (length xs) + 1 < 2 ^ 32 ->
  vec_push x d =
    let start_index := (VEC_SIZE_BYTES + length xs * size_of T)%nat in
    let d' := splice 0 (le_encode VEC_SIZE_BYTES (Z.of_nat (S (length xs)))) d in
    if (length d <? start_index + size_of T)%nat then (d', Err AccountDataTooSmall)
    else (splice start_index (to_bytes x) d', Ok tt).
Proof.
  intros (rest & -> & Hn & Hl) Hn1. unfold vec_push.
  rewrite slice_header, splice_header, le_decode_len by done.
  rewrite Z.mod_small, Nat2Z.id by lia.
  replace (Z.of_nat (length xs) + 1) with (Z.of_nat (S (length xs))) by lia.
  rewrite splice_header, !length_app, !length_le_encode. done.
Qed.

Lemma vec_push_rep x xs d :
  vec_rep xs d -> Z.of_nat (length xs) + 1 < 2 ^ 32 ->
  (VEC_SIZE_BYTES + S (length xs) * size_of T <= length d)%nat ->
  exists d', vec_push x d = (d', Ok tt) /\ vec_rep (xs ++ [x]) d' /\ length d' = length d.
Proof.
  intros Hr Hn1 Hroom. rewrite (vec_push_unfold x xs d Hr Hn1). cbv zeta.
  destruct Hr as (rest & -> & Hn & Hl).
  rewrite (proj2 (Nat.ltb_ge _ _)) by lia.
  eexists. split; [done|].
  rewrite !length_app, length_le_encode, length_vec_bytes in Hroom.
  destruct (split_at rest 0 (size_of T)) as ([|] & s & q & -> & ? & Hs); [lia| |done].
  rewrite splice_header, app_nil_l.
  rewrite (app_assoc _ (vec_bytes xs)), (splice_app' _ s);
    [|by rewrite length_app, length_le_encode, length_vec_bytes
     |rewrite length_to_bytes; lia].
  split.
  - exists q. rewrite length_app, vec_bytes_app, <- !app_assoc. cbn [length].
    rewrite Nat.add_1_r. split_and!; [by rewrite vec_bytes_cons, app_nil_r|lia|].
    rewrite !length_app, !length_le_encode, ?length_to_bytes in *. lia.
  - rewrite !length_app, !length_le_encode, length_to_bytes. lia.
Qed.

(** [deserialize_slice] *)
Lemma cast_slice_bytes xs : cast_slice (length xs) (vec_bytes xs) = Some xs.
Proof.
  induction xs as [|x xs IH]; [done|]. cbn [length cast_slice]. rewrite vec_bytes_cons.
  rewrite take_app_length', drop_app_length' by (by rewrite length_to_bytes).
  rewrite of_to_bytes. cbn [mbind option_bind]. by rewrite IH.
Qed.

Lemma vec_rep_fits xs d :
  vec_rep xs d -> (VEC_SIZE_BYTES + length xs * size_of T <= length d)%nat.
Proof.
  intros (rest & -> & _). rewrite !length_app, length_le_encode, length_vec_bytes. lia.
Qed.

(** A run of elements inside the buffer. *)
Lemma vec_rep_slice xs d i j :
  vec_rep xs d -> (i <= j <= length xs)%nat ->
  slice (VEC_SIZE_BYTES + i * size_of T) (VEC_SIZE_BYTES + j * size_of T) d =
    Some (vec_bytes (take (j - i) (drop i xs))).
Proof.
  intros (rest & -> & _) Hij.
  destruct (split_at xs i j Hij) as (p & s & q & -> & Hp & Hs).
  rewrite drop_app_length', take_app_length' by lia.
  rewrite !vec_bytes_app, <- !app_assoc, (app_assoc _ (vec_bytes p)).
  apply slice_app'; rewrite ?length_app, length_le_encode, !length_vec_bytes; nia.
Qed.

Lemma deserialize_mut_slice_rep xs d (skip len : nat) :
  vec_rep xs d -> (skip + len <= length xs)%nat ->
  deserialize_mut_slice (Z.of_nat skip) (Z.of_nat len) d =
    Ok ((VEC_SIZE_BYTES + skip * size_of T)%nat, take len (drop skip xs)).
Proof.
  intros Hr Hsl. unfold deserialize_mut_slice. rewrite (vec_len_rep _ _ Hr).
  pose proof (vec_rep_fits _ _ Hr). pose proof Hr as (_ & _ & Hn & Hl).
  cbn [mbind result_bind]. rewrite checked_add_fits by lia. cbn [ok_or mbind result_bind].
  rewrite (proj2 (Z.ltb_ge _ _)) by lia. cbn [err_if mbind result_bind].
  unfold saturating_add, saturating_mul.
  assert ((skip * size_of T <= length xs * size_of T)%nat) by nia.
  assert ((len * size_of T <= length xs * size_of T)%nat) by nia.
  rewrite !Z.min_l by nia.
  replace (Z.to_nat (Z.of_nat VEC_SIZE_BYTES + Z.of_nat skip * Z.of_nat (size_of T)))
    with (VEC_SIZE_BYTES + skip * size_of T)%nat by lia.
  replace (Z.to_nat (Z.of_nat VEC_SIZE_BYTES + Z.of_nat skip * Z.of_nat (size_of T) +
      Z.of_nat len * Z.of_nat (size_of T)))
    with (VEC_SIZE_BYTES + (skip + len) * size_of T)%nat by lia.
  rewrite (vec_rep_slice xs d skip (skip + len) Hr) by lia. cbn [unwrap mbind result_bind].
  replace (skip + len - skip)%nat with len by lia. rewrite Nat2Z.id.
  pose proof (cast_slice_bytes (take len (drop skip xs))) as Hc.
  rewrite length_take, length_drop, Nat.min_l in Hc by lia. by rewrite Hc.
Qed.

Lemma deserialize_mut_slice_out_of_range xs d skip len :
  vec_rep xs d -> is_uint 64 skip -> is_uint 64 len -> Z.of_nat (length xs) < skip + len ->
  deserialize_mut_slice (T:=T) skip len d = Err AccountDataTooSmall.
Proof.
  intros Hr Hs Hl Hlt. unfold deserialize_mut_slice. rewrite (vec_len_rep _ _ Hr).
  cbn [mbind result_bind]. unfold checked_add.
  destruct (Z.ltb_spec (skip + len) (2 ^ 64)); [|done]. cbn [ok_or mbind result_bind].
  by rewrite (proj2 (Z.ltb_lt _ _)) by lia.
Qed.

(** [retain] *)
Lemma close_gap_app p g b q dst hi gap :
  dst = length p -> gap = length g -> hi = (length p + length g + length b)%nat ->
  exists g', close_gap (p ++ g ++ b ++ q) dst hi gap = Ok (p ++ b ++ g' ++ q) /\
    length g' = length g.
Proof.
  intros -> -> ->. exists (drop (length b) (g ++ b)).
  split; [|rewrite length_drop, length_app; lia]. unfold close_gap, memmove.
  replace (length p + length g + length b - length g)%nat with (length p + length b)%nat by lia.
  replace (length p + length b - length p)%nat with (length b) by lia.
  assert (Hs1 : is_Some (slice (length p) (length p + length b) (p ++ g ++ b ++ q))).
  { eexists. apply slice_Some. rewrite !length_app. split; [lia|done]. }
  destruct Hs1 as [s1 ->]. cbn [unwrap mbind result_bind].
  rewrite (app_assoc p g), (slice_app' (p ++ g) b) by (rewrite length_app; lia).
  cbn [unwrap mbind result_bind]. f_equal.
  rewrite drop_app_length', take_app_length by (rewrite length_app; lia).
  unfold splice. rewrite <- !app_assoc, take_app_length. do 2 f_equal.
  rewrite <- drop_drop, drop_app_length.
  rewrite (app_assoc g b q), drop_app_le by (rewrite length_app; lia). done.
Qed.

Definition kept P xs : list T := filter (fun x => P x = true) xs.

(** After [i] elements: [A] is in its final place, [G] is the gap the removed
    elements left, [B] was kept since the last removal and waits behind it. *)
Record retain_inv P (hdr : list byte) xs rest (i : nat) (st : retain_state) : Prop := {
  ri_data : exists A G B,
    rs_data st = hdr ++ vec_bytes A ++ G ++ vec_bytes B ++ vec_bytes (drop i xs) ++ rest /\
    kept P (take i xs) = A ++ B /\
    length G = (rs_removals st * size_of T)%nat /\
    i = (length A + rs_removals st + length B)%nat /\
    (rs_removals st = O -> A = []) /\
    ((0 < rs_removals st)%nat -> rs_dst st = (length hdr + length A * size_of T)%nat);
  ri_len : rs_vec_len st = Z.of_nat (length xs) - Z.of_nat (rs_removals st);
}.

Lemma kept_snoc P xs i x :
  xs !! i = Some x ->
  kept P (take (S i) xs) = kept P (take i xs) ++ (if P x then [x] else []).
Proof.
  intros Hi. erewrite take_S_r by done. unfold kept. rewrite filter_app.
  f_equal. rewrite filter_cons. destruct (P x) eqn:E.
  - by rewrite decide_True.
  - by rewrite decide_False.
Qed.

Lemma retain_step_inv predicate P hdr xs rest i x st :
  decides predicate P -> retain_inv P hdr xs rest i st -> xs !! i = Some x ->
  exists st', retain_step predicate st (length hdr + i * size_of T) = Ok st' /\
    retain_inv P hdr xs rest (S i) st'.
Proof.
  intros Hdec [(A & G & B & Hdata & Hk & HG & Hi & HA & Hdst) Hlen] Hx.
  rewrite (drop_S _ _ _ Hx), vec_bytes_cons in Hdata.
  unfold retain_step. rewrite Hdata.
  rewrite <- !app_assoc, (app_assoc (vec_bytes A)), (app_assoc (vec_bytes A ++ G)), (app_assoc hdr).
  rewrite (slice_app' (hdr ++ _) (to_bytes x));
    [|rewrite !length_app, !length_vec_bytes, HG, Hi; lia
     |rewrite !length_app, !length_vec_bytes, HG, length_to_bytes, Hi; lia].
  cbn [unwrap mbind result_bind]. rewrite Hdec. cbn [mbind result_bind].
  pose proof (kept_snoc P xs i x Hx) as Hks. destruct (P x) eqn:HP.
  { exists st. split; [done|]. split; [|done]. exists A, G, (B ++ [x]).
    rewrite Hks, Hk, vec_bytes_app, vec_bytes_cons, app_nil_r, Hdata, <- !app_assoc.
    split_and!; try done. rewrite length_app. simpl. lia. }
  rewrite app_nil_r in Hks. rewrite <- !app_assoc.
  destruct (Nat.ltb_spec 0 (rs_removals st)) as [HK|HK].
  - specialize (Hdst HK).
    destruct (close_gap_app (hdr ++ vec_bytes A) G (vec_bytes B)
      (to_bytes x ++ vec_bytes (drop (S i) xs) ++ rest) (rs_dst st)
      (length hdr + i * size_of T) (rs_removals st * size_of T)) as (G' & HG' & HlG');
      [rewrite length_app, length_vec_bytes; done|lia
      |rewrite length_app, !length_vec_bytes, HG, Hi; lia|].
    rewrite <- !app_assoc in HG'. rewrite HG'. cbn [mbind result_bind].
    eexists. split; [done|]. split; [|simpl; lia]. exists (A ++ B), (G' ++ to_bytes x), [].
    simpl. rewrite Hks, Hk, vec_bytes_app, length_app, length_to_bytes, !length_app, <- !app_assoc.
    split_and!; rewrite ?app_nil_r; try done; lia.
  - assert (rs_removals st = O) as E by lia. specialize (HA E). subst A. rewrite E in *.
    destruct G; [|done]. simpl in Hi. subst i. cbn [mbind result_bind].
    eexists. split; [done|]. split; [|simpl; lia]. exists B, (to_bytes x), [].
    simpl. rewrite Hks, Hk, length_to_bytes, app_nil_r. split_and!; try done; lia.
Qed.

Lemma retain_loop_inv predicate P hdr xs rest n i st :
  decides predicate P -> retain_inv P hdr xs rest i st -> (i + n = length xs)%nat ->
  exists st', retain_loop predicate
      ((fun j => (length hdr + j * size_of T)%nat) <$> seq i n) st = Ok st' /\
    retain_inv P hdr xs rest (length xs) st'.
Proof.
  intros Hdec. revert i st. induction n as [|n IH]; intros i st Hinv Hn.
  { exists st. split; [done|]. by replace (length xs) with i by lia. }
  destruct (lookup_lt_is_Some_2 xs i ltac:(lia)) as [x Hx].
  destruct (retain_step_inv predicate P hdr xs rest i x st Hdec Hinv Hx) as (st1 & Hs & Hinv1).
  destruct (IH (S i) st1 Hinv1 ltac:(lia)) as (st2 & Hl & Hinv2).
  exists st2. split; [|done]. cbn [seq fmap list_fmap retain_loop]. rewrite Hs. exact Hl.
Qed.

Lemma step_by_elements n :
  step_by VEC_SIZE_BYTES (VEC_SIZE_BYTES + n * size_of T) (size_of T) =
    (fun j => (VEC_SIZE_BYTES + j * size_of T)%nat) <$> seq 0 n.
Proof.
  unfold step_by. pose proof size_of_pos as Hsz.
  replace ((VEC_SIZE_BYTES + n * size_of T - VEC_SIZE_BYTES + size_of T - 1) / size_of T)%nat
    with n by (apply Nat.div_unique with (r := (size_of T - 1)%nat); lia).
  done.
Qed.

(** The final move brings the kept elements together. *)
Lemma retain_final P hdr xs rest st :
  retain_inv P hdr xs rest (length xs) st ->
  exists g, (if (0 <? rs_removals st)%nat
     then close_gap (rs_data st) (rs_dst st) (length hdr + length xs * size_of T)
            (rs_removals st * size_of T)
     else Ok (rs_data st)) = Ok (hdr ++ vec_bytes (kept P xs) ++ g ++ rest) /\
    length g = (rs_removals st * size_of T)%nat /\
    (length (kept P xs) + rs_removals st = length xs)%nat.
Proof.
  intros [(A & G & B & Hdata & Hk & HG & Hi & HA & Hdst) Hlen].
  rewrite drop_ge in Hdata by lia. rewrite take_ge in Hk by lia.
  rewrite Hk, length_app, vec_bytes_app, Hdata. simpl.
  destruct (Nat.ltb_spec 0 (rs_removals st)) as [HK|HK].
  - specialize (Hdst HK).
    destruct (close_gap_app (hdr ++ vec_bytes A) G (vec_bytes B) rest (rs_dst st)
      (length hdr + length xs * size_of T) (rs_removals st * size_of T))
      as (g & Hg & Hlg); [rewrite length_app, length_vec_bytes; done|lia
      |rewrite length_app, !length_vec_bytes, HG, Hi; lia|].
    rewrite <- !app_assoc in Hg. exists g. rewrite <- app_assoc. split_and!; [done|lia|lia].
  - exists []. assert (rs_removals st = O) as E by lia. rewrite E in *.
    destruct G; [|done]. rewrite <- app_assoc. split_and!; [done|done|lia].
Qed.

Lemma vec_retain_rep predicate P xs d :
  vec_rep xs d -> decides predicate P ->
  exists d', vec_retain (T:=T) predicate d = Ok d' /\ vec_rep (kept P xs) d' /\
    length d' = length d.
Proof.
  intros Hr Hdec. pose proof (vec_rep_fits _ _ Hr) as Hfit.
  unfold vec_retain. rewrite (vec_len_rep _ _ Hr). cbn [mbind result_bind].
  destruct Hr as (rest & Ed & Hn & Hl).
  set (hdr := le_encode VEC_SIZE_BYTES (Z.of_nat (length xs))) in *.
  assert (Hh : length hdr = VEC_SIZE_BYTES) by apply length_le_encode.
  unfold saturating_add, saturating_mul. rewrite !Z.min_l by lia.
  replace (Z.to_nat _) with (VEC_SIZE_BYTES + length xs * size_of T)%nat by lia.
  rewrite step_by_elements, <- Hh.
  destruct (retain_loop_inv predicate P hdr xs rest (length xs) 0
    (mkRetain d (Z.of_nat (length xs)) 0 0) Hdec) as (st & Hloop & Hinv); [|done|].
  { split; [|simpl; lia]. exists [], [], []. simpl. split_and!; try done. lia. }
  rewrite Hloop. cbn [mbind result_bind].
  destruct (retain_final P hdr xs rest st Hinv) as (g & Hg & Hlg & Hlk).
  rewrite Hg. cbn [mbind result_bind]. unfold hdr. rewrite slice_header.
  cbn [unwrap mbind result_bind]. rewrite splice_header, (ri_len _ _ _ _ _ _ Hinv).
  replace (Z.of_nat (length xs) - Z.of_nat (rs_removals st))
    with (Z.of_nat (length (kept P xs))) by lia.
  assert (Hfin : length (le_encode VEC_SIZE_BYTES (Z.of_nat (length (kept P xs))) ++
      vec_bytes (kept P xs) ++ g ++ rest) = length d).
  { rewrite Ed, !length_app, Hh, length_le_encode, !length_vec_bytes, Hlg, <- Hlk. lia. }
  eexists. split; [done|]. split; [|done]. exists (g ++ rest). rewrite Hfin.
  split_and!; [done|lia|done].
Qed.
End BigVec_spec.

(** ** The operations implement the list operations *)

(** [u8] is [Pod]. *)
#[export] Instance byte_Pod : Pod byte.
Proof.
  refine {| size_of := 1%nat; to_bytes := fun b => [b];
            of_bytes := fun l => match l with [b] => Some b | _ => None end |}.
  - lia.
  - done.
  - done.
  - intros [|b [|]] x; naive_solver.
  - intros [|b [|]]; naive_solver.
Defined.

(** A buffer of [cap] bytes of room that holds [xs]. *)
Definition example_buffer (xs : list byte) (cap : nat) : list byte :=
  le_encode 4 (Z.of_nat (length xs)) ++ xs ++ replicate (cap - length xs) x00.

Lemma example_buffer_rep xs cap :
  Z.of_nat (length xs) < 2 ^ 32 -> Z.of_nat cap < 2 ^ 32 -> vec_rep xs (example_buffer xs cap).
Proof.
  intros. exists (replicate (cap - length xs) x00). unfold example_buffer.
  assert (E : vec_bytes xs = xs) by (clear; induction xs as [|x xs IH]; [|rewrite vec_bytes_cons, IH]; done).
  rewrite E. split_and!; [done|done|].
  rewrite !length_app, length_le_encode, length_replicate. lia.
Qed.

(** C29: [retain] is [filter].  For every buffer that holds a vector, the in-place
    compaction by overlapping moves terminates without error or panic and
    leaves exactly the elements the predicate accepts, in their order, in a
    buffer of the same size. *)
Theorem vec_retain_correct {T} `{Pod T} predicate (P : T -> bool) xs d :
  vec_rep xs d -> decides predicate P ->
  exists d', vec_retain (T:=T) predicate d = Ok d' /\ vec_rep (kept P xs) d' /\
    length d' = length d.
Proof. apply vec_retain_rep. Qed.

Lemma vec_retain_correct_witness :
  let P := fun b : byte => Z_of_byte b mod 2 =? 0 in
  exists d', vec_retain (T:=byte) (fun l => b ← unwrap (of_bytes l); Ok (P b))
      (example_buffer [x01; x02; x03; x04] 4) = Ok d' /\
    vec_rep (kept P [x01; x02; x03; x04]) d' /\ length d' = 8%nat.
Proof.
  intros P. apply (vec_retain_correct _ P [x01; x02; x03; x04] (example_buffer [x01; x02; x03; x04] 4)).
  - apply example_buffer_rep; simpl; lia.
  - intros b. reflexivity.
Defined.

(** [push] appends when there is room, and otherwise fails with
    [AccountDataTooSmall] after the stored length was already incremented. *)
Theorem vec_push_correct {T} `{Pod T} (x : T) xs d :
  vec_rep xs d -> Z.of_nat (length xs) + 1 < 2 ^ 32 ->
  if decide (VEC_SIZE_BYTES + S (length xs) * size_of T <= length d)%nat then
    exists d', vec_push x d = (d', Ok tt) /\ vec_rep (xs ++ [x]) d' /\ length d' = length d
  else
    exists d', vec_push x d = (d', Err AccountDataTooSmall) /\
      vec_len d' = Ok (Z.of_nat (length xs) + 1) /\ length d' = length d.
Proof.
  intros Hr Hn. case_decide as Hroom; [by apply vec_push_rep|].
  rewrite (vec_push_unfold x xs d Hr Hn). cbv zeta. rewrite (proj2 (Nat.ltb_lt _ _)) by lia.
  destruct Hr as (rest & -> & _ & _). rewrite splice_header.
  eexists. split; [done|]. unfold vec_len. rewrite slice_header. cbn [unwrap mbind result_bind].
  rewrite le_decode_len by lia. split; [f_equal; lia|]. by rewrite !length_app, !length_le_encode.
Qed.

Lemma vec_push_correct_witness :
  (exists d', vec_push x05 (example_buffer [x01] 2) = (d', Ok tt) /\
     vec_rep ([x01] ++ [x05]) d' /\ length d' = 6%nat) /\
  (exists d', vec_push x05 (example_buffer [x01] 1) = (d', Err AccountDataTooSmall) /\
     vec_len d' = Ok (1 + 1) /\ length d' = 5%nat).
Proof.
  split.
  - exact (vec_push_correct x05 [x01] (example_buffer [x01] 2)
      (example_buffer_rep [x01] 2 eq_refl eq_refl) eq_refl).
  - exact (vec_push_correct x05 [x01] (example_buffer [x01] 1)
      (example_buffer_rep [x01] 1 eq_refl eq_refl) eq_refl).
Defined.

(** [find_mut] returns the first element that satisfies the predicate ([find]
    the same element), and assigning through the reference replaces that element
    and nothing else. *)
Theorem vec_find_correct {T} `{Pod T} predicate (P : T -> bool) xs d :
  vec_rep xs d -> decides predicate P ->
  match list_find (fun x => P x = true) xs with
  | Some (i, x) =>
      exists off, vec_find_mut predicate d = Ok (Some (off, x)) /\
        vec_find predicate d = Ok (Some x) /\
        forall y, vec_rep (<[i:=y]> xs) (vec_assign off y d)
  | None => vec_find_mut (T:=T) predicate d = Ok None /\ vec_find (T:=T) predicate d = Ok None
  end.
Proof.
  intros Hr Hd. unfold vec_find. rewrite (vec_find_mut_rep predicate P xs d Hr Hd).
  destruct (list_find _ xs) as [[i x]|] eqn:Hf; [|done].
  apply list_find_Some in Hf as (Hi & _ & _).
  eexists. split; [done|]. split; [done|]. intros y. by eapply vec_assign_rep.
Qed.

Lemma vec_find_correct_witness :
  exists off, vec_find_mut (T:=byte) (fun l => b ← unwrap (of_bytes l); Ok (Z_of_byte b =? 3))
      (example_buffer [x01; x03] 2) = Ok (Some (off, x03)) /\
    vec_find (fun l => b ← unwrap (of_bytes l); Ok (Z_of_byte b =? 3))
      (example_buffer [x01; x03] 2) = Ok (Some x03) /\
    forall y, vec_rep (<[1%nat:=y]> [x01; x03]) (vec_assign off y (example_buffer [x01; x03] 2)).
Proof.
  exact (vec_find_correct (fun l => b ← unwrap (of_bytes l); Ok (Z_of_byte b =? 3))
    (fun b => Z_of_byte b =? 3) [x01; x03] (example_buffer [x01; x03] 2)
    (example_buffer_rep [x01; x03] 2 eq_refl eq_refl) (fun b => eq_refl)).
Defined.

(** [deserialize_slice] returns the requested run of elements when it lies
    inside the vector and [AccountDataTooSmall] when it does not, also when
    [skip + len] overflows a [usize]; it never panics. *)
Theorem deserialize_slice_correct {T} `{Pod T} (xs : list T) d skip len :
  vec_rep xs d -> is_uint 64 skip -> is_uint 64 len ->
  deserialize_slice skip len d =
    if decide (skip + len <= Z.of_nat (length xs))
    then Ok (take (Z.to_nat len) (drop (Z.to_nat skip) xs))
    else Err AccountDataTooSmall.
Proof.
  intros Hr Hs Hl. unfold deserialize_slice. case_decide as Hc.
  - unfold is_uint in *.
    pose proof (deserialize_mut_slice_rep xs d (Z.to_nat skip) (Z.to_nat len) Hr ltac:(lia)) as E.
    rewrite !Z2Nat.id in E by lia. by rewrite E.
  - by rewrite (deserialize_mut_slice_out_of_range xs d skip len) by (done || lia).
Qed.

Lemma deserialize_slice_correct_witness :
  deserialize_slice 1 2 (example_buffer [x01; x02; x03] 3) = Ok [x02; x03] /\
  deserialize_slice (T:=byte) (2 ^ 64 - 1) 1 (example_buffer [x01; x02; x03] 3) =
    Err AccountDataTooSmall.
Proof.
  assert (Hu : forall z, 0 <= z <= 2 ^ 64 - 1 -> is_uint 64 z) by (unfold is_uint; intros; lia).
  split.
  - exact (deserialize_slice_correct [x01; x02; x03] _ 1 2
      (example_buffer_rep [x01; x02; x03] 3 eq_refl eq_refl) (Hu 1 ltac:(lia)) (Hu 2 ltac:(lia))).
  - exact (deserialize_slice_correct [x01; x02; x03] _ (2 ^ 64 - 1) 1
      (example_buffer_rep [x01; x02; x03] 3 eq_refl eq_refl) (Hu (2 ^ 64 - 1) ltac:(lia)) (Hu 1 ltac:(lia))).
Defined.
