(* ===== verification/Borsh.v ===== *)
(** * Borsh encodings of the account states

    The serialisation the [derive(BorshSerialize, BorshDeserialize)] attributes
    of src/program/src/state.rs give the account types: fields in declaration
    order, little-endian integers, one tag byte for enums and options, a [u32]
    length before the elements of a [Vec].  The class [Borsh] is the contract
    the processor relies on; its two laws say that decoding inverts encoding
    and that whatever decodes is a canonical encoding of a well-typed value. *)

From S2P Require Import Prelude Errors Fees Pool.

Class Borsh (T : Type) := {
  borsh_ser : T -> list byte;
  borsh_de : list byte -> option (T * list byte);
  borsh_typed : T -> Prop;
  borsh_de_ser x rest : borsh_typed x -> borsh_de (borsh_ser x ++ rest) = Some (x, rest);
  borsh_ser_de l x rest : borsh_de l = Some (x, rest) -> borsh_typed x /\ l = borsh_ser x ++ rest;
}.

(** [try_from_slice_unchecked]: decode a prefix of the data. *)
Definition try_from_slice_unchecked {T} `{Borsh T} (data : list byte) : presult T :=
  ok_or BorshIoError (fst <$> borsh_de data).

(** [try_from_slice]: decode the whole of the data. *)
Definition try_from_slice {T} `{Borsh T} (data : list byte) : presult T :=
  match borsh_de data with
  | Some (x, []) => Ok x
  | _ => Err BorshIoError
  end.

(** [borsh::to_writer(&mut data[..], &x)] *)
Definition to_writer {T} `{Borsh T} (x : T) (data : list byte) : presult (list byte) :=
  if (length (borsh_ser x) <=? length data)%nat then Ok (splice 0 (borsh_ser x) data)
  else Err BorshIoError.

(** [get_instance_packed_len] *)
Definition packed_len {T} `{Borsh T} (x : T) : nat := length (borsh_ser x).

Lemma try_from_slice_unchecked_Ok {T} `{Borsh T} data (x : T) :
  try_from_slice_unchecked data = Ok x <->
  borsh_typed x /\ exists rest, data = borsh_ser x ++ rest.
Proof.
  unfold try_from_slice_unchecked. rewrite ok_or_Ok, fmap_Some. split.
  - intros ([y rest] & Hd & ->). apply borsh_ser_de in Hd as [? ->]. eauto.
  - intros (Ht & rest & ->). exists (x, rest). split; [by apply borsh_de_ser|done].
Qed.

Lemma to_writer_Ok {T} `{Borsh T} (x : T) data data' :
  to_writer x data = Ok data' <->
  (length (borsh_ser x) <= length data)%nat /\
  data' = borsh_ser x ++ drop (length (borsh_ser x)) data.
Proof.
  unfold to_writer. destruct (Nat.leb_spec (length (borsh_ser x)) (length data)).
  - split; [intros [=<-]; done|intros [_ ->]; done].
  - split; [done|intros [? _]; lia].
Qed.

(** What was written is what is read back. *)
Lemma to_writer_read {T} `{Borsh T} (x : T) data data' :
  borsh_typed x -> to_writer x data = Ok data' ->
  try_from_slice_unchecked data' = Ok x /\ length data' = length data.
Proof.
  intros Ht [Hl ->]%to_writer_Ok. split.
  - apply try_from_slice_unchecked_Ok. eauto.
  - rewrite length_app, length_drop. lia.
Qed.

(** ** Primitive encodings *)

(** Split off [n] bytes. *)
Definition take_bytes (n : nat) (l : list byte) : option (list byte * list byte) :=
  if (n <=? length l)%nat then Some (take n l, drop n l) else None.

Lemma take_bytes_app n p rest : length p = n -> take_bytes n (p ++ rest) = Some (p, rest).
Proof.
  intros <-. unfold take_bytes. rewrite (proj2 (Nat.leb_le _ _)) by (rewrite length_app; lia).
  by rewrite take_app_length, drop_app_length.
Qed.

Lemma take_bytes_Some n l p rest :
  take_bytes n l = Some (p, rest) -> l = p ++ rest /\ length p = n.
Proof.
  unfold take_bytes. destruct (Nat.leb_spec n (length l)); [|done]. intros [=<- <-].
  rewrite take_drop, length_take. split; [done|lia].
Qed.

(** Unsigned integers of [n] bytes. *)
Definition uint_codec (n : nat) : Borsh Z.
Proof.
  refine {| borsh_ser z := le_encode n z;
            borsh_de l := prod_map le_decode id <$> take_bytes n l;
            borsh_typed z := 0 <= z < 256 ^ Z.of_nat n |}.
  - intros z rest Hz. rewrite take_bytes_app by apply length_le_encode. simpl.
    by rewrite le_decode_encode.
  - intros l z rest ([p r] & Hp & [=-> ->])%fmap_Some.
    apply take_bytes_Some in Hp as [-> Hl]. subst n.
    split; [apply le_decode_range|by rewrite le_encode_decode].
Defined.

(** Byte arrays. *)
#[export] Instance array_codec (n : nat) : Borsh (byte_array n).
Proof.
  refine {| borsh_ser := arr_bytes;
            borsh_de l := '(p, rest) ← take_bytes n l; a ← array_of_bytes n p; Some (a, rest);
            borsh_typed _ := True |}.
  - intros a rest _. rewrite take_bytes_app by apply length_arr_bytes. simpl.
    by rewrite array_of_arr_bytes.
  - intros l a rest Hd. apply bind_Some in Hd as ([p r] & Hp & Hd).
    apply bind_Some in Hd as (b & Hb & [=-> ->]).
    apply take_bytes_Some in Hp as [-> _]. apply array_of_bytes_Some in Hb as ->. done.
Defined.

(** A tag byte. *)
Definition tag_de (l : list byte) : option (Z * list byte) :=
  match l with [] => None | b :: l => Some (Z_of_byte b, l) end.

#[export] Instance option_codec {T} `{Borsh T} : Borsh (option T).
Proof.
  refine {| borsh_ser o := match o with None => [x00] | Some x => x01 :: borsh_ser x end;
            borsh_de l := match l with
                          | x00 :: l => Some (None, l)
                          | x01 :: l => prod_map Some id <$> borsh_de l
                          | _ => None
                          end;
            borsh_typed o := match o with None => True | Some x => borsh_typed x end |}.
  - intros [x|] rest Hx; simpl; [|done]. by rewrite borsh_de_ser.
  - intros [|b l] o rest; [done|].
    destruct b; try done; [by intros [=<- <-]|].
    intros ([x r] & Hx & [=-> ->])%fmap_Some. apply borsh_ser_de in Hx as [? ->]. done.
Defined.

#[export] Instance future_epoch_codec {T} `{Borsh T} : Borsh (FutureEpoch T).
Proof.
  refine {| borsh_ser o := match o with
                           | FENone => [x00]
                           | FEOne x => x01 :: borsh_ser x
                           | FETwo x => x02 :: borsh_ser x
                           end;
            borsh_de l := match l with
                          | x00 :: l => Some (FENone, l)
                          | x01 :: l => prod_map FEOne id <$> borsh_de l
                          | x02 :: l => prod_map FETwo id <$> borsh_de l
                          | _ => None
                          end;
            borsh_typed := future_forall borsh_typed |}.
  - intros [|x|x] rest Hx; simpl; [done|by rewrite borsh_de_ser..].
  - intros [|b l] o rest; [done|].
    destruct b; try done; [by intros [=<- <-]|..];
      intros ([x r] & Hx & [=-> ->])%fmap_Some; apply borsh_ser_de in Hx as [? ->]; done.
Defined.

#[export] Instance account_type_codec : Borsh AccountType.
Proof.
  refine {| borsh_ser t := match t with
                           | Uninitialized => [x00]
                           | StakePoolType => [x01]
                           | ValidatorListType => [x02]
                           end;
            borsh_de l := match l with
                          | x00 :: l => Some (Uninitialized, l)
                          | x01 :: l => Some (StakePoolType, l)
                          | x02 :: l => Some (ValidatorListType, l)
                          | _ => None
                          end;
            borsh_typed _ := True |}.
  - by intros [] rest _.
  - intros [|b l] o rest; [done|]. destruct b; try done; by intros [=<- <-].
Defined.

(** ** Records *)

#[export] Instance pair_codec {A B} `{Borsh A} `{Borsh B} : Borsh (A * B).
Proof.
  refine {| borsh_ser p := borsh_ser p.1 ++ borsh_ser p.2;
            borsh_de l := '(a, l) ← borsh_de l; '(b, l) ← borsh_de l; Some ((a, b), l);
            borsh_typed p := borsh_typed p.1 /\ borsh_typed p.2 |}.
  - intros [a b] rest [Ha Hb]. simpl in *. rewrite <- app_assoc, borsh_de_ser by done. simpl.
    by rewrite borsh_de_ser.
  - intros l p rest Hd. apply bind_Some in Hd as ([a l1] & Ha & Hd).
    apply bind_Some in Hd as ([b l2] & Hb & [=<- <-]).
    apply borsh_ser_de in Ha as [? ->]. apply borsh_ser_de in Hb as [? ->].
    split; [done|]. simpl. by rewrite <- app_assoc.
Defined.

(** A record is encoded as the tuple of its fields. *)
Definition iso_codec {A B} `{Borsh A} (f : A -> B) (g : B -> A)
    (fg : forall b, f (g b) = b) (gf : forall a, g (f a) = a) : Borsh B.
Proof.
  refine {| borsh_ser b := borsh_ser (g b);
            borsh_de l := prod_map f id <$> borsh_de l;
            borsh_typed b := borsh_typed (g b) |}.
  - intros b rest Hb. rewrite borsh_de_ser by done. simpl. by rewrite fg.
  - intros l b rest ([a r] & Ha & [=-> ->])%fmap_Some. rewrite gf.
    by apply borsh_ser_de in Ha.
Defined.

#[local] Infix "⊗" := (@pair_codec _ _) (at level 62, right associativity).

Definition u8_codec : Borsh Z := uint_codec 1.
Definition u32_codec : Borsh Z := uint_codec 4.
Definition u64_codec : Borsh Z := uint_codec 8.

(** Two's complement, for [Lockup::unix_timestamp]. *)
Definition i64_codec : Borsh Z.
Proof.
  refine {| borsh_ser z := le_encode 8 (z mod 2 ^ 64);
            borsh_de l := prod_map (fun z => if z <? 2 ^ 63 then z else z - 2 ^ 64) id <$>
                            @borsh_de Z u64_codec l;
            borsh_typed z := - 2 ^ 63 <= z < 2 ^ 63 |}.
  - intros z rest Hz. pose proof (Z.mod_pos_bound z (2 ^ 64) ltac:(lia)).
    change (le_encode 8 (z mod 2 ^ 64)) with (@borsh_ser Z u64_codec (z mod 2 ^ 64)).
    rewrite borsh_de_ser by (simpl; lia).
    simpl. do 2 f_equal. destruct (Z_le_gt_dec 0 z).
    + rewrite Z.mod_small by lia. destruct (Z.ltb_spec z (2 ^ 63)); lia.
    + assert (z mod 2 ^ 64 = z + 2 ^ 64) as ->
        by (rewrite <- (Z.mod_add z 1 (2 ^ 64)), Z.mod_small by lia; lia).
      destruct (Z.ltb_spec (z + 2 ^ 64) (2 ^ 63)); lia.
  - intros l z rest ([u r] & Hu & [=-> ->])%fmap_Some.
    apply (@borsh_ser_de Z u64_codec) in Hu as [Hr ->].
    assert (0 <= u < 2 ^ 64) by exact Hr. clear Hr. simpl.
    assert ((if u <? 2 ^ 63 then u else u - 2 ^ 64) mod 2 ^ 64 = u) as ->.
    { destruct (Z.ltb_spec u (2 ^ 63)); [by rewrite Z.mod_small by lia|].
      rewrite <- (Z.mod_add _ 1 (2 ^ 64)), Z.mod_small by lia. lia. }
    split; [|done]. destruct (Z.ltb_spec u (2 ^ 63)); lia.
Defined.

#[export] Instance fee_codec : Borsh Fee.
Proof.
  refine (@iso_codec (Z * Z) Fee (u64_codec ⊗ u64_codec)
    (fun '(d, n) => mkFee d n) (fun f => (denominator f, numerator f)) _ _).
  - by intros [].
  - by intros [].
Defined.

#[export] Instance lockup_codec : Borsh Lockup.
Proof.
  refine (@iso_codec (Z * (Z * Pubkey)) Lockup (i64_codec ⊗ u64_codec ⊗ array_codec PUBKEY_BYTES)
    (fun '(t, (e, c)) => mkLockup t e c)
    (fun l => (unix_timestamp l, (lockup_epoch l, custodian l))) _ _).
  - by intros [].
  - by intros (? & ? & ?).
Defined.

(** [StakePool] *)
Definition StakePool_fields : Type :=
  AccountType * (Pubkey * (Pubkey * (Pubkey * (Z * (Pubkey * (Pubkey * (Pubkey * (Pubkey *
  (Pubkey * (Z * (Z * (Z * (Lockup * (Fee * (FutureEpoch Fee * (option Pubkey * (option
  Pubkey * (Fee * (Fee * (FutureEpoch Fee * (Z * (option Pubkey * (Fee * (Z * (option
  Pubkey * (Fee * (FutureEpoch Fee * (Z * (Z))))))))))))))))))))))))))))).

Definition StakePool_fields_codec : Borsh StakePool_fields :=
  let K := array_codec PUBKEY_BYTES in
  account_type_codec ⊗ K ⊗ K ⊗ K ⊗ u8_codec ⊗ K ⊗ K ⊗ K ⊗ K ⊗ K ⊗ u64_codec ⊗ u64_codec ⊗
  u64_codec ⊗ lockup_codec ⊗ fee_codec ⊗ future_epoch_codec ⊗ option_codec ⊗ option_codec
  ⊗ fee_codec ⊗ fee_codec ⊗ future_epoch_codec ⊗ u8_codec ⊗ option_codec ⊗ fee_codec ⊗
  u8_codec ⊗ option_codec ⊗ fee_codec ⊗ future_epoch_codec ⊗ u64_codec ⊗ u64_codec.

Definition StakePool_of_fields (t : StakePool_fields) : StakePool :=
  let '(f0, (f1, (f2, (f3, (f4, (f5, (f6, (f7, (f8, (f9, (f10, (f11, (f12, (f13, (f14, (f15,
    (f16, (f17, (f18, (f19, (f20, (f21, (f22, (f23, (f24, (f25, (f26, (f27, (f28,
    (f29)))))))))))))))))))))))))))))) := t in
  mkStakePool f0 f1 f2 f3 f4 f5 f6 f7 f8 f9 f10 f11 f12 f13 f14 f15 f16 f17 f18 f19 f20 f21 f22 f23
    f24 f25 f26 f27 f28 f29.

Definition StakePool_to_fields (p : StakePool) : StakePool_fields :=
  (account_type p, (manager p, (staker p, (stake_deposit_authority p,
   (stake_withdraw_bump_seed p, (validator_list p, (reserve_stake p, (pool_mint p,
   (manager_fee_account p, (token_program_id p, (total_lamports p, (pool_token_supply p,
   (last_update_epoch p, (lockup p, (epoch_fee p, (next_epoch_fee p,
   (preferred_deposit_validator_vote_address p, (preferred_withdraw_validator_vote_address
   p, (stake_deposit_fee p, (stake_withdrawal_fee p, (next_stake_withdrawal_fee p,
   (stake_referral_fee p, (sol_deposit_authority p, (sol_deposit_fee p, (sol_referral_fee
   p, (sol_withdraw_authority p, (sol_withdrawal_fee p, (next_sol_withdrawal_fee p,
   (last_epoch_pool_token_supply p, (last_epoch_total_lamports
   p)))))))))))))))))))))))))))))).

#[export] Instance stake_pool_codec : Borsh StakePool.
Proof.
  refine (@iso_codec _ _ StakePool_fields_codec StakePool_of_fields StakePool_to_fields _ _).
  - by intros [].
  - intros t. unfold StakePool_fields in t.
    repeat match goal with x : prod _ _ |- _ => destruct x end. done.
Defined.

(** The byte-count bounds of the codecs as bit-width bounds. *)
Ltac fold_widths :=
  change (256 ^ Z.of_nat 8) with (2 ^ 64) in *; change (256 ^ Z.of_nat 4) with (2 ^ 32) in *;
  change (256 ^ Z.of_nat 1) with (2 ^ 8) in *.

(** What decodes as a pool is well typed, and conversely. *)
Lemma stake_pool_typed p : borsh_typed p <-> pool_typed p.
Proof.
  split.
  - intros Ht. cbn in Ht. fold_widths. destruct_and! Ht. constructor; done.
  - intros []. cbn. fold_widths. unfold fee_ok, is_uint in *.
    repeat match goal with |- _ /\ _ => split | |- match ?o with _ => _ end => destruct o end;
      try done; lia.
Qed.

(** Size bounds, composed along the codec. *)
Class BorshLen {T} (c : Borsh T) (lo hi : nat) : Prop :=
  borsh_len x : (lo <= length (@borsh_ser T c x) <= hi)%nat.

#[export] Instance uint_len n : BorshLen (uint_codec n) n n.
Proof. intros z. simpl. rewrite length_le_encode. lia. Qed.
#[export] Instance u8_len : BorshLen u8_codec 1 1.
Proof. apply uint_len. Qed.
#[export] Instance u32_len : BorshLen u32_codec 4 4.
Proof. apply uint_len. Qed.
#[export] Instance u64_len : BorshLen u64_codec 8 8.
Proof. apply uint_len. Qed.
#[export] Instance i64_len : BorshLen i64_codec 8 8.
Proof. intros z. change (8 <= length (le_encode 8 (z mod 2 ^ 64)) <= 8)%nat. rewrite length_le_encode. lia. Qed.
#[export] Instance array_codec_len n : BorshLen (array_codec n) n n.
Proof. intros a. simpl. rewrite length_arr_bytes. lia. Qed.
#[export] Instance account_type_len : BorshLen account_type_codec 1 1.
Proof. intros []; simpl; lia. Qed.
#[export] Instance option_len {T} (c : Borsh T) lo hi :
  BorshLen c lo hi -> BorshLen (@option_codec T c) 1 (S hi).
Proof. intros Hc [x|]; simpl; [pose proof (Hc x)|]; lia. Qed.
#[export] Instance future_len {T} (c : Borsh T) lo hi :
  BorshLen c lo hi -> BorshLen (@future_epoch_codec T c) 1 (S hi).
Proof. intros Hc [|x|x]; simpl; try pose proof (Hc x); lia. Qed.
#[export] Instance pair_len {A B} (ca : Borsh A) (cb : Borsh B) la ha lb hb :
  BorshLen ca la ha -> BorshLen cb lb hb -> BorshLen (@pair_codec A B ca cb) (la + lb) (ha + hb).
Proof. intros Ha Hb [a b]. simpl. rewrite length_app. pose proof (Ha a). pose proof (Hb b). lia. Qed.
#[export] Instance iso_len {A B} (c : Borsh A) (f : A -> B) g fg gf lo hi :
  BorshLen c lo hi -> BorshLen (@iso_codec A B c f g fg gf) lo hi.
Proof. intros Hc b. apply Hc. Qed.
Lemma borsh_len_eq {T} (c : Borsh T) lo hi lo' hi' :
  BorshLen c lo hi -> lo = lo' -> hi = hi' -> BorshLen c lo' hi'.
Proof. by intros H <- <-. Qed.
#[export] Instance fee_len : BorshLen fee_codec 16 16.
Proof. unfold fee_codec. eapply borsh_len_eq; [apply _|reflexivity..]. Qed.
#[export] Instance lockup_len : BorshLen lockup_codec 48 48.
Proof. unfold lockup_codec. eapply borsh_len_eq; [apply _|reflexivity..]. Qed.

Lemma StakePool_fields_len : BorshLen StakePool_fields_codec 435 611.
Proof. unfold StakePool_fields_codec. eapply borsh_len_eq; [apply _|reflexivity..]. Qed.

Lemma stake_pool_packed_len (p : StakePool) : (435 <= packed_len p <= 611)%nat.
Proof. apply StakePool_fields_len. Qed.

(** C36: the stake pool account.  A well-typed pool written to an account of at
    least 611 bytes (the packed length of the type) is read back unchanged and
    the account keeps its size; any account that decodes as a pool holds a
    well-typed one, and writing that pool back leaves the bytes as they were. *)
Theorem stake_pool_account_roundtrip (p : StakePool) data :
  (pool_typed p -> (611 <= length data)%nat ->
     exists data', to_writer p data = Ok data' /\
       try_from_slice_unchecked data' = Ok p /\ length data' = length data) /\
  (try_from_slice_unchecked data = Ok p -> pool_typed p /\ to_writer p data = Ok data).
Proof.
  split.
  - intros Hp Hl. pose proof (stake_pool_packed_len p) as Hb. unfold packed_len in Hb.
    eexists. rewrite to_writer_Ok. split; [split; [lia|done]|].
    eapply to_writer_read; [by apply stake_pool_typed|]. apply to_writer_Ok. split; [lia|done].
  - intros (Ht & rest & ->)%try_from_slice_unchecked_Ok.
    split; [by apply stake_pool_typed|]. apply to_writer_Ok.
    rewrite length_app, drop_app_length. split; [lia|done].
Qed.

Lemma stake_pool_account_roundtrip_witness :
  exists data', to_writer (pool_with_totals 7 5) (replicate 611 x00) = Ok data' /\
    try_from_slice_unchecked data' = Ok (pool_with_totals 7 5) /\ length data' = 611%nat.
Proof.
  apply (proj1 (stake_pool_account_roundtrip (pool_with_totals 7 5) (replicate 611 x00)));
    [apply pool_with_totals_typed; unfold is_uint; lia|vm_compute; lia].
Defined.

(** [FutureEpoch] is Borsh-compatible with [Option]: a reader that expects
    an option decodes every encoding of [None] and [One], and rejects [Two]. *)
Theorem future_epoch_option_compatible {T} `{Borsh T} (fe : FutureEpoch T) rest :
  borsh_typed fe ->
  borsh_de (T:=option T) (borsh_ser fe ++ rest) =
    match fe with
    | FENone | FEOne _ => Some (future_into_option fe, rest)
    | FETwo _ => None
    end.
Proof. intros Ht. destruct fe; simpl in *; [done|by rewrite borsh_de_ser|done]. Qed.

Lemma future_epoch_option_compatible_witness :
  borsh_de (T:=option Fee) (borsh_ser (FEOne (mkFee 3 2)) ++ []) = Some (Some (mkFee 3 2), []).
Proof.
  apply (future_epoch_option_compatible (FEOne (mkFee 3 2)) []). vm_compute.
  split; split; discriminate || reflexivity.
Defined.
