(* ===== verification/ValidatorList.v ===== *)
(** * The validator list (src/program/src/state.rs)

    [ValidatorStakeInfo] entries with their fixed 73-byte layout, the status
    state machine of an entry, the byte-level predicates the processor searches
    with, and the list header in front of the [BigVec]. *)

From S2P Require Import Prelude Errors Fees Pool BigVec Borsh.

(** ** Stake status *)

(** [enum StakeStatus] *)
Inductive StakeStatus : Type :=
| Active
| DeactivatingTransient
| ReadyForRemoval
| DeactivatingValidator
| DeactivatingAll.
#[export] Instance StakeStatus_eq_dec : EqDecision StakeStatus.
Proof. solve_decision. Defined.

(** [FromPrimitive::from_u8] *)
Definition stake_status_from_u8 (b : byte) : option StakeStatus :=
  match b with
  | x00 => Some Active
  | x01 => Some DeactivatingTransient
  | x02 => Some ReadyForRemoval
  | x03 => Some DeactivatingValidator
  | x04 => Some DeactivatingAll
  | _ => None
  end.

(** [impl From<StakeStatus> for PodStakeStatus] *)
Definition status_into_pod (s : StakeStatus) : byte :=
  match s with
  | Active => x00
  | DeactivatingTransient => x01
  | ReadyForRemoval => x02
  | DeactivatingValidator => x03
  | DeactivatingAll => x04
  end.

(** [impl TryFrom<PodStakeStatus> for StakeStatus] *)
Definition status_try_from (b : byte) : presult StakeStatus :=
  ok_or InvalidAccountData (stake_status_from_u8 b).

(** [PodStakeStatus::remove_validator_stake] *)
Definition remove_validator_stake (self : byte) : presult byte :=
  status ← status_try_from self;
  Ok (status_into_pod
        match status with
        | Active | DeactivatingTransient | ReadyForRemoval => status
        | DeactivatingAll => DeactivatingTransient
        | DeactivatingValidator => ReadyForRemoval
        end).

(** [PodStakeStatus::remove_transient_stake] *)
Definition remove_transient_stake (self : byte) : presult byte :=
  status ← status_try_from self;
  Ok (status_into_pod
        match status with
        | Active | DeactivatingValidator | ReadyForRemoval => status
        | DeactivatingAll => DeactivatingValidator
        | DeactivatingTransient => ReadyForRemoval
        end).

(** [enum StakeWithdrawSource] *)
Inductive StakeWithdrawSource := SourceActive | SourceTransient | SourceValidatorRemoval.

(** ** List entries *)

(** [struct ValidatorStakeInfo]; the integer fields are [PodU64] / [PodU32]. *)
Record ValidatorStakeInfo := mkVSI {
  active_stake_lamports : byte_array 8;
  transient_stake_lamports : byte_array 8;
  vsi_last_update_epoch : byte_array 8;
  transient_seed_suffix : byte_array 8;
  unused : byte_array 4;
  validator_seed_suffix : byte_array 4;
  status : byte;
  vote_account_address : Pubkey;
}.
#[export] Instance VSI_settable : Settable ValidatorStakeInfo := fun v =>
  mkVSI (active_stake_lamports v) (transient_stake_lamports v) (vsi_last_update_epoch v)
    (transient_seed_suffix v) (unused v) (validator_seed_suffix v) (status v)
    (vote_account_address v).
#[export] Instance VSI_eq_dec : EqDecision ValidatorStakeInfo.
Proof. solve_decision. Defined.

(** [ValidatorStakeInfo::LEN] *)
Definition VSI_LEN : nat := 73.

(** The field bytes, in declaration order without padding. *)
Definition vsi_bytes (v : ValidatorStakeInfo) : list byte :=
  arr_bytes (active_stake_lamports v) ++ arr_bytes (transient_stake_lamports v) ++
  arr_bytes (vsi_last_update_epoch v) ++ arr_bytes (transient_seed_suffix v) ++
  arr_bytes (unused v) ++ arr_bytes (validator_seed_suffix v) ++ [status v] ++
  arr_bytes (vote_account_address v).

(** Borsh: the same fields in the same order ([PodU64] encodes as its array). *)
#[export] Instance byte_codec : Borsh byte.
Proof.
  refine {| borsh_ser b := [b];
            borsh_de l := match l with [] => None | b :: l => Some (b, l) end;
            borsh_typed _ := True |}.
  - done.
  - intros [|b l] x rest; [done|]. by intros [=-> ->].
Defined.

#[export] Instance vsi_codec : Borsh ValidatorStakeInfo.
Proof.
  refine (@iso_codec (byte_array 8 * (byte_array 8 * (byte_array 8 * (byte_array 8 *
      (byte_array 4 * (byte_array 4 * (byte * Pubkey))))))) ValidatorStakeInfo _
    (fun '(a, (t, (e, (s, (u, (vs, (st, k))))))) => mkVSI a t e s u vs st k)
    (fun v => (active_stake_lamports v, (transient_stake_lamports v,
      (vsi_last_update_epoch v, (transient_seed_suffix v, (unused v,
      (validator_seed_suffix v, (status v, vote_account_address v)))))))) _ _).
  - by intros [].
  - intros t. repeat match goal with x : prod _ _ |- _ => destruct x end. done.
Defined.

Lemma vsi_ser_bytes v : borsh_ser v = vsi_bytes v.
Proof. done. Qed.

Lemma length_vsi_bytes v : length (vsi_bytes v) = VSI_LEN.
Proof. unfold vsi_bytes. rewrite !length_app, !length_arr_bytes. done. Qed.

Lemma vsi_typed v : borsh_typed v.
Proof. cbn. tauto. Qed.

(** Fixed-size codecs that accept every byte string of their size. *)
Class BorshTotal {T} (c : Borsh T) (n : nat) : Prop :=
  borsh_total l : (n <= length l)%nat ->
    exists x rest, @borsh_de T c l = Some (x, rest) /\ length rest = (length l - n)%nat.

#[export] Instance byte_total : BorshTotal byte_codec 1.
Proof. intros [|b l] Hl; simpl in *; [lia|]. eexists _, _. split; [done|lia]. Qed.

#[export] Instance array_total n : BorshTotal (array_codec n) n.
Proof.
  intros l Hl. destruct (array_of_bytes_total n (take n l)) as [a Ha];
    [rewrite length_take; lia|].
  exists a, (drop n l). rewrite length_drop. split; [|done]. simpl. unfold take_bytes.
  rewrite (proj2 (Nat.leb_le _ _)) by lia. simpl. by rewrite Ha.
Qed.

#[export] Instance pair_total {A B} (ca : Borsh A) (cb : Borsh B) n m :
  BorshTotal ca n -> BorshTotal cb m -> BorshTotal (@pair_codec A B ca cb) (n + m).
Proof.
  intros Ha Hb l Hl. destruct (Ha l ltac:(lia)) as (a & l1 & Ea & Hl1).
  destruct (Hb l1 ltac:(lia)) as (b & l2 & Eb & Hl2).
  exists (a, b), l2. split; [|lia]. simpl. rewrite Ea. simpl. by rewrite Eb.
Qed.

#[export] Instance iso_total {A B} (c : Borsh A) (f : A -> B) g fg gf n :
  BorshTotal c n -> BorshTotal (@iso_codec A B c f g fg gf) n.
Proof.
  intros Hc l Hl. destruct (Hc l Hl) as (a & rest & E & Hr).
  exists (f a), rest. split; [|done]. simpl. by rewrite E.
Qed.

Lemma vsi_total : BorshTotal vsi_codec (8 + (8 + (8 + (8 + (4 + (4 + (1 + PUBKEY_BYTES))))))).
Proof. unfold vsi_codec. apply _. Qed.

(** [bytemuck::Pod] for the [repr(C)] struct *)
#[export] Instance vsi_Pod : Pod ValidatorStakeInfo.
Proof.
  refine {| size_of := VSI_LEN;
            to_bytes := vsi_bytes;
            of_bytes l := match borsh_de l with Some (v, []) => Some v | _ => None end |}.
  - unfold VSI_LEN. lia.
  - apply length_vsi_bytes.
  - intros v. rewrite <- vsi_ser_bytes, <- (app_nil_r (borsh_ser v)).
    by rewrite borsh_de_ser by apply vsi_typed.
  - intros l v. destruct (borsh_de l) as [[w [|]]|] eqn:E; try done. intros [=->].
    apply borsh_ser_de in E as [_ ->]. by rewrite app_nil_r.
  - intros l Hl. destruct (vsi_total l) as (v & rest & E & Hr); [rewrite Hl; done|].
    rewrite E. rewrite Hl in Hr. destruct rest; [by eexists|done].
Defined.

(** [Pack::pack_into_slice] and [unpack_from_slice] *)
Definition vsi_pack_into_slice (self : ValidatorStakeInfo) (data : list byte) : presult (list byte) :=
  unwrap (result_ok (to_writer self data)).
Definition vsi_unpack_from_slice (src : list byte) : presult ValidatorStakeInfo :=
  try_from_slice src.

(** [ValidatorStakeInfo::default()] *)
Definition vsi_default : ValidatorStakeInfo :=
  mkVSI (array_of_uint 8 0) (array_of_uint 8 0) (array_of_uint 8 0) (array_of_uint 8 0)
    (array_of_uint 4 0) (array_of_uint 4 0) x00 pubkey_default.

(** [ValidatorStakeInfo::stake_lamports] *)
Definition stake_lamports (self : ValidatorStakeInfo) : result StakePoolError Z :=
  ok_or CalculationFailure
    (checked_add 64 (uint_of_array (active_stake_lamports self))
       (uint_of_array (transient_stake_lamports self))).

(** [ValidatorStakeInfo::memcmp_pubkey] *)
Definition memcmp_pubkey (vote_address : Pubkey) (data : list byte) : presult bool :=
  s ← unwrap (slice 41 (41 + PUBKEY_BYTES) data);
  Ok (bool_decide (s = pk_bytes vote_address)).

(** [ValidatorStakeInfo::active_lamports_greater_than] *)
Definition active_lamports_greater_than (lamports : Z) (data : list byte) : presult bool :=
  s ← unwrap (slice 0 8 data); Ok (lamports <? le_decode s).

(** [ValidatorStakeInfo::transient_lamports_greater_than] *)
Definition transient_lamports_greater_than (lamports : Z) (data : list byte) : presult bool :=
  s ← unwrap (slice 8 16 data); Ok (lamports <? le_decode s).

(** [ValidatorStakeInfo::is_removed]; the second operand of [&&] is evaluated
    only when the first holds. *)
Definition is_removed (data : list byte) : presult bool :=
  b ← unwrap (data !! 40%nat);
  if bool_decide (stake_status_from_u8 b = Some ReadyForRemoval) then
    s ← unwrap (slice 0 16 data); Ok (bool_decide (s = replicate 16 x00))
  else Ok false.

(** [ValidatorStakeInfo::is_active] *)
Definition is_active (data : list byte) : presult bool :=
  b ← unwrap (data !! 40%nat); Ok (bool_decide (stake_status_from_u8 b = Some Active)).

(** ** The list *)

(** [struct ValidatorListHeader] and [struct ValidatorList] *)
Record ValidatorListHeader := mkHeader { vl_account_type : AccountType; max_validators : Z }.
Record ValidatorList := mkValidatorList {
  header : ValidatorListHeader;
  validators : list ValidatorStakeInfo;
}.

(** [ValidatorListHeader::LEN] *)
Definition HEADER_LEN : nat := 1 + 4.

(** [ValidatorListHeader::is_valid], [is_uninitialized] *)
Definition header_is_valid (self : ValidatorListHeader) : bool :=
  bool_decide (vl_account_type self = ValidatorListType).
Definition header_is_uninitialized (self : ValidatorListHeader) : bool :=
  bool_decide (vl_account_type self = Uninitialized).

(** [ValidatorList::new] *)
Definition validator_list_new (max : Z) : ValidatorList :=
  mkValidatorList (mkHeader ValidatorListType max) (replicate (Z.to_nat max) vsi_default).

(** [ValidatorList::calculate_max_validators] *)
Definition calculate_max_validators (buffer_length : Z) : Z :=
  saturating_sub buffer_length (saturating_add 64 (Z.of_nat HEADER_LEN) 4) / Z.of_nat VSI_LEN.

(** [ValidatorList::contains], [find], [find_mut], [has_active_stake] *)
Definition vl_contains (self : ValidatorList) (vote : Pubkey) : bool :=
  existsb (fun x => vote_account_address x =?ₖ vote) (validators self).
Definition vl_find (self : ValidatorList) (vote : Pubkey) : option ValidatorStakeInfo :=
  snd <$> list_find (fun x => vote_account_address x = vote) (validators self).
Definition has_active_stake (self : ValidatorList) : bool :=
  existsb (fun x => 0 <? uint_of_array (active_stake_lamports x)) (validators self).

#[export] Instance header_codec : Borsh ValidatorListHeader.
Proof.
  refine (@iso_codec (AccountType * Z) ValidatorListHeader
    (@pair_codec _ _ account_type_codec u32_codec)
    (fun '(t, m) => mkHeader t m) (fun h => (vl_account_type h, max_validators h)) _ _).
  - by intros [].
  - by intros [].
Defined.

(** [ValidatorListHeader::deserialize_vec]: the header and the bytes of the
    [BigVec] behind it. *)
Definition deserialize_vec (data : list byte) : presult (ValidatorListHeader * list byte) :=
  h ← try_from_slice_unchecked data;
  Ok (h, drop (packed_len h) data).

(** [ValidatorListHeader::deserialize_mut_slice] *)
Definition vl_deserialize_mut_slice (big_vec : list byte) (skip len : Z)
    : presult (nat * list ValidatorStakeInfo) :=
  deserialize_mut_slice skip len big_vec.

(** ** The whole list as a Borsh value *)

(** Decode [n] values in a row. *)
Fixpoint borsh_de_n {T} `{Borsh T} (n : nat) (l : list byte) : option (list T * list byte) :=
  match n with
  | O => Some ([], l)
  | S n => '(x, l) ← borsh_de l; '(xs, l) ← borsh_de_n n l; Some (x :: xs, l)
  end.

Lemma borsh_de_n_ser {T} `{Borsh T} (xs : list T) rest :
  Forall borsh_typed xs ->
  borsh_de_n (length xs) (concat (borsh_ser <$> xs) ++ rest) = Some (xs, rest).
Proof.
  induction 1 as [|x xs Hx Hxs IH]; [done|]. cbn. rewrite <- app_assoc, borsh_de_ser by done.
  cbn. by rewrite IH.
Qed.

Lemma borsh_ser_de_n {T} `{Borsh T} n l (xs : list T) rest :
  borsh_de_n n l = Some (xs, rest) ->
  length xs = n /\ Forall borsh_typed xs /\ l = concat (borsh_ser <$> xs) ++ rest.
Proof.
  revert l xs rest. induction n as [|n IH]; intros l xs rest Hd; [by injection Hd as <- <-|].
  cbn in Hd. apply bind_Some in Hd as ([x l1] & Hx & Hd).
  apply bind_Some in Hd as ([ys l2] & Hys & [=<- <-]).
  apply borsh_ser_de in Hx as [Ht ->]. apply IH in Hys as (<- & Hts & ->).
  split; [done|]. split; [by constructor|]. cbn. by rewrite <- app_assoc.
Qed.

(** [Vec<T>]: a [u32] count, then the elements. *)
#[export] Instance vec_codec {T} `{Borsh T} : Borsh (list T).
Proof.
  refine {| borsh_ser xs := le_encode 4 (Z.of_nat (length xs)) ++ concat (borsh_ser <$> xs);
            borsh_de l := '(n, l) ← @borsh_de Z u32_codec l; borsh_de_n (Z.to_nat n) l;
            borsh_typed xs := Z.of_nat (length xs) < 2 ^ 32 /\ Forall borsh_typed xs |}.
  - intros xs rest [Hn Hxs]. rewrite <- app_assoc.
    change (le_encode 4 ?z) with (@borsh_ser Z u32_codec z).
    rewrite borsh_de_ser by (simpl; lia). cbn [mbind option_bind].
    rewrite Nat2Z.id. by apply borsh_de_n_ser.
  - intros l xs rest Hd. apply bind_Some in Hd as ([n l1] & Hn & Hd).
    apply borsh_ser_de in Hn as [Hn ->]. apply borsh_ser_de_n in Hd as (Hl & Ht & ->).
    assert (0 <= n < 2 ^ 32) by exact Hn.
    split; [split; [lia|done]|]. rewrite Hl, Z2Nat.id, <- app_assoc by lia. done.
Defined.

#[export] Instance validator_list_codec : Borsh ValidatorList.
Proof.
  refine (@iso_codec (ValidatorListHeader * list ValidatorStakeInfo) ValidatorList _
    (fun '(h, vs) => mkValidatorList h vs) (fun l => (header l, validators l)) _ _).
  - by intros [].
  - by intros [].
Defined.

(** [data] holds the list [vl]; whatever lies behind the last entry is unused
    room.  This is the abstract state the account stands for. *)
Definition list_rep (vl : ValidatorList) (data : list byte) : Prop :=
  exists big_vec, data = borsh_ser (header vl) ++ big_vec /\ borsh_typed (header vl) /\
    vec_rep (validators vl) big_vec.

Lemma length_header (h : ValidatorListHeader) : packed_len h = HEADER_LEN.
Proof.
  unfold packed_len. cbn. rewrite length_app, length_le_encode. by destruct (vl_account_type h).
Qed.

Lemma vsi_vec_bytes vs : vec_bytes vs = concat (borsh_ser <$> vs).
Proof. done. Qed.

Lemma vsi_all_typed vs : Forall (borsh_typed (T:=ValidatorStakeInfo)) vs.
Proof. apply Forall_true. apply vsi_typed. Qed.

(** The two readers of the account agree: decoding the whole list gives [vl]
    exactly when the bytes hold [vl]. *)
Lemma list_rep_decode vl data :
  Z.of_nat (length data) < 2 ^ 63 ->
  list_rep vl data <-> try_from_slice_unchecked data = Ok vl.
Proof.
  intros Hlen. rewrite try_from_slice_unchecked_Ok. split.
  - intros (v & -> & Hh & rest & -> & Hn & _). split.
    + split; [done|]. split; [done|]. apply vsi_all_typed.
    + exists rest. cbn. by rewrite <- !app_assoc.
  - intros [(Hh & Hn & _) [rest ->]]. cbn in Hh, Hn.
    eexists. split; [cbn; rewrite <- app_assoc; reflexivity|]. split; [done|].
    exists rest. split; [by rewrite <- app_assoc|]. split; [done|].
    cbn in Hlen. rewrite !length_app in *. lia.
Qed.

Lemma deserialize_vec_rep vl data :
  list_rep vl data ->
  exists big_vec, deserialize_vec data = Ok (header vl, big_vec) /\
    data = borsh_ser (header vl) ++ big_vec /\ vec_rep (validators vl) big_vec.
Proof.
  intros (v & -> & Hh & Hv). exists v. split; [|done]. unfold deserialize_vec.
  rewrite (proj2 (try_from_slice_unchecked_Ok _ (header vl))) by eauto.
  cbn [mbind result_bind]. unfold packed_len. by rewrite drop_app_length.
Qed.

(** ** Record-level meaning of the byte predicates *)

Definition vsi_is_removed (v : ValidatorStakeInfo) : bool :=
  bool_decide (stake_status_from_u8 (status v) = Some ReadyForRemoval) &&
  (uint_of_array (active_stake_lamports v) =? 0) &&
  (uint_of_array (transient_stake_lamports v) =? 0).

Definition vsi_is_active (v : ValidatorStakeInfo) : bool :=
  bool_decide (stake_status_from_u8 (status v) = Some Active).

(** The entry's bytes around each field. *)
Lemma vsi_split v (i j : nat) p s q :
  vsi_bytes v = p ++ s ++ q -> length p = i -> length s = (j - i)%nat -> (i <= j)%nat ->
  slice i j (vsi_bytes v) = Some s.
Proof. intros -> Hp Hs Hij. apply slice_app'; lia. Qed.

Lemma vsi_vote_slice v :
  slice 41 (41 + PUBKEY_BYTES) (vsi_bytes v) = Some (pk_bytes (vote_account_address v)).
Proof.
  apply (vsi_split v 41 _
    (arr_bytes (active_stake_lamports v) ++ arr_bytes (transient_stake_lamports v) ++
     arr_bytes (vsi_last_update_epoch v) ++ arr_bytes (transient_seed_suffix v) ++
     arr_bytes (unused v) ++ arr_bytes (validator_seed_suffix v) ++ [status v]) _ []).
  - unfold vsi_bytes. by rewrite <- !app_assoc, app_nil_r.
  - rewrite !length_app, !length_arr_bytes. done.
  - rewrite length_arr_bytes. done.
  - unfold PUBKEY_BYTES. lia.
Qed.

Lemma vsi_active_slice v :
  slice 0 8 (vsi_bytes v) = Some (arr_bytes (active_stake_lamports v)).
Proof. eapply (vsi_split v 0 8 [] _ _); [reflexivity|..]; rewrite ?length_arr_bytes; done || lia. Qed.

Lemma vsi_transient_slice v :
  slice 8 16 (vsi_bytes v) = Some (arr_bytes (transient_stake_lamports v)).
Proof. eapply (vsi_split v 8 16 _ _ _); [reflexivity|..]; rewrite ?length_arr_bytes; done || lia. Qed.

Lemma vsi_stakes_slice v :
  slice 0 16 (vsi_bytes v) =
    Some (arr_bytes (active_stake_lamports v) ++ arr_bytes (transient_stake_lamports v)).
Proof.
  eapply (vsi_split v 0 16 [] _ _).
  - unfold vsi_bytes. rewrite app_assoc. reflexivity.
  - done.
  - rewrite length_app, !length_arr_bytes. done.
  - lia.
Qed.

Lemma vsi_status_byte v : vsi_bytes v !! 40%nat = Some (status v).
Proof.
  unfold vsi_bytes. rewrite !app_assoc. rewrite <- app_assoc.
  rewrite lookup_app_r by (rewrite !length_app, !length_arr_bytes; lia).
  by rewrite !length_app, !length_arr_bytes.
Qed.

Lemma arr_zero_iff {n} (a : byte_array n) :
  arr_bytes a = replicate n x00 <-> uint_of_array a = 0.
Proof.
  rewrite <- (array_of_uint_of_array a) at 1. rewrite arr_bytes_of_uint. split.
  - intros He. apply (f_equal le_decode) in He. rewrite le_decode_encode in He
      by apply uint_of_array_range. rewrite He. clear. induction n as [|n IH]; [done|].
    change (le_decode (replicate (S n) x00)) with (0 + 256 * le_decode (replicate n x00)).
    by rewrite IH.
  - intros ->. clear. induction n as [|n IH]; [done|].
    change (le_encode (S n) 0) with (x00 :: le_encode n 0). by rewrite IH.
Qed.

Lemma memcmp_pubkey_decides k :
  decides (memcmp_pubkey k) (fun v => vote_account_address v =?ₖ k).
Proof.
  intros v. unfold memcmp_pubkey. cbn [to_bytes vsi_Pod]. rewrite vsi_vote_slice.
  cbn. unfold pubkey_eqb. do 2 f_equal. apply bool_decide_ext.
  split; [apply array_eq|by intros ->].
Qed.

Lemma active_greater_decides n :
  decides (active_lamports_greater_than n) (fun v => n <? uint_of_array (active_stake_lamports v)).
Proof. intros v. unfold active_lamports_greater_than. cbn [to_bytes vsi_Pod]. by rewrite vsi_active_slice. Qed.

Lemma transient_greater_decides n :
  decides (transient_lamports_greater_than n)
    (fun v => n <? uint_of_array (transient_stake_lamports v)).
Proof. intros v. unfold transient_lamports_greater_than. cbn [to_bytes vsi_Pod]. by rewrite vsi_transient_slice. Qed.

Lemma is_active_decides : decides is_active vsi_is_active.
Proof. intros v. unfold is_active. cbn [to_bytes vsi_Pod]. by rewrite vsi_status_byte. Qed.

Lemma is_removed_decides : decides is_removed vsi_is_removed.
Proof.
  intros v. unfold is_removed, vsi_is_removed. cbn [to_bytes vsi_Pod].
  rewrite vsi_status_byte. cbn [unwrap mbind result_bind].
  case_bool_decide; [|done]. rewrite vsi_stakes_slice. cbn [unwrap mbind result_bind andb].
  f_equal. apply eq_bool_prop_intro. rewrite bool_decide_spec, andb_True, !Is_true_true, !Z.eqb_eq.
  rewrite <- !arr_zero_iff. change (replicate 16 x00) with (replicate 8 x00 ++ replicate 8 x00).
  split; [intros He; apply app_inj_1 in He as [-> ->]; [done|]|by intros [-> ->]].
  by rewrite length_arr_bytes.
Qed.

(** Searching the buffer in place is searching the decoded list. *)
Lemma vec_find_list_find predicate (P : ValidatorStakeInfo -> bool) vs v :
  vec_rep vs v -> decides predicate P ->
  vec_find predicate v = Ok (snd <$> list_find (fun x => P x = true) vs).
Proof.
  intros Hv Hd. unfold vec_find. rewrite (vec_find_mut_rep _ P vs v Hv Hd). cbn.
  by destruct (list_find _ vs) as [[]|].
Qed.

Lemma list_find_bool {A} (P : A -> bool) (Q : A -> Prop) `{!forall x, Decision (Q x)} xs :
  (forall x, P x = true <-> Q x) -> list_find (fun x => P x = true) xs = list_find Q xs.
Proof.
  intros HPQ. induction xs as [|x xs IH]; [done|]. cbn.
  destruct (decide (P x = true)) as [HP|HP], (decide (Q x)) as [HQ|HQ]; try done.
  - destruct HQ. by apply HPQ.
  - destruct HP. by apply HPQ.
  - by rewrite IH.
Qed.

Lemma length_list_ser vl :
  length (borsh_ser vl) = (HEADER_LEN + 4 + VSI_LEN * length (validators vl))%nat.
Proof.
  change (borsh_ser vl) with (borsh_ser (header vl) ++ borsh_ser (validators vl)).
  rewrite length_app. fold (packed_len (header vl)). rewrite length_header.
  change (borsh_ser (validators vl)) with
    (le_encode 4 (Z.of_nat (length (validators vl))) ++ vec_bytes (validators vl)).
  rewrite length_app, length_le_encode, length_vec_bytes. cbn [size_of vsi_Pod]. lia.
Qed.

(** ** Theorems *)

(** the byte-level predicates that [BigVec] searches with read the fields
    they mean: on the 73 bytes of any entry, [memcmp_pubkey] compares the vote
    account, the two [greater_than] tests compare the active and the transient
    lamports, [is_active] tests the status, and [is_removed] holds exactly for a
    [ReadyForRemoval] entry without active and transient lamports. *)
Theorem entry_predicates_correct (k : Pubkey) (n : Z) :
  decides (memcmp_pubkey k) (fun v => vote_account_address v =?ₖ k) /\
  decides (active_lamports_greater_than n) (fun v => n <? uint_of_array (active_stake_lamports v)) /\
  decides (transient_lamports_greater_than n)
    (fun v => n <? uint_of_array (transient_stake_lamports v)) /\
  decides is_active (fun v => bool_decide (stake_status_from_u8 (status v) = Some Active)) /\
  decides is_removed (fun v => bool_decide (stake_status_from_u8 (status v) = Some ReadyForRemoval) &&
    (uint_of_array (active_stake_lamports v) =? 0) &&
    (uint_of_array (transient_stake_lamports v) =? 0)).
Proof.
  split; [apply memcmp_pubkey_decides|]. split; [apply active_greater_decides|].
  split; [apply transient_greater_decides|]. split; [apply is_active_decides|apply is_removed_decides].
Qed.

(** the removal state machine of an entry.  Removing the validator stake
    and the transient stake commute; together they take every deactivating
    status to [ReadyForRemoval], and leave [Active] and [ReadyForRemoval] alone;
    a byte that is no status is an [InvalidAccountData] error on either path. *)
Theorem removal_status_machine (b : byte) :
  (remove_validator_stake b ≫= remove_transient_stake) =
  (remove_transient_stake b ≫= remove_validator_stake) /\
  (remove_validator_stake b ≫= remove_transient_stake) =
    (s ← status_try_from b;
     Ok (status_into_pod match s with Active => Active | _ => ReadyForRemoval end)) /\
  (stake_status_from_u8 b = None ->
     remove_validator_stake b = Err InvalidAccountData /\
     remove_transient_stake b = Err InvalidAccountData).
Proof.
  unfold remove_validator_stake, remove_transient_stake, status_try_from.
  destruct (stake_status_from_u8 b) as [s|]; [|done]. split; [|split; [|done]].
  - by destruct s.
  - by destruct s.
Qed.

Lemma removal_status_machine_witness :
  stake_status_from_u8 x05 = None /\ remove_validator_stake x05 = Err InvalidAccountData.
Proof. split; [reflexivity|]. apply (removal_status_machine x05). reflexivity. Defined.

(** the account size of a list.  A list with [n] entries packs into
    exactly [9 + 73 n] bytes, [calculate_max_validators] inverts that size, and
    in general it is the largest number of entries that fits a buffer. *)
Theorem list_capacity (buffer_length n max : Z) :
  0 <= buffer_length < 2 ^ 64 -> 0 < n -> 0 <= max ->
  (n <= calculate_max_validators buffer_length <->
     Z.of_nat HEADER_LEN + 4 + Z.of_nat VSI_LEN * n <= buffer_length) /\
  Z.of_nat (packed_len (validator_list_new max)) = 9 + 73 * max /\
  (9 + 73 * max < 2 ^ 64 -> calculate_max_validators (9 + 73 * max) = max).
Proof.
  intros Hb Hn Hm. unfold calculate_max_validators, saturating_sub, saturating_add, HEADER_LEN, VSI_LEN.
  replace (Z.min (Z.of_nat (1 + 4) + 4) (2 ^ 64 - 1)) with 9 by lia.
  change (Z.of_nat 73) with 73. change (Z.of_nat (1 + 4)) with 5. split; [|split].
  - rewrite Z.max_comm. pose proof (div_bounds (Z.max 0 (buffer_length - 9)) 73 ltac:(lia)). lia.
  - unfold packed_len. rewrite length_list_ser. cbn [validators validator_list_new].
    rewrite length_replicate. unfold HEADER_LEN, VSI_LEN. lia.
  - intros _. replace (Z.max (9 + 73 * max - 9) 0) with (max * 73) by lia. by apply Z.div_mul.
Qed.

Lemma list_capacity_witness : calculate_max_validators (9 + 73 * 2950) = 2950.
Proof. apply (list_capacity 100 1 2950); lia. Defined.

(** working on the list in place agrees with decoding it.  For an account
    whose bytes decode as the list [vl], [deserialize_vec] splits off the same
    header and a vector of the same length, and searching that vector by vote
    address finds what [ValidatorList::find] finds in [vl]; the in-place search
    succeeds exactly when [ValidatorList::contains] holds. *)
Theorem in_place_list_agrees (vl : ValidatorList) (data : list byte) (vote : Pubkey) :
  Z.of_nat (length data) < 2 ^ 63 -> try_from_slice_unchecked data = Ok vl ->
  exists big_vec, deserialize_vec data = Ok (header vl, big_vec) /\
    vec_len big_vec = Ok (Z.of_nat (length (validators vl))) /\
    vec_find (memcmp_pubkey vote) big_vec = Ok (vl_find vl vote) /\
    (is_Some (vl_find vl vote) <-> vl_contains vl vote = true).
Proof.
  intros Hlen Hd. apply (list_rep_decode vl data Hlen) in Hd.
  apply deserialize_vec_rep in Hd as (v & Hv & _ & Hr). exists v.
  split; [done|]. split; [by apply vec_len_rep|]. split.
  - rewrite (vec_find_list_find _ _ _ _ Hr (memcmp_pubkey_decides vote)). unfold vl_find.
    f_equal. f_equal. apply list_find_bool. intros x. apply pubkey_eqb_true.
  - unfold vl_find, vl_contains. rewrite fmap_is_Some, existsb_exists. split.
    + intros [[i x] (Hi & Hx & _)%list_find_Some]. exists x.
      split; [by apply list_elem_of_In, (list_elem_of_lookup_2 _ i)|by apply pubkey_eqb_true].
    + intros (x & Hx & Hv'). apply (list_find_elem_of _ _ x).
      * by apply list_elem_of_In.
      * by apply pubkey_eqb_true.
Qed.

(** A list of two entries, and its account. *)
Definition example_list : ValidatorList :=
  mkValidatorList (mkHeader ValidatorListType 3)
    [vsi_default <| vote_account_address := pubkey_repeat x01 |>;
     vsi_default <| vote_account_address := pubkey_repeat x02 |>].

Lemma in_place_list_agrees_witness :
  exists big_vec,
    deserialize_vec (borsh_ser example_list ++ replicate 73 x00) = Ok (header example_list, big_vec) /\
    vec_len big_vec = Ok 2 /\
    vec_find (memcmp_pubkey (pubkey_repeat x02)) big_vec =
      Ok (vl_find example_list (pubkey_repeat x02)) /\
    (is_Some (vl_find example_list (pubkey_repeat x02)) <->
       vl_contains example_list (pubkey_repeat x02) = true).
Proof.
  apply (in_place_list_agrees example_list (borsh_ser example_list ++ replicate 73 x00)).
  - vm_compute. reflexivity.
  - vm_compute. reflexivity.
Defined.
