(* ===== verification/Runtime.v ===== *)
(** * The runtime the processor runs on

    Accounts, sysvars, cross-program invocation and the state-and-error monad
    the handlers are written in.  Everything here that is not under src/ (the
    Solana runtime, the stake, system and token programs, the session SDK) is a
    field of the class [Runtime]; the documented behaviour a theorem relies on
    is a separate class of laws. *)

From S2P Require Import Prelude Errors Fees Pool BigVec Borsh ValidatorList.

(** ** Accounts *)

(** What [AccountInfo] shares with the runtime: lamports, data and owner. *)
Record Account := mkAccount {
  acc_lamports : Z;
  acc_data : list byte;
  acc_owner : Pubkey;
}.

(** What is fixed for the instruction. *)
Record AccountInfo := mkInfo { key : Pubkey; is_signer : bool; is_writable : bool }.

(** ** Stake accounts ([solana_stake_interface::state]), as far as the program
    reads them *)
Record Authorized := mkAuthorized { auth_staker : Pubkey; auth_withdrawer : Pubkey }.
Record Meta := mkMeta {
  rent_exempt_reserve : Z;
  authorized : Authorized;
  meta_lockup : Lockup;
}.
Record Delegation := mkDelegation {
  voter_pubkey : Pubkey;
  delegation_stake : Z;
  activation_epoch : Z;
  deactivation_epoch : Z;
}.
Record Stake := mkStake { delegation : Delegation }.
Inductive StakeStateV2 :=
| StakeUninitialized
| StakeInitialized (meta : Meta)
| StakeStake (meta : Meta) (stake : Stake)
| StakeRewardsPool.

(** [StakeStateV2::meta], [StakeStateV2::delegation] *)
Definition stake_state_meta (s : StakeStateV2) : option Meta :=
  match s with StakeInitialized m | StakeStake m _ => Some m | _ => None end.
Definition stake_state_delegation (s : StakeStateV2) : option Delegation :=
  match s with StakeStake _ st => Some (delegation st) | _ => None end.

(** [Epoch::MAX] *)
Definition EPOCH_MAX : Z := 2 ^ 64 - 1.

(** ** Token accounts ([spl_token_2022]) *)
Inductive ExtensionType :=
| ExtUninitialized
| TransferFeeConfig
| ConfidentialTransferMint
| ConfidentialTransferFeeConfig
| DefaultAccountState
| InterestBearingConfig
| MetadataPointer
| TokenMetadata
| TransferFeeAmount
| ImmutableOwner
| CpiGuard
| OtherExtension (discriminant : Z).
#[export] Instance ExtensionType_eq_dec : EqDecision ExtensionType.
Proof. solve_decision. Defined.

(** [Mint] with its extension list, which is parsed on demand and can fail. *)
Record Mint := mkMint {
  mint_supply : Z;
  mint_decimals : Z;
  mint_authority : option Pubkey;
  freeze_authority : option Pubkey;
  mint_extensions : presult (list ExtensionType);
}.
Record TokenAccount := mkTokenAccount {
  token_mint : Pubkey;
  token_amount : Z;
  token_initialized : bool;
  token_extensions : presult (list ExtensionType);
}.

(** ** Sysvars *)
Record Clock := mkClock { epoch : Z }.
(** [Rent], through its one method the program uses. *)
Record Rent := mkRent { minimum_balance : Z -> Z }.
(** [Rent::is_exempt] *)
Definition rent_is_exempt (r : Rent) (balance data_len : Z) : bool :=
  minimum_balance r data_len <=? balance.

(** ** Cross-program instructions

    One constructor per instruction the program builds with a library
    function; [RawInstruction] for the ones whose bytes it builds itself. *)
Inductive StakeAuthorize := AuthorizeStaker | AuthorizeWithdrawer.
Record AccountMeta := mkAccountMeta { am_key : Pubkey; am_signer : bool; am_writable : bool }.

Inductive CpiInstruction :=
| SystemAllocate (account : Pubkey) (space : Z)
| SystemAssign (account owner : Pubkey)
| SystemTransfer (from to : Pubkey) (lamports : Z)
| StakeDelegate (stake authority vote : Pubkey)
| StakeDeactivate (stake authority : Pubkey)
| StakeSplit (stake authority : Pubkey) (lamports : Z) (split_stake : Pubkey)
| StakeMerge (destination source authority : Pubkey)
| StakeAuthorizeIx (stake authority new_authority : Pubkey) (kind : StakeAuthorize)
| StakeWithdraw (from withdrawer to : Pubkey) (lamports : Z)
| TokenBurn (token_program account mint authority : Pubkey) (amount : Z)
| TokenMintTo (token_program mint account owner : Pubkey) (amount : Z)
| TokenTransferChecked (token_program source mint destination authority : Pubkey)
    (amount decimals : Z)
| TokenInitializeAccount3 (token_program account mint owner : Pubkey)
| TokenCloseAccount (token_program account destination owner : Pubkey)
| TokenSyncNative (token_program account : Pubkey)
| SessionBurn (token_program account mint authority : Pubkey) (program_signer : option Pubkey)
    (amount : Z)
| SessionTransferChecked (token_program source mint destination authority : Pubkey)
    (program_signer : option Pubkey) (amount decimals : Z)
| CreateAssociatedTokenAccountIdempotent (payer owner mint token_program : Pubkey)
| CreatePdaAccount (payer : Pubkey) (rent : Rent) (space : Z) (owner new_account : Pubkey)
| RawInstruction (program_id : Pubkey) (accounts : list AccountMeta) (data : list byte).

(** Signer seeds: one list of seeds per program-derived signer. *)
Abbreviation seeds := (list (list byte)).

(** ** The platform *)
Class Runtime := {
  (* program and account ids *)
  system_program_id : Pubkey;
  stake_program_id : Pubkey;
  native_mint_id : Pubkey;
  associated_token_program_id : Pubkey;
  (* sysvars *)
  clock_get : presult Clock;
  clock_from_account_info : AccountInfo -> Account -> presult Clock;
  rent_get : presult Rent;
  rent_from_account_info : AccountInfo -> Account -> presult Rent;
  epoch_rewards_active : presult bool;
  get_minimum_delegation : presult Z;
  stake_error_insufficient_delegation : Z;
  (* program-derived addresses *)
  find_program_address : seeds -> Pubkey -> Pubkey * Z;
  create_program_address : seeds -> Pubkey -> presult Pubkey;
  get_associated_token_address : Pubkey -> Pubkey -> Pubkey;
  (* account layouts of other programs *)
  stake_state_size : Z;
  token_account_len : Z;
  decode_stake_state : list byte -> presult StakeStateV2;
  unpack_mint : list byte -> presult Mint;
  unpack_token_account : list byte -> presult TokenAccount;
  unpack_spl_token_account : list byte -> presult TokenAccount;
  (* library checks *)
  check_spl_token_program_account : Pubkey -> presult unit;
  check_spl_token_v1_program_account : Pubkey -> presult unit;
  check_session_token_program : Pubkey -> presult unit;
  extract_user_from_signer_or_session : AccountInfo -> Account -> Pubkey -> presult Pubkey;
  program_signer_seed : list byte;
  (* execution of an instruction of another program, called by [program_id] *)
  exec_cpi : Pubkey -> gmap Pubkey Account -> CpiInstruction -> list AccountInfo -> list seeds ->
    presult (gmap Pubkey Account);
}.

(** One completed cross-program invocation. *)
Record CpiCall := mkCall { call_ix : CpiInstruction; call_signers : list seeds }.

(** The state of a running instruction: the accounts, the outstanding
    [RefCell] borrows of account data, the running program, and the completed
    invocations (a ghost trace). *)
Record World := mkWorld {
  accounts : gmap Pubkey Account;
  borrowed_mut : list Pubkey;
  borrowed_shared : list Pubkey;
  running_program : Pubkey;
  cpi_log : list CpiCall;
}.
#[export] Instance World_settable : Settable World := fun w =>
  mkWorld (accounts w) (borrowed_mut w) (borrowed_shared w) (running_program w) (cpi_log w).
#[export] Instance Account_settable : Settable Account := fun a =>
  mkAccount (acc_lamports a) (acc_data a) (acc_owner a).

(** ** The monad of handlers

    A handler is a state transformer that can fail; a failure reverts the
    whole transaction, so it carries no state. *)
Definition M (A : Type) : Type := World -> presult (A * World).
#[export] Instance M_ret : MRet M := fun A a w => Ok (a, w).
#[export] Instance M_bind : MBind M := fun A B f m w =>
  match m w with Ok (a, w) => f a w | Err e => Err e | Panic => Panic end.

(** [e?] for a pure fallible expression *)
Definition lift {A} (r : presult A) : M A := fun w =>
  match r with Ok a => Ok (a, w) | Err e => Err e | Panic => Panic end.
(** [e?] for an expression that reads the accounts *)
Definition read {A} (f : World -> presult A) : M A := fun w =>
  match f w with Ok a => Ok (a, w) | Err e => Err e | Panic => Panic end.
(** The [Result] of such an expression, inspected instead of propagated *)
Definition observe {A} (f : World -> presult A) : M (presult A) := fun w =>
  match f w with Panic => Panic | r => Ok (r, w) end.
(** [if c { return Err(e) }] *)
Definition fail_if (c : bool) (e : ProgramError) : M unit := lift (err_if c e).
(** [if c { body }] *)
Definition when (c : bool) (m : M unit) : M unit := if c then m else mret tt.
(** [o.ok_or(StakePoolError::E)?] *)
Definition ok_or_pool {A} (o : option A) (e : StakePoolError) : M A :=
  lift (ok_or (into_program_error e) o).

Definition is_err {A} (r : presult A) : bool := match r with Err _ => true | _ => false end.

(** [next_account_info] *)
Definition next_account_info (it : list AccountInfo) : presult (AccountInfo * list AccountInfo) :=
  match it with [] => Err NotEnoughAccountKeys | a :: it => Ok (a, it) end.

(** Take [n] accounts with [next_account_info]. *)
Fixpoint next_account_infos (n : nat) (it : list AccountInfo)
    : presult (list AccountInfo * list AccountInfo) :=
  match n with
  | O => Ok ([], it)
  | S n => '(a, it) ← next_account_info it; '(l, it) ← next_account_infos n it; Ok (a :: l, it)
  end.

Section Platform.
Context `{Runtime}.

(** An address without an account reads as an empty system account. *)
Definition empty_account : Account := mkAccount 0 [] system_program_id.
Definition account (w : World) (k : Pubkey) : Account := default empty_account (accounts w !! k).

(** [info.lamports()], [info.data_len()], [info.owner] *)
Definition lamports_of (info : AccountInfo) (w : World) : Z := acc_lamports (account w (key info)).
Definition owner_of (info : AccountInfo) (w : World) : Pubkey := acc_owner (account w (key info)).
Definition data_len_of (info : AccountInfo) (w : World) : Z :=
  Z.of_nat (length (acc_data (account w (key info)))).

Definition lamports (info : AccountInfo) : M Z := fun w => Ok (lamports_of info w, w).
Definition data_len (info : AccountInfo) : M Z := fun w => Ok (data_len_of info w, w).
Definition owner (info : AccountInfo) : M Pubkey := fun w => Ok (owner_of info w, w).

(** [info.data.borrow()], which panics while a mutable borrow is out *)
Definition borrow (info : AccountInfo) (w : World) : presult (list byte) :=
  if bool_decide (key info ∈ borrowed_mut w) then Panic else Ok (acc_data (account w (key info))).
(** [info.try_borrow_data()] *)
Definition try_borrow_data (info : AccountInfo) (w : World) : presult (list byte) :=
  if bool_decide (key info ∈ borrowed_mut w) then Err AccountBorrowFailed
  else Ok (acc_data (account w (key info))).

Definition put_data (k : Pubkey) (d : list byte) (w : World) : World :=
  w <| accounts := <[k := (account w k) <| acc_data := d |>]> (accounts w) |>.

(** Writing through a mutable borrow that is held. *)
Definition write_data (info : AccountInfo) (d : list byte) : M unit := fun w =>
  Ok (tt, put_data (key info) d w).

(** [let data = info.data.borrow_mut()], held until [drop_borrow_mut] *)
Definition borrow_mut (info : AccountInfo) : M (list byte) := fun w =>
  if bool_decide (key info ∈ borrowed_mut w ++ borrowed_shared w) then Panic
  else Ok (acc_data (account w (key info)), w <| borrowed_mut := key info :: borrowed_mut w |>).
Definition drop_borrow_mut (info : AccountInfo) : M unit := fun w =>
  Ok (tt, w <| borrowed_mut := filter (fun k => k <> key info) (borrowed_mut w) |>).
(** [let data = info.try_borrow_data()?], held until [drop_borrow] *)
Definition hold_borrow (info : AccountInfo) : M (list byte) := fun w =>
  if bool_decide (key info ∈ borrowed_mut w) then Err AccountBorrowFailed
  else Ok (acc_data (account w (key info)), w <| borrowed_shared := key info :: borrowed_shared w |>).
Definition drop_borrow (info : AccountInfo) : M unit := fun w =>
  Ok (tt, w <| borrowed_shared := filter (fun k => k <> key info) (borrowed_shared w) |>).

(** [borsh::to_writer(&mut info.data.borrow_mut()[..], &x)?] *)
Definition store {T} `{Borsh T} (info : AccountInfo) (x : T) : M unit := fun w =>
  if bool_decide (key info ∈ borrowed_mut w ++ borrowed_shared w) then Panic
  else
    d ← to_writer x (acc_data (account w (key info)));
    Ok (tt, put_data (key info) d w).

(** [try_from_slice_unchecked::<T>(&info.data.borrow())] *)
Definition load (T : Type) `{Borsh T} (info : AccountInfo) (w : World) : presult T :=
  d ← borrow info w; try_from_slice_unchecked d.

(** [try_from_slice_unchecked::<StakeStateV2>(&info.data.borrow())] *)
Definition load_stake_state (info : AccountInfo) (w : World) : presult StakeStateV2 :=
  d ← borrow info w; decode_stake_state d.

(** [Clock::from_account_info], [Rent::from_account_info] *)
Definition clock_from (info : AccountInfo) (w : World) : presult Clock :=
  clock_from_account_info info (account w (key info)).
Definition rent_from (info : AccountInfo) (w : World) : presult Rent :=
  rent_from_account_info info (account w (key info)).

(** [invoke_signed]: an account whose data is mutably borrowed cannot be
    passed; the callee sees and updates the accounts. *)
Definition invoke_signed (ix : CpiInstruction) (infos : list AccountInfo) (signers : list seeds)
    : M unit := fun w =>
  if existsb (fun i => bool_decide (key i ∈ borrowed_mut w)) infos then Err AccountBorrowFailed
  else
    accts ← exec_cpi (running_program w) (accounts w) ix infos signers;
    Ok (tt, w <| accounts := accts |> <| cpi_log := cpi_log w ++ [mkCall ix signers] |>).

(** [invoke] *)
Definition invoke (ix : CpiInstruction) (infos : list AccountInfo) : M unit :=
  invoke_signed ix infos [].
End Platform.

(** ** What a successful run computed *)

Lemma M_bind_Ok {A B} (m : M A) (f : A -> M B) w b w2 :
  (m ≫= f) w = Ok (b, w2) <-> exists a w1, m w = Ok (a, w1) /\ f a w1 = Ok (b, w2).
Proof.
  unfold mbind, M_bind. split.
  - destruct (m w) as [[a w1]|e|]; [|done..]. eauto.
  - by intros (a & w1 & -> & ->).
Qed.

Lemma lift_Ok {A} (r : presult A) w a w' : lift r w = Ok (a, w') <-> r = Ok a /\ w' = w.
Proof. unfold lift. destruct r; naive_solver. Qed.

Lemma read_Ok {A} (f : World -> presult A) w a w' : read f w = Ok (a, w') <-> f w = Ok a /\ w' = w.
Proof. unfold read. destruct (f w); naive_solver. Qed.

Lemma observe_Ok {A} (f : World -> presult A) w r w' :
  observe f w = Ok (r, w') <-> f w = r /\ r <> Panic /\ w' = w.
Proof. unfold observe. destruct (f w); naive_solver. Qed.

Lemma fail_if_Ok c e w u w' : fail_if c e w = Ok (u, w') <-> c = false /\ w' = w.
Proof. unfold fail_if. rewrite lift_Ok, err_if_Ok. done. Qed.

Lemma when_Ok c m w u w' :
  when c m w = Ok (u, w') <-> (c = true /\ m w = Ok (u, w') \/ c = false /\ w' = w).
Proof. unfold when, mret, M_ret. destruct c, u; naive_solver. Qed.

Lemma ok_or_pool_Ok {A} (o : option A) e w a w' :
  ok_or_pool o e w = Ok (a, w') <-> o = Some a /\ w' = w.
Proof. unfold ok_or_pool. by rewrite lift_Ok, ok_or_Ok. Qed.

(** Invert a successful run of a handler, step by step. *)
Ltac inv_run_step H :=
  lazymatch type of H with
  | @mbind M _ _ _ _ _ _ = Ok _ =>
      let a := fresh "v" in let w := fresh "w" in let H1 := fresh "Hr" in
      apply M_bind_Ok in H as (a & w & H1 & H); cbv beta in H; inv_run_step H1; inv_run_step H
  | @mret M _ _ _ _ = Ok _ => injection H as ??; subst
  | lift _ _ = Ok _ =>
      let E := fresh "Ew" in apply lift_Ok in H as [H E]; subst_eq E; inv_ok_step H
  | read _ _ = Ok _ => let E := fresh "Ew" in apply read_Ok in H as [H E]; subst_eq E
  | observe _ _ = Ok _ =>
      let E := fresh "Ew" in let N := fresh "Hnp" in
      apply observe_Ok in H as (H & N & E); subst_eq E
  | fail_if _ _ _ = Ok _ => let E := fresh "Ew" in apply fail_if_Ok in H as [H E]; subst_eq E
  | ok_or_pool _ _ _ = Ok _ => let E := fresh "Ew" in apply ok_or_pool_Ok in H as [H E]; subst_eq E
  | lamports _ _ = Ok _ => injection H as ??; subst
  | data_len _ _ = Ok _ => injection H as ??; subst
  | owner _ _ = Ok _ => injection H as ??; subst
  | (let '(_, _) := ?p in _) _ = Ok _ =>
      first [is_var p; destruct p | let E := fresh "Epair" in destruct p eqn:E]; inv_run_step H
  | (if ?c then _ else _) _ = Ok _ => let E := fresh "Hc" in destruct c eqn:E; inv_run_step H
  | Ok _ = Ok _ => injection H as ??; subst
  | Err _ = Ok _ => discriminate H
  | _ => idtac
  end.
Tactic Notation "inv_run" hyp(H) := inv_run_step H.

(** ** How the primitives change the world *)

Section Primitives.
Context `{Runtime}.

(** The pool stored at an address. *)
Definition pool_at (w : World) (k : Pubkey) : presult StakePool :=
  try_from_slice_unchecked (acc_data (account w k)).

Lemma account_put_data w k d :
  account (put_data k d w) k = (account w k) <| acc_data := d |>.
Proof. unfold account, put_data. simpl. by rewrite lookup_insert_eq. Qed.

Lemma account_put_data_ne w k k' d : k <> k' -> account (put_data k d w) k' = account w k'.
Proof. intros. unfold account, put_data. simpl. by rewrite lookup_insert_ne. Qed.

Lemma store_Ok {T} `{Borsh T} info (x : T) w u w' :
  store info x w = Ok (u, w') <->
  key info ∉ borrowed_mut w ++ borrowed_shared w /\
  exists d, to_writer x (acc_data (account w (key info))) = Ok d /\ w' = put_data (key info) d w.
Proof.
  unfold store. case_bool_decide; [naive_solver|].
  rewrite bind_Ok. destruct u. naive_solver.
Qed.

(** A stored value is what is loaded from that account. *)
Lemma store_pool_at info (p : StakePool) w u w' :
  pool_typed p -> store info p w = Ok (u, w') -> pool_at w' (key info) = Ok p.
Proof.
  intros Hp (_ & d & Hd & ->)%store_Ok. unfold pool_at. rewrite account_put_data. simpl.
  eapply to_writer_read; [by apply stake_pool_typed|done].
Qed.

Lemma load_pool_at info w p : load StakePool info w = Ok p -> pool_at w (key info) = Ok p.
Proof. unfold load, borrow. case_bool_decide; [done|]. done. Qed.

Lemma pool_at_typed w k p : pool_at w k = Ok p -> pool_typed p.
Proof. intros [Ht _]%try_from_slice_unchecked_Ok. by apply stake_pool_typed. Qed.

Lemma invoke_signed_Ok ix infos s w u w' :
  invoke_signed ix infos s w = Ok (u, w') ->
  Forall (fun i => key i ∉ borrowed_mut w) infos /\
  exists accts, exec_cpi (running_program w) (accounts w) ix infos s = Ok accts /\
    w' = w <| accounts := accts |> <| cpi_log := cpi_log w ++ [mkCall ix s] |>.
Proof.
  unfold invoke_signed. destruct (existsb _ infos) eqn:Hb; [done|].
  intros (accts & Hx & [=_ <-])%bind_Ok. split; [|eauto].
  apply Forall_forall. intros i Hi Hm.
  assert (existsb (fun i => bool_decide (key i ∈ borrowed_mut w)) infos = true) as Ht; [|congruence].
  apply existsb_exists. exists i. split; [by apply list_elem_of_In|by apply bool_decide_eq_true].
Qed.
End Primitives.
