(* ===== verification/Platform.v ===== *)
(** * Laws of the platform, and a concrete platform

    [RuntimeLaws] names what the processor's theorems rely on: that other
    programs leave the program's own accounts alone, and that the values they
    hand over have their types.  [demo] is a small executable platform (a
    system, a stake and a token program over simple account layouts) that
    satisfies them; the witnesses of the processor's theorems run on it. *)

From S2P Require Import Prelude Errors Fees Pool BigVec Borsh ValidatorList Runtime.

(** Lamports are [u64]. *)
Definition lamports_typed (accts : gmap Pubkey Account) : Prop :=
  map_Forall (fun _ a => is_uint 64 (acc_lamports a)) accts.

(** The integer fields of a stake account are [u64]. *)
Definition meta_typed (m : Meta) : Prop := is_uint 64 (rent_exempt_reserve m).
Definition stake_typed (s : Stake) : Prop := is_uint 64 (delegation_stake (delegation s)).
Definition stake_state_typed (s : StakeStateV2) : Prop :=
  match s with
  | StakeInitialized m => meta_typed m
  | StakeStake m st => meta_typed m /\ stake_typed st
  | _ => True
  end.

Class RuntimeLaws (R : Runtime) (program_id : Pubkey) : Prop := {
  (** Only the program that owns an account changes its data or its owner: an
      instruction of another program leaves the data of the calling program's
      accounts alone.  (It may credit lamports to them.) *)
  cpi_keeps_owned accts ix infos s accts' k a :
    @exec_cpi R program_id accts ix infos s = Ok accts' ->
    accts !! k = Some a -> acc_owner a = program_id ->
    exists a', accts' !! k = Some a' /\ acc_data a' = acc_data a /\ acc_owner a' = program_id;
  (** The values other programs hand over have their types. *)
  cpi_lamports_typed accts ix infos s accts' :
    @exec_cpi R program_id accts ix infos s = Ok accts' ->
    lamports_typed accts -> lamports_typed accts';
  unpack_mint_typed d m : @unpack_mint R d = Ok m -> is_uint 64 (mint_supply m);
  decode_stake_typed d s : @decode_stake_state R d = Ok s -> stake_state_typed s;
  clock_typed c : @clock_get R = Ok c -> is_uint 64 (epoch c);
  bump_typed s k : is_uint 8 (snd (@find_program_address R s k));
}.

(** ** A concrete platform *)
Module Demo.

Definition system_id : Pubkey := pubkey_default.
Definition stake_id : Pubkey := pubkey_repeat x51.
Definition token_id : Pubkey := pubkey_repeat x06.
Definition program : Pubkey := pubkey_repeat x77.

(** Account layouts. *)
#[local] Infix "⊗" := (@pair_codec _ _) (at level 62, right associativity).
Definition key_codec : Borsh Pubkey := array_codec PUBKEY_BYTES.
Definition meta_codec : Borsh (Z * (Pubkey * (Pubkey * Lockup))) :=
  u64_codec ⊗ key_codec ⊗ key_codec ⊗ lockup_codec.
Definition delegation_codec : Borsh (Pubkey * (Z * (Z * Z))) :=
  key_codec ⊗ u64_codec ⊗ u64_codec ⊗ u64_codec.
Definition mint_codec : Borsh (Z * (Z * (option Pubkey * option Pubkey))) :=
  u64_codec ⊗ u8_codec ⊗ option_codec ⊗ option_codec.
Definition token_codec : Borsh (Pubkey * Z) := key_codec ⊗ u64_codec.

Definition meta_of '(r, (s, (w, l))) : Meta := mkMeta r (mkAuthorized s w) l.
Definition of_meta (m : Meta) :=
  (rent_exempt_reserve m, (auth_staker (authorized m), (auth_withdrawer (authorized m), meta_lockup m))).
Definition stake_of '(v, (s, (a, d))) : Stake := mkStake (mkDelegation v s a d).
Definition of_stake (s : Stake) :=
  let d := delegation s in (voter_pubkey d, (delegation_stake d, (activation_epoch d, deactivation_epoch d))).

Definition decode_stake (l : list byte) : presult StakeStateV2 :=
  match l with
  | x00 :: _ => Ok StakeUninitialized
  | x01 :: l =>
      '(m, _) ← ok_or BorshIoError (@borsh_de _ meta_codec l); Ok (StakeInitialized (meta_of m))
  | x02 :: l =>
      '(m, l) ← ok_or BorshIoError (@borsh_de _ meta_codec l);
      '(d, _) ← ok_or BorshIoError (@borsh_de _ delegation_codec l);
      Ok (StakeStake (meta_of m) (stake_of d))
  | x03 :: _ => Ok StakeRewardsPool
  | _ => Err BorshIoError
  end.
Definition encode_stake (s : StakeStateV2) : list byte :=
  match s with
  | StakeUninitialized => [x00]
  | StakeInitialized m => x01 :: @borsh_ser _ meta_codec (of_meta m)
  | StakeStake m st => x02 :: @borsh_ser _ meta_codec (of_meta m) ++ @borsh_ser _ delegation_codec (of_stake st)
  | StakeRewardsPool => [x03]
  end.

Definition decode_mint (l : list byte) : presult Mint :=
  '((s, (d, (ma, fa))), _) ← ok_or InvalidAccountData (@borsh_de _ mint_codec l);
  Ok (mkMint s d ma fa (Ok [])).
Definition encode_mint (m : Mint) : list byte :=
  @borsh_ser _ mint_codec (mint_supply m, (mint_decimals m, (mint_authority m, freeze_authority m))).
Definition decode_token (l : list byte) : presult TokenAccount :=
  '((m, a), _) ← ok_or InvalidAccountData (@borsh_de _ token_codec l);
  Ok (mkTokenAccount m a true (Ok [])).
Definition encode_token (t : TokenAccount) : list byte :=
  @borsh_ser _ token_codec (token_mint t, token_amount t).

(** Program-derived addresses: a polynomial hash of the seeds. *)
Definition hash (s : seeds) : Pubkey :=
  array_of_uint 32 (fold_left (fun h b => (h * 257 + Z_of_byte b + 1) mod 2 ^ 256) (concat s) 7).

(** ** Instructions of the other programs *)
Definition get (accts : gmap Pubkey Account) (k : Pubkey) : Account :=
  default (mkAccount 0 [] system_id) (accts !! k).
Definition move_lamports (from to : Pubkey) (n : Z) (accts : gmap Pubkey Account)
    : presult (gmap Pubkey Account) :=
  err_if (acc_lamports (get accts from) <? n) InsufficientFunds;;
  let accts := <[from := (get accts from) <| acc_lamports := acc_lamports (get accts from) - n |>]> accts in
  Ok (<[to := (get accts to) <| acc_lamports := acc_lamports (get accts to) + n |>]> accts).
Definition set_data (k : Pubkey) (d : list byte) (accts : gmap Pubkey Account) : gmap Pubkey Account :=
  <[k := (get accts k) <| acc_data := d |>]> accts.
Definition update_stake (k : Pubkey) (f : StakeStateV2 -> StakeStateV2) (accts : gmap Pubkey Account)
    : presult (gmap Pubkey Account) :=
  s ← decode_stake (acc_data (get accts k)); Ok (set_data k (encode_stake (f s)) accts).
Definition update_mint (k : Pubkey) (n : Z) (accts : gmap Pubkey Account) : presult (gmap Pubkey Account) :=
  m ← decode_mint (acc_data (get accts k));
  Ok (set_data k (encode_mint (mkMint (mint_supply m + n) (mint_decimals m) (mint_authority m)
                                 (freeze_authority m) (Ok []))) accts).
Definition update_token (k : Pubkey) (n : Z) (accts : gmap Pubkey Account) : presult (gmap Pubkey Account) :=
  t ← decode_token (acc_data (get accts k));
  err_if (token_amount t + n <? 0) InsufficientFunds;;
  Ok (set_data k (encode_token (mkTokenAccount (token_mint t) (token_amount t + n) true (Ok []))) accts).

Definition delegated (n : Z) (s : StakeStateV2) : StakeStateV2 :=
  match s with
  | StakeStake m st =>
      let d := delegation st in
      StakeStake m (mkStake (mkDelegation (voter_pubkey d) (delegation_stake d + n)
                               (activation_epoch d) (deactivation_epoch d)))
  | s => s
  end.
Definition stake_amount (s : StakeStateV2) : Z :=
  match s with StakeStake _ st => delegation_stake (delegation st) | _ => 0 end.
Definition with_authority (kind : StakeAuthorize) (a : Pubkey) (m : Meta) : Meta :=
  let au := authorized m in
  mkMeta (rent_exempt_reserve m)
    match kind with
    | AuthorizeStaker => mkAuthorized a (auth_withdrawer au)
    | AuthorizeWithdrawer => mkAuthorized (auth_staker au) a
    end (meta_lockup m).

Definition EPOCH : Z := 10.
Definition RENT : Z := 2000.

Definition step (accts : gmap Pubkey Account) (ix : CpiInstruction) : presult (gmap Pubkey Account) :=
  match ix with
  | SystemAllocate k _ => Ok (set_data k [x00] accts)
  | SystemAssign k o => Ok (<[k := (get accts k) <| acc_owner := o |>]> accts)
  | SystemTransfer from to n | StakeWithdraw from _ to n => move_lamports from to n accts
  | StakeDelegate k _ vote =>
      let l := acc_lamports (get accts k) in
      update_stake k (fun s =>
        match s with
        | StakeInitialized m | StakeStake m _ => StakeStake m (mkStake (mkDelegation vote (l - RENT) EPOCH EPOCH_MAX))
        | s => s
        end) accts
  | StakeDeactivate k _ =>
      update_stake k (fun s =>
        match s with
        | StakeStake m st =>
            let d := delegation st in
            StakeStake m (mkStake (mkDelegation (voter_pubkey d) (delegation_stake d) (activation_epoch d) EPOCH))
        | s => s
        end) accts
  | StakeSplit k _ n to =>
      s ← decode_stake (acc_data (get accts k));
      accts ← move_lamports k to n accts;
      let accts := set_data to (encode_stake (delegated (n - stake_amount s) s)) accts in
      update_stake k (delegated (- n)) accts
  | StakeMerge to from _ =>
      s ← decode_stake (acc_data (get accts from));
      accts ← move_lamports from to (acc_lamports (get accts from)) accts;
      accts ← update_stake to (delegated (stake_amount s)) accts;
      Ok (set_data from [] accts)
  | StakeAuthorizeIx k _ a kind =>
      update_stake k (fun s =>
        match s with
        | StakeInitialized m => StakeInitialized (with_authority kind a m)
        | StakeStake m st => StakeStake (with_authority kind a m) st
        | s => s
        end) accts
  | TokenMintTo _ m k _ n => accts ← update_mint m n accts; update_token k n accts
  | TokenBurn _ k m _ n | SessionBurn _ k m _ _ n =>
      accts ← update_mint m (- n) accts; update_token k (- n) accts
  | TokenTransferChecked _ from _ to _ n _ | SessionTransferChecked _ from _ to _ _ n _ =>
      accts ← update_token from (- n) accts; update_token to n accts
  | TokenInitializeAccount3 _ k m _ => Ok (set_data k (encode_token (mkTokenAccount m 0 true (Ok []))) accts)
  | CreatePdaAccount p r sp o k => Ok (<[k := mkAccount (minimum_balance r sp) [] o]> accts)
  | TokenCloseAccount _ k to _ => move_lamports k to (acc_lamports (get accts k)) accts
  | _ => Ok accts
  end.

(** The runtime's verification of an instruction: the caller's accounts keep
    their data and owner. *)
Definition protect (program_id : Pubkey) (before after : gmap Pubkey Account) : gmap Pubkey Account :=
  merge (fun o n =>
    match o with
    | Some a => if acc_owner a =?ₖ program_id
                then Some (a <| acc_lamports := acc_lamports (default a n) |>) else n
    | None => n
    end) before after.

#[export] Instance demo : Runtime := {|
  system_program_id := system_id;
  stake_program_id := stake_id;
  native_mint_id := pubkey_repeat x52;
  associated_token_program_id := pubkey_repeat x53;
  clock_get := Ok (mkClock EPOCH);
  clock_from_account_info _ _ := Ok (mkClock EPOCH);
  rent_get := Ok (mkRent (fun _ => RENT));
  rent_from_account_info _ _ := Ok (mkRent (fun _ => RENT));
  epoch_rewards_active := Ok false;
  get_minimum_delegation := Ok 1;
  stake_error_insufficient_delegation := 12;
  find_program_address s _ := (hash s, 255);
  create_program_address s _ := Ok (hash (removelast s));
  get_associated_token_address o m := hash [pk_bytes o; pk_bytes m];
  stake_state_size := 200;
  token_account_len := 165;
  decode_stake_state := decode_stake;
  unpack_mint := decode_mint;
  unpack_token_account := decode_token;
  unpack_spl_token_account := decode_token;
  check_spl_token_program_account k := err_if (negb (k =?ₖ token_id)) IncorrectProgramId;
  check_spl_token_v1_program_account k := err_if (negb (k =?ₖ token_id)) IncorrectProgramId;
  check_session_token_program k := err_if (negb (k =?ₖ token_id)) IncorrectProgramId;
  extract_user_from_signer_or_session i _ _ :=
    if is_signer i then Ok (key i) else Err MissingRequiredSignature;
  program_signer_seed := [x70];
  exec_cpi pid accts ix _ _ :=
    accts' ← step accts ix;
    let accts' := protect pid accts accts' in
    if bool_decide (lamports_typed accts') then Ok accts' else Err InsufficientFunds;
|}.

Lemma protect_owned program_id before after k a :
  before !! k = Some a -> acc_owner a = program_id ->
  exists a', protect program_id before after !! k = Some a' /\ acc_data a' = acc_data a /\
    acc_owner a' = program_id.
Proof.
  intros Hk Ho. unfold protect. rewrite lookup_merge, Hk.
  unfold diag_None. rewrite (proj2 (pubkey_eqb_true _ _) Ho). by eexists.
Qed.

Lemma exec_demo pid accts ix infos s accts' :
  exec_cpi pid accts ix infos s = Ok accts' ->
  lamports_typed accts' /\ exists m, accts' = protect pid accts m.
Proof.
  intros Hx. cbn in Hx. apply bind_Ok in Hx as (m & _ & Hx). case_bool_decide; [|done].
  injection Hx as <-. eauto.
Qed.

Lemma decode_stake_demo d s : decode_stake d = Ok s -> stake_state_typed s.
Proof.
  intros Hs. destruct d as [|b l]; [done|]. destruct b; try done; cbn [decode_stake] in Hs.
  - by injection Hs as <-.
  - apply bind_Ok in Hs as ([m r] & Hm%ok_or_Ok & [=<-]).
    apply borsh_ser_de in Hm as [Hm _]. destruct m as (? & ? & ? & ?). apply Hm.
  - apply bind_Ok in Hs as ([m r] & Hm%ok_or_Ok & Hs).
    apply bind_Ok in Hs as ([t r'] & Ht%ok_or_Ok & [=<-]).
    apply borsh_ser_de in Hm as [Hm _]. apply borsh_ser_de in Ht as [Ht _].
    destruct m as (? & ? & ? & ?), t as (? & ? & ? & ?). split; [apply Hm|apply Ht].
  - by injection Hs as <-.
Qed.

#[export] Instance demo_laws program_id : RuntimeLaws demo program_id.
Proof.
  constructor.
  - intros accts ix infos s accts' k a [_ [m ->]]%exec_demo. apply protect_owned.
  - intros accts ix infos s accts' [Hl _]%exec_demo. done.
  - intros d m Hm. cbn in Hm. unfold decode_mint in Hm.
    apply bind_Ok in Hm as ([t r] & Hm%ok_or_Ok & Heq). apply borsh_ser_de in Hm as [Hm _].
    destruct t as (? & ? & ? & ?). injection Heq as <-. apply Hm.
  - apply decode_stake_demo.
  - intros c [=<-]. vm_compute. done.
  - intros s k. vm_compute. done.
Qed.
End Demo.
