(* ===== verification/Checks.v ===== *)
(** * Addresses, checks and cross-program calls

    The address derivations and minimums of src/program/src/lib.rs, the
    validation methods of [StakePool] in src/program/src/state.rs, and the free
    functions and instruction helpers at the top of
    src/program/src/processor.rs.  A check that reads accounts is a function of
    the world, so that handlers can propagate or inspect its result. *)

From Stdlib Require Import Strings.String.
From S2P Require Import Prelude Errors Fees Pool BigVec Borsh ValidatorList Runtime.

(** ** Constants (lib.rs) *)
Definition AUTHORITY_DEPOSIT : list byte := list_byte_of_string "deposit".
Definition AUTHORITY_WITHDRAW : list byte := list_byte_of_string "withdraw".
Definition TRANSIENT_STAKE_SEED_PREFIX : list byte := list_byte_of_string "transient".
Definition EPHEMERAL_STAKE_SEED_PREFIX : list byte := list_byte_of_string "ephemeral".
Definition MINIMUM_ACTIVE_STAKE : Z := 1000000.
Definition MINIMUM_RESERVE_LAMPORTS : Z := 0.
Definition MAX_VALIDATORS_IN_POOL : Z := 20000.

(** [minimum_delegation], [minimum_stake_lamports], [minimum_reserve_lamports] *)
Definition minimum_delegation (stake_program_minimum_delegation : Z) : Z :=
  Z.max stake_program_minimum_delegation MINIMUM_ACTIVE_STAKE.
Definition minimum_stake_lamports (meta : Meta) (stake_program_minimum_delegation : Z) : Z :=
  saturating_add 64 (rent_exempt_reserve meta) (minimum_delegation stake_program_minimum_delegation).
Definition minimum_reserve_lamports (meta : Meta) : Z :=
  saturating_add 64 (rent_exempt_reserve meta) MINIMUM_RESERVE_LAMPORTS.

(** [NonZeroU32::new] *)
Definition nonzero (x : Z) : option Z := if x =? 0 then None else Some x.

(** A one-byte seed. *)
Definition bump (b : Z) : list byte := [byte_of_Z b].

(** The metadata program id declared in inline_mpl_token_metadata.rs. *)
Definition mpl_token_metadata_id : Pubkey :=
  @mkArray PUBKEY_BYTES
    [x0b; x70; x65; xb1; xe3; xd1; x7c; x45; x38; x9d; x52; x7f; x6b; x04; xc3; xcd;
     x58; xb8; x6c; x73; x1a; xa0; xfd; xb5; x49; xb6; xd1; xbc; x03; xf8; x29; x46] eq_refl.

Section Checks.
Context `{Runtime}.

(** ** Program-derived addresses (lib.rs) *)

Definition find_deposit_authority_program_address (program_id stake_pool_address : Pubkey) : Pubkey * Z :=
  find_program_address [pk_bytes stake_pool_address; AUTHORITY_DEPOSIT] program_id.

Definition find_withdraw_authority_program_address (program_id stake_pool_address : Pubkey) : Pubkey * Z :=
  find_program_address [pk_bytes stake_pool_address; AUTHORITY_WITHDRAW] program_id.

Definition find_stake_program_address (program_id vote_account_address stake_pool_address : Pubkey)
    (seed : option Z) : Pubkey * Z :=
  let seed := le_encode 4 <$> seed in
  find_program_address
    [pk_bytes vote_account_address; pk_bytes stake_pool_address; default [] seed] program_id.

Definition find_transient_stake_program_address
    (program_id vote_account_address stake_pool_address : Pubkey) (seed : Z) : Pubkey * Z :=
  find_program_address
    [TRANSIENT_STAKE_SEED_PREFIX; pk_bytes vote_account_address; pk_bytes stake_pool_address;
     le_encode 8 seed] program_id.

Definition find_ephemeral_stake_program_address (program_id stake_pool_address : Pubkey) (seed : Z)
    : Pubkey * Z :=
  find_program_address
    [EPHEMERAL_STAKE_SEED_PREFIX; pk_bytes stake_pool_address; le_encode 8 seed] program_id.

(** [pda::find_metadata_account] *)
Definition find_metadata_account (mint : Pubkey) : Pubkey * Z :=
  find_program_address
    [list_byte_of_string "metadata"; pk_bytes mpl_token_metadata_id; pk_bytes mint]
    mpl_token_metadata_id.

(** ** Validation methods of [StakePool] (state.rs) *)

(** [check_program_derived_authority] *)
Definition check_program_derived_authority (authority_address program_id stake_pool_address : Pubkey)
    (authority_seed : list byte) (bump_seed : Z) : presult unit :=
  expected_address ← create_program_address
    [pk_bytes stake_pool_address; authority_seed; bump bump_seed] program_id;
  if authority_address =?ₖ expected_address then Ok tt else fail_pool InvalidProgramAddress.

(** [is_extension_supported_for_mint] *)
Definition is_extension_supported_for_mint (extension_type : ExtensionType) : bool :=
  bool_decide (extension_type ∈
    [ExtUninitialized; TransferFeeConfig; ConfidentialTransferMint; ConfidentialTransferFeeConfig;
     DefaultAccountState; InterestBearingConfig; MetadataPointer; TokenMetadata]).

(** [is_extension_supported_for_fee_account] *)
Definition is_extension_supported_for_fee_account (extension_type : ExtensionType) : bool :=
  bool_decide (extension_type ∈ [ExtUninitialized; TransferFeeAmount; ImmutableOwner; CpiGuard]).

Section StakePool_checks.
Variable self : StakePool.

(** [check_manager_fee_info] *)
Definition check_manager_fee_info (manager_fee_info : AccountInfo) (w : World) : presult unit :=
  account_data ← try_borrow_data manager_fee_info w;
  token_account ← unpack_token_account account_data;
  err_if (negb (owner_of manager_fee_info w =?ₖ token_program_id self)
          || negb (token_initialized token_account)
          || negb (token_mint token_account =?ₖ pool_mint self))
    (into_program_error InvalidFeeAccount);;
  extensions ← token_extensions token_account;
  err_if (existsb (fun x => negb (is_extension_supported_for_fee_account x)) extensions)
    (into_program_error UnsupportedFeeAccountExtension).

(** [check_authority_withdraw] *)
Definition check_authority_withdraw (withdraw_authority program_id stake_pool_address : Pubkey)
    : presult unit :=
  check_program_derived_authority withdraw_authority program_id stake_pool_address
    AUTHORITY_WITHDRAW (stake_withdraw_bump_seed self).

(** [check_stake_deposit_authority] *)
Definition check_stake_deposit_authority (authority : Pubkey) : presult unit :=
  if stake_deposit_authority self =?ₖ authority then Ok tt
  else fail_pool InvalidStakeDepositAuthority.

(** [check_sol_deposit_authority]: the argument is the result of reading the
    optional account. *)
Definition check_sol_deposit_authority (maybe_sol_deposit_authority : presult AccountInfo)
    : presult unit :=
  match sol_deposit_authority self with
  | Some auth =>
      info ← maybe_sol_deposit_authority;
      err_if (negb (auth =?ₖ key info)) (into_program_error InvalidSolDepositAuthority);;
      err_if (negb (is_signer info)) (into_program_error SignatureMissing)
  | None => Ok tt
  end.

(** [check_sol_withdraw_authority] *)
Definition check_sol_withdraw_authority (maybe_sol_withdraw_authority : presult AccountInfo)
    : presult unit :=
  match sol_withdraw_authority self with
  | Some auth =>
      info ← maybe_sol_withdraw_authority;
      err_if (negb (auth =?ₖ key info)) (into_program_error InvalidSolWithdrawAuthority);;
      err_if (negb (is_signer info)) (into_program_error SignatureMissing)
  | None => Ok tt
  end.

(** [check_mint]: the decimals of the pool mint *)
Definition check_mint (mint_info : AccountInfo) (w : World) : presult Z :=
  if negb (key mint_info =?ₖ pool_mint self) then fail_pool WrongPoolMint
  else (mint_data ← try_borrow_data mint_info w;
        mint ← unpack_mint mint_data;
        Ok (mint_decimals mint)).

(** [check_manager], [check_staker] *)
Definition check_manager (manager_info : AccountInfo) : presult unit :=
  err_if (negb (key manager_info =?ₖ manager self)) (into_program_error WrongManager);;
  err_if (negb (is_signer manager_info)) (into_program_error SignatureMissing).

Definition check_staker (staker_info : AccountInfo) : presult unit :=
  err_if (negb (key staker_info =?ₖ staker self)) (into_program_error WrongStaker);;
  err_if (negb (is_signer staker_info)) (into_program_error SignatureMissing).

(** [check_validator_list], [check_reserve_stake] *)
Definition check_validator_list (validator_list_info : AccountInfo) : presult unit :=
  if negb (key validator_list_info =?ₖ validator_list self) then fail_pool InvalidValidatorStakeList
  else Ok tt.

Definition check_reserve_stake (reserve_stake_info : AccountInfo) : presult unit :=
  if negb (key reserve_stake_info =?ₖ reserve_stake self) then fail_pool InvalidProgramAddress
  else Ok tt.
End StakePool_checks.

(** ** Free functions (processor.rs) *)

(** [get_stake_state] *)
Definition get_stake_state (info : AccountInfo) (w : World) : presult (Meta * Stake) :=
  stake_state ← load_stake_state info w;
  match stake_state with
  | StakeStake meta stake => Ok (meta, stake)
  | _ => fail_pool WrongStakeStake
  end.

(** [check_validator_stake_address] *)
Definition check_validator_stake_address (program_id stake_pool_address stake_account_address
    vote_address : Pubkey) (seed : option Z) : presult unit :=
  let '(validator_stake_address, _) :=
    find_stake_program_address program_id vote_address stake_pool_address seed in
  if negb (validator_stake_address =?ₖ stake_account_address)
  then fail_pool InvalidStakeAccountAddress else Ok tt.

(** [check_transient_stake_address] *)
Definition check_transient_stake_address (program_id stake_pool_address stake_account_address
    vote_address : Pubkey) (seed : Z) : presult Z :=
  let '(transient_stake_address, bump_seed) :=
    find_transient_stake_program_address program_id vote_address stake_pool_address seed in
  if negb (transient_stake_address =?ₖ stake_account_address)
  then fail_pool InvalidStakeAccountAddress else Ok bump_seed.

(** [check_ephemeral_stake_address] *)
Definition check_ephemeral_stake_address (program_id stake_pool_address stake_account_address : Pubkey)
    (seed : Z) : presult Z :=
  let '(ephemeral_stake_address, bump_seed) :=
    find_ephemeral_stake_program_address program_id stake_pool_address seed in
  if negb (ephemeral_stake_address =?ₖ stake_account_address)
  then fail_pool InvalidStakeAccountAddress else Ok bump_seed.

(** [check_mpl_metadata_account_address] *)
Definition check_mpl_metadata_account_address (metadata_address mint : Pubkey) : presult unit :=
  let '(metadata_account_pubkey, _) := find_metadata_account mint in
  if negb (metadata_account_pubkey =?ₖ metadata_address)
  then fail_pool InvalidMetadataAccount else Ok tt.

(** [check_system_program], [check_stake_program], [check_mpl_metadata_program] *)
Definition check_system_program (program_id : Pubkey) : presult unit :=
  err_if (negb (program_id =?ₖ system_program_id)) IncorrectProgramId.
Definition check_stake_program (program_id : Pubkey) : presult unit :=
  err_if (negb (program_id =?ₖ stake_program_id)) IncorrectProgramId.
Definition check_mpl_metadata_program (program_id : Pubkey) : presult unit :=
  err_if (negb (program_id =?ₖ mpl_token_metadata_id)) IncorrectProgramId.

(** [check_account_owner] *)
Definition check_account_owner (info : AccountInfo) (program_id : Pubkey) (w : World) : presult unit :=
  err_if (negb (program_id =?ₖ owner_of info w)) IncorrectProgramId.

(** [stake_is_usable_by_pool] *)
Definition stake_is_usable_by_pool (meta : Meta) (expected_authority : Pubkey)
    (expected_lockup : Lockup) : bool :=
  (auth_staker (authorized meta) =?ₖ expected_authority) &&
  (auth_withdrawer (authorized meta) =?ₖ expected_authority) &&
  bool_decide (meta_lockup meta = expected_lockup).

(** [stake_is_inactive_without_history] *)
Definition stake_is_inactive_without_history (stake : Stake) (epoch : Z) : bool :=
  (deactivation_epoch (delegation stake) <? epoch) ||
  ((activation_epoch (delegation stake) =? epoch) && (deactivation_epoch (delegation stake) =? epoch)).

(** [check_if_stake_deactivating], [check_if_stake_activating] *)
Definition check_if_stake_deactivating (info : AccountInfo) (epoch : Z) (w : World) : presult unit :=
  '(_, stake) ← get_stake_state info w;
  err_if (negb (deactivation_epoch (delegation stake) =? epoch)) (into_program_error WrongStakeStake).

Definition check_if_stake_activating (info : AccountInfo) (epoch : Z) (w : World) : presult unit :=
  '(_, stake) ← get_stake_state info w;
  err_if (negb (deactivation_epoch (delegation stake) =? EPOCH_MAX)
          || negb (activation_epoch (delegation stake) =? epoch)) (into_program_error WrongStakeStake).

(** [check_stake_state] *)
Definition check_stake_state (info : AccountInfo) (withdraw_authority vote_account_address : Pubkey)
    (lockup : Lockup) (w : World) : presult unit :=
  '(meta, stake) ← get_stake_state info w;
  err_if (negb (stake_is_usable_by_pool meta withdraw_authority lockup))
    (into_program_error WrongStakeStake);;
  err_if (negb (voter_pubkey (delegation stake) =?ₖ vote_account_address))
    (into_program_error WrongStakeStake).

(** [check_validator_stake_account] *)
Definition check_validator_stake_account (info : AccountInfo) (program_id stake_pool
    withdraw_authority vote_account_address : Pubkey) (seed : Z) (lockup : Lockup) (w : World)
    : presult unit :=
  check_account_owner info stake_program_id w;;
  check_validator_stake_address program_id stake_pool (key info) vote_account_address (nonzero seed);;
  check_stake_state info withdraw_authority vote_account_address lockup w.

(** ** Cross-program calls (processor.rs) *)

(** [create_stake_account] *)
Definition create_stake_account (stake_account_info : AccountInfo) (signer_seeds : seeds)
    (stake_space : Z) : M unit :=
  invoke_signed (SystemAllocate (key stake_account_info) stake_space)
    [stake_account_info] [signer_seeds];;
  invoke_signed (SystemAssign (key stake_account_info) stake_program_id)
    [stake_account_info] [signer_seeds].

(** The seeds that sign for one of the pool's authorities. *)
Definition authority_seeds (stake_pool : Pubkey) (authority_type : list byte) (bump_seed : Z) : seeds :=
  [pk_bytes stake_pool; authority_type; bump bump_seed].

Section Processor_calls.
Variables (stake_pool : Pubkey) (authority_type : list byte) (bump_seed : Z).
Let signers : list seeds := [authority_seeds stake_pool authority_type bump_seed].

Definition stake_delegate (stake_info vote_account_info clock_info stake_history_info
    stake_config_info authority_info : AccountInfo) : M unit :=
  invoke_signed (StakeDelegate (key stake_info) (key authority_info) (key vote_account_info))
    [stake_info; vote_account_info; clock_info; stake_history_info; stake_config_info; authority_info]
    signers.

Definition stake_deactivate (stake_info clock_info authority_info : AccountInfo) : M unit :=
  invoke_signed (StakeDeactivate (key stake_info) (key authority_info))
    [stake_info; clock_info; authority_info] signers.

(** Only the last instruction of [stake::instruction::split] (the split itself)
    is invoked. *)
Definition stake_split (stake_account authority : AccountInfo) (amount : Z)
    (split_stake : AccountInfo) : M unit :=
  invoke_signed (StakeSplit (key stake_account) (key authority) amount (key split_stake))
    [stake_account; split_stake; authority] signers.

Definition stake_merge (source_account authority destination_account clock stake_history : AccountInfo)
    : M unit :=
  invoke_signed (StakeMerge (key destination_account) (key source_account) (key authority))
    [destination_account; source_account; clock; stake_history; authority] signers.

Definition stake_authorize_signed (stake_account stake_authority : AccountInfo)
    (new_stake_authority : Pubkey) (clock : AccountInfo) : M unit :=
  invoke_signed
    (StakeAuthorizeIx (key stake_account) (key stake_authority) new_stake_authority AuthorizeStaker)
    [stake_account; clock; stake_authority] signers;;
  invoke_signed
    (StakeAuthorizeIx (key stake_account) (key stake_authority) new_stake_authority AuthorizeWithdrawer)
    [stake_account; clock; stake_authority] signers.

Definition stake_withdraw (source_account authority destination_account clock stake_history : AccountInfo)
    (lamports : Z) : M unit :=
  invoke_signed
    (StakeWithdraw (key source_account) (key authority) (key destination_account) lamports)
    [source_account; destination_account; clock; stake_history; authority] signers.

(** The token-2022 instruction builders validate the token program id. *)
Definition token_mint_to (token_program mint destination authority : AccountInfo) (amount : Z) : M unit :=
  lift (check_spl_token_program_account (key token_program));;
  invoke_signed (TokenMintTo (key token_program) (key mint) (key destination) (key authority) amount)
    [mint; destination; authority] signers.
End Processor_calls.

Definition stake_authorize (stake_account stake_authority : AccountInfo)
    (new_stake_authority : Pubkey) (clock : AccountInfo) : M unit :=
  invoke
    (StakeAuthorizeIx (key stake_account) (key stake_authority) new_stake_authority AuthorizeStaker)
    [stake_account; clock; stake_authority];;
  invoke
    (StakeAuthorizeIx (key stake_account) (key stake_authority) new_stake_authority AuthorizeWithdrawer)
    [stake_account; clock; stake_authority].

Definition token_burn (token_program burn_account mint authority : AccountInfo) (amount : Z) : M unit :=
  lift (check_spl_token_program_account (key token_program));;
  invoke (TokenBurn (key token_program) (key burn_account) (key mint) (key authority) amount)
    [burn_account; mint; authority].

Definition token_transfer (token_program source mint destination authority : AccountInfo)
    (amount decimals : Z) : M unit :=
  lift (check_spl_token_program_account (key token_program));;
  invoke (TokenTransferChecked (key token_program) (key source) (key mint) (key destination)
            (key authority) amount decimals)
    [source; mint; destination; authority].

Definition sol_transfer (source destination : AccountInfo) (amount : Z) : M unit :=
  invoke (SystemTransfer (key source) (key destination) amount) [source; destination].
End Checks.
