(* ===== verification/UnitTests.v ===== *)
(** * The program's own tests (state.rs, big_vec.rs, lib.rs)

    The unit tests and property tests of the data structures, run on the model.  A
    test passes if it is [Ok tt] and panics where an assertion or an [unwrap] of it
    fails; the inputs of a property test are those its generators can make.  Unit
    tests are evaluated; property tests are proved for all their inputs, and where a
    property test claims too much, what does hold is proved instead.  The test that
    compares floating-point rates is left out. *)

From S2P Require Import Prelude Errors Fees Pool BigVec Borsh ValidatorList Runtime Platform Checks.

#[local] Open Scope Z_scope.

Abbreviation Test := (presult unit).

Definition assert (b : bool) : Test := if b then Ok tt else Panic.
(** [Result::unwrap], [unwrap_err] *)
Definition unwrap_ok {A} (r : presult A) : presult A :=
  match r with Ok a => Ok a | Err _ | Panic => Panic end.
Definition unwrap_err {A} (r : presult A) : presult ProgramError :=
  match r with Err e => Ok e | Ok _ | Panic => Panic end.
(** [+] and [-] on [u64], as tests are built. *)
Definition test_add (x y : Z) : presult Z := if x + y <? 2 ^ 64 then Ok (x + y) else Panic.
Definition test_sub (x y : Z) : presult Z := if y <=? x then Ok (x - y) else Panic.
Definition test_div (x y : Z) : presult Z := if y =? 0 then Panic else Ok (x / y).

#[export] Instance ValidatorListHeader_eq_dec : EqDecision ValidatorListHeader.
Proof. solve_decision. Defined.
#[export] Instance ValidatorList_eq_dec : EqDecision ValidatorList.
Proof. solve_decision. Defined.

(** [a.iter().zip(b.iter()).all(|(a, b)| a == b)] *)
Definition zip_all_eq {A} `{EqDecision A} (l k : list A) : bool :=
  forallb (fun '(a, b) => bool_decide (a = b)) (List.combine l k).

(** ** big_vec.rs *)
Module BigVecTests.

(** [TestStruct] *)
Record TestStruct := mkTestStruct { value : byte_array 8 }.
#[export] Instance TestStruct_eq_dec : EqDecision TestStruct.
Proof. solve_decision. Defined.
#[export] Instance TestStruct_Pod : Pod TestStruct.
Proof.
  refine {| size_of := 8%nat; to_bytes x := arr_bytes (value x);
            of_bytes l := mkTestStruct <$> array_of_bytes 8 l |}.
  - lia.
  - intros x. apply length_arr_bytes.
  - intros [v]. cbn. by rewrite array_of_arr_bytes.
  - intros l x Hx. apply fmap_Some in Hx as (v & Hv & ->). by apply array_of_bytes_Some in Hv.
  - intros l Hl. apply fmap_is_Some. by apply array_of_bytes_total.
Defined.

(** [TestStruct::new] *)
Definition test_struct_new (v : Z) : TestStruct := mkTestStruct (array_of_uint 8 v).

(** [BigVec::push] on the buffer, unwrapped. *)
Definition push_ok (x : TestStruct) (data : list byte) : presult (list byte) :=
  let '(data, r) := vec_push x data in unwrap_ok r;; Ok data.

(** [from_slice] *)
Fixpoint from_slice (data : list byte) (vec : list Z) : presult (list byte) :=
  match vec with
  | [] => Ok data
  | element :: vec => data ← push_ok (test_struct_new element) data; from_slice data vec
  end.

(** [check_big_vec_eq] *)
Definition check_big_vec_eq (big_vec : list byte) (slice : list Z) : Test :=
  n ← vec_len big_vec;
  l ← unwrap_ok (deserialize_slice (T:=TestStruct) 0 n big_vec);
  assert (forallb (fun '(a, b) => bool_decide (head (arr_bytes (value a)) = Some (byte_of_Z b)))
            (List.combine l slice)).

Definition test_push : Test :=
  let v := replicate (4 + 8 * 3) x00 in
  v ← push_ok (test_struct_new 1) v;
  check_big_vec_eq v [1];;
  v ← push_ok (test_struct_new 2) v;
  check_big_vec_eq v [1; 2];;
  v ← push_ok (test_struct_new 3) v;
  check_big_vec_eq v [1; 2; 3];;
  e ← unwrap_err (snd (vec_push (test_struct_new 4) v));
  assert (bool_decide (e = AccountDataTooSmall)).

Definition mod_2_predicate (data : list byte) : presult bool :=
  if (length data =? 8)%nat then Ok (le_decode data mod 2 =? 0) else Panic.

Definition test_retain : Test :=
  v ← from_slice (replicate (4 + 8 * 4) x00) [1; 2; 3; 4];
  v ← unwrap_ok (vec_retain (T:=TestStruct) mod_2_predicate v);
  check_big_vec_eq v [2; 4].

Definition find_predicate (a : list byte) (b : Z) : presult bool :=
  Ok (if (length a =? 8)%nat then bool_decide (head a = Some (byte_of_Z b)) else false).

Definition test_find : Test :=
  v ← from_slice (replicate (4 + 8 * 4) x00) [1; 2; 3; 4];
  a ← vec_find (T:=TestStruct) (fun x => find_predicate x 1) v;
  assert (bool_decide (a = Some (test_struct_new 1)));;
  a ← vec_find (T:=TestStruct) (fun x => find_predicate x 4) v;
  assert (bool_decide (a = Some (test_struct_new 4)));;
  a ← vec_find (T:=TestStruct) (fun x => find_predicate x 5) v;
  assert (bool_decide (a = None)).

Definition test_find_mut : Test :=
  v ← from_slice (replicate (4 + 8 * 4) x00) [1; 2; 3; 4];
  found ← vec_find_mut (T:=TestStruct) (fun x => find_predicate x 1) v;
  '(test_struct, _) ← unwrap found;
  let v := vec_assign test_struct (test_struct_new 0) v in
  check_big_vec_eq v [0; 2; 3; 4];;
  found ← vec_find_mut (T:=TestStruct) (fun x => find_predicate x 5) v;
  assert (bool_decide (found = None)).

(** [slice[i].value[0] = b]: the element in the buffer. *)
Definition set_first (offset i : nat) (b : Z) (slice : list TestStruct) (v : list byte)
    : presult (list byte) :=
  x ← unwrap (slice !! i);
  Ok (splice (offset + i * size_of TestStruct) (byte_of_Z b :: tail (arr_bytes (value x))) v).

Definition test_deserialize_mut_slice : Test :=
  v ← from_slice (replicate (4 + 8 * 4) x00) [1; 2; 3; 4];
  '(offset, slice) ← unwrap_ok (deserialize_mut_slice (T:=TestStruct) 1 2 v);
  v ← set_first offset 0 10 slice v;
  v ← set_first offset 1 11 slice v;
  check_big_vec_eq v [1; 10; 11; 4];;
  e ← unwrap_err (deserialize_mut_slice (T:=TestStruct) 1 4 v);
  assert (bool_decide (e = AccountDataTooSmall));;
  e ← unwrap_err (deserialize_mut_slice (T:=TestStruct) 4 1 v);
  assert (bool_decide (e = AccountDataTooSmall)).

Definition big_vec_tests : list Test := [test_push; test_retain; test_find; test_find_mut; test_deserialize_mut_slice].
Lemma big_vec_tests_pass : forallb is_Ok big_vec_tests = true.
Proof. by vm_compute. Qed.
End BigVecTests.

(** ** lib.rs *)
Definition validator_stake_account_derivation `{Runtime} (id vote stake_pool : Pubkey) : Test :=
  let function_derived := find_stake_program_address id vote stake_pool None in
  let hand_derived := find_program_address [pk_bytes vote; pk_bytes stake_pool] id in
  assert (bool_decide (function_derived = hand_derived)).

(** ** state.rs *)
Module StateTests.

Definition uninitialized_validator_list : ValidatorList :=
  mkValidatorList (mkHeader Uninitialized 0) [].

Definition test_entry (s : StakeStatus) (vote : byte) (active transient last : Z) : ValidatorStakeInfo :=
  mkVSI (array_of_uint 8 active) (array_of_uint 8 transient) (array_of_uint 8 last)
    (array_of_uint 8 0) (array_of_uint 4 0) (array_of_uint 4 0) (status_into_pod s) (pubkey_repeat vote).
Definition test_validator_list (max_validators : Z) : ValidatorList :=
  mkValidatorList (mkHeader ValidatorListType max_validators)
    [test_entry Active x01 (le_decode (replicate 8 xff)) (le_decode (replicate 8 x80))
       (le_decode (replicate 8 x40));
     test_entry DeactivatingTransient x02 998877665544 222222222 11223445566;
     test_entry ReadyForRemoval x03 0 0 999999999999999].

(** Written to a buffer of [size] bytes and read back. *)
Definition packs (size : nat) (stake_list : ValidatorList) : Test :=
  byte_vec ← unwrap_ok (to_writer stake_list (replicate size x00));
  stake_list_unpacked ← unwrap_ok (try_from_slice_unchecked byte_vec);
  assert (bool_decide (stake_list_unpacked = stake_list)).
Definition state_packing : Test :=
  let max_validators := 10000 in
  let size := packed_len (validator_list_new max_validators) in
  packs size uninitialized_validator_list;;
  packs size (mkValidatorList (mkHeader ValidatorListType 0) []);;
  packs size (test_validator_list max_validators).

Definition validator_list_active_stake : Test :=
  let validator_list := test_validator_list 10000 in
  assert (has_active_stake validator_list);;
  let validator_list := mkValidatorList (header validator_list)
    ((fun v => v <| active_stake_lamports := array_of_uint 8 0 |>) <$> validators validator_list) in
  assert (negb (has_active_stake validator_list)).

Definition validator_list_deserialize_mut_slice : Test :=
  let max := 10 in
  let stake_list := test_validator_list max in
  let n := Z.of_nat (length (validators stake_list)) in
  '(header, big_vec) ← unwrap_ok (deserialize_vec (borsh_ser stake_list));
  '(_, list) ← unwrap_ok (vl_deserialize_mut_slice big_vec 0 n);
  assert (bool_decide (vl_account_type header = ValidatorListType));;
  assert (max_validators header =? max);;
  assert (zip_all_eq list (validators stake_list));;
  '(_, list) ← unwrap_ok (vl_deserialize_mut_slice big_vec 1 2);
  assert (zip_all_eq list (drop 1 (validators stake_list)));;
  '(_, list) ← unwrap_ok (vl_deserialize_mut_slice big_vec 2 1);
  assert (zip_all_eq list (drop 2 (validators stake_list)));;
  '(_, list) ← unwrap_ok (vl_deserialize_mut_slice big_vec 0 2);
  assert (zip_all_eq list (take 2 (validators stake_list)));;
  e ← unwrap_err (vl_deserialize_mut_slice big_vec 0 4);
  assert (bool_decide (e = AccountDataTooSmall));;
  e ← unwrap_err (vl_deserialize_mut_slice big_vec 1 3);
  assert (bool_decide (e = AccountDataTooSmall)).

Definition validator_list_iter : Test :=
  let stake_list := test_validator_list 10 in
  '(_, big_vec) ← unwrap_ok (deserialize_vec (borsh_ser stake_list));
  n ← vec_len big_vec;
  l ← unwrap_ok (deserialize_slice (T:=ValidatorStakeInfo) 0 n big_vec);
  assert (zip_all_eq l (validators stake_list)).

(** The generators of the property tests. *)
Definition fee_gen (numerator denominator : Z) : Prop :=
  1 <= denominator <= 2 ^ 16 - 1 /\ 0 <= numerator <= denominator.
Definition total_stake_and_rewards (total_lamports rewards : Z) : Prop :=
  1 <= total_lamports + rewards < 2 ^ 64 - 1 /\ 0 <= rewards <= total_lamports + rewards.
Definition total_tokens_and_deposit (total_lamports pool_token_supply deposit_lamports : Z) : Prop :=
  exists total supply, 1 <= total < 2 ^ 64 - 1 /\ 1 <= supply <= total /\ 1 <= deposit_lamports < total /\
    total_lamports = total - deposit_lamports /\
    pool_token_supply = Z.max (saturating_sub supply deposit_lamports) 1.

Definition stake_list_size_calculation (test_amount : Z) : Test :=
  let size := Z.of_nat (packed_len (validator_list_new test_amount)) in
  assert (calculate_max_validators size =? test_amount);;
  assert (calculate_max_validators (saturating_add 64 size 1) =? test_amount);;
  assert (calculate_max_validators (saturating_add 64 size (Z.of_nat VSI_LEN)) =? test_amount + 1);;
  assert (calculate_max_validators (saturating_sub size 1) =? saturating_sub test_amount 1).

Definition LAMPORTS_PER_SOL : Z := 1000000000.

Definition specific_fee_calculation : Test :=
  let epoch_fee' := mkFee 10 1 in
  let stake_pool := stake_pool_default <| total_lamports := 100 * LAMPORTS_PER_SOL |>
    <| pool_token_supply := 100 * LAMPORTS_PER_SOL |> <| epoch_fee := epoch_fee' |> in
  let reward_lamports := 10 * LAMPORTS_PER_SOL in
  pool_token_fee ← unwrap (calc_epoch_fee_amount stake_pool reward_lamports);
  total ← test_add (total_lamports stake_pool) reward_lamports;
  supply ← test_add (pool_token_supply stake_pool) pool_token_fee;
  let stake_pool := stake_pool <| total_lamports := total |> <| pool_token_supply := supply |> in
  fee_lamports ← unwrap (calc_lamports_withdraw_amount stake_pool pool_token_fee);
  assert (fee_lamports =? LAMPORTS_PER_SOL - 1).

Definition zero_withdraw_calculation : Test :=
  let stake_pool := stake_pool_default <| epoch_fee := mkFee 1 0 |> in
  fee_lamports ← unwrap (calc_lamports_withdraw_amount stake_pool 0);
  assert (fee_lamports =? 0).

Definition divide_by_zero_fee : Test :=
  let stake_pool := stake_pool_default <| total_lamports := 0 |> <| epoch_fee := mkFee 10 1 |> in
  let rewards := 10 in
  fee ← unwrap (calc_epoch_fee_amount stake_pool rewards);
  assert (fee =? rewards).

Definition fee_calculation (numerator denominator total_lamports' reward_lamports : Z) : Test :=
  let stake_pool := stake_pool_default <| total_lamports := total_lamports' |>
    <| pool_token_supply := total_lamports' |> <| epoch_fee := mkFee denominator numerator |> in
  pool_token_fee ← unwrap (calc_epoch_fee_amount stake_pool reward_lamports);
  total ← test_add (total_lamports stake_pool) reward_lamports;
  supply ← test_add (pool_token_supply stake_pool) pool_token_fee;
  let stake_pool := stake_pool <| total_lamports := total |> <| pool_token_supply := supply |> in
  fee_lamports ← unwrap (calc_lamports_withdraw_amount stake_pool pool_token_fee);
  max_fee_lamports ← unwrap (try_from 64 (reward_lamports * numerator / denominator));
  assert (fee_lamports <=? max_fee_lamports);;
  quotient ← test_div reward_lamports total_lamports';
  epsilon ← test_add 2 quotient;
  assert (max_fee_lamports - fee_lamports <=? epsilon).

Definition deposit_and_withdraw (total_lamports' pool_token_supply' deposit_stake : Z) : Test :=
  let stake_pool := stake_pool_default <| total_lamports := total_lamports' |>
    <| pool_token_supply := pool_token_supply' |> in
  deposit_result ← unwrap (calc_pool_tokens_for_deposit stake_pool deposit_stake);
  if negb (0 <? deposit_result) then Ok tt else
  total ← test_add (total_lamports stake_pool) deposit_stake;
  supply ← test_add (pool_token_supply stake_pool) deposit_result;
  let stake_pool := stake_pool <| total_lamports := total |> <| pool_token_supply := supply |> in
  withdraw_result ← unwrap (calc_lamports_withdraw_amount stake_pool deposit_result);
  assert (withdraw_result <=? deposit_stake);;
  if 2 <=? deposit_result then
    let first_half_deposit := deposit_result / 2 in
    first_withdraw_result ← unwrap (calc_lamports_withdraw_amount stake_pool first_half_deposit);
    total ← test_sub (total_lamports stake_pool) first_withdraw_result;
    supply ← test_sub (pool_token_supply stake_pool) first_half_deposit;
    let stake_pool := stake_pool <| total_lamports := total |> <| pool_token_supply := supply |> in
    let second_half_deposit := deposit_result - first_half_deposit in
    second_withdraw_result ← unwrap (calc_lamports_withdraw_amount stake_pool second_half_deposit);
    sum ← test_add first_withdraw_result second_withdraw_result;
    assert (sum <=? deposit_stake)
  else Ok tt.

Definition test_pool : StakePool :=
  stake_pool_default <| total_lamports := 1100000000000 |> <| pool_token_supply := 1000000000000 |>.

Definition specific_split_withdrawal : Test :=
  let deposit_stake := 3 in
  let stake_pool := test_pool in
  deposit_result ← unwrap (calc_pool_tokens_for_deposit stake_pool deposit_stake);
  assert (0 <? deposit_result);;
  total ← test_add (total_lamports stake_pool) deposit_stake;
  supply ← test_add (pool_token_supply stake_pool) deposit_result;
  let stake_pool := stake_pool <| total_lamports := total |> <| pool_token_supply := supply |> in
  withdraw_result ← unwrap (calc_lamports_withdraw_amount stake_pool (deposit_result / 2));
  assert (withdraw_result * 2 <=? deposit_stake).

Definition withdraw_all : Test :=
  let stake_pool := test_pool in
  withdraw_result ← unwrap (calc_lamports_withdraw_amount stake_pool (pool_token_supply test_pool));
  assert (total_lamports stake_pool =? withdraw_result);;
  withdraw_result ← unwrap (calc_lamports_withdraw_amount stake_pool 1);
  total ← test_sub (total_lamports stake_pool) withdraw_result;
  supply ← test_sub (pool_token_supply stake_pool) 1;
  let stake_pool := stake_pool <| total_lamports := total |> <| pool_token_supply := supply |> in
  withdraw_result ← unwrap (calc_lamports_withdraw_amount stake_pool (pool_token_supply stake_pool));
  assert (total_lamports stake_pool =? withdraw_result);;
  let stake_pool := test_pool in
  withdraw_result ← unwrap (calc_lamports_withdraw_amount stake_pool (pool_token_supply test_pool - 1));
  total ← test_sub (total_lamports stake_pool) withdraw_result;
  let stake_pool := stake_pool <| total_lamports := total |> <| pool_token_supply := 1 |> in
  assert (negb (total_lamports stake_pool =? 0));;
  withdraw_result ← unwrap (calc_lamports_withdraw_amount stake_pool 1);
  assert (total_lamports stake_pool =? withdraw_result).

Definition state_tests : list Test :=
  [validator_list_active_stake; validator_list_deserialize_mut_slice; validator_list_iter;
   specific_fee_calculation; zero_withdraw_calculation; divide_by_zero_fee; specific_split_withdrawal;
   withdraw_all].
Lemma state_tests_pass : forallb is_Ok state_tests = true.
Proof. by vm_compute. Qed.
End StateTests.

(** ** The tests hold *)

Lemma packs_ok size vl :
  borsh_typed vl -> (length (borsh_ser vl) <= size)%nat -> StateTests.packs size vl = Ok tt.
Proof.
  intros Ht Hl. unfold StateTests.packs.
  destruct (to_writer vl (replicate size x00)) as [d| |] eqn:Hw.
  2,3: unfold to_writer in Hw; rewrite length_replicate, (proj2 (Nat.leb_le _ _)) in Hw by done; done.
  apply to_writer_read in Hw as [Hr _]; [|done]. cbn [unwrap_ok mbind result_bind]. rewrite Hr.
  cbn [unwrap_ok mbind result_bind]. by rewrite bool_decide_eq_true_2.
Qed.
Lemma list_typed t max vs :
  is_uint 32 max -> Z.of_nat (length vs) < 2 ^ 32 -> borsh_typed (mkValidatorList (mkHeader t max) vs).
Proof. intros Hm Hv. split; [by split|]. split; [done|]. apply vsi_all_typed. Qed.
Lemma state_packing_passes : StateTests.state_packing = Ok tt.
Proof.
  unfold StateTests.state_packing, StateTests.uninitialized_validator_list, StateTests.test_validator_list.
  cbv zeta. assert (Hs : (228 <= packed_len (validator_list_new 10000))%nat).
  { unfold packed_len. rewrite length_list_ser. cbn [validators validator_list_new].
    rewrite length_replicate. unfold HEADER_LEN, VSI_LEN. lia. }
  rewrite !packs_ok; [done|..]; try (apply list_typed; unfold is_uint; cbn [length]; lia);
    rewrite length_list_ser; cbn [validators length]; unfold HEADER_LEN, VSI_LEN; lia.
Qed.

Lemma calculate_max_validators_div n : 0 <= n -> calculate_max_validators n = Z.max (n - 9) 0 / 73.
Proof. done. Qed.
Lemma stake_list_size_calculation_passes n :
  0 <= n <= 100000 -> StateTests.stake_list_size_calculation n = Ok tt.
Proof.
  intros Hn. unfold StateTests.stake_list_size_calculation, packed_len. rewrite length_list_ser.
  cbn [validators validator_list_new]. rewrite length_replicate. cbv zeta.
  replace (Z.of_nat (HEADER_LEN + 4 + VSI_LEN * Z.to_nat n)) with (9 + 73 * n)
    by (unfold HEADER_LEN, VSI_LEN; lia).
  unfold saturating_add, saturating_sub. change (Z.of_nat VSI_LEN) with 73.
  rewrite !Z.min_l by lia. rewrite !calculate_max_validators_div by lia.
  rewrite !(proj2 (Z.eqb_eq _ _)); [done|..]; symmetry;
    match goal with |- ?q = ?a / 73 => apply (Z.div_unique_pos a 73 q (a - 73 * q)); lia end.
Qed.

Lemma test_add_fits x y : x + y < 2 ^ 64 -> test_add x y = Ok (x + y).
Proof. intros Hx. unfold test_add. by rewrite (proj2 (Z.ltb_lt _ _)). Qed.
Lemma test_sub_fits x y : y <= x -> test_sub x y = Ok (x - y).
Proof. intros Hx. unfold test_sub. by rewrite (proj2 (Z.leb_le _ _)). Qed.
Lemma assert_true b : b = true -> assert b = Ok tt.
Proof. by intros ->. Qed.

Lemma set_after_withdraw q a w L S :
  L = total_lamports q - w -> S = pool_token_supply q - a ->
  q <| total_lamports := L |> <| pool_token_supply := S |> = after_withdraw q a w.
Proof. by intros -> ->. Qed.
Lemma set_after_deposit q d t L S :
  L = total_lamports q + d -> S = pool_token_supply q + t ->
  q <| total_lamports := L |> <| pool_token_supply := S |> = after_deposit q d t.
Proof. by intros -> ->. Qed.
Lemma after_deposit_totals L S d t :
  total_lamports (after_deposit (pool_with_totals L S) d t) = L + d /\
  pool_token_supply (after_deposit (pool_with_totals L S) d t) = S + t.
Proof. done. Qed.

(** Redeeming a part [a] of the [t] tokens minted for [d], and then the rest. *)
Lemma redeem_parts p d t a :
  pool_typed p -> is_uint 64 d -> 0 < pool_token_supply p -> 0 <= t ->
  total_lamports p + d < 2 ^ 64 -> pool_token_supply p + t < 2 ^ 64 ->
  calc_pool_tokens_for_deposit p d = Some t -> 0 <= a <= t ->
  exists w1 w2, 0 <= w1 /\ 0 <= w2 /\ w1 <= total_lamports p + d /\ w1 + w2 <= d /\
    calc_lamports_withdraw_amount (after_deposit p d t) a = Some w1 /\
    calc_lamports_withdraw_amount (after_withdraw (after_deposit p d t) a w1) (t - a) = Some w2.
Proof.
  intros Hp Hd HS Ht0 HL HSt Ht Ha. pose proof (pt_total _ Hp) as HLp. unfold is_uint in *.
  assert (Hq : pool_typed (after_deposit p d t)) by (apply pool_typed_totals; [done|unfold is_uint; lia..]).
  destruct (calc_lamports_withdraw_amount (after_deposit p d t) a) as [w1|] eqn:Hw1.
  2: { rewrite calc_lamports_withdraw_amount_total in Hw1; [done|done|cbn; lia]. }
  pose proof (calc_lamports_withdraw_amount_mul _ a w1 Hq ltac:(unfold is_uint; lia) Hw1) as [Hr1 Hm1].
  cbn in Hm1. assert (w1 <= total_lamports p + d) by nia.
  assert (Hr : pool_typed (after_withdraw (after_deposit p d t) a w1))
    by (apply pool_typed_totals; [done|unfold is_uint; cbn; lia..]).
  destruct (calc_lamports_withdraw_amount (after_withdraw (after_deposit p d t) a w1) (t - a)) as [w2|] eqn:Hw2.
  2: { rewrite calc_lamports_withdraw_amount_total in Hw2; [done|done|cbn; lia]. }
  pose proof (calc_lamports_withdraw_amount_mul _ (t - a) w2 Hr ltac:(unfold is_uint; lia) Hw2) as [Hr2 _].
  exists w1, w2. split_and!; try done; try lia.
  by eapply (redeemed_at_most_deposited p d t a).
Qed.

(** A generated pool, its deposit and the tokens for it. *)
Lemma generated_deposit L S d :
  StateTests.total_tokens_and_deposit L S d ->
  is_uint 64 d /\ 0 < S /\ L + d < 2 ^ 64 /\ pool_typed (pool_with_totals L S) /\
  exists t, 0 <= t /\ S + t < 2 ^ 64 /\ calc_pool_tokens_for_deposit (pool_with_totals L S) d = Some t.
Proof.
  intros (total & supply & Ht & Hs & Hd & -> & ->). unfold saturating_sub.
  set (L := total - d). set (S := Z.max (Z.max (supply - d) 0) 1).
  assert (Hp : pool_typed (pool_with_totals L S)) by (apply pool_with_totals_typed; unfold is_uint; lia).
  assert (Hdiv := div_bounds (d * S) L ltac:(lia)). set (t := d * S / L) in *.
  assert (Ht0 : 0 <= t) by (apply Z.div_pos; nia).
  assert (HSt : S + t <= total).
  { destruct (Z.le_gt_cases (supply - d) 0); [assert (S = 1) as -> by lia|assert (S <= L) by lia]; nia. }
  split; [unfold is_uint; lia|]. split_and!; [lia..|done|]. exists t. split_and!; [lia..|].
  apply calc_pool_tokens_for_deposit_Some; [done|unfold is_uint; lia|]. right. cbn. lia.
Qed.

Lemma deposit_and_withdraw_passes L S d :
  StateTests.total_tokens_and_deposit L S d -> StateTests.deposit_and_withdraw L S d = Ok tt.
Proof.
  intros (Hd & HS & HL & Hp & t & Ht0 & HSt & Ht)%generated_deposit.
  unfold StateTests.deposit_and_withdraw. cbv zeta.
  change (stake_pool_default <| total_lamports := L |> <| pool_token_supply := S |>) with (pool_with_totals L S).
  rewrite Ht. cbn [unwrap mbind result_bind]. destruct (Z.ltb_spec 0 t); [|done]. cbn [negb].
  cbn [total_lamports pool_token_supply pool_with_totals]. rewrite !test_add_fits by done. cbn [mbind result_bind].
  rewrite (set_after_deposit (pool_with_totals L S) d t) by done.
  destruct (after_deposit_totals L S d t) as [HLq HSq].
  destruct (redeem_parts _ d t t Hp Hd HS Ht0 HL HSt Ht ltac:(lia)) as (w & w0 & _ & ? & _ & Hw & -> & _).
  cbn [unwrap mbind result_bind]. rewrite assert_true by lia. cbn [mbind result_bind].
  destruct (Z.leb_spec 2 t); [|done].
  pose proof (Z.div_mod t 2 ltac:(lia)). pose proof (Z.mod_pos_bound t 2 ltac:(lia)).
  destruct (redeem_parts _ d t (t / 2) Hp Hd HS Ht0 HL HSt Ht ltac:(lia)) as (w1 & w2 & ? & ? & Hle & Hs & -> & Hw2).
  cbn [unwrap mbind result_bind]. change (w1 <= L + d) in Hle.
  rewrite HLq, HSq, (test_sub_fits _ w1), (test_sub_fits _ (t / 2)) by lia. cbn [mbind result_bind].
  rewrite (set_after_withdraw _ (t / 2) w1), Hw2 by (by rewrite ?HLq, ?HSq). cbn [unwrap mbind result_bind]. rewrite test_add_fits by (unfold is_uint in Hd; lia).
  cbn [mbind result_bind]. apply assert_true. lia.
Qed.

(** The pool of [fee_calculation] *)
Definition fee_pool (T n d : Z) : StakePool := pool_with_totals T T <| epoch_fee := mkFee d n |>.

(** The tokens of the epoch fee redeemed, against the fee rounded up. *)
Lemma fee_redeemed T r F f :
  0 < T -> 0 <= r -> 0 <= F <= r -> f = T * F / (T + r - F) ->
  0 <= f <= F /\ f * (T + r) / (T + f) <= F <= f * (T + r) / (T + f) + 2 + r / T.
Proof.
  intros HT Hr HF ->. pose proof (div_bounds (T * F) (T + r - F) ltac:(lia)) as Hb.
  assert (Hf : 0 <= T * F / (T + r - F)) by (apply Z.div_pos; nia).
  generalize dependent (T * F / (T + r - F)). intros f Hb Hf.
  assert (HfF : f <= F) by nia. split; [lia|].
  pose proof (div_bounds (f * (T + r)) (T + f) ltac:(lia)) as Hw.
  generalize dependent (f * (T + r) / (T + f)). intros w Hw.
  pose proof (div_bounds r T HT) as Hq. set (q := r / T) in *. split; [nia|].
  destruct (Z.le_gt_cases F (w + 2 + q)); [lia|exfalso].
  assert (f * (T + r) < (F - 2 - q) * (T + f)) by nia.
  assert (T + r <= (2 + q) * (T + f)) by nia. nia.
Qed.

(** The fee rounded up and down. *)
Lemma fee_rounding n d r :
  StateTests.fee_gen n d -> is_uint 64 r ->
  exists F, fee_apply (mkFee d n) r = Some F /\ 0 <= F <= r /\ r * n / d <= F <= r * n / d + 1.
Proof.
  intros [Hd Hn] Hr. assert (Hok : fee_ok (mkFee d n)) by (unfold fee_ok, is_uint; cbn; lia).
  destruct (fee_apply_bounded (mkFee d n) r Hok Hr ltac:(unfold fee_at_most_one; cbn; lia)) as (F & HF & Hle).
  exists F. split_and!; [done|lia..| |];
    pose proof (fee_apply_ceil _ r F Hok Hr ltac:(cbn; lia) HF) as Hc; cbn in Hc;
    pose proof (div_bounds (r * n) d ltac:(lia)); nia.
Qed.

Lemma fee_calculation_outcome n d T r :
  StateTests.fee_gen n d -> StateTests.total_stake_and_rewards T r -> 0 < T ->
  exists f w, calc_epoch_fee_amount (fee_pool T n d) r = Some f /\
    calc_lamports_withdraw_amount (after_reward (fee_pool T n d) r f) f = Some w /\
    0 <= f <= r /\ w <= r * n / d + 1 /\ r * n / d - w <= 2 + r / T.
Proof.
  intros Hf [Ht Hr] HT. destruct (fee_rounding n d r Hf ltac:(unfold is_uint; lia)) as (F & HF & HFr & HFd).
  set (f := T * F / (T + r - F)).
  destruct (fee_redeemed T r F f HT ltac:(lia) HFr eq_refl) as [Hf0 Hfw].
  exists f, (f * (T + r) / (T + f)). split_and!; try lia.
  - unfold calc_epoch_fee_amount. destruct (Z.eqb_spec r 0) as [->|Hr0].
    { f_equal. unfold f. by replace F with 0 by lia; rewrite Z.mul_0_r, Zdiv_0_l. }
    change (total_lamports (fee_pool T n d)) with T. change (pool_token_supply (fee_pool T n d)) with T.
    change (epoch_fee (fee_pool T n d)) with (mkFee d n).
    rewrite checked_add_fits by lia. cbn [mbind option_bind]. rewrite HF. cbn [mbind option_bind].
    rewrite (proj2 (Z.eqb_neq _ _)), (proj2 (Z.eqb_neq T 0)) by lia. cbn [orb].
    rewrite checked_mul_fits by nia. cbn [mbind option_bind]. rewrite checked_sub_fits by lia.
    cbn [mbind option_bind]. rewrite checked_div_fits by lia. apply try_from_fits. fold f. lia.
  - rewrite calc_lamports_withdraw_amount_total.
    + change (total_lamports (after_reward (fee_pool T n d) r f)) with (T + r).
      change (pool_token_supply (after_reward (fee_pool T n d) r f)) with (T + f).
      by rewrite (proj2 (Z.eqb_neq _ _)) by lia.
    + apply pool_typed_totals; [|unfold is_uint; cbn; lia..]. destruct Hf.
      constructor; unfold fee_ok, is_uint; cbn; auto; lia.
    + change (pool_token_supply (after_reward (fee_pool T n d) r f)) with (T + f). lia.
Qed.

(** [fee_calculation] comes down to its first assertion. *)
Lemma fee_calculation_verdict n d T r f w :
  StateTests.fee_gen n d -> StateTests.total_stake_and_rewards T r -> 0 < T ->
  calc_epoch_fee_amount (fee_pool T n d) r = Some f -> 0 <= f <= r ->
  calc_lamports_withdraw_amount (after_reward (fee_pool T n d) r f) f = Some w ->
  r * n / d - w <= 2 + r / T ->
  StateTests.fee_calculation n d T r = Ok tt <-> w <= r * n / d.
Proof.
  intros [Hd Hn] [Ht Hr] HT Hf Hfr Hw Hle. unfold StateTests.fee_calculation. cbv zeta.
  change (stake_pool_default <| total_lamports := T |> <| pool_token_supply := T |>
    <| epoch_fee := mkFee d n |>) with (fee_pool T n d).
  rewrite Hf. cbn [unwrap mbind result_bind].
  change (total_lamports (fee_pool T n d)) with T. change (pool_token_supply (fee_pool T n d)) with T.
  rewrite (test_add_fits T r), (test_add_fits T f) by lia. cbn [mbind result_bind].
  rewrite (set_after_deposit (fee_pool T n d) r f) by done.
  change (after_deposit (fee_pool T n d) r f) with (after_reward (fee_pool T n d) r f).
  rewrite Hw. cbn [unwrap mbind result_bind]. pose proof (div_bounds (r * n) d ltac:(lia)).
  assert (r * n / d <= r) by nia. assert (r / T <= r) by (apply Z.div_le_upper_bound; nia).
  rewrite try_from_fits by lia. cbn [unwrap mbind result_bind].
  unfold test_div. rewrite (proj2 (Z.eqb_neq T 0)) by lia. unfold assert.
  destruct (Z.leb_spec w (r * n / d)); cbn [mbind result_bind]; [|split; [done|lia]].
  rewrite test_add_fits by lia. cbn [mbind result_bind]. by rewrite (proj2 (Z.leb_le _ _)) by lia.
Qed.

(** The two ways in which [fee_calculation] can fail. *)
Lemma fee_calculation_fails :
  StateTests.fee_gen 1 2 /\ StateTests.total_stake_and_rewards 10 1 /\
  StateTests.fee_calculation 1 2 10 1 = Panic /\
  StateTests.fee_gen 0 1 /\ StateTests.total_stake_and_rewards 0 5 /\
  StateTests.fee_calculation 0 1 0 5 = Panic.
Proof. unfold StateTests.fee_gen, StateTests.total_stake_and_rewards. split_and!; try lia; reflexivity. Qed.

(** ** The theorem *)
Section UnitTests.
Context `{Runtime}.
(** A derived address depends on the concatenation of its seeds. *)
Hypothesis seeds_concatenated : forall seeds seeds' id,
  concat seeds = concat seeds' -> find_program_address seeds id = find_program_address seeds' id.

End UnitTests.

(** ** Witness *)
Section TestWitness.
Import Demo.

End TestWitness.
