(* ===== verification/Scenario.v ===== *)
(** * A pool on the concrete platform

    The accounts of one pool with two validators, on which the witnesses of the
    processor's theorems run the handlers. *)

From S2P Require Import Prelude Errors Fees Pool BigVec Borsh ValidatorList Runtime Platform.
From S2P Require Import Checks.
Import Demo.

Module Scenario.

Definition pool_key : Pubkey := pubkey_repeat x10.
Definition list_key : Pubkey := pubkey_repeat x11.
Definition reserve_key : Pubkey := pubkey_repeat x12.
Definition mint_key : Pubkey := pubkey_repeat x13.
Definition fee_key : Pubkey := pubkey_repeat x14.
Definition manager_key : Pubkey := pubkey_repeat x15.
Definition staker_key : Pubkey := pubkey_repeat x16.
Definition user_key : Pubkey := pubkey_repeat x17.
Definition user_tokens_key : Pubkey := pubkey_repeat x18.
Definition referrer_key : Pubkey := pubkey_repeat x19.
Definition user_stake_key : Pubkey := pubkey_repeat x1a.
Definition sysvar_key : Pubkey := pubkey_repeat x1b.
Definition vote1 : Pubkey := pubkey_repeat x21.
Definition vote2 : Pubkey := pubkey_repeat x22.
Definition vote3 : Pubkey := pubkey_repeat x23.

Definition withdraw_authority : Pubkey := fst (find_withdraw_authority_program_address program pool_key).
Definition deposit_authority : Pubkey := fst (find_deposit_authority_program_address program pool_key).
Definition stake_address (vote : Pubkey) : Pubkey :=
  fst (find_stake_program_address program vote pool_key None).
Definition transient_address (vote : Pubkey) (seed : Z) : Pubkey :=
  fst (find_transient_stake_program_address program vote pool_key seed).
Definition ephemeral_address (seed : Z) : Pubkey :=
  fst (find_ephemeral_stake_program_address program pool_key seed).

Definition pool : StakePool :=
  stake_pool_default
    <| account_type := StakePoolType |> <| manager := manager_key |> <| staker := staker_key |>
    <| stake_deposit_authority := deposit_authority |> <| stake_withdraw_bump_seed := 255 |>
    <| validator_list := list_key |> <| reserve_stake := reserve_key |> <| pool_mint := mint_key |>
    <| manager_fee_account := fee_key |> <| token_program_id := token_id |>
    <| total_lamports := 30000000 |> <| pool_token_supply := 20000000 |> <| last_update_epoch := EPOCH |>
    <| epoch_fee := mkFee 100 10 |> <| stake_deposit_fee := mkFee 100 1 |>
    <| sol_deposit_fee := mkFee 100 2 |> <| stake_withdrawal_fee := mkFee 1000 3 |>
    <| sol_withdrawal_fee := mkFee 1000 5 |> <| stake_referral_fee := 50 |> <| sol_referral_fee := 50 |>.

Definition entry (vote : Pubkey) (active transient seed last : Z) (s : StakeStatus) : ValidatorStakeInfo :=
  mkVSI (array_of_uint 8 active) (array_of_uint 8 transient) (array_of_uint 8 last)
    (array_of_uint 8 seed) (array_of_uint 4 0) (array_of_uint 4 0) (status_into_pod s) vote.

Definition vlist : ValidatorList :=
  mkValidatorList (mkHeader ValidatorListType 4)
    [entry vote1 10000000 0 0 EPOCH Active; entry vote2 5002000 1002000 7 EPOCH Active].

Definition meta : Meta := mkMeta RENT (mkAuthorized withdraw_authority withdraw_authority) lockup_default.
Definition stake_on (vote : Pubkey) (l act deact : Z) : StakeStateV2 :=
  StakeStake meta (mkStake (mkDelegation vote (l - RENT) act deact)).

Definition stake_account (l : Z) (s : StakeStateV2) : Account := mkAccount l (encode_stake s) stake_id.
Definition token_account (n : Z) : Account :=
  mkAccount RENT (encode_token (mkTokenAccount mint_key n true (Ok []))) token_id.

(** The accounts: a pool [p] with the list [l]. *)
Definition accounts_of (p : StakePool) (l : ValidatorList) : gmap Pubkey Account :=
  list_to_map
    [(pool_key, mkAccount RENT (borsh_ser p ++ replicate (611 - packed_len p) x00) program);
     (list_key, mkAccount RENT (borsh_ser l ++ replicate (301 - packed_len l) x00) program);
     (reserve_key, stake_account (13998000 + RENT) (StakeInitialized meta));
     (mint_key, mkAccount RENT (encode_mint (mkMint (pool_token_supply p) 9 (Some withdraw_authority) None (Ok []))) token_id);
     (fee_key, token_account 0); (user_tokens_key, token_account 20000000); (referrer_key, token_account 0);
     (user_key, mkAccount 50000000 [] system_id);
     (user_stake_key, stake_account 3000000 (StakeStake
        (mkMeta RENT (mkAuthorized deposit_authority deposit_authority) lockup_default)
        (mkStake (mkDelegation vote1 2997000 5 EPOCH_MAX))));
     (stake_address vote1, stake_account 10000000 (stake_on vote1 10000000 5 EPOCH_MAX));
     (stake_address vote2, stake_account 5002000 (stake_on vote2 5002000 5 EPOCH_MAX));
     (transient_address vote2 7, stake_account 1002000 (stake_on vote2 1002000 8 9))].

Definition world_of (p : StakePool) (l : ValidatorList) : World :=
  mkWorld (accounts_of p l) [] [] program [].

Definition world : World := world_of pool vlist.

(** Account references. *)
Definition w_info (k : Pubkey) : AccountInfo := mkInfo k false true.
Definition r_info (k : Pubkey) : AccountInfo := mkInfo k false false.
Definition s_info (k : Pubkey) : AccountInfo := mkInfo k true true.
Definition clock_info : AccountInfo := r_info sysvar_key.

Lemma lamports_typed_check (accts : gmap Pubkey Account) :
  forallb (fun kv => (0 <=? acc_lamports kv.2) && (acc_lamports kv.2 <? 2 ^ 64)) (map_to_list accts) = true ->
  lamports_typed accts.
Proof.
  intros Hb k a Ha. apply elem_of_map_to_list in Ha. rewrite forallb_forall in Hb.
  apply list_elem_of_In in Ha. specialize (Hb _ Ha). simpl in Hb. unfold is_uint. lia.
Qed.

(** What a run left behind. *)
Definition pool_after (r : presult (unit * World)) : presult StakePool :=
  '(_, w) ← r; pool_at w pool_key.
Definition list_after (r : presult (unit * World)) : presult ValidatorList :=
  '(_, w) ← r; try_from_slice_unchecked (acc_data (account w list_key)).
Definition log_after (r : presult (unit * World)) : presult (list CpiInstruction) :=
  '(_, w) ← r; Ok (call_ix <$> cpi_log w).
Definition world_after (d : World) (r : presult (unit * World)) : World :=
  match r with Ok (_, w) => w | _ => d end.

Lemma world_after_Ok d r : is_Ok r = true -> r = Ok (tt, world_after d r).
Proof. by destruct r as [[[] w]| |]. Qed.

Lemma world_pool_at : pool_at (H:=demo) world pool_key = Ok pool.
Proof. vm_compute. reflexivity. Qed.
Lemma scenario_fees_valid : pool_fees_valid pool.
Proof. constructor; unfold fee_at_most_one; simpl; auto; lia. Qed.
Lemma world_fees_valid p : pool_at (H:=demo) world pool_key = Ok p -> pool_fees_valid p.
Proof. rewrite world_pool_at. intros [=<-]. apply scenario_fees_valid. Qed.
End Scenario.
