(* ===== verification/Admin.v ===== *)
(** * Administration of a pool (src/program/src/processor.rs)

    The handlers that change who controls a pool and at what price it works:
    [SetManager], [SetFee], [SetStaker], [SetFundingAuthority],
    [SetPreferredValidator] and the two token metadata instructions. *)

From Stdlib Require Import Strings.String.
From S2P Require Import Prelude Errors Fees Pool BigVec Borsh ValidatorList Runtime Checks.

(** ** Instruction data (instruction.rs) *)
Inductive PreferredValidatorType := PreferredDeposit | PreferredWithdraw.
Inductive FundingType := FundingStakeDeposit | FundingSolDeposit | FundingSolWithdraw.

(** Forget a preferred validator that leaves the pool. *)
Definition reset_preferred (stake_pool : StakePool) (vote_account_address : Pubkey) : StakePool :=
  let stake_pool :=
    if bool_decide (preferred_deposit_validator_vote_address stake_pool = Some vote_account_address)
    then stake_pool <| preferred_deposit_validator_vote_address := None |> else stake_pool in
  if bool_decide (preferred_withdraw_validator_vote_address stake_pool = Some vote_account_address)
  then stake_pool <| preferred_withdraw_validator_vote_address := None |> else stake_pool.

(** ** Metadata instructions (inline_mpl_token_metadata.rs) *)

(** A Borsh [String]: a [u32] length and the bytes. *)
Definition ser_string (s : list byte) : list byte := le_encode 4 (Z.of_nat (length s)) ++ s.
(** [Option<u8>::None] and the other options the program always leaves empty. *)
Definition ser_none : list byte := [x00].

Record DataV2 := mkDataV2 { data_name : list byte; data_symbol : list byte; data_uri : list byte }.
(** [seller_fee_basis_points] is always 0, [creators], [collection] and [uses] None. *)
Definition ser_data_v2 (d : DataV2) : list byte :=
  ser_string (data_name d) ++ ser_string (data_symbol d) ++ ser_string (data_uri d) ++
  le_encode 2 0 ++ ser_none ++ ser_none ++ ser_none.

Section Admin.
Context `{Runtime}.
Variable program_id : Pubkey.

(** [create_metadata_accounts_v3] *)
Definition create_metadata_accounts_v3 (mpl_program metadata_account mint mint_authority payer
    update_authority : Pubkey) (name symbol uri : list byte) : CpiInstruction :=
  RawInstruction mpl_program
    [mkAccountMeta metadata_account false true; mkAccountMeta mint false false;
     mkAccountMeta mint_authority true false; mkAccountMeta payer true true;
     mkAccountMeta update_authority true false; mkAccountMeta system_program_id false false]
    (byte_of_Z 33 :: ser_data_v2 (mkDataV2 name symbol uri) ++ [x01] ++ ser_none).

(** [update_metadata_accounts_v2] with the arguments of its one call: no new
    authority, no sale flag, mutable. *)
Definition update_metadata_accounts_v2 (mpl_program metadata_account update_authority : Pubkey)
    (metadata : DataV2) : CpiInstruction :=
  RawInstruction mpl_program
    [mkAccountMeta metadata_account false true; mkAccountMeta update_authority true false]
    (byte_of_Z 15 :: ([x01] ++ ser_data_v2 metadata) ++ ser_none ++ ser_none ++ [x01; x01]).

(** ** Handlers *)

(** The prologue of most handlers: the pool account belongs to the program and
    holds a valid pool. *)
Definition load_valid_pool (stake_pool_info : AccountInfo) : M StakePool :=
  read (check_account_owner stake_pool_info program_id);;
  stake_pool ← read (load StakePool stake_pool_info);
  fail_if (negb (pool_is_valid stake_pool)) (into_program_error InvalidState);;
  mret stake_pool.

(** [process_set_manager] *)
Definition process_set_manager (accounts : list AccountInfo) : M unit :=
  '(stake_pool_info, it) ← lift (next_account_info accounts);
  '(manager_info, it) ← lift (next_account_info it);
  '(new_manager_info, it) ← lift (next_account_info it);
  '(new_manager_fee_info, _) ← lift (next_account_info it);
  read (check_account_owner stake_pool_info program_id);;
  stake_pool ← read (load StakePool stake_pool_info);
  read (check_account_owner new_manager_fee_info (token_program_id stake_pool));;
  fail_if (negb (pool_is_valid stake_pool)) (into_program_error InvalidState);;
  lift (check_manager stake_pool manager_info);;
  fail_if (negb (is_signer new_manager_info)) (into_program_error SignatureMissing);;
  read (check_manager_fee_info stake_pool new_manager_fee_info);;
  store stake_pool_info
    (stake_pool <| manager := key new_manager_info |>
                <| manager_fee_account := key new_manager_fee_info |>).

(** [process_set_fee] *)
Definition process_set_fee (accounts : list AccountInfo) (fee : FeeType) : M unit :=
  '(stake_pool_info, it) ← lift (next_account_info accounts);
  '(manager_info, _) ← lift (next_account_info it);
  clock ← lift clock_get;
  stake_pool ← load_valid_pool stake_pool_info;
  lift (check_manager stake_pool manager_info);;
  fail_if (can_only_change_next_epoch fee && (last_update_epoch stake_pool <? epoch clock))
    (into_program_error StakeListAndPoolOutOfDate);;
  lift (map_err into_program_error (check_too_high fee));;
  stake_pool ← lift (map_err into_program_error (update_fee stake_pool fee));
  store stake_pool_info stake_pool.

(** [process_set_staker] *)
Definition process_set_staker (accounts : list AccountInfo) : M unit :=
  '(stake_pool_info, it) ← lift (next_account_info accounts);
  '(set_staker_authority_info, it) ← lift (next_account_info it);
  '(new_staker_info, _) ← lift (next_account_info it);
  stake_pool ← load_valid_pool stake_pool_info;
  fail_if (is_err (check_staker stake_pool set_staker_authority_info) &&
           is_err (check_manager stake_pool set_staker_authority_info))
    (into_program_error SignatureMissing);;
  store stake_pool_info (stake_pool <| staker := key new_staker_info |>).

(** [process_set_funding_authority] *)
Definition process_set_funding_authority (accounts : list AccountInfo) (funding_type : FundingType)
    : M unit :=
  '(stake_pool_info, it) ← lift (next_account_info accounts);
  '(manager_info, it) ← lift (next_account_info it);
  let new_authority := (fun x => key (fst x)) <$> result_ok (next_account_info it) in
  stake_pool ← load_valid_pool stake_pool_info;
  lift (check_manager stake_pool manager_info);;
  store stake_pool_info
    match funding_type with
    | FundingStakeDeposit =>
        stake_pool <| stake_deposit_authority :=
          default (fst (find_deposit_authority_program_address program_id (key stake_pool_info)))
            new_authority |>
    | FundingSolDeposit => stake_pool <| sol_deposit_authority := new_authority |>
    | FundingSolWithdraw => stake_pool <| sol_withdraw_authority := new_authority |>
    end.

(** The mutable borrow of the validator list and its header, as every handler
    that works on the list begins: the data is borrowed until the handler
    drops it. *)
Definition open_validator_list (validator_list_info : AccountInfo)
    : M (ValidatorListHeader * list byte) :=
  validator_list_data ← borrow_mut validator_list_info;
  '(header, validator_list) ← lift (deserialize_vec validator_list_data);
  fail_if (negb (header_is_valid header)) (into_program_error InvalidState);;
  mret (header, validator_list).

(** [process_set_preferred_validator] *)
Definition process_set_preferred_validator (accounts : list AccountInfo)
    (validator_type : PreferredValidatorType) (vote_account_address : option Pubkey) : M unit :=
  '(stake_pool_info, it) ← lift (next_account_info accounts);
  '(staker_info, it) ← lift (next_account_info it);
  '(validator_list_info, _) ← lift (next_account_info it);
  read (check_account_owner stake_pool_info program_id);;
  read (check_account_owner validator_list_info program_id);;
  stake_pool ← read (load StakePool stake_pool_info);
  fail_if (negb (pool_is_valid stake_pool)) (into_program_error InvalidState);;
  lift (check_staker stake_pool staker_info);;
  lift (check_validator_list stake_pool validator_list_info);;
  '(_, validator_list) ← open_validator_list validator_list_info;
  match vote_account_address with
  | Some vote_account_address =>
      maybe_validator_stake_info ← lift (vec_find (memcmp_pubkey vote_account_address) validator_list);
      match maybe_validator_stake_info with
      | Some vsi =>
          fail_if (negb (bool_decide (status vsi = status_into_pod Active)))
            (into_program_error InvalidPreferredValidator)
      | None => lift (fail_pool ValidatorNotFound)
      end
  | None => mret tt
  end;;
  store stake_pool_info
    match validator_type with
    | PreferredDeposit =>
        stake_pool <| preferred_deposit_validator_vote_address := vote_account_address |>
    | PreferredWithdraw =>
        stake_pool <| preferred_withdraw_validator_vote_address := vote_account_address |>
    end;;
  drop_borrow_mut validator_list_info.

(** [process_create_pool_token_metadata] *)
Definition process_create_pool_token_metadata (accounts : list AccountInfo)
    (name symbol uri : list byte) : M unit :=
  '(stake_pool_info, it) ← lift (next_account_info accounts);
  '(manager_info, it) ← lift (next_account_info it);
  '(withdraw_authority_info, it) ← lift (next_account_info it);
  '(pool_mint_info, it) ← lift (next_account_info it);
  '(payer_info, it) ← lift (next_account_info it);
  '(metadata_info, it) ← lift (next_account_info it);
  '(mpl_token_metadata_program_info, it) ← lift (next_account_info it);
  '(system_program_info, _) ← lift (next_account_info it);
  fail_if (negb (is_signer payer_info)) (into_program_error SignatureMissing);;
  lift (check_system_program (key system_program_info));;
  read (check_account_owner payer_info system_program_id);;
  read (check_account_owner stake_pool_info program_id);;
  lift (check_mpl_metadata_program (key mpl_token_metadata_program_info));;
  stake_pool ← read (load StakePool stake_pool_info);
  fail_if (negb (pool_is_valid stake_pool)) (into_program_error InvalidState);;
  lift (check_manager stake_pool manager_info);;
  lift (check_authority_withdraw stake_pool (key withdraw_authority_info) program_id
          (key stake_pool_info));;
  read (check_mint stake_pool pool_mint_info);;
  lift (check_mpl_metadata_account_address (key metadata_info) (pool_mint stake_pool));;
  let token_mint_authority := withdraw_authority_info in
  let new_metadata_instruction :=
    create_metadata_accounts_v3 (key mpl_token_metadata_program_info) (key metadata_info)
      (key pool_mint_info) (key token_mint_authority) (key payer_info) (key token_mint_authority)
      name symbol uri in
  let stake_withdraw_bump_seed :=
    snd (find_withdraw_authority_program_address program_id (key stake_pool_info)) in
  invoke_signed new_metadata_instruction
    [metadata_info; pool_mint_info; withdraw_authority_info; payer_info; withdraw_authority_info;
     system_program_info]
    [authority_seeds (key stake_pool_info) AUTHORITY_WITHDRAW stake_withdraw_bump_seed].

(** [process_update_pool_token_metadata] *)
Definition process_update_pool_token_metadata (accounts : list AccountInfo)
    (name symbol uri : list byte) : M unit :=
  '(stake_pool_info, it) ← lift (next_account_info accounts);
  '(manager_info, it) ← lift (next_account_info it);
  '(withdraw_authority_info, it) ← lift (next_account_info it);
  '(metadata_info, it) ← lift (next_account_info it);
  '(mpl_token_metadata_program_info, _) ← lift (next_account_info it);
  read (check_account_owner stake_pool_info program_id);;
  lift (check_mpl_metadata_program (key mpl_token_metadata_program_info));;
  stake_pool ← read (load StakePool stake_pool_info);
  fail_if (negb (pool_is_valid stake_pool)) (into_program_error InvalidState);;
  lift (check_manager stake_pool manager_info);;
  lift (check_authority_withdraw stake_pool (key withdraw_authority_info) program_id
          (key stake_pool_info));;
  lift (check_mpl_metadata_account_address (key metadata_info) (pool_mint stake_pool));;
  let token_mint_authority := withdraw_authority_info in
  let stake_withdraw_bump_seed :=
    snd (find_withdraw_authority_program_address program_id (key stake_pool_info)) in
  invoke_signed
    (update_metadata_accounts_v2 (key mpl_token_metadata_program_info) (key metadata_info)
       (key token_mint_authority) (mkDataV2 name symbol uri))
    [metadata_info; withdraw_authority_info]
    [authority_seeds (key stake_pool_info) AUTHORITY_WITHDRAW stake_withdraw_bump_seed].
End Admin.
