(* ===== verification/Tracking.v ===== *)
(** * Following the program's accounts through a handler

    [holds_data k d w]: the account [k] belongs to the running program and holds
    the bytes [d]; [holds_pool P p w]: those bytes are the pool [p].  The class
    [Keeps] collects the computations that preserve this for every account of
    the program: everything except a write to account data.  Its instances
    compose along the monad, so a handler's part between two writes is
    discharged by instance search. *)

From S2P Require Import Prelude Errors Fees Pool BigVec Borsh ValidatorList Runtime Platform.
From S2P Require Import Checks Admin.

Section Tracking.
Context {R : Runtime} {program_id : Pubkey} {L : RuntimeLaws R program_id}.

Definition holds_data (k : Pubkey) (d : list byte) (w : World) : Prop :=
  (running_program w = program_id /\ lamports_typed (accounts w)) /\
  exists a, accounts w !! k = Some a /\ acc_owner a = program_id /\ acc_data a = d.

Definition holds_pool (P : Pubkey) (p : StakePool) (w : World) : Prop :=
  (running_program w = program_id /\ lamports_typed (accounts w)) /\
  exists a, accounts w !! P = Some a /\ acc_owner a = program_id /\
    try_from_slice_unchecked (acc_data a) = Ok p.

Lemma holds_pool_data P p w :
  holds_pool P p w <-> exists d, holds_data P d w /\ try_from_slice_unchecked d = Ok p.
Proof. clear L. unfold holds_pool, holds_data. naive_solver. Qed.

(** The accounts of the program keep their data from [w] to [w']. *)
Definition preserved (w w' : World) : Prop := forall k d, holds_data k d w -> holds_data k d w'.

Class Keeps {A} (m : M A) : Prop := keeps_preserved w a w' : m w = Ok (a, w') -> preserved w w'.

Lemma keeps_data {A} (m : M A) `{!Keeps m} k d w a w' :
  holds_data k d w -> m w = Ok (a, w') -> holds_data k d w'.
Proof. intros Hd Hm. by eapply keeps_preserved. Qed.

Lemma keeps {A} (m : M A) `{!Keeps m} P p w a w' :
  holds_pool P p w -> m w = Ok (a, w') -> holds_pool P p w'.
Proof.
  intros (d & Hd & Hp)%holds_pool_data Hm. apply holds_pool_data. exists d.
  split; [by eapply keeps_data|done].
Qed.

Lemma holds_pool_at P p w : holds_pool P p w -> pool_at w P = Ok p.
Proof. intros (_ & a & Ha & _ & Hp). unfold pool_at, account. by rewrite Ha. Qed.

Lemma holds_pool_typed P p w : holds_pool P p w -> pool_typed p.
Proof. intros Hp%holds_pool_at. by eapply pool_at_typed. Qed.

Lemma typed_lamports w info : lamports_typed (accounts w) -> is_uint 64 (lamports_of info w).
Proof.
  clear L. intros Ht. unfold lamports_of, account.
  destruct (accounts w !! key info) as [a|] eqn:E; simpl; [by apply (Ht (key info))|unfold is_uint; lia].
Qed.

Lemma lamports_of_typed P p w info : holds_pool P p w -> is_uint 64 (lamports_of info w).
Proof. intros [[_ Ht] _]. by apply typed_lamports. Qed.

(** ** Primitives *)

(** A computation that leaves the world alone. *)
Lemma keeps_same {A} (m : M A) : (forall w a w', m w = Ok (a, w') -> w' = w) -> Keeps m.
Proof. intros Hm w a w' ->%Hm. by intros k d. Qed.

(** One that leaves the accounts and the running program alone. *)
Lemma keeps_accounts {A} (m : M A) :
  (forall w a w', m w = Ok (a, w') ->
     accounts w' = accounts w /\ running_program w' = running_program w) -> Keeps m.
Proof.
  intros Hm w a w' [Ha Hr]%Hm. intros k d. unfold holds_data. by rewrite Ha, Hr.
Qed.

#[export] Instance keeps_ret {A} (a : A) : Keeps (mret a).
Proof. apply keeps_same. by intros w b w' [=_ <-]. Qed.
#[export] Instance keeps_lift {A} (r : presult A) : Keeps (lift r).
Proof. apply keeps_same. by intros w a w' [_ ->]%lift_Ok. Qed.
#[export] Instance keeps_read {A} (f : World -> presult A) : Keeps (read f).
Proof. apply keeps_same. by intros w a w' [_ ->]%read_Ok. Qed.
#[export] Instance keeps_observe {A} (f : World -> presult A) : Keeps (observe f).
Proof. apply keeps_same. by intros w a w' (_ & _ & ->)%observe_Ok. Qed.
#[export] Instance keeps_fail_if c e : Keeps (fail_if c e).
Proof. apply keeps_lift. Qed.
#[export] Instance keeps_ok_or_pool {A} (o : option A) e : Keeps (ok_or_pool o e).
Proof. apply keeps_lift. Qed.
#[export] Instance keeps_lamports info : Keeps (lamports info).
Proof. apply keeps_same. by intros w a w' [=_ <-]. Qed.
#[export] Instance keeps_data_len info : Keeps (data_len info).
Proof. apply keeps_same. by intros w a w' [=_ <-]. Qed.
#[export] Instance keeps_owner info : Keeps (owner info).
Proof. apply keeps_same. by intros w a w' [=_ <-]. Qed.
#[export] Instance keeps_when c m : Keeps m -> Keeps (when c m).
Proof. intros Hm. unfold when. destruct c; apply _. Qed.
#[export] Instance keeps_bind {A B} (m : M A) (f : A -> M B) :
  Keeps m -> (forall a, Keeps (f a)) -> Keeps (m ≫= f).
Proof.
  intros Hm Hf w b w' (a & w1 & H1 & H2)%M_bind_Ok. intros k d Hd.
  eapply Hf; [exact H2|]. by eapply Hm.
Qed.

#[export] Instance keeps_borrow_mut info : Keeps (borrow_mut info).
Proof.
  apply keeps_accounts. intros w a w'. unfold borrow_mut. case_bool_decide; [done|].
  by intros [=_ <-].
Qed.
#[export] Instance keeps_drop_borrow_mut info : Keeps (drop_borrow_mut info).
Proof. apply keeps_accounts. by intros w a w' [=_ <-]. Qed.
#[export] Instance keeps_hold_borrow info : Keeps (hold_borrow info).
Proof.
  apply keeps_accounts. intros w a w'. unfold hold_borrow. case_bool_decide; [done|].
  by intros [=_ <-].
Qed.
#[export] Instance keeps_drop_borrow info : Keeps (drop_borrow info).
Proof. apply keeps_accounts. by intros w a w' [=_ <-]. Qed.

(** The law of the platform enters here, and only here. *)
#[export] Instance keeps_invoke_signed ix infos s : Keeps (invoke_signed ix infos s).
Proof.
  intros w a w' (_ & accts & Hx & ->)%invoke_signed_Ok. intros k d ([Hr Ht] & acc & Ha & Ho & Hd).
  rewrite Hr in Hx. pose proof (cpi_lamports_typed _ _ _ _ _ Hx Ht).
  destruct (cpi_keeps_owned _ _ _ _ _ _ _ Hx Ha Ho) as (acc' & Ha' & Hd' & Ho').
  split; [done|]. exists acc'. by rewrite Hd'.
Qed.
#[export] Instance keeps_invoke ix infos : Keeps (invoke ix infos).
Proof. apply keeps_invoke_signed. Qed.

(** ** Writes *)

Lemma put_data_typed k d w :
  lamports_typed (accounts w) -> lamports_typed (accounts (put_data k d w)).
Proof.
  intros Ht. apply map_Forall_insert_2; [|done]. simpl. unfold account.
  destruct (accounts w !! k) as [a|] eqn:E; simpl; [by apply (Ht k)|unfold is_uint; lia].
Qed.

Lemma put_data_holds_data k0 d0 k d w :
  holds_data k0 d0 w -> holds_data k0 (if decide (k = k0) then d else d0) (put_data k d w).
Proof.
  intros ([Hr Ht] & a & Ha & Ho & Hd). split; [split; [done|by apply put_data_typed]|]. simpl.
  destruct (decide (k = k0)) as [->|Hk].
  - eexists. split; [apply lookup_insert_eq|]. unfold account. by rewrite Ha.
  - exists a. by rewrite lookup_insert_ne.
Qed.

Lemma put_data_holds P p k d w : k <> P -> holds_pool P p w -> holds_pool P p (put_data k d w).
Proof.
  intros Hk ([Hr Ht] & a & Ha & Ho & Hd). split; [split; [done|by apply put_data_typed]|].
  exists a. simpl. by rewrite lookup_insert_ne.
Qed.

Lemma write_data_holds P p info d w u w' :
  key info <> P -> holds_pool P p w -> write_data info d w = Ok (u, w') -> holds_pool P p w'.
Proof. intros Hk Hp [=_ <-]. by apply put_data_holds. Qed.

(** Storing a pool: that account holds it, every other pool is untouched. *)
Lemma store_holds P p info q w u w' :
  pool_typed q -> holds_pool P p w -> store info q w = Ok (u, w') ->
  holds_pool P (if key info =?ₖ P then q else p) w'.
Proof.
  intros Hq Hp Hs. pose proof (store_pool_at _ _ _ _ _ Hq Hs) as Hat.
  apply store_Ok in Hs as (_ & d & Hd & ->).
  destruct (key info =?ₖ P) eqn:E; bool_props; [|by apply put_data_holds].
  destruct Hp as ([Hr Ht] & a & Ha & Ho & _). split; [split; [done|by apply put_data_typed]|].
  subst P.
  exists (a <| acc_data := d |>). simpl. unfold account in *. rewrite Ha in *. simpl in *.
  rewrite lookup_insert_eq. split; [done|]. split; [done|].
  unfold pool_at, account in Hat. simpl in Hat. by rewrite lookup_insert_eq in Hat.
Qed.

Lemma store_other_holds {T} `{Borsh T} P p info (x : T) w u w' :
  key info <> P -> holds_pool P p w -> store info x w = Ok (u, w') -> holds_pool P p w'.
Proof. intros Hk Hp (_ & d & _ & ->)%store_Ok. by apply put_data_holds. Qed.

(** ** Reads *)

(** The pool a handler loads is the one its account holds. *)
Lemma load_holds P p info q w :
  holds_pool P p w -> load StakePool info w = Ok q -> key info = P -> q = p.
Proof. intros Hp%holds_pool_at Hl%load_pool_at <-. congruence. Qed.

Lemma load_typed info q w : load StakePool info w = Ok q -> pool_typed q.
Proof. intros Hl%load_pool_at. by eapply pool_at_typed. Qed.

Lemma load_valid_pool_Ok info w q w' :
  load_valid_pool program_id info w = Ok (q, w') ->
  w' = w /\ load StakePool info w = Ok q /\ pool_is_valid q = true /\ owner_of info w = program_id.
Proof.
  intros Hl. unfold load_valid_pool in Hl. inv_run Hl.
  apply err_if_Ok in Hr. bool_props. done.
Qed.

#[export] Instance keeps_load_valid_pool info : Keeps (load_valid_pool program_id info).
Proof. apply keeps_same. by intros w a w' [-> _]%load_valid_pool_Ok. Qed.

(** A pool account is not a validator list account. *)
Lemma pool_list_tags (p : StakePool) (h : ValidatorListHeader) d r1 r2 :
  account_type p = StakePoolType -> vl_account_type h <> StakePoolType ->
  d = borsh_ser p ++ r1 -> d = borsh_ser h ++ r2 -> False.
Proof.
  intros Hp Hh -> Heq. cbn in Heq. rewrite Hp in Heq.
  destruct (vl_account_type h); done.
Qed.

Lemma header_not_pool P p w info h v :
  holds_pool P p w -> pool_is_valid p = true -> vl_account_type h <> StakePoolType ->
  deserialize_vec (acc_data (account w (key info))) = Ok (h, v) -> key info <> P.
Proof.
  intros (_ & a & Ha & _ & Hp) Hv Hh Hd <-. unfold deserialize_vec in Hd.
  apply bind_Ok in Hd as (h' & Hd & [=-> _]).
  apply try_from_slice_unchecked_Ok in Hd as [_ [r2 Hd]].
  apply try_from_slice_unchecked_Ok in Hp as [_ [r1 Hp]].
  unfold account in Hd. rewrite Ha in Hd. unfold pool_is_valid in Hv.
  apply bool_decide_eq_true in Hv. by eapply pool_list_tags.
Qed.

Lemma open_validator_list_Ok info w h v w' :
  open_validator_list info w = Ok ((h, v), w') ->
  accounts w' = accounts w /\ cpi_log w' = cpi_log w /\ running_program w' = running_program w /\
  borrowed_mut w' = key info :: borrowed_mut w /\ borrowed_shared w' = borrowed_shared w /\
  deserialize_vec (acc_data (account w (key info))) = Ok (h, v) /\
  vl_account_type h = ValidatorListType.
Proof.
  intros Ho. unfold open_validator_list in Ho. inv_run Ho.
  unfold borrow_mut in Hr. case_bool_decide; [done|]. injection Hr as <- <-.
  unfold header_is_valid in *. bool_props. by case_bool_decide.
Qed.

#[export] Instance keeps_open_validator_list info : Keeps (open_validator_list info).
Proof. apply keeps_accounts. intros w [h v] w' Ho%open_validator_list_Ok. tauto. Qed.

Lemma open_list_not_pool P p info w r w' :
  holds_pool P p w -> pool_is_valid p = true -> open_validator_list info w = Ok (r, w') ->
  key info <> P.
Proof.
  intros Hp Hv Ho. destruct r as [h v]. apply open_validator_list_Ok in Ho as (_&_&_&_&_&Hd&Ht).
  eapply header_not_pool; [done|done| |done]. by rewrite Ht.
Qed.
End Tracking.
Arguments holds_pool : clear implicits.
Arguments holds_data : clear implicits.
Arguments preserved : clear implicits.
Arguments Keeps program_id {A} m.

(** ** Tactics *)

Lemma next_account_info_Ok it a it' : next_account_info it = Ok (a, it') <-> it = a :: it'.
Proof. destruct it as [|b it]; simpl; naive_solver. Qed.

Lemma next_account_info_cons x l a l' : next_account_info (x :: l) = Ok (a, l') -> a = x /\ l' = l.
Proof. by intros [=<- <-]. Qed.

(** Replace the account list by the accounts that were taken from it. *)
Ltac inv_accounts :=
  repeat match goal with
  | H : next_account_info (?x :: ?l) = Ok (?a, ?l') |- _ =>
      apply next_account_info_cons in H as [-> ->]
  | H : next_account_info ?l = Ok (_, _) |- _ => is_var l; apply next_account_info_Ok in H; subst l
  end.

(** Prove [Keeps] by following the structure of the computation. *)
Ltac solve_keeps :=
  repeat first
    [ progress intros
    | typeclasses eauto
    | apply keeps_bind
    | apply keeps_when
    | match goal with |- Keeps _ (match ?x with _ => _ end) => destruct x end
    | match goal with |- Keeps _ (let '(_, _) := ?x in _) => destruct x end ].

(** Carry [holds_pool] along the steps that keep it. *)
Ltac track_pool :=
  repeat match goal with
  | Hp : holds_pool ?pid ?P ?p ?w, H : ?m ?w = Ok (?a, ?w') |- _ =>
      lazymatch goal with
      | _ : holds_pool pid P p w' |- _ => fail
      | _ =>
          let Hn := fresh "Hp" in
          assert (Hn : holds_pool pid P p w') by (refine (keeps (Keeps0:=_) m P p w a w' Hp H); solve_keeps)
      end
  end.

Ltac track_data :=
  repeat match goal with
  | Hp : holds_data ?pid ?P ?p ?w, H : ?m ?w = Ok (?a, ?w') |- _ =>
      lazymatch goal with
      | _ : holds_data pid P p w' |- _ => fail
      | _ =>
          let Hn := fresh "Hd" in
          assert (Hn : holds_data pid P p w')
            by (refine (keeps_data (Keeps0:=_) m P p w a w' Hp H); solve_keeps)
      end
  end.

(** ** Writes next to a pool

    [KeepsAt P m]: [m] preserves the pool in the account [P]; it may write to
    other accounts. *)
Definition KeepsAt {R : Runtime} (program_id P : Pubkey) {A} (m : M A) : Prop :=
  forall p w a w', holds_pool program_id P p w -> m w = Ok (a, w') -> holds_pool program_id P p w'.

Section KeepsAt.
Context {R : Runtime} {program_id : Pubkey} (P : Pubkey).

Lemma keeps_at_keeps {A} (m : M A) : Keeps program_id m -> KeepsAt program_id P m.
Proof. intros Hm p w a w' Hp. by eapply keeps. Qed.
Lemma keeps_at_bind {A B} (m : M A) (f : A -> M B) :
  KeepsAt program_id P m -> (forall a, KeepsAt program_id P (f a)) -> KeepsAt program_id P (m ≫= f).
Proof. intros Hm Hf p w b w' Hp (a & w1 & H1 & H2)%M_bind_Ok. eapply Hf; [|exact H2]. by eapply Hm. Qed.
Lemma keeps_at_write info d : key info <> P -> KeepsAt program_id P (write_data info d).
Proof. intros Hk p w a w'. by apply write_data_holds. Qed.
End KeepsAt.

(** ** The composite calls *)
Section Keeps_calls.
Context {R : Runtime} {program_id : Pubkey} {L : RuntimeLaws R program_id}.

#[export] Instance keeps_create_stake_account i s n : Keeps program_id (create_stake_account i s n).
Proof. unfold create_stake_account. solve_keeps. Qed.
#[export] Instance keeps_stake_delegate a b c i1 i2 i3 i4 i5 i6 :
  Keeps program_id (stake_delegate a b c i1 i2 i3 i4 i5 i6).
Proof. unfold stake_delegate. solve_keeps. Qed.
#[export] Instance keeps_stake_deactivate a b c i1 i2 i3 : Keeps program_id (stake_deactivate a b c i1 i2 i3).
Proof. unfold stake_deactivate. solve_keeps. Qed.
#[export] Instance keeps_stake_split a b c i1 i2 n i3 : Keeps program_id (stake_split a b c i1 i2 n i3).
Proof. unfold stake_split. solve_keeps. Qed.
#[export] Instance keeps_stake_merge a b c i1 i2 i3 i4 i5 : Keeps program_id (stake_merge a b c i1 i2 i3 i4 i5).
Proof. unfold stake_merge. solve_keeps. Qed.
#[export] Instance keeps_stake_authorize_signed a b c i1 i2 k i3 :
  Keeps program_id (stake_authorize_signed a b c i1 i2 k i3).
Proof. unfold stake_authorize_signed. solve_keeps. Qed.
#[export] Instance keeps_stake_authorize i1 i2 k i3 : Keeps program_id (stake_authorize i1 i2 k i3).
Proof. unfold stake_authorize. solve_keeps. Qed.
#[export] Instance keeps_stake_withdraw a b c i1 i2 i3 i4 i5 n :
  Keeps program_id (stake_withdraw a b c i1 i2 i3 i4 i5 n).
Proof. unfold stake_withdraw. solve_keeps. Qed.
#[export] Instance keeps_token_mint_to a b c i1 i2 i3 i4 n : Keeps program_id (token_mint_to a b c i1 i2 i3 i4 n).
Proof. unfold token_mint_to. solve_keeps. Qed.
#[export] Instance keeps_token_burn i1 i2 i3 i4 n : Keeps program_id (token_burn i1 i2 i3 i4 n).
Proof. unfold token_burn. solve_keeps. Qed.
#[export] Instance keeps_token_transfer i1 i2 i3 i4 i5 n d : Keeps program_id (token_transfer i1 i2 i3 i4 i5 n d).
Proof. unfold token_transfer. solve_keeps. Qed.
#[export] Instance keeps_sol_transfer i1 i2 n : Keeps program_id (sol_transfer i1 i2 n).
Proof. unfold sol_transfer. solve_keeps. Qed.
End Keeps_calls.
