(* ===== verification/Deposit.v ===== *)
(** * Deposits (src/program/src/processor.rs)

    [DepositSol], [DepositStake] and [DepositWsolWithSession]: the fee split of
    a deposit, the token mints it causes, and the handlers around them. *)

From Stdlib Require Import Strings.String.
From S2P Require Import Prelude Errors Fees Pool BigVec Borsh ValidatorList Runtime Checks Admin.

(** How a deposit is divided: all in pool tokens. *)
Record DepositSplit := mkSplit {
  new_pool_tokens : Z;
  pool_tokens_user : Z;
  pool_tokens_manager_deposit_fee : Z;
  pool_tokens_referral_fee : Z;
}.

(** The final checks of a split, the same for both kinds of deposit: the parts
    add up, the user gets something, and at least what was asked for. *)
Definition check_split (s : DepositSplit) (minimum_pool_tokens_out : option Z) : presult unit :=
  err_if (negb (saturating_add 64
                  (saturating_add 64 (pool_tokens_user s) (pool_tokens_manager_deposit_fee s))
                  (pool_tokens_referral_fee s) =? new_pool_tokens s))
    (into_program_error CalculationFailure);;
  err_if (pool_tokens_user s =? 0) (into_program_error DepositTooSmall);;
  match minimum_pool_tokens_out with
  | Some minimum_pool_tokens_out =>
      err_if (pool_tokens_user s <? minimum_pool_tokens_out) (into_program_error ExceededSlippage)
  | None => Ok tt
  end.

(** [o.ok_or(StakePoolError::CalculationFailure)?] *)
Definition calc {A} (o : option A) : presult A := ok_or (into_program_error CalculationFailure) o.

(** The split of a SOL deposit, checked. *)
Definition sol_deposit_split (stake_pool : StakePool) (deposit_lamports : Z)
    (minimum_pool_tokens_out : option Z) : presult DepositSplit :=
  new_pool_tokens ← calc (calc_pool_tokens_for_deposit stake_pool deposit_lamports);
  pool_tokens_sol_deposit_fee ← calc (calc_pool_tokens_sol_deposit_fee stake_pool new_pool_tokens);
  pool_tokens_user ← calc (checked_sub new_pool_tokens pool_tokens_sol_deposit_fee);
  pool_tokens_referral_fee ←
    calc (calc_pool_tokens_sol_referral_fee stake_pool pool_tokens_sol_deposit_fee);
  pool_tokens_manager_deposit_fee ←
    calc (checked_sub pool_tokens_sol_deposit_fee pool_tokens_referral_fee);
  let s := mkSplit new_pool_tokens pool_tokens_user pool_tokens_manager_deposit_fee
             pool_tokens_referral_fee in
  check_split s minimum_pool_tokens_out;;
  Ok s.

(** The split of a stake deposit, checked: the stake and the SOL part are
    charged their own deposit fee. *)
Definition stake_deposit_split (stake_pool : StakePool) (total_deposit_lamports stake_deposit_lamports : Z)
    (minimum_pool_tokens_out : option Z) : presult DepositSplit :=
  new_pool_tokens ← calc (calc_pool_tokens_for_deposit stake_pool total_deposit_lamports);
  new_pool_tokens_from_stake ← calc (calc_pool_tokens_for_deposit stake_pool stake_deposit_lamports);
  new_pool_tokens_from_sol ← calc (checked_sub new_pool_tokens new_pool_tokens_from_stake);
  stake_deposit_fee ← calc (calc_pool_tokens_stake_deposit_fee stake_pool new_pool_tokens_from_stake);
  sol_deposit_fee ← calc (calc_pool_tokens_sol_deposit_fee stake_pool new_pool_tokens_from_sol);
  total_fee ← calc (checked_add 64 stake_deposit_fee sol_deposit_fee);
  pool_tokens_user ← calc (checked_sub new_pool_tokens total_fee);
  pool_tokens_referral_fee ← calc (calc_pool_tokens_stake_referral_fee stake_pool total_fee);
  pool_tokens_manager_deposit_fee ← calc (checked_sub total_fee pool_tokens_referral_fee);
  let s := mkSplit new_pool_tokens pool_tokens_user pool_tokens_manager_deposit_fee
             pool_tokens_referral_fee in
  check_split s minimum_pool_tokens_out;;
  Ok s.

(** The accounting of a deposit: supply and lamports grow, checked. *)
Definition record_deposit (stake_pool : StakePool) (new_pool_tokens deposit_lamports : Z)
    : presult StakePool :=
  supply ← calc (checked_add 64 (pool_token_supply stake_pool) new_pool_tokens);
  let stake_pool := stake_pool <| pool_token_supply := supply |> in
  total ← calc (checked_add 64 (total_lamports stake_pool) deposit_lamports);
  Ok (stake_pool <| total_lamports := total |>).

Section Deposit.
Context `{Runtime}.
Variable program_id : Pubkey.

(** The mints of a deposit: to the user always, to the manager and the referrer
    when their share is not zero. *)
Definition mint_deposit (stake_pool_info token_program_info pool_mint_info dest_user_pool_info
    manager_fee_info referrer_fee_info withdraw_authority_info : AccountInfo) (bump_seed : Z)
    (s : DepositSplit) : M unit :=
  let mint_to := token_mint_to (key stake_pool_info) AUTHORITY_WITHDRAW bump_seed
                   token_program_info pool_mint_info in
  mint_to dest_user_pool_info withdraw_authority_info (pool_tokens_user s);;
  when (0 <? pool_tokens_manager_deposit_fee s)
    (mint_to manager_fee_info withdraw_authority_info (pool_tokens_manager_deposit_fee s));;
  when (0 <? pool_tokens_referral_fee s)
    (mint_to referrer_fee_info withdraw_authority_info (pool_tokens_referral_fee s)).

(** The checks of [process_deposit_sol] before any amount is computed. *)
Definition deposit_sol_checks (stake_pool_info withdraw_authority_info reserve_stake_account_info
    manager_fee_info pool_mint_info system_program_info token_program_info : AccountInfo)
    (sol_deposit_authority_info : presult AccountInfo) : M StakePool :=
  clock ← lift clock_get;
  stake_pool ← load_valid_pool program_id stake_pool_info;
  lift (check_authority_withdraw stake_pool (key withdraw_authority_info) program_id
          (key stake_pool_info));;
  lift (check_sol_deposit_authority stake_pool sol_deposit_authority_info);;
  read (check_mint stake_pool pool_mint_info);;
  lift (check_reserve_stake stake_pool reserve_stake_account_info);;
  fail_if (negb (token_program_id stake_pool =?ₖ key token_program_info)) IncorrectProgramId;;
  lift (check_system_program (key system_program_info));;
  fail_if (negb (manager_fee_account stake_pool =?ₖ key manager_fee_info))
    (into_program_error InvalidFeeAccount);;
  fail_if (last_update_epoch stake_pool <? epoch clock) (into_program_error StakeListAndPoolOutOfDate);;
  mret stake_pool.

(** [process_deposit_sol] *)
Definition process_deposit_sol (accounts : list AccountInfo) (deposit_lamports : Z)
    (minimum_pool_tokens_out : option Z) (is_wsol_path : bool) : M unit :=
  '(stake_pool_info, it) ← lift (next_account_info accounts);
  '(withdraw_authority_info, it) ← lift (next_account_info it);
  '(reserve_stake_account_info, it) ← lift (next_account_info it);
  '(from_user_lamports_info, it) ← lift (next_account_info it);
  '(dest_user_pool_info, it) ← lift (next_account_info it);
  '(manager_fee_info, it) ← lift (next_account_info it);
  '(referrer_fee_info, it) ← lift (next_account_info it);
  '(pool_mint_info, it) ← lift (next_account_info it);
  '(system_program_info, it) ← lift (next_account_info it);
  '(token_program_info, it) ← lift (next_account_info it);
  let sol_deposit_authority_info := fst <$> next_account_info it in
  stake_pool ← deposit_sol_checks stake_pool_info withdraw_authority_info
    reserve_stake_account_info manager_fee_info pool_mint_info system_program_info
    token_program_info sol_deposit_authority_info;
  s ← lift (sol_deposit_split stake_pool deposit_lamports minimum_pool_tokens_out);
  when (negb is_wsol_path)
    (sol_transfer from_user_lamports_info reserve_stake_account_info deposit_lamports);;
  mint_deposit stake_pool_info token_program_info pool_mint_info dest_user_pool_info
    manager_fee_info referrer_fee_info withdraw_authority_info
    (stake_withdraw_bump_seed stake_pool) s;;
  stake_pool ← lift (record_deposit stake_pool (new_pool_tokens s) deposit_lamports);
  store stake_pool_info stake_pool.

(** The checks of [process_deposit_stake] up to the borrow of the list. *)
Definition deposit_stake_checks (stake_pool_info validator_list_info stake_deposit_authority_info
    withdraw_authority_info reserve_stake_account_info manager_fee_info pool_mint_info
    token_program_info stake_program_info : AccountInfo) (clock : Clock) : M StakePool :=
  lift (check_stake_program (key stake_program_info));;
  stake_pool ← load_valid_pool program_id stake_pool_info;
  lift (check_authority_withdraw stake_pool (key withdraw_authority_info) program_id
          (key stake_pool_info));;
  lift (check_stake_deposit_authority stake_pool (key stake_deposit_authority_info));;
  read (check_mint stake_pool pool_mint_info);;
  lift (check_validator_list stake_pool validator_list_info);;
  lift (check_reserve_stake stake_pool reserve_stake_account_info);;
  fail_if (negb (token_program_id stake_pool =?ₖ key token_program_info)) IncorrectProgramId;;
  fail_if (negb (manager_fee_account stake_pool =?ₖ key manager_fee_info))
    (into_program_error InvalidFeeAccount);;
  fail_if (last_update_epoch stake_pool <? epoch clock) (into_program_error StakeListAndPoolOutOfDate);;
  read (check_account_owner validator_list_info program_id);;
  mret stake_pool.

(** The entry of the validator a stake is deposited to, with its place in the
    list: preferred if one is set, derived address, active. *)
Definition deposit_stake_entry (stake_pool_info validator_stake_account_info : AccountInfo)
    (stake_pool : StakePool) (validator_list : list byte) (vote_account_address : Pubkey)
    : M (nat * ValidatorStakeInfo) :=
  match preferred_deposit_validator_vote_address stake_pool with
  | Some preferred_deposit =>
      fail_if (negb (preferred_deposit =?ₖ vote_account_address))
        (into_program_error IncorrectDepositVoteAddress)
  | None => mret tt
  end;;
  found ← lift (vec_find_mut (memcmp_pubkey vote_account_address) validator_list);
  '(offset, validator_stake_info) ← ok_or_pool found ValidatorNotFound;
  lift (check_validator_stake_address program_id (key stake_pool_info)
          (key validator_stake_account_info) vote_account_address
          (nonzero (uint_of_array (validator_seed_suffix validator_stake_info))));;
  fail_if (negb (bool_decide (status validator_stake_info = status_into_pod Active)))
    (into_program_error ValidatorNotFound);;
  mret (offset, validator_stake_info).

(** Taking over the deposited stake: both authorities move to the pool, then the
    stake is merged into the validator's account. *)
Definition take_deposited_stake (stake_pool_info stake_info stake_deposit_authority_info
    withdraw_authority_info validator_stake_account_info clock_info stake_history_info : AccountInfo)
    (stake_pool : StakePool) : M unit :=
  let '(stake_deposit_authority_program_address, deposit_bump_seed) :=
    find_deposit_authority_program_address program_id (key stake_pool_info) in
  (if key stake_deposit_authority_info =?ₖ stake_deposit_authority_program_address then
     stake_authorize_signed (key stake_pool_info) AUTHORITY_DEPOSIT deposit_bump_seed
       stake_info stake_deposit_authority_info (key withdraw_authority_info) clock_info
   else
     stake_authorize stake_info stake_deposit_authority_info (key withdraw_authority_info) clock_info);;
  stake_merge (key stake_pool_info) AUTHORITY_WITHDRAW (stake_withdraw_bump_seed stake_pool)
    stake_info withdraw_authority_info validator_stake_account_info clock_info stake_history_info.

(** Assignment through a reference to an entry of the borrowed list: [offset] is
    its place behind the header. *)
Definition assign_entry (validator_list_info : AccountInfo) (offset : nat) (v : ValidatorStakeInfo)
    : M unit := fun w =>
  let d := acc_data (account w (key validator_list_info)) in
  write_data validator_list_info (vec_assign (HEADER_LEN + offset) v d) w.

(** [process_deposit_stake] *)
Definition process_deposit_stake (accounts : list AccountInfo) (minimum_pool_tokens_out : option Z)
    : M unit :=
  '(stake_pool_info, it) ← lift (next_account_info accounts);
  '(validator_list_info, it) ← lift (next_account_info it);
  '(stake_deposit_authority_info, it) ← lift (next_account_info it);
  '(withdraw_authority_info, it) ← lift (next_account_info it);
  '(stake_info, it) ← lift (next_account_info it);
  '(validator_stake_account_info, it) ← lift (next_account_info it);
  '(reserve_stake_account_info, it) ← lift (next_account_info it);
  '(dest_user_pool_info, it) ← lift (next_account_info it);
  '(manager_fee_info, it) ← lift (next_account_info it);
  '(referrer_fee_info, it) ← lift (next_account_info it);
  '(pool_mint_info, it) ← lift (next_account_info it);
  '(clock_info, it) ← lift (next_account_info it);
  clock ← read (clock_from clock_info);
  '(stake_history_info, it) ← lift (next_account_info it);
  '(token_program_info, it) ← lift (next_account_info it);
  '(stake_program_info, _) ← lift (next_account_info it);
  stake_pool ← deposit_stake_checks stake_pool_info validator_list_info
    stake_deposit_authority_info withdraw_authority_info reserve_stake_account_info
    manager_fee_info pool_mint_info token_program_info stake_program_info clock;
  '(_, validator_list) ← open_validator_list validator_list_info;
  '(_, validator_stake) ← read (get_stake_state validator_stake_account_info);
  pre_all_validator_lamports ← lamports validator_stake_account_info;
  let vote_account_address := voter_pubkey (delegation validator_stake) in
  '(offset, validator_stake_info) ← deposit_stake_entry stake_pool_info
    validator_stake_account_info stake_pool validator_list vote_account_address;
  take_deposited_stake stake_pool_info stake_info stake_deposit_authority_info
    withdraw_authority_info validator_stake_account_info clock_info stake_history_info stake_pool;;
  '(_, post_validator_stake) ← read (get_stake_state validator_stake_account_info);
  post_all_validator_lamports ← lamports validator_stake_account_info;
  total_deposit_lamports ←
    lift (calc (checked_sub post_all_validator_lamports pre_all_validator_lamports));
  stake_deposit_lamports ←
    lift (calc (checked_sub (delegation_stake (delegation post_validator_stake))
                  (delegation_stake (delegation validator_stake))));
  sol_deposit_lamports ← lift (calc (checked_sub total_deposit_lamports stake_deposit_lamports));
  s ← lift (stake_deposit_split stake_pool total_deposit_lamports stake_deposit_lamports
              minimum_pool_tokens_out);
  mint_deposit stake_pool_info token_program_info pool_mint_info dest_user_pool_info
    manager_fee_info referrer_fee_info withdraw_authority_info
    (stake_withdraw_bump_seed stake_pool) s;;
  when (0 <? sol_deposit_lamports)
    (stake_withdraw (key stake_pool_info) AUTHORITY_WITHDRAW (stake_withdraw_bump_seed stake_pool)
       validator_stake_account_info withdraw_authority_info reserve_stake_account_info clock_info
       stake_history_info sol_deposit_lamports);;
  stake_pool ← lift (record_deposit stake_pool (new_pool_tokens s) total_deposit_lamports);
  store stake_pool_info stake_pool;;
  final_lamports ← lamports validator_stake_account_info;
  assign_entry validator_list_info offset
    (validator_stake_info <| active_stake_lamports := array_of_uint 8 final_lamports |>);;
  drop_borrow_mut validator_list_info.

(** ** Wrapped SOL *)

(** The sanity checks [DepositWsolWithSession] and [WithdrawWsolWithSession]
    share: the native mint and the user's account belong to the token program,
    and the account is the associated account of the user behind the session. *)
Definition check_wsol_accounts (wsol_mint_info user_wsol_info token_program_info
    signer_or_session_info : AccountInfo) : M Pubkey :=
  fail_if (negb (key wsol_mint_info =?ₖ native_mint_id)) InvalidAccountData;;
  wsol_mint_owner ← owner wsol_mint_info;
  fail_if (negb (wsol_mint_owner =?ₖ key token_program_info)) InvalidAccountData;;
  user_wsol_owner ← owner user_wsol_info;
  fail_if (negb (user_wsol_owner =?ₖ key token_program_info)) InvalidAccountData;;
  user_pubkey ← read (fun w =>
    extract_user_from_signer_or_session signer_or_session_info
      (account w (key signer_or_session_info)) program_id);
  fail_if (negb (get_associated_token_address user_pubkey (key wsol_mint_info) =?ₖ
                 key user_wsol_info)) InvalidAccountData;;
  mret user_pubkey.

Definition TRANSIENT_WSOL_SEED : list byte := list_byte_of_string "transient_wsol".

(** Moving the user's wrapped SOL into the pool's reserve: through a transient
    token account that is created, filled, checked and closed again, its rent
    going back to the fee payer. *)
Definition unwrap_wsol (user_pubkey : Pubkey) (reserve_stake_info system_program_info
    token_program_info signer_or_session_info wsol_mint_info fee_payer_info user_wsol_info
    transient_wsol_info program_signer_info : AccountInfo) (deposit_lamports : Z) : M unit :=
  let '(expected_pda, pda_bump) := find_program_address [program_signer_seed] program_id in
  fail_if (negb (expected_pda =?ₖ key program_signer_info)) InvalidSeeds;;
  let program_signer_seeds := [program_signer_seed; bump pda_bump] in
  let '(expected_transient_pda, transient_bump) :=
    find_program_address [TRANSIENT_WSOL_SEED; pk_bytes user_pubkey] program_id in
  fail_if (negb (expected_transient_pda =?ₖ key transient_wsol_info)) InvalidSeeds;;
  let transient_seeds := [TRANSIENT_WSOL_SEED; pk_bytes user_pubkey; bump transient_bump] in
  rent ← lift rent_get;
  invoke_signed (CreatePdaAccount (key fee_payer_info) rent token_account_len
                   (key token_program_info) (key transient_wsol_info))
    [fee_payer_info; transient_wsol_info; system_program_info] [transient_seeds];;
  lift (check_spl_token_v1_program_account (key token_program_info));;
  invoke (TokenInitializeAccount3 (key token_program_info) (key transient_wsol_info)
            (key wsol_mint_info) (key program_signer_info)) [transient_wsol_info; wsol_mint_info];;
  lift (check_session_token_program (key token_program_info));;
  invoke_signed (SessionTransferChecked (key token_program_info) (key user_wsol_info)
      (key wsol_mint_info) (key transient_wsol_info) (key signer_or_session_info)
      (Some (key program_signer_info)) deposit_lamports 9)
    [user_wsol_info; wsol_mint_info; transient_wsol_info; signer_or_session_info;
     program_signer_info; token_program_info] [program_signer_seeds];;
  transient_wsol ← read (fun w => d ← borrow transient_wsol_info w; unpack_spl_token_account d);
  fail_if (negb (token_amount transient_wsol =? deposit_lamports)) InvalidAccountData;;
  lift (check_spl_token_v1_program_account (key token_program_info));;
  invoke_signed (TokenCloseAccount (key token_program_info) (key transient_wsol_info)
      (key program_signer_info) (key program_signer_info))
    [transient_wsol_info; program_signer_info; program_signer_info] [program_signer_seeds];;
  let rent_lamports := minimum_balance rent token_account_len in
  invoke_signed (SystemTransfer (key program_signer_info) (key fee_payer_info) rent_lamports)
    [program_signer_info; fee_payer_info; system_program_info] [program_signer_seeds];;
  invoke_signed (SystemTransfer (key program_signer_info) (key reserve_stake_info) deposit_lamports)
    [program_signer_info; reserve_stake_info; system_program_info] [program_signer_seeds].

(** [process_deposit_wsol_with_session] *)
Definition process_deposit_wsol_with_session (accounts : list AccountInfo) (deposit_lamports : Z)
    : M unit :=
  '(stake_pool_info, it) ← lift (next_account_info accounts);
  '(stake_pool_withdraw_auth_info, it) ← lift (next_account_info it);
  '(reserve_stake_info, it) ← lift (next_account_info it);
  '(pool_tokens_to_info, it) ← lift (next_account_info it);
  '(manager_fee_info, it) ← lift (next_account_info it);
  '(referrer_pool_tokens_info, it) ← lift (next_account_info it);
  '(pool_mint_info, it) ← lift (next_account_info it);
  '(system_program_info, it) ← lift (next_account_info it);
  '(token_program_info, it) ← lift (next_account_info it);
  '(signer_or_session_info, it) ← lift (next_account_info it);
  '(wsol_mint_info, it) ← lift (next_account_info it);
  '(fee_payer_info, it) ← lift (next_account_info it);
  '(user_wsol_info, it) ← lift (next_account_info it);
  '(transient_wsol_info, it) ← lift (next_account_info it);
  '(program_signer_info, it) ← lift (next_account_info it);
  let sol_deposit_auth_info := head it in
  lift (check_system_program (key system_program_info));;
  user_pubkey ← check_wsol_accounts wsol_mint_info user_wsol_info token_program_info
    signer_or_session_info;
  unwrap_wsol user_pubkey reserve_stake_info system_program_info token_program_info
    signer_or_session_info wsol_mint_info fee_payer_info user_wsol_info transient_wsol_info
    program_signer_info deposit_lamports;;
  let new_accounts :=
    [stake_pool_info; stake_pool_withdraw_auth_info; reserve_stake_info; reserve_stake_info;
     pool_tokens_to_info; manager_fee_info; referrer_pool_tokens_info; pool_mint_info;
     system_program_info; token_program_info] ++ option_list sol_deposit_auth_info in
  process_deposit_sol new_accounts deposit_lamports None true.
End Deposit.

(** ** What a successful split and its accounting say *)

Lemma calc_Ok {A} (o : option A) a : calc o = Ok a <-> o = Some a.
Proof. apply ok_or_Ok. Qed.

(** The parts of a split: they add up to the tokens of the deposit, the user's
    share is positive and not below what was asked for. *)
Record split_ok (s : DepositSplit) (minimum_pool_tokens_out : option Z) : Prop := {
  so_user : 0 < pool_tokens_user s;
  so_manager : 0 <= pool_tokens_manager_deposit_fee s;
  so_referral : 0 <= pool_tokens_referral_fee s;
  so_sum : pool_tokens_user s + pool_tokens_manager_deposit_fee s + pool_tokens_referral_fee s =
    new_pool_tokens s;
  so_slippage m : minimum_pool_tokens_out = Some m -> m <= pool_tokens_user s;
}.

(** The shares as both handlers compute them from the total fee [f]. *)
Lemma check_split_Ok t f r u m :
  0 <= r <= f -> 0 <= t - f -> t < 2 ^ 64 ->
  check_split (mkSplit t (t - f) (f - r) r) m = Ok u -> split_ok (mkSplit t (t - f) (f - r) r) m.
Proof.
  intros Hr Ht Hb Hc. unfold check_split in Hc. simpl in Hc. inv_ok Hc. bool_props.
  constructor; simpl; try lia. intros n ->. apply err_if_Ok in Hc. bool_props. lia.
Qed.

(** The referral share of a fee is between zero and the fee. *)
Lemma referral_bounds f pct r :
  is_uint 64 f -> 0 <= pct <= 100 ->
  (m ← checked_mul 128 f pct; d ← checked_div m 100; try_from 64 d) = Some r -> 0 <= r <= f.
Proof.
  intros Hf Hp Hr. inv_ok Hr. unfold is_uint in Hf. split; [apply Z.div_pos; nia|].
  apply div_le_of_mul; nia.
Qed.


Lemma sol_deposit_split_Ok p d m s :
  pool_typed p -> pool_fees_valid p -> is_uint 64 d -> sol_deposit_split p d m = Ok s ->
  calc_pool_tokens_for_deposit p d = Some (new_pool_tokens s) /\ split_ok s m /\
  calc_pool_tokens_sol_deposit_fee p (new_pool_tokens s) =
    Some (pool_tokens_manager_deposit_fee s + pool_tokens_referral_fee s) /\
  calc_pool_tokens_sol_referral_fee p
    (pool_tokens_manager_deposit_fee s + pool_tokens_referral_fee s) =
    Some (pool_tokens_referral_fee s).
Proof.
  intros Hp Hv Hd Hs. unfold sol_deposit_split in Hs.
  apply bind_Ok in Hs as (t & Ht%calc_Ok & Hs). apply bind_Ok in Hs as (f & Hf%calc_Ok & Hs).
  apply bind_Ok in Hs as (us & Hu%calc_Ok & Hs). apply bind_Ok in Hs as (r & Hr%calc_Ok & Hs).
  apply bind_Ok in Hs as (g & Hg%calc_Ok & Hs). apply bind_Ok in Hs as (c & Hc & [=<-]).
  apply checked_sub_Some in Hu as [-> Hu], Hg as [-> Hg]. simpl.
  pose proof (calc_pool_tokens_for_deposit_typed p d t Hp Hd Ht) as Htt.
  assert (0 <= f < 2 ^ 64) as Hf0.
  { apply bind_Some in Hf as (x & Hx & Hf'). inv_ok Hf'.
    split; [eapply fee_apply_nonneg; [|exact Htt|done]; auto with pool|done]. }
  assert (0 <= r <= f) as Hr0.
  { apply (referral_bounds f (sol_referral_fee p)); [done| |exact Hr].
    split; [apply (pt_sol_referral _ Hp)|apply (fv_sol_referral _ Hv)]. }
  split; [done|]. split; [|replace (f - r + r) with f by lia; done].
  apply (check_split_Ok _ _ _ c); unfold is_uint in *; lia || done.
Qed.

Lemma stake_deposit_split_Ok p d ds m s :
  pool_typed p -> pool_fees_valid p -> is_uint 64 d -> is_uint 64 ds ->
  stake_deposit_split p d ds m = Ok s ->
  calc_pool_tokens_for_deposit p d = Some (new_pool_tokens s) /\ split_ok s m.
Proof.
  intros Hp Hv Hd Hds Hs. unfold stake_deposit_split in Hs.
  apply bind_Ok in Hs as (t & Ht%calc_Ok & Hs). apply bind_Ok in Hs as (ts & Hts%calc_Ok & Hs).
  apply bind_Ok in Hs as (tl & Htl%calc_Ok & Hs). apply bind_Ok in Hs as (f1 & Hf1%calc_Ok & Hs).
  apply bind_Ok in Hs as (f2 & Hf2%calc_Ok & Hs). apply bind_Ok in Hs as (f & Hf%calc_Ok & Hs).
  apply bind_Ok in Hs as (us & Hu%calc_Ok & Hs). apply bind_Ok in Hs as (r & Hr%calc_Ok & Hs).
  apply bind_Ok in Hs as (g & Hg%calc_Ok & Hs). apply bind_Ok in Hs as (c & Hc & [=<-]).
  apply checked_sub_Some in Hu as [-> Hu], Hg as [-> Hg], Htl as [-> Htl].
  apply checked_add_Some in Hf as [-> Hf].
  pose proof (calc_pool_tokens_for_deposit_typed p d t Hp Hd Ht) as Htt.
  pose proof (calc_pool_tokens_for_deposit_typed p ds ts Hp Hds Hts) as Htts.
  assert (0 <= f1) by (apply bind_Some in Hf1 as (x & Hx & Hf'); inv_ok Hf';
    eapply fee_apply_nonneg; [|exact Htts|done]; auto with pool).
  assert (0 <= f2) by (apply bind_Some in Hf2 as (x & Hx & Hf'); inv_ok Hf';
    eapply fee_apply_nonneg; [| |done]; [auto with pool|unfold is_uint in *; lia]).
  assert (0 <= r <= f1 + f2) as Hr0.
  { apply (referral_bounds (f1 + f2) (stake_referral_fee p)); [unfold is_uint; lia| |exact Hr].
    split; [apply (pt_stake_referral _ Hp)|apply (fv_stake_referral _ Hv)]. }
  split; [done|]. apply (check_split_Ok _ _ _ c); unfold is_uint in *; lia || done.
Qed.

Lemma record_deposit_Ok p t d q :
  record_deposit p t d = Ok q ->
  q = after_deposit p d t /\ total_lamports p + d < 2 ^ 64 /\ pool_token_supply p + t < 2 ^ 64.
Proof.
  intros Hq. unfold record_deposit in Hq.
  apply bind_Ok in Hq as (s & Hs%calc_Ok & Hq). apply bind_Ok in Hq as (l & Hl%calc_Ok & [=<-]).
  apply checked_add_Some in Hs as [-> Hs], Hl as [-> Hl]. done.
Qed.
