(* ===== verification/Withdraw.v ===== *)
(** * Withdrawals (src/program/src/processor.rs)

    [WithdrawSol], [WithdrawStake] and [WithdrawWsolWithSession]: the fee, the
    lamports paid out, where they may be taken from, and the handlers. *)

From S2P Require Import Prelude Errors Fees Pool BigVec Borsh ValidatorList Runtime Checks Admin.
From S2P Require Import Deposit.

(** What a withdrawal costs and pays. *)
Record Withdrawal := mkWithdrawal {
  pool_tokens_fee : Z;
  pool_tokens_burnt : Z;
  withdraw_lamports : Z;
}.

(** The amounts of a withdrawal; [fee] is what the fee schedule charges, waived
    when the fee account itself withdraws or cannot receive tokens. *)
Definition withdrawal_amounts (stake_pool : StakePool) (waived : bool) (fee : option Z)
    (pool_tokens : Z) (minimum_lamports_out : option Z) : presult Withdrawal :=
  pool_tokens_fee ← (if waived then Ok 0 else calc fee);
  pool_tokens_burnt ← calc (checked_sub pool_tokens pool_tokens_fee);
  withdraw_lamports ← calc (calc_lamports_withdraw_amount stake_pool pool_tokens_burnt);
  err_if (withdraw_lamports =? 0) (into_program_error WithdrawalTooSmall);;
  match minimum_lamports_out with
  | Some minimum_lamports_out =>
      err_if (withdraw_lamports <? minimum_lamports_out) (into_program_error ExceededSlippage)
  | None => Ok tt
  end;;
  Ok (mkWithdrawal pool_tokens_fee pool_tokens_burnt withdraw_lamports).

(** The accounting of a withdrawal: supply and lamports shrink, checked. *)
Definition record_withdrawal (stake_pool : StakePool) (pool_tokens_burnt withdraw_lamports : Z)
    : presult StakePool :=
  supply ← calc (checked_sub (pool_token_supply stake_pool) pool_tokens_burnt);
  let stake_pool := stake_pool <| pool_token_supply := supply |> in
  total ← calc (checked_sub (total_lamports stake_pool) withdraw_lamports);
  Ok (stake_pool <| total_lamports := total |>).

Section Withdraw.
Context `{Runtime}.
Variable program_id : Pubkey.

(** Whether the withdrawal fee is waived. *)
Definition fee_waived (stake_pool : StakePool) (burn_from_pool_info manager_fee_info : AccountInfo)
    : M bool :=
  if manager_fee_account stake_pool =?ₖ key burn_from_pool_info then mret true
  else (r ← observe (check_manager_fee_info stake_pool manager_fee_info); mret (is_err r)).

(** ** WithdrawSol *)

(** The checks of [process_withdraw_sol] before any amount is computed; the
    pool and the decimals of its mint. *)
Definition withdraw_sol_checks (stake_pool_info withdraw_authority_info reserve_stake_info
    manager_fee_info pool_mint_info stake_program_info token_program_info : AccountInfo)
    (sol_withdraw_authority_info : presult AccountInfo) : M (StakePool * Z) :=
  stake_pool ← load_valid_pool program_id stake_pool_info;
  lift (check_authority_withdraw stake_pool (key withdraw_authority_info) program_id
          (key stake_pool_info));;
  lift (check_sol_withdraw_authority stake_pool sol_withdraw_authority_info);;
  decimals ← read (check_mint stake_pool pool_mint_info);
  lift (check_reserve_stake stake_pool reserve_stake_info);;
  fail_if (negb (token_program_id stake_pool =?ₖ key token_program_info)) IncorrectProgramId;;
  lift (check_stake_program (key stake_program_info));;
  fail_if (negb (manager_fee_account stake_pool =?ₖ key manager_fee_info))
    (into_program_error InvalidFeeAccount);;
  clock ← lift clock_get;
  fail_if (last_update_epoch stake_pool <? epoch clock) (into_program_error StakeListAndPoolOutOfDate);;
  mret (stake_pool, decimals).

(** The reserve keeps its rent-exempt minimum. *)
Definition check_reserve_remains (reserve_stake_info : AccountInfo) (withdraw_lamports : Z) : M unit :=
  reserve_lamports ← lamports reserve_stake_info;
  let new_reserve_lamports := saturating_sub reserve_lamports withdraw_lamports in
  stake_state ← read (load_stake_state reserve_stake_info);
  match stake_state with
  | StakeInitialized meta =>
      fail_if (new_reserve_lamports <? minimum_reserve_lamports meta)
        (into_program_error SolWithdrawalTooLarge)
  | _ => lift (fail_pool WrongStakeStake)
  end.

(** Burning the tokens and paying the fee inside a session, where the program
    signer co-signs. *)
Definition burn_with_session (program_signer_info token_program_info burn_from_pool_info
    pool_mint_info user_transfer_authority_info manager_fee_info : AccountInfo) (a : Withdrawal)
    (decimals : Z) : M unit :=
  let '(expected_pda, pda_bump) := find_program_address [program_signer_seed] program_id in
  fail_if (negb (expected_pda =?ₖ key program_signer_info)) InvalidSeeds;;
  let program_signer_seeds := [program_signer_seed; bump pda_bump] in
  lift (check_session_token_program (key token_program_info));;
  invoke_signed (SessionBurn (key token_program_info) (key burn_from_pool_info)
      (key pool_mint_info) (key user_transfer_authority_info) (Some (key program_signer_info))
      (pool_tokens_burnt a))
    [burn_from_pool_info; pool_mint_info; user_transfer_authority_info; program_signer_info]
    [program_signer_seeds];;
  when (0 <? pool_tokens_fee a)
    (lift (check_session_token_program (key token_program_info));;
     invoke_signed (SessionTransferChecked (key token_program_info) (key burn_from_pool_info)
         (key pool_mint_info) (key manager_fee_info) (key user_transfer_authority_info)
         (Some (key program_signer_info)) (pool_tokens_fee a) decimals)
       [burn_from_pool_info; pool_mint_info; manager_fee_info; user_transfer_authority_info;
        program_signer_info] [program_signer_seeds]).

(** Burning the tokens and paying the fee with the user's own signature. *)
Definition burn_with_signature (token_program_info burn_from_pool_info pool_mint_info
    user_transfer_authority_info manager_fee_info : AccountInfo) (a : Withdrawal) (decimals : Z)
    : M unit :=
  token_burn token_program_info burn_from_pool_info pool_mint_info user_transfer_authority_info
    (pool_tokens_burnt a);;
  when (0 <? pool_tokens_fee a)
    (token_transfer token_program_info burn_from_pool_info pool_mint_info manager_fee_info
       user_transfer_authority_info (pool_tokens_fee a) decimals).

(** Which of the two: a session is used on the WSOL path when its program signer
    was passed. *)
Definition withdraw_burn (is_wsol_path : bool) (maybe_program_signer_info : presult AccountInfo)
    (token_program_info burn_from_pool_info pool_mint_info user_transfer_authority_info
    manager_fee_info : AccountInfo) (a : Withdrawal) (decimals : Z) : M unit :=
  match is_wsol_path, maybe_program_signer_info with
  | true, Ok program_signer_info =>
      burn_with_session program_signer_info token_program_info burn_from_pool_info pool_mint_info
        user_transfer_authority_info manager_fee_info a decimals
  | _, _ =>
      burn_with_signature token_program_info burn_from_pool_info pool_mint_info
        user_transfer_authority_info manager_fee_info a decimals
  end.

(** [process_withdraw_sol] *)
Definition process_withdraw_sol (accounts : list AccountInfo) (pool_tokens : Z)
    (minimum_lamports_out : option Z) (is_wsol_path : bool) : M unit :=
  '(stake_pool_info, it) ← lift (next_account_info accounts);
  '(withdraw_authority_info, it) ← lift (next_account_info it);
  '(user_transfer_authority_info, it) ← lift (next_account_info it);
  '(burn_from_pool_info, it) ← lift (next_account_info it);
  '(reserve_stake_info, it) ← lift (next_account_info it);
  '(destination_lamports_info, it) ← lift (next_account_info it);
  '(manager_fee_info, it) ← lift (next_account_info it);
  '(pool_mint_info, it) ← lift (next_account_info it);
  '(clock_info, it) ← lift (next_account_info it);
  '(stake_history_info, it) ← lift (next_account_info it);
  '(stake_program_info, it) ← lift (next_account_info it);
  '(token_program_info, it) ← lift (next_account_info it);
  let sol_withdraw_authority_info := fst <$> next_account_info it in
  let maybe_program_signer_info := fst <$> next_account_info (tail it) in
  '(stake_pool, decimals) ← withdraw_sol_checks stake_pool_info withdraw_authority_info
    reserve_stake_info manager_fee_info pool_mint_info stake_program_info token_program_info
    sol_withdraw_authority_info;
  waived ← fee_waived stake_pool burn_from_pool_info manager_fee_info;
  a ← lift (withdrawal_amounts stake_pool waived
              (calc_pool_tokens_sol_withdrawal_fee stake_pool pool_tokens)
              pool_tokens minimum_lamports_out);
  check_reserve_remains reserve_stake_info (withdraw_lamports a);;
  withdraw_burn is_wsol_path maybe_program_signer_info token_program_info burn_from_pool_info
    pool_mint_info user_transfer_authority_info manager_fee_info a decimals;;
  stake_withdraw (key stake_pool_info) AUTHORITY_WITHDRAW (stake_withdraw_bump_seed stake_pool)
    reserve_stake_info withdraw_authority_info destination_lamports_info clock_info
    stake_history_info (withdraw_lamports a);;
  stake_pool ← lift (record_withdrawal stake_pool (pool_tokens_burnt a) (withdraw_lamports a));
  store stake_pool_info stake_pool.

(** ** WithdrawStake *)

(** The checks of [process_withdraw_stake] up to the borrow of the list. *)
Definition withdraw_stake_checks (stake_pool_info validator_list_info withdraw_authority_info
    manager_fee_info pool_mint_info token_program_info stake_program_info : AccountInfo)
    (clock : Clock) : M (StakePool * Z) :=
  lift (check_stake_program (key stake_program_info));;
  stake_pool ← load_valid_pool program_id stake_pool_info;
  decimals ← read (check_mint stake_pool pool_mint_info);
  lift (check_validator_list stake_pool validator_list_info);;
  lift (check_authority_withdraw stake_pool (key withdraw_authority_info) program_id
          (key stake_pool_info));;
  fail_if (negb (manager_fee_account stake_pool =?ₖ key manager_fee_info))
    (into_program_error InvalidFeeAccount);;
  fail_if (negb (token_program_id stake_pool =?ₖ key token_program_info)) IncorrectProgramId;;
  fail_if (last_update_epoch stake_pool <? epoch clock) (into_program_error StakeListAndPoolOutOfDate);;
  read (check_account_owner validator_list_info program_id);;
  mret (stake_pool, decimals).

(** [greater_than(x, limit) && is_active(x)], evaluated in that order. *)
Definition and_active (p : list byte -> presult bool) (x : list byte) : presult bool :=
  b ← p x; if (b : bool) then is_active x else Ok false.

(** The withdrawal comes from the reserve: allowed only when no validator has
    stake to withdraw, and it leaves the reserve its minimum. *)
Definition check_reserve_source (stake_split_from : AccountInfo) (meta : Meta)
    (has_active_stake has_transient_stake : bool) (withdraw_lamports : Z) : M unit :=
  fail_if (has_transient_stake || has_active_stake)
    (into_program_error StakeLamportsNotEqualToMinimum);;
  split_from_lamports ← lamports stake_split_from;
  fail_if (saturating_sub split_from_lamports withdraw_lamports <? minimum_reserve_lamports meta)
    (into_program_error SolWithdrawalTooLarge).

(** A preferred withdraw validator with stake available must be used first. *)
Definition check_preferred_withdraw (stake_pool : StakePool) (validator_list : list byte)
    (vote_account_address : Pubkey) (minimum_lamports_with_tolerance : Z) : presult unit :=
  match preferred_withdraw_validator_vote_address stake_pool with
  | Some preferred_withdraw_validator =>
      found ← vec_find (memcmp_pubkey preferred_withdraw_validator) validator_list;
      match found with
      | Some preferred_validator_info =>
          let available_lamports :=
            saturating_sub (uint_of_array (active_stake_lamports preferred_validator_info))
              minimum_lamports_with_tolerance in
          err_if (negb (preferred_withdraw_validator =?ₖ vote_account_address)
                  && (0 <? available_lamports)) (into_program_error IncorrectWithdrawVoteAddress)
      | None => Ok tt
      end
  | None => Ok tt
  end.

(** Which of the validator's accounts the withdrawal is taken from, with its
    address checked. *)
Definition withdraw_source (stake_pool_address : Pubkey) (stake_split_from : AccountInfo)
    (validator_stake_info : ValidatorStakeInfo) (vote_account_address : Pubkey)
    (has_active_stake has_transient_stake : bool) : presult StakeWithdrawSource :=
  let check_validator :=
    check_validator_stake_address program_id stake_pool_address (key stake_split_from)
      vote_account_address (nonzero (uint_of_array (validator_seed_suffix validator_stake_info))) in
  if has_active_stake then (check_validator;; Ok SourceActive)
  else if has_transient_stake
          || negb (uint_of_array (transient_stake_lamports validator_stake_info) =? 0) then
    (check_transient_stake_address program_id stake_pool_address (key stake_split_from)
       vote_account_address (uint_of_array (transient_seed_suffix validator_stake_info));;
     Ok SourceTransient)
  else (check_validator;; Ok SourceValidatorRemoval).

(** The amount that is really taken, and the pool with its preferred validators
    reset when the validator's whole account leaves. *)
Definition withdraw_from_entry (source : StakeWithdrawSource) (stake_pool : StakePool)
    (vote_account_address : Pubkey) (split_from_lamports required_lamports lamports_per_pool_token
    withdraw_lamports : Z) : presult (StakePool * Z) :=
  match source with
  | SourceActive | SourceTransient =>
      let remaining_lamports := saturating_sub split_from_lamports withdraw_lamports in
      err_if (remaining_lamports <? required_lamports)
        (into_program_error StakeLamportsNotEqualToMinimum);;
      Ok (stake_pool, withdraw_lamports)
  | SourceValidatorRemoval =>
      let upper_bound := saturating_add 64 split_from_lamports lamports_per_pool_token in
      err_if ((withdraw_lamports <? split_from_lamports) || (upper_bound <? withdraw_lamports))
        (into_program_error StakeLamportsNotEqualToMinimum);;
      Ok (reset_preferred stake_pool vote_account_address, split_from_lamports)
  end.

(** Where the stake is taken from: the pool, the final amount, and the list
    entry to update (none for the reserve). *)
Definition withdraw_stake_source (stake_pool_info stake_split_from : AccountInfo)
    (stake_pool : StakePool) (validator_list : list byte) (withdraw_lamports : Z)
    : M (StakePool * Z * option (nat * ValidatorStakeInfo * StakeWithdrawSource)) :=
  stake_minimum_delegation ← lift get_minimum_delegation;
  stake_state ← read (load_stake_state stake_split_from);
  meta ← ok_or_pool (stake_state_meta stake_state) WrongStakeStake;
  let required_lamports := minimum_stake_lamports meta stake_minimum_delegation in
  lamports_per_pool_token ← lift (calc (get_lamports_per_pool_token stake_pool));
  let minimum_lamports_with_tolerance := saturating_add 64 required_lamports lamports_per_pool_token in
  active ← lift (vec_find (T:=ValidatorStakeInfo)
    (and_active (active_lamports_greater_than minimum_lamports_with_tolerance)) validator_list);
  transient ← lift (vec_find (T:=ValidatorStakeInfo)
    (and_active (transient_lamports_greater_than minimum_lamports_with_tolerance)) validator_list);
  let has_active_stake := bool_decide (is_Some active) in
  let has_transient_stake := bool_decide (is_Some transient) in
  if key stake_split_from =?ₖ reserve_stake stake_pool then
    (check_reserve_source stake_split_from meta has_active_stake has_transient_stake
       withdraw_lamports;;
     mret (stake_pool, withdraw_lamports, None))
  else
    (delegation ← ok_or_pool (stake_state_delegation stake_state) WrongStakeStake;
     let vote_account_address := voter_pubkey delegation in
     lift (check_preferred_withdraw stake_pool validator_list vote_account_address
             minimum_lamports_with_tolerance);;
     found ← lift (vec_find_mut (memcmp_pubkey vote_account_address) validator_list);
     '(offset, validator_stake_info) ← ok_or_pool found ValidatorNotFound;
     source ← lift (withdraw_source (key stake_pool_info) stake_split_from validator_stake_info
                      vote_account_address has_active_stake has_transient_stake);
     fail_if (negb (bool_decide (status validator_stake_info = status_into_pod Active)))
       (into_program_error ValidatorNotFound);;
     split_from_lamports ← lamports stake_split_from;
     '(stake_pool, withdraw_lamports) ← lift (withdraw_from_entry source stake_pool
       vote_account_address split_from_lamports required_lamports lamports_per_pool_token
       withdraw_lamports);
     mret (stake_pool, withdraw_lamports, Some (offset, validator_stake_info, source))).

(** The entry after a withdrawal. *)
Definition entry_after_withdrawal (v : ValidatorStakeInfo) (source : StakeWithdrawSource)
    (withdraw_lamports : Z) : presult ValidatorStakeInfo :=
  match source with
  | SourceActive =>
      a ← calc (checked_sub (uint_of_array (active_stake_lamports v)) withdraw_lamports);
      Ok (v <| active_stake_lamports := array_of_uint 8 a |>)
  | SourceTransient =>
      t ← calc (checked_sub (uint_of_array (transient_stake_lamports v)) withdraw_lamports);
      Ok (v <| transient_stake_lamports := array_of_uint 8 t |>)
  | SourceValidatorRemoval =>
      a ← calc (checked_sub (uint_of_array (active_stake_lamports v)) withdraw_lamports);
      err_if (negb (a =? 0)) (into_program_error StakeListAndPoolOutOfDate);;
      Ok (v <| active_stake_lamports := array_of_uint 8 a |>
            <| status := status_into_pod ReadyForRemoval |>)
  end.

(** [process_withdraw_stake] *)
Definition process_withdraw_stake (accounts : list AccountInfo) (pool_tokens : Z)
    (minimum_lamports_out : option Z) : M unit :=
  '(stake_pool_info, it) ← lift (next_account_info accounts);
  '(validator_list_info, it) ← lift (next_account_info it);
  '(withdraw_authority_info, it) ← lift (next_account_info it);
  '(stake_split_from, it) ← lift (next_account_info it);
  '(stake_split_to, it) ← lift (next_account_info it);
  '(user_stake_authority_info, it) ← lift (next_account_info it);
  '(user_transfer_authority_info, it) ← lift (next_account_info it);
  '(burn_from_pool_info, it) ← lift (next_account_info it);
  '(manager_fee_info, it) ← lift (next_account_info it);
  '(pool_mint_info, it) ← lift (next_account_info it);
  '(clock_info, it) ← lift (next_account_info it);
  clock ← read (clock_from clock_info);
  '(token_program_info, it) ← lift (next_account_info it);
  '(stake_program_info, _) ← lift (next_account_info it);
  '(stake_pool, decimals) ← withdraw_stake_checks stake_pool_info validator_list_info
    withdraw_authority_info manager_fee_info pool_mint_info token_program_info
    stake_program_info clock;
  '(_, validator_list) ← open_validator_list validator_list_info;
  waived ← fee_waived stake_pool burn_from_pool_info manager_fee_info;
  a ← lift (withdrawal_amounts stake_pool waived
              (calc_pool_tokens_stake_withdrawal_fee stake_pool pool_tokens)
              pool_tokens minimum_lamports_out);
  '(stake_pool, withdraw_lamports, validator_list_item_info) ←
    withdraw_stake_source stake_pool_info stake_split_from stake_pool validator_list
      (withdraw_lamports a);
  token_burn token_program_info burn_from_pool_info pool_mint_info user_transfer_authority_info
    (pool_tokens_burnt a);;
  stake_split (key stake_pool_info) AUTHORITY_WITHDRAW (stake_withdraw_bump_seed stake_pool)
    stake_split_from withdraw_authority_info withdraw_lamports stake_split_to;;
  stake_authorize_signed (key stake_pool_info) AUTHORITY_WITHDRAW
    (stake_withdraw_bump_seed stake_pool) stake_split_to withdraw_authority_info
    (key user_stake_authority_info) clock_info;;
  when (0 <? pool_tokens_fee a)
    (token_transfer token_program_info burn_from_pool_info pool_mint_info manager_fee_info
       user_transfer_authority_info (pool_tokens_fee a) decimals);;
  stake_pool ← lift (record_withdrawal stake_pool (pool_tokens_burnt a) withdraw_lamports);
  store stake_pool_info stake_pool;;
  match validator_list_item_info with
  | Some (offset, validator_list_item, source) =>
      v ← lift (entry_after_withdrawal validator_list_item source withdraw_lamports);
      assign_entry validator_list_info offset v
  | None => mret tt
  end;;
  drop_borrow_mut validator_list_info.

(** ** WithdrawWsolWithSession *)

(** [process_withdraw_wsol_with_session] *)
Definition process_withdraw_wsol_with_session (accounts : list AccountInfo) (pool_tokens : Z) : M unit :=
  '(stake_pool_info, it) ← lift (next_account_info accounts);
  '(withdraw_authority_info, it) ← lift (next_account_info it);
  '(signer_or_session, it) ← lift (next_account_info it);
  '(burn_from_pool_info, it) ← lift (next_account_info it);
  '(reserve_stake_info, it) ← lift (next_account_info it);
  '(user_wsol_info, it) ← lift (next_account_info it);
  '(manager_fee_info, it) ← lift (next_account_info it);
  '(pool_mint_info, it) ← lift (next_account_info it);
  '(clock_info, it) ← lift (next_account_info it);
  '(stake_history_info, it) ← lift (next_account_info it);
  '(stake_program_info, it) ← lift (next_account_info it);
  '(token_program_info, it) ← lift (next_account_info it);
  '(wsol_mint_info, it) ← lift (next_account_info it);
  '(fee_payer_info, it) ← lift (next_account_info it);
  '(user_owner_info, it) ← lift (next_account_info it);
  '(system_program_info, it) ← lift (next_account_info it);
  '(program_signer_info, it) ← lift (next_account_info it);
  '(associated_token_program_info, it) ← lift (next_account_info it);
  let sol_withdraw_auth_res := fst <$> next_account_info it in
  lift (check_system_program (key system_program_info));;
  fail_if (negb (key associated_token_program_info =?ₖ associated_token_program_id))
    IncorrectProgramId;;
  user_pubkey ← check_wsol_accounts program_id wsol_mint_info user_wsol_info token_program_info
    signer_or_session;
  fail_if (negb (key user_owner_info =?ₖ user_pubkey)) InvalidAccountData;;
  invoke (CreateAssociatedTokenAccountIdempotent (key fee_payer_info) user_pubkey
            (key wsol_mint_info) (key token_program_info))
    [fee_payer_info; user_wsol_info; user_owner_info; wsol_mint_info; system_program_info;
     token_program_info];;
  let withdraw_sol_accts :=
    [stake_pool_info; withdraw_authority_info; signer_or_session; burn_from_pool_info;
     reserve_stake_info; user_wsol_info; manager_fee_info; pool_mint_info; clock_info;
     stake_history_info; stake_program_info; token_program_info;
     match sol_withdraw_auth_res with
     | Ok sol_withdraw_auth_info => sol_withdraw_auth_info
     | _ => system_program_info
     end;
     program_signer_info] in
  process_withdraw_sol withdraw_sol_accts pool_tokens None true;;
  lift (check_spl_token_v1_program_account (key token_program_info));;
  invoke (TokenSyncNative (key token_program_info) (key user_wsol_info)) [user_wsol_info].
End Withdraw.

(** ** What successful amounts and their accounting say *)

Lemma withdrawal_amounts_Ok p waived fee t m a :
  withdrawal_amounts p waived fee t m = Ok a ->
  (waived = true /\ pool_tokens_fee a = 0 \/ waived = false /\ fee = Some (pool_tokens_fee a)) /\
  pool_tokens_fee a + pool_tokens_burnt a = t /\ pool_tokens_fee a <= t /\
  calc_lamports_withdraw_amount p (pool_tokens_burnt a) = Some (withdraw_lamports a) /\
  withdraw_lamports a <> 0 /\
  (forall n, m = Some n -> n <= withdraw_lamports a).
Proof.
  intros Ha. unfold withdrawal_amounts in Ha.
  apply bind_Ok in Ha as (f & Hf & Ha). apply bind_Ok in Ha as (b & Hb%calc_Ok & Ha).
  apply bind_Ok in Ha as (l & Hl%calc_Ok & Ha). apply bind_Ok in Ha as (u & Hz%err_if_Ok & Ha).
  apply bind_Ok in Ha as (u' & Hm & [=<-]). simpl.
  apply checked_sub_Some in Hb as [-> Hb]. bool_props.
  split; [destruct waived; [injection Hf as <-; auto|apply calc_Ok in Hf; auto]|].
  split; [lia|]. split; [lia|]. split; [done|]. split; [done|].
  intros n ->. apply err_if_Ok in Hm. bool_props. lia.
Qed.

Lemma record_withdrawal_Ok p t l q :
  record_withdrawal p t l = Ok q ->
  q = after_withdraw p t l /\ l <= total_lamports p /\ t <= pool_token_supply p.
Proof.
  intros Hq. unfold record_withdrawal in Hq.
  apply bind_Ok in Hq as (s & Hs%calc_Ok & Hq). apply bind_Ok in Hq as (n & Hn%calc_Ok & [=<-]).
  apply checked_sub_Some in Hs as [-> Hs], Hn as [-> Hn]. done.
Qed.

(** Resetting preferred validators touches nothing else. *)
Lemma withdraw_from_entry_Ok source p vote l req per n q n' :
  withdraw_from_entry source p vote l req per n = Ok (q, n') ->
  n' <= n /\ (n' = n /\ q = p \/ n' = l /\ q = reset_preferred p vote).
Proof.
  intros Hw. unfold withdraw_from_entry in Hw. destruct source;
    apply bind_Ok in Hw as (u & Hu%err_if_Ok & [=<- <-]); bool_props; auto with lia.
Qed.
