(* ===== verification/Validators.v ===== *)
(** * Validators of a pool (src/program/src/processor.rs)

    [AddValidatorToPool], [RemoveValidatorFromPool], and the handlers that move
    stake between the reserve and a validator through a transient account:
    [IncreaseValidatorStake], [DecreaseValidatorStake] and their variants with an
    ephemeral account. *)

From S2P Require Import Prelude Errors Fees Pool BigVec Borsh ValidatorList Runtime Checks Admin.
From S2P Require Import Deposit.

Section Validators.
Context `{Runtime}.
Variable program_id : Pubkey.

(** The staker's prologue: a valid, up-to-date pool, its withdraw authority and
    the staker's signature. *)
Definition staker_checks (stake_pool_info staker_info withdraw_authority_info : AccountInfo) : M StakePool :=
  stake_pool ← load_valid_pool program_id stake_pool_info;
  lift (check_authority_withdraw stake_pool (key withdraw_authority_info) program_id
          (key stake_pool_info));;
  lift (check_staker stake_pool staker_info);;
  mret stake_pool.

(** ** AddValidatorToPool *)

(** Room in the list, and the vote account is not in it yet. *)
Definition check_can_add (header : ValidatorListHeader) (validator_list : list byte) (vote : Pubkey)
    : presult unit :=
  len ← vec_len validator_list;
  err_if (max_validators header =? len) AccountDataTooSmall;;
  err_if (MAX_VALIDATORS_IN_POOL <=? len) (into_program_error TooManyValidatorsInPool);;
  maybe_validator_stake_info ← vec_find (T:=ValidatorStakeInfo) (memcmp_pubkey vote) validator_list;
  err_if (bool_decide (is_Some maybe_validator_stake_info)) (into_program_error ValidatorAlreadyAdded).

(** What the new stake account is funded with; the reserve keeps its minimum. *)
Definition add_validator_funds (reserve_stake_info : AccountInfo) (rent : Rent) : M Z :=
  let stake_space := stake_state_size in
  stake_minimum_delegation ← lift get_minimum_delegation;
  let required_lamports :=
    saturating_add 64 (minimum_delegation stake_minimum_delegation) (minimum_balance rent stake_space) in
  reserve_stake ← read (load_stake_state reserve_stake_info);
  reserve_meta ← ok_or_pool (stake_state_meta reserve_stake) WrongStakeStake;
  let minimum_lamports := minimum_reserve_lamports reserve_meta in
  reserve_lamports ← lamports reserve_stake_info;
  fail_if (saturating_sub reserve_lamports required_lamports <? minimum_lamports) InsufficientFunds;;
  mret required_lamports.

(** The entry of a validator that was just added. *)
Definition new_validator_entry (vote : Pubkey) (required_lamports epoch raw_validator_seed : Z)
    : ValidatorStakeInfo :=
  mkVSI (array_of_uint 8 required_lamports) (array_of_uint 8 0) (array_of_uint 8 epoch)
    (array_of_uint 8 0) (array_of_uint 4 0) (array_of_uint 4 raw_validator_seed)
    (status_into_pod Active) vote.

(** [validator_list.push(entry)?] on the borrowed list *)
Definition push_entry (validator_list_info : AccountInfo) (v : ValidatorStakeInfo) : M unit := fun w =>
  let d := acc_data (account w (key validator_list_info)) in
  let '(big_vec, r) := vec_push v (drop HEADER_LEN d) in
  (lift r;; write_data validator_list_info (take HEADER_LEN d ++ big_vec)) w.

(** [process_add_validator_to_pool] *)
Definition process_add_validator_to_pool (accounts : list AccountInfo) (raw_validator_seed : Z) : M unit :=
  '(stake_pool_info, it) ← lift (next_account_info accounts);
  '(staker_info, it) ← lift (next_account_info it);
  '(reserve_stake_info, it) ← lift (next_account_info it);
  '(withdraw_authority_info, it) ← lift (next_account_info it);
  '(validator_list_info, it) ← lift (next_account_info it);
  '(stake_info, it) ← lift (next_account_info it);
  '(validator_vote_info, it) ← lift (next_account_info it);
  '(rent_info, it) ← lift (next_account_info it);
  rent ← read (rent_from rent_info);
  '(clock_info, it) ← lift (next_account_info it);
  clock ← read (clock_from clock_info);
  '(stake_history_info, it) ← lift (next_account_info it);
  '(stake_config_info, it) ← lift (next_account_info it);
  '(system_program_info, it) ← lift (next_account_info it);
  '(stake_program_info, _) ← lift (next_account_info it);
  lift (check_system_program (key system_program_info));;
  lift (check_stake_program (key stake_program_info));;
  stake_pool ← staker_checks stake_pool_info staker_info withdraw_authority_info;
  lift (check_reserve_stake stake_pool reserve_stake_info);;
  lift (check_validator_list stake_pool validator_list_info);;
  fail_if (last_update_epoch stake_pool <? epoch clock) (into_program_error StakeListAndPoolOutOfDate);;
  read (check_account_owner validator_list_info program_id);;
  '(header, validator_list) ← open_validator_list validator_list_info;
  lift (check_can_add header validator_list (key validator_vote_info));;
  let validator_seed := nonzero raw_validator_seed in
  let '(stake_address, bump_seed) :=
    find_stake_program_address program_id (key validator_vote_info) (key stake_pool_info)
      validator_seed in
  fail_if (negb (stake_address =?ₖ key stake_info)) (into_program_error InvalidStakeAccountAddress);;
  let stake_account_signer_seeds :=
    [pk_bytes (key validator_vote_info); pk_bytes (key stake_pool_info);
     default [] (le_encode 4 <$> validator_seed); bump bump_seed] in
  required_lamports ← add_validator_funds reserve_stake_info rent;
  create_stake_account stake_info stake_account_signer_seeds stake_state_size;;
  stake_split (key stake_pool_info) AUTHORITY_WITHDRAW (stake_withdraw_bump_seed stake_pool)
    reserve_stake_info withdraw_authority_info required_lamports stake_info;;
  stake_delegate (key stake_pool_info) AUTHORITY_WITHDRAW (stake_withdraw_bump_seed stake_pool)
    stake_info validator_vote_info clock_info stake_history_info stake_config_info
    withdraw_authority_info;;
  push_entry validator_list_info
    (new_validator_entry (key validator_vote_info) required_lamports (epoch clock) raw_validator_seed);;
  drop_borrow_mut validator_list_info.

(** ** RemoveValidatorFromPool *)

(** The entry of a vote account, with its place in the list, or
    [ValidatorNotFound]. *)
Definition find_entry (validator_list : list byte) (vote_account_address : Pubkey)
    : M (nat * ValidatorStakeInfo) :=
  found ← lift (vec_find_mut (memcmp_pubkey vote_account_address) validator_list);
  ok_or_pool found ValidatorNotFound.

(** Winding down the transient stake of a validator that is removed: it is
    deactivated when it is a usable, delegated stake that is not deactivating
    yet. *)
Definition remove_transient (stake_pool_info transient_stake_account_info clock_info
    withdraw_authority_info : AccountInfo) (stake_pool : StakePool) : M unit :=
  r ← observe (get_stake_state transient_stake_account_info);
  match r with
  | Ok (meta, stake) =>
      when (stake_is_usable_by_pool meta (key withdraw_authority_info) (lockup stake_pool) &&
            (deactivation_epoch (delegation stake) =? EPOCH_MAX))
        (stake_deactivate (key stake_pool_info) AUTHORITY_WITHDRAW
           (stake_withdraw_bump_seed stake_pool) transient_stake_account_info clock_info
           withdraw_authority_info)
  | _ => mret tt
  end.

(** The status the entry gets, after its transient stake is wound down. *)
Definition removal_status (stake_pool_info transient_stake_account_info clock_info
    withdraw_authority_info : AccountInfo) (stake_pool : StakePool) (v : ValidatorStakeInfo)
    (vote_account_address : Pubkey) : M StakeStatus :=
  if 0 <? uint_of_array (transient_stake_lamports v) then
    (lift (check_transient_stake_address program_id (key stake_pool_info)
             (key transient_stake_account_info) vote_account_address
             (uint_of_array (transient_seed_suffix v)));;
     remove_transient stake_pool_info transient_stake_account_info clock_info
       withdraw_authority_info stake_pool;;
     mret DeactivatingAll)
  else mret DeactivatingValidator.

(** [process_remove_validator_from_pool] *)
Definition process_remove_validator_from_pool (accounts : list AccountInfo) : M unit :=
  '(stake_pool_info, it) ← lift (next_account_info accounts);
  '(staker_info, it) ← lift (next_account_info it);
  '(withdraw_authority_info, it) ← lift (next_account_info it);
  '(validator_list_info, it) ← lift (next_account_info it);
  '(stake_account_info, it) ← lift (next_account_info it);
  '(transient_stake_account_info, it) ← lift (next_account_info it);
  '(clock_info, it) ← lift (next_account_info it);
  clock ← read (clock_from clock_info);
  '(stake_program_info, _) ← lift (next_account_info it);
  lift (check_stake_program (key stake_program_info));;
  stake_pool ← staker_checks stake_pool_info staker_info withdraw_authority_info;
  fail_if (last_update_epoch stake_pool <? epoch clock) (into_program_error StakeListAndPoolOutOfDate);;
  lift (check_validator_list stake_pool validator_list_info);;
  read (check_account_owner validator_list_info program_id);;
  '(_, validator_list) ← open_validator_list validator_list_info;
  '(_, stake) ← read (get_stake_state stake_account_info);
  let vote_account_address := voter_pubkey (delegation stake) in
  '(offset, validator_stake_info) ← find_entry validator_list vote_account_address;
  lift (check_validator_stake_address program_id (key stake_pool_info) (key stake_account_info)
          vote_account_address
          (nonzero (uint_of_array (validator_seed_suffix validator_stake_info))));;
  fail_if (negb (bool_decide (status validator_stake_info = status_into_pod Active)))
    (into_program_error ValidatorNotFound);;
  new_status ← removal_status stake_pool_info transient_stake_account_info clock_info
    withdraw_authority_info stake_pool validator_stake_info vote_account_address;
  when (deactivation_epoch (delegation stake) =? EPOCH_MAX)
    (stake_deactivate (key stake_pool_info) AUTHORITY_WITHDRAW (stake_withdraw_bump_seed stake_pool)
       stake_account_info clock_info withdraw_authority_info);;
  assign_entry validator_list_info offset
    (validator_stake_info <| status := status_into_pod new_status |>);;
  store stake_pool_info (reset_preferred stake_pool vote_account_address);;
  drop_borrow_mut validator_list_info.

(** ** IncreaseValidatorStake *)

(** With a transient stake pending, only the variant with an ephemeral account
    and the pending seed may add to it. *)
Definition check_transient_in_use (v : ValidatorStakeInfo) (maybe_ephemeral_stake_seed : option Z)
    (transient_stake_seed : Z) (check : World -> presult unit) : M unit :=
  when (0 <? uint_of_array (transient_stake_lamports v))
    (fail_if (bool_decide (maybe_ephemeral_stake_seed = None)) (into_program_error TransientAccountInUse);;
     fail_if (negb (transient_stake_seed =? uint_of_array (transient_seed_suffix v))) InvalidSeeds;;
     read check).

(** The amount split off the reserve for an increase: the lamports asked for and
    the rent of the stake account; the reserve keeps a rent-exempt balance. *)
Definition increase_amount (reserve_stake_account_info : AccountInfo) (lamports_in : Z) (rent : Rent)
    : M Z :=
  let stake_rent := minimum_balance rent stake_state_size in
  stake_minimum_delegation ← lift get_minimum_delegation;
  fail_if (lamports_in <? minimum_delegation stake_minimum_delegation)
    (Custom stake_error_insufficient_delegation);;
  let total_lamports := saturating_add 64 lamports_in stake_rent in
  reserve_lamports ← lamports reserve_stake_account_info;
  fail_if (saturating_sub reserve_lamports total_lamports <? stake_rent) InsufficientFunds;;
  mret total_lamports.

(** Seeds of the derived stake accounts. *)
Definition ephemeral_seeds (stake_pool : Pubkey) (seed bump_seed : Z) : seeds :=
  [EPHEMERAL_STAKE_SEED_PREFIX; pk_bytes stake_pool; le_encode 8 seed; bump bump_seed].
Definition transient_seeds (stake_pool vote : Pubkey) (seed bump_seed : Z) : seeds :=
  [TRANSIENT_STAKE_SEED_PREFIX; pk_bytes vote; pk_bytes stake_pool; le_encode 8 seed; bump bump_seed].

(** The account the increase is taken from: the reserve itself, or an ephemeral
    account split off it and delegated. *)
Definition increase_source (stake_pool_info reserve_stake_account_info withdraw_authority_info
    validator_vote_account_info clock_info stake_history_info stake_config_info : AccountInfo)
    (ephemeral : option (Z * AccountInfo)) (bump_seed total_lamports : Z) : M AccountInfo :=
  match ephemeral with
  | Some (ephemeral_stake_seed, ephemeral_stake_account_info) =>
      ephemeral_stake_bump_seed ← lift (check_ephemeral_stake_address program_id
        (key stake_pool_info) (key ephemeral_stake_account_info) ephemeral_stake_seed);
      create_stake_account ephemeral_stake_account_info
        (ephemeral_seeds (key stake_pool_info) ephemeral_stake_seed ephemeral_stake_bump_seed)
        stake_state_size;;
      stake_split (key stake_pool_info) AUTHORITY_WITHDRAW bump_seed reserve_stake_account_info
        withdraw_authority_info total_lamports ephemeral_stake_account_info;;
      stake_delegate (key stake_pool_info) AUTHORITY_WITHDRAW bump_seed
        ephemeral_stake_account_info validator_vote_account_info clock_info stake_history_info
        stake_config_info withdraw_authority_info;;
      mret ephemeral_stake_account_info
  | None => mret reserve_stake_account_info
  end.

(** A transient account that was split off is delegated unless it already is
    since this epoch or earlier. *)
Definition delegate_if_needed (stake_pool_info transient_stake_account_info
    validator_vote_account_info clock_info stake_history_info stake_config_info
    withdraw_authority_info : AccountInfo) (bump_seed : Z) (clock : Clock) : M unit :=
  stake_state ← read (load_stake_state transient_stake_account_info);
  let delegated :=
    match stake_state with
    | StakeStake _ stake => activation_epoch (delegation stake) <=? epoch clock
    | _ => false
    end in
  when (negb delegated)
    (stake_delegate (key stake_pool_info) AUTHORITY_WITHDRAW bump_seed transient_stake_account_info
       validator_vote_account_info clock_info stake_history_info stake_config_info
       withdraw_authority_info).

(** Moving the source into the transient account: merged into an existing one,
    split off into a new one otherwise. *)
Definition increase_transient (stake_pool_info source_stake_account_info withdraw_authority_info
    transient_stake_account_info validator_vote_account_info clock_info stake_history_info
    stake_config_info : AccountInfo) (bump_seed : Z) (clock : Clock) (v : ValidatorStakeInfo)
    (transient_stake_seed transient_stake_bump_seed total_lamports : Z) : M unit :=
  if 0 <? uint_of_array (transient_stake_lamports v) then
    stake_merge (key stake_pool_info) AUTHORITY_WITHDRAW bump_seed source_stake_account_info
      withdraw_authority_info transient_stake_account_info clock_info stake_history_info
  else
    (create_stake_account transient_stake_account_info
       (transient_seeds (key stake_pool_info) (key validator_vote_account_info)
          transient_stake_seed transient_stake_bump_seed) stake_state_size;;
     stake_split (key stake_pool_info) AUTHORITY_WITHDRAW bump_seed source_stake_account_info
       withdraw_authority_info total_lamports transient_stake_account_info;;
     delegate_if_needed stake_pool_info transient_stake_account_info validator_vote_account_info
       clock_info stake_history_info stake_config_info withdraw_authority_info bump_seed clock).

(** [maybe_seed.map(|_| next_account_info(iter)).transpose()?] *)
Definition next_if (c : bool) (it : list AccountInfo) : presult (option AccountInfo * list AccountInfo) :=
  if c then ('(a, it) ← next_account_info it; Ok (Some a, it)) else Ok (None, it).

(** [Option::zip] *)
Definition option_zip {A B} (a : option A) (b : option B) : option (A * B) :=
  match a, b with Some a, Some b => Some (a, b) | _, _ => None end.

(** [process_increase_validator_stake] *)
Definition process_increase_validator_stake (accounts : list AccountInfo)
    (lamports_in transient_stake_seed : Z) (maybe_ephemeral_stake_seed : option Z) : M unit :=
  '(stake_pool_info, it) ← lift (next_account_info accounts);
  '(staker_info, it) ← lift (next_account_info it);
  '(withdraw_authority_info, it) ← lift (next_account_info it);
  '(validator_list_info, it) ← lift (next_account_info it);
  '(reserve_stake_account_info, it) ← lift (next_account_info it);
  '(maybe_ephemeral_stake_account_info, it) ←
    lift (next_if (bool_decide (is_Some maybe_ephemeral_stake_seed)) it);
  '(transient_stake_account_info, it) ← lift (next_account_info it);
  '(validator_stake_account_info, it) ← lift (next_account_info it);
  '(validator_vote_account_info, it) ← lift (next_account_info it);
  '(clock_info, it) ← lift (next_account_info it);
  clock ← read (clock_from clock_info);
  '(rent, it) ←
    (if bool_decide (is_Some maybe_ephemeral_stake_seed)
     then (rent ← lift rent_get; mret (rent, it))
     else ('(rent_info, it) ← lift (next_account_info it);
           rent ← read (rent_from rent_info); mret (rent, it)));
  '(stake_history_info, it) ← lift (next_account_info it);
  '(stake_config_info, it) ← lift (next_account_info it);
  '(system_program_info, it) ← lift (next_account_info it);
  '(stake_program_info, _) ← lift (next_account_info it);
  lift (check_system_program (key system_program_info));;
  lift (check_stake_program (key stake_program_info));;
  stake_pool ← staker_checks stake_pool_info staker_info withdraw_authority_info;
  fail_if (last_update_epoch stake_pool <? epoch clock) (into_program_error StakeListAndPoolOutOfDate);;
  lift (check_validator_list stake_pool validator_list_info);;
  lift (check_reserve_stake stake_pool reserve_stake_account_info);;
  read (check_account_owner validator_list_info program_id);;
  '(_, validator_list) ← open_validator_list validator_list_info;
  let vote_account_address := key validator_vote_account_info in
  '(offset, validator_stake_info) ← find_entry validator_list vote_account_address;
  check_transient_in_use validator_stake_info maybe_ephemeral_stake_seed transient_stake_seed
    (check_if_stake_activating transient_stake_account_info (epoch clock));;
  read (check_validator_stake_account validator_stake_account_info program_id
          (key stake_pool_info) (key withdraw_authority_info) vote_account_address
          (uint_of_array (validator_seed_suffix validator_stake_info)) (lockup stake_pool));;
  fail_if (negb (bool_decide (status validator_stake_info = status_into_pod Active)))
    (into_program_error ValidatorNotFound);;
  total_lamports ← increase_amount reserve_stake_account_info lamports_in rent;
  source_stake_account_info ← increase_source stake_pool_info reserve_stake_account_info
    withdraw_authority_info validator_vote_account_info clock_info stake_history_info
    stake_config_info (option_zip maybe_ephemeral_stake_seed maybe_ephemeral_stake_account_info)
    (stake_withdraw_bump_seed stake_pool) total_lamports;
  transient_stake_bump_seed ← lift (check_transient_stake_address program_id
    (key stake_pool_info) (key transient_stake_account_info) vote_account_address
    transient_stake_seed);
  increase_transient stake_pool_info source_stake_account_info withdraw_authority_info
    transient_stake_account_info validator_vote_account_info clock_info stake_history_info
    stake_config_info (stake_withdraw_bump_seed stake_pool) clock validator_stake_info
    transient_stake_seed transient_stake_bump_seed total_lamports;;
  transient ← lift (calc (checked_add 64 (uint_of_array (transient_stake_lamports validator_stake_info))
                            total_lamports));
  assign_entry validator_list_info offset
    (validator_stake_info <| transient_stake_lamports := array_of_uint 8 transient |>
       <| transient_seed_suffix := array_of_uint 8 transient_stake_seed |>);;
  drop_borrow_mut validator_list_info.

(** ** DecreaseValidatorStake *)

(** The amount of a decrease: at least a minimum delegation, and the validator
    keeps its minimum. *)
Definition check_decrease_amount (validator_stake_account_info : AccountInfo) (meta : Meta)
    (lamports_in : Z) : M unit :=
  stake_minimum_delegation ← lift get_minimum_delegation;
  fail_if (lamports_in <? minimum_delegation stake_minimum_delegation) AccountNotRentExempt;;
  stake_lamports ← lamports validator_stake_account_info;
  remaining_lamports ← lift (ok_or InsufficientFunds (checked_sub stake_lamports lamports_in));
  let required_lamports := minimum_stake_lamports meta stake_minimum_delegation in
  when (remaining_lamports <? required_lamports)
    (lift (calc (checked_sub stake_lamports required_lamports));; lift (Err InsufficientFunds)).

(** Funding the rent of the ephemeral account from the reserve. *)
Definition fund_ephemeral (stake_pool_info withdraw_authority_info ephemeral_stake_account_info
    clock_info : AccountInfo) (maybe_reserve_stake_info maybe_stake_history_info : option AccountInfo)
    (bump_seed stake_rent : Z) : M unit :=
  match maybe_reserve_stake_info with
  | Some reserve_stake_info =>
      ephemeral_lamports ← lamports ephemeral_stake_account_info;
      let required := saturating_sub stake_rent ephemeral_lamports in
      when (0 <? required)
        (reserve_lamports ← lamports reserve_stake_info;
         fail_if (reserve_lamports <=? required) (into_program_error ReserveDepleted);;
         stake_history_info ← ok_or_pool maybe_stake_history_info MissingRequiredSysvar;
         stake_withdraw (key stake_pool_info) AUTHORITY_WITHDRAW bump_seed reserve_stake_info
           withdraw_authority_info ephemeral_stake_account_info clock_info stake_history_info required)
  | None => mret tt
  end.

(** The account the decrease is taken from and the amount: the validator's own
    account, or an ephemeral account split off it and deactivated. *)
Definition decrease_source (stake_pool_info validator_stake_account_info withdraw_authority_info
    clock_info : AccountInfo) (maybe_reserve_stake_info maybe_stake_history_info : option AccountInfo)
    (ephemeral : option (Z * AccountInfo)) (bump_seed stake_rent lamports_in : Z)
    : M (AccountInfo * Z) :=
  match ephemeral with
  | Some (ephemeral_stake_seed, ephemeral_stake_account_info) =>
      ephemeral_stake_bump_seed ← lift (check_ephemeral_stake_address program_id
        (key stake_pool_info) (key ephemeral_stake_account_info) ephemeral_stake_seed);
      create_stake_account ephemeral_stake_account_info
        (ephemeral_seeds (key stake_pool_info) ephemeral_stake_seed ephemeral_stake_bump_seed)
        stake_state_size;;
      fund_ephemeral stake_pool_info withdraw_authority_info ephemeral_stake_account_info clock_info
        maybe_reserve_stake_info maybe_stake_history_info bump_seed stake_rent;;
      stake_split (key stake_pool_info) AUTHORITY_WITHDRAW bump_seed validator_stake_account_info
        withdraw_authority_info lamports_in ephemeral_stake_account_info;;
      stake_deactivate (key stake_pool_info) AUTHORITY_WITHDRAW bump_seed
        ephemeral_stake_account_info clock_info withdraw_authority_info;;
      split_lamports ← lamports ephemeral_stake_account_info;
      mret (ephemeral_stake_account_info, split_lamports)
  | None => mret (validator_stake_account_info, lamports_in)
  end.

(** Funding the rent of the transient account from the reserve, unless the whole
    source account moves over. *)
Definition fund_transient (stake_pool_info withdraw_authority_info transient_stake_account_info
    source_stake_account_info clock_info : AccountInfo)
    (maybe_reserve_stake_info maybe_stake_history_info : option AccountInfo)
    (bump_seed stake_rent split_lamports : Z) : M unit :=
  match maybe_reserve_stake_info with
  | Some reserve_stake_info =>
      transient_lamports ← lamports transient_stake_account_info;
      let required_lamports := saturating_sub stake_rent transient_lamports in
      source_lamports ← lamports source_stake_account_info;
      when (negb (source_lamports =? split_lamports))
        (stake_history_info ← ok_or_pool maybe_stake_history_info MissingRequiredSysvar;
         reserve_lamports ← lamports reserve_stake_info;
         fail_if (reserve_lamports <=? required_lamports) (into_program_error ReserveDepleted);;
         when (0 <? required_lamports)
           (stake_withdraw (key stake_pool_info) AUTHORITY_WITHDRAW bump_seed reserve_stake_info
              withdraw_authority_info transient_stake_account_info clock_info stake_history_info
              required_lamports))
  | None => mret tt
  end.

(** Moving the source into the transient account: merged into an existing one,
    split off into a new one and deactivated otherwise. *)
Definition decrease_transient (stake_pool_info source_stake_account_info withdraw_authority_info
    transient_stake_account_info clock_info : AccountInfo)
    (maybe_reserve_stake_info maybe_stake_history_info : option AccountInfo) (bump_seed stake_rent : Z)
    (v : ValidatorStakeInfo) (vote_account_address : Pubkey)
    (transient_stake_seed transient_stake_bump_seed split_lamports : Z) : M unit :=
  if 0 <? uint_of_array (transient_stake_lamports v) then
    (stake_history_info ← lift (unwrap maybe_stake_history_info);
     stake_merge (key stake_pool_info) AUTHORITY_WITHDRAW bump_seed source_stake_account_info
       withdraw_authority_info transient_stake_account_info clock_info stake_history_info)
  else
    (create_stake_account transient_stake_account_info
       (transient_seeds (key stake_pool_info) vote_account_address transient_stake_seed
          transient_stake_bump_seed) stake_state_size;;
     fund_transient stake_pool_info withdraw_authority_info transient_stake_account_info
       source_stake_account_info clock_info maybe_reserve_stake_info maybe_stake_history_info
       bump_seed stake_rent split_lamports;;
     stake_split (key stake_pool_info) AUTHORITY_WITHDRAW bump_seed source_stake_account_info
       withdraw_authority_info split_lamports transient_stake_account_info;;
     '(_, stake) ← read (get_stake_state transient_stake_account_info);
     when (deactivation_epoch (delegation stake) =? EPOCH_MAX)
       (stake_deactivate (key stake_pool_info) AUTHORITY_WITHDRAW bump_seed
          transient_stake_account_info clock_info withdraw_authority_info)).

(** [process_decrease_validator_stake] *)
Definition process_decrease_validator_stake (accounts : list AccountInfo)
    (lamports_in transient_stake_seed : Z) (maybe_ephemeral_stake_seed : option Z)
    (fund_rent_exempt_reserve : bool) : M unit :=
  '(stake_pool_info, it) ← lift (next_account_info accounts);
  '(staker_info, it) ← lift (next_account_info it);
  '(withdraw_authority_info, it) ← lift (next_account_info it);
  '(validator_list_info, it) ← lift (next_account_info it);
  '(maybe_reserve_stake_info, it) ← lift (next_if fund_rent_exempt_reserve it);
  '(validator_stake_account_info, it) ← lift (next_account_info it);
  '(maybe_ephemeral_stake_account_info, it) ←
    lift (next_if (bool_decide (is_Some maybe_ephemeral_stake_seed)) it);
  '(transient_stake_account_info, it) ← lift (next_account_info it);
  '(clock_info, it) ← lift (next_account_info it);
  clock ← read (clock_from clock_info);
  '(rent, maybe_stake_history_info, it) ←
    (if bool_decide (is_Some maybe_ephemeral_stake_seed) || fund_rent_exempt_reserve
     then (rent ← lift rent_get;
           '(stake_history_info, it) ← lift (next_account_info it);
           mret (rent, Some stake_history_info, it))
     else ('(rent_info, it) ← lift (next_account_info it);
           rent ← read (rent_from rent_info); mret (rent, None, it)));
  '(system_program_info, it) ← lift (next_account_info it);
  '(stake_program_info, _) ← lift (next_account_info it);
  lift (check_system_program (key system_program_info));;
  lift (check_stake_program (key stake_program_info));;
  stake_pool ← staker_checks stake_pool_info staker_info withdraw_authority_info;
  fail_if (last_update_epoch stake_pool <? epoch clock) (into_program_error StakeListAndPoolOutOfDate);;
  lift (check_validator_list stake_pool validator_list_info);;
  read (check_account_owner validator_list_info program_id);;
  '(_, validator_list) ← open_validator_list validator_list_info;
  match maybe_reserve_stake_info with
  | Some reserve_stake_info => lift (check_reserve_stake stake_pool reserve_stake_info)
  | None => mret tt
  end;;
  '(meta, stake) ← read (get_stake_state validator_stake_account_info);
  let vote_account_address := voter_pubkey (delegation stake) in
  '(offset, validator_stake_info) ← find_entry validator_list vote_account_address;
  lift (check_validator_stake_address program_id (key stake_pool_info)
          (key validator_stake_account_info) vote_account_address
          (nonzero (uint_of_array (validator_seed_suffix validator_stake_info))));;
  check_transient_in_use validator_stake_info maybe_ephemeral_stake_seed transient_stake_seed
    (check_if_stake_deactivating transient_stake_account_info (epoch clock));;
  fail_if (negb (bool_decide (status validator_stake_info = status_into_pod Active)))
    (into_program_error ValidatorNotFound);;
  let stake_rent := minimum_balance rent stake_state_size in
  check_decrease_amount validator_stake_account_info meta lamports_in;;
  '(source_stake_account_info, split_lamports) ← decrease_source stake_pool_info
    validator_stake_account_info withdraw_authority_info clock_info maybe_reserve_stake_info
    maybe_stake_history_info
    (option_zip maybe_ephemeral_stake_seed maybe_ephemeral_stake_account_info)
    (stake_withdraw_bump_seed stake_pool) stake_rent lamports_in;
  transient_stake_bump_seed ← lift (check_transient_stake_address program_id
    (key stake_pool_info) (key transient_stake_account_info) vote_account_address
    transient_stake_seed);
  decrease_transient stake_pool_info source_stake_account_info withdraw_authority_info
    transient_stake_account_info clock_info maybe_reserve_stake_info maybe_stake_history_info
    (stake_withdraw_bump_seed stake_pool) stake_rent validator_stake_info vote_account_address
    transient_stake_seed transient_stake_bump_seed split_lamports;;
  active ← lift (calc (checked_sub (uint_of_array (active_stake_lamports validator_stake_info))
                         lamports_in));
  transient ← lamports transient_stake_account_info;
  assign_entry validator_list_info offset
    (validator_stake_info <| active_stake_lamports := array_of_uint 8 active |>
       <| transient_stake_lamports := array_of_uint 8 transient |>
       <| transient_seed_suffix := array_of_uint 8 transient_stake_seed |>);;
  drop_borrow_mut validator_list_info.
End Validators.
