(* ===== verification/Update.v ===== *)
(** * Epoch updates (src/program/src/processor.rs)

    [UpdateValidatorListBalance], [UpdateStakePoolBalance] and
    [CleanupRemovedValidatorEntries]: what brings a pool up to date once per
    epoch. *)

From S2P Require Import Prelude Errors Fees Pool BigVec Borsh ValidatorList Runtime Checks Admin.
From S2P Require Import Deposit.

Section Update.
Context `{Runtime}.
Variable program_id : Pubkey.

(** ** UpdateValidatorListBalance *)

(** The accounts and values the loop body uses. *)
Record UpdateContext := mkUpdate {
  uc_stake_pool_info : AccountInfo;
  uc_withdraw_authority_info : AccountInfo;
  uc_reserve_stake_info : AccountInfo;
  uc_clock_info : AccountInfo;
  uc_stake_history_info : AccountInfo;
  uc_stake_pool : StakePool;
  uc_clock : Clock;
  uc_no_merge : bool;
}.

Section Loop.
Variable c : UpdateContext.

Definition usable (meta : Meta) : bool :=
  stake_is_usable_by_pool meta (key (uc_withdraw_authority_info c)) (lockup (uc_stake_pool c)).

(** [Self::stake_merge] with the pool's withdraw authority *)
Definition merge_into (source destination : AccountInfo) : M unit :=
  stake_merge (key (uc_stake_pool_info c)) AUTHORITY_WITHDRAW
    (stake_withdraw_bump_seed (uc_stake_pool c)) source (uc_withdraw_authority_info c) destination
    (uc_clock_info c) (uc_stake_history_info c).

(** An active validator's transient stake joins the validator stake once both
    were activated in an earlier epoch. *)
Definition merge_active_transient (validator_stake_info transient_stake_info : AccountInfo)
    (validator_stake_state : option StakeStateV2) (stake : Stake) : M unit :=
  when (activation_epoch (delegation stake) <? epoch (uc_clock c))
    match validator_stake_state with
    | Some (StakeStake _ validator_stake) =>
        when (activation_epoch (delegation validator_stake) <? epoch (uc_clock c))
          (merge_into transient_stake_info validator_stake_info)
    | _ => mret tt
    end.

(** A delegated transient stake: merged into the reserve when inactive, into the
    validator stake when both are active, deactivated when the validator is
    leaving.  Returns the entry's status. *)
Definition update_delegated_transient (validator_stake_info transient_stake_info : AccountInfo)
    (validator_stake_state : option StakeStateV2) (stake : Stake) (st : byte) : M byte :=
  if stake_is_inactive_without_history stake (epoch (uc_clock c)) then
    (merge_into transient_stake_info (uc_reserve_stake_info c);;
     lift (remove_transient_stake st))
  else if bool_decide (stake_status_from_u8 st = Some Active) then
    (merge_active_transient validator_stake_info transient_stake_info validator_stake_state stake;;
     mret st)
  else
    (when (deactivation_epoch (delegation stake) =? EPOCH_MAX)
       (stake_deactivate (key (uc_stake_pool_info c)) AUTHORITY_WITHDRAW
          (stake_withdraw_bump_seed (uc_stake_pool c)) transient_stake_info (uc_clock_info c)
          (uc_withdraw_authority_info c));;
     mret st).

(** The transient stake of an entry: the status it leaves and the lamports it
    counts for. *)
Definition update_transient (validator_stake_info transient_stake_info : AccountInfo)
    (validator_stake_state transient_stake_state : option StakeStateV2) (v : ValidatorStakeInfo)
    : M (byte * Z) :=
  if uint_of_array (transient_stake_lamports v) =? 0 then mret (status v, 0)
  else
    match transient_stake_state with
    | Some (StakeInitialized meta) =>
        if usable meta then
          (if uc_no_merge c
           then (l ← lamports transient_stake_info; mret (status v, l))
           else (merge_into transient_stake_info (uc_reserve_stake_info c);;
                 st ← lift (remove_transient_stake (status v)); mret (st, 0)))
        else mret (status v, 0)
    | Some (StakeStake meta stake) =>
        if usable meta then
          (st ← (if uc_no_merge c then mret (status v)
                 else update_delegated_transient validator_stake_info transient_stake_info
                        validator_stake_state stake (status v));
           l ← lamports transient_stake_info;
           mret (st, l))
        else mret (status v, 0)
    | None | Some StakeUninitialized | Some StakeRewardsPool => mret (status v, 0)
    end.

(** A delegated validator stake: extra lamports go back to the reserve; a
    leaving validator's stake is absorbed once it is inactive. *)
Definition update_delegated_validator (validator_stake_info : AccountInfo) (meta : Meta)
    (stake : Stake) (st : byte) : M (byte * Z) :=
  stake_lamports ← lamports validator_stake_info;
  let additional_lamports :=
    saturating_sub (saturating_sub stake_lamports (delegation_stake (delegation stake)))
      (rent_exempt_reserve meta) in
  when (0 <? additional_lamports)
    (stake_withdraw (key (uc_stake_pool_info c)) AUTHORITY_WITHDRAW
       (stake_withdraw_bump_seed (uc_stake_pool c)) validator_stake_info
       (uc_withdraw_authority_info c) (uc_reserve_stake_info c) (uc_clock_info c)
       (uc_stake_history_info c) additional_lamports);;
  s ← lift (status_try_from st);
  match s with
  | Active => l ← lamports validator_stake_info; mret (st, l)
  | DeactivatingValidator | DeactivatingAll =>
      if uc_no_merge c then (l ← lamports validator_stake_info; mret (st, l))
      else if stake_is_inactive_without_history stake (epoch (uc_clock c)) then
        (merge_into validator_stake_info (uc_reserve_stake_info c);;
         st ← lift (remove_validator_stake st);
         mret (st, 0))
      else (l ← lamports validator_stake_info; mret (st, l))
  | DeactivatingTransient | ReadyForRemoval => mret (st, 0)
  end.

(** The validator stake of an entry: the status it leaves and the lamports it
    counts for. *)
Definition update_validator (validator_stake_info : AccountInfo)
    (validator_stake_state : option StakeStateV2) (st : byte) (transient_lamports : Z) : M (byte * Z) :=
  match validator_stake_state with
  | Some (StakeStake meta stake) =>
      if usable meta then update_delegated_validator validator_stake_info meta stake st
      else mret (st, 0)
  | Some (StakeInitialized meta) =>
      if usable meta then
        (merge_into validator_stake_info (uc_reserve_stake_info c);;
         mret (status_into_pod
                 (if transient_lamports =? 0 then ReadyForRemoval else DeactivatingTransient), 0))
      else mret (st, 0)
  | Some StakeUninitialized | Some StakeRewardsPool | None => mret (st, 0)
  end.

(** [try_from_slice_unchecked::<StakeStateV2>(&info.data.borrow()).ok()] *)
Definition stake_state_ok (info : AccountInfo) : M (option StakeStateV2) :=
  r ← observe (load_stake_state info); mret (result_ok r).

(** One iteration: the entry after its two stake accounts were looked at.  An
    entry whose accounts are not the derived ones is skipped. *)
Definition update_entry (v : ValidatorStakeInfo) (validator_stake_info transient_stake_info : AccountInfo)
    : M ValidatorStakeInfo :=
  let pool_key := key (uc_stake_pool_info c) in
  if is_err (check_validator_stake_address program_id pool_key (key validator_stake_info)
               (vote_account_address v) (nonzero (uint_of_array (validator_seed_suffix v))))
     || is_err (check_transient_stake_address program_id pool_key (key transient_stake_info)
                  (vote_account_address v) (uint_of_array (transient_seed_suffix v)))
  then mret v
  else
    (validator_stake_state ← stake_state_ok validator_stake_info;
     transient_stake_state ← stake_state_ok transient_stake_info;
     '(st, transient) ← update_transient validator_stake_info transient_stake_info
       validator_stake_state transient_stake_state v;
     validator_stake_state ← stake_state_ok validator_stake_info;
     '(st, active) ← update_validator validator_stake_info validator_stake_state st transient;
     mret (v <| status := st |> <| vsi_last_update_epoch := array_of_uint 8 (epoch (uc_clock c)) |>
             <| active_stake_lamports := array_of_uint 8 active |>
             <| transient_stake_lamports := array_of_uint 8 transient |>)).

(** The loop over the entries and their pairs of accounts; every entry is
    written back in place. *)
Fixpoint update_loop (validator_list_info : AccountInfo) (offset : nat)
    (vs : list ValidatorStakeInfo) (stakes : list AccountInfo) : M unit :=
  match vs, stakes with
  | v :: vs, validator_stake_info :: transient_stake_info :: stakes =>
      v ← update_entry v validator_stake_info transient_stake_info;
      assign_entry validator_list_info offset v;;
      update_loop validator_list_info (offset + VSI_LEN) vs stakes
  | _, _ => mret tt
  end.
End Loop.

(** [process_update_validator_list_balance] *)
Definition process_update_validator_list_balance (accounts : list AccountInfo) (start_index : Z)
    (no_merge : bool) : M unit :=
  '(stake_pool_info, it) ← lift (next_account_info accounts);
  '(withdraw_authority_info, it) ← lift (next_account_info it);
  '(validator_list_info, it) ← lift (next_account_info it);
  '(reserve_stake_info, it) ← lift (next_account_info it);
  '(clock_info, it) ← lift (next_account_info it);
  clock ← read (clock_from clock_info);
  '(stake_history_info, it) ← lift (next_account_info it);
  '(stake_program_info, validator_stake_accounts) ← lift (next_account_info it);
  stake_pool ← load_valid_pool program_id stake_pool_info;
  lift (check_validator_list stake_pool validator_list_info);;
  lift (check_authority_withdraw stake_pool (key withdraw_authority_info) program_id
          (key stake_pool_info));;
  lift (check_reserve_stake stake_pool reserve_stake_info);;
  lift (check_stake_program (key stake_program_info));;
  active ← lift epoch_rewards_active;
  fail_if active (into_program_error EpochRewardDistributionInProgress);;
  let n := Z.of_nat (length validator_stake_accounts) in
  fail_if (negb (n mod 2 =? 0)) (into_program_error UnexpectedValidatorListAccountSize);;
  read (check_account_owner validator_list_info program_id);;
  validator_list_data ← borrow_mut validator_list_info;
  '(validator_list_header, big_vec) ← lift (deserialize_vec validator_list_data);
  '(offset, validator_slice) ← lift (vl_deserialize_mut_slice big_vec start_index (n / 2));
  fail_if (negb (header_is_valid validator_list_header)) (into_program_error InvalidState);;
  update_loop
    (mkUpdate stake_pool_info withdraw_authority_info reserve_stake_info clock_info
       stake_history_info stake_pool clock no_merge)
    validator_list_info offset validator_slice validator_stake_accounts;;
  drop_borrow_mut validator_list_info.

(** ** UpdateStakePoolBalance *)

(** The checks of [process_update_stake_pool_balance]. *)
Definition update_pool_checks (stake_pool_info withdraw_info validator_list_info reserve_stake_info
    manager_fee_info pool_mint_info token_program_info : AccountInfo) : M StakePool :=
  stake_pool ← load_valid_pool program_id stake_pool_info;
  read (check_mint stake_pool pool_mint_info);;
  lift (check_authority_withdraw stake_pool (key withdraw_info) program_id (key stake_pool_info));;
  lift (check_reserve_stake stake_pool reserve_stake_info);;
  fail_if (negb (manager_fee_account stake_pool =?ₖ key manager_fee_info))
    (into_program_error InvalidFeeAccount);;
  fail_if (negb (key validator_list_info =?ₖ validator_list stake_pool))
    (into_program_error InvalidValidatorStakeList);;
  fail_if (negb (token_program_id stake_pool =?ₖ key token_program_info)) IncorrectProgramId;;
  read (check_account_owner validator_list_info program_id);;
  mret stake_pool.

(** The lamports of the reserve above its minimum. *)
Definition reserve_excess (reserve_stake_info : AccountInfo) : M Z :=
  reserve_stake ← read (load_stake_state reserve_stake_info);
  match reserve_stake with
  | StakeInitialized meta =>
      l ← lamports reserve_stake_info;
      lift (calc (checked_sub l (minimum_reserve_lamports meta)))
  | _ => lift (fail_pool WrongStakeStake)
  end.

(** Adding up the entries, each of which must be up to date. *)
Fixpoint sum_validators (current_epoch total_lamports : Z) (vs : list ValidatorStakeInfo) : presult Z :=
  match vs with
  | [] => Ok total_lamports
  | v :: vs =>
      err_if (uint_of_array (vsi_last_update_epoch v) <? current_epoch)
        (into_program_error StakeListOutOfDate);;
      l ← map_err into_program_error (stake_lamports v);
      total_lamports ← calc (checked_add 64 total_lamports l);
      sum_validators current_epoch total_lamports vs
  end.

(** What a new epoch changes besides the balances: pending fees come one epoch
    closer or into force, and the previous totals are remembered. *)
Definition advance_epoch (stake_pool : StakePool) (current_epoch previous_lamports
    previous_pool_token_supply : Z) : StakePool :=
  if last_update_epoch stake_pool <? current_epoch then
    stake_pool
      <| epoch_fee := default (epoch_fee stake_pool) (future_get (next_epoch_fee stake_pool)) |>
      <| next_epoch_fee := update_epoch (next_epoch_fee stake_pool) |>
      <| stake_withdrawal_fee :=
           default (stake_withdrawal_fee stake_pool) (future_get (next_stake_withdrawal_fee stake_pool)) |>
      <| next_stake_withdrawal_fee := update_epoch (next_stake_withdrawal_fee stake_pool) |>
      <| sol_withdrawal_fee :=
           default (sol_withdrawal_fee stake_pool) (future_get (next_sol_withdrawal_fee stake_pool)) |>
      <| next_sol_withdrawal_fee := update_epoch (next_sol_withdrawal_fee stake_pool) |>
      <| last_update_epoch := current_epoch |>
      <| last_epoch_total_lamports := previous_lamports |>
      <| last_epoch_pool_token_supply := previous_pool_token_supply |>
  else stake_pool.

(** The tokens minted for the epoch fee: none when the fee account cannot
    receive them. *)
Definition epoch_fee_tokens (stake_pool : StakePool) (manager_fee_info : AccountInfo)
    (reward_lamports : Z) : M Z :=
  fee_account ← observe (check_manager_fee_info stake_pool manager_fee_info);
  if is_Ok fee_account then lift (calc (calc_epoch_fee_amount stake_pool reward_lamports))
  else mret 0.

(** [process_update_stake_pool_balance] *)
Definition process_update_stake_pool_balance (accounts : list AccountInfo) : M unit :=
  '(stake_pool_info, it) ← lift (next_account_info accounts);
  '(withdraw_info, it) ← lift (next_account_info it);
  '(validator_list_info, it) ← lift (next_account_info it);
  '(reserve_stake_info, it) ← lift (next_account_info it);
  '(manager_fee_info, it) ← lift (next_account_info it);
  '(pool_mint_info, it) ← lift (next_account_info it);
  '(token_program_info, _) ← lift (next_account_info it);
  clock ← lift clock_get;
  stake_pool ← update_pool_checks stake_pool_info withdraw_info validator_list_info
    reserve_stake_info manager_fee_info pool_mint_info token_program_info;
  '(_, validator_list) ← open_validator_list validator_list_info;
  let previous_lamports := total_lamports stake_pool in
  let previous_pool_token_supply := pool_token_supply stake_pool in
  reserve_lamports ← reserve_excess reserve_stake_info;
  n ← lift (vec_len validator_list);
  vs ← lift (deserialize_slice 0 n validator_list);
  new_total_lamports ← lift (sum_validators (epoch clock) reserve_lamports vs);
  let reward_lamports := saturating_sub new_total_lamports previous_lamports in
  fee ← epoch_fee_tokens stake_pool manager_fee_info reward_lamports;
  when (0 <? fee)
    (token_mint_to (key stake_pool_info) AUTHORITY_WITHDRAW (stake_withdraw_bump_seed stake_pool)
       token_program_info pool_mint_info manager_fee_info withdraw_info fee);;
  let stake_pool :=
    (advance_epoch stake_pool (epoch clock) previous_lamports previous_pool_token_supply)
      <| total_lamports := new_total_lamports |> in
  pool_mint_data ← hold_borrow pool_mint_info;
  mint ← lift (unpack_mint pool_mint_data);
  store stake_pool_info (stake_pool <| pool_token_supply := mint_supply mint |>);;
  drop_borrow pool_mint_info;;
  drop_borrow_mut validator_list_info.

(** ** CleanupRemovedValidatorEntries *)

(** Whether a preferred validator must be reset: it is not in the list, or not
    active. *)
Definition should_reset (validator_list : list byte) (preferred : Pubkey) : presult bool :=
  maybe_validator ← vec_find (memcmp_pubkey preferred) validator_list;
  Ok match maybe_validator with
     | Some validator => negb (bool_decide (stake_status_from_u8 (status validator) = Some Active))
     | None => true
     end.

(** The pool after its preferred validators were checked against the list. *)
Definition check_preferred (stake_pool : StakePool) (validator_list : list byte) : presult StakePool :=
  stake_pool ←
    match preferred_deposit_validator_vote_address stake_pool with
    | Some preferred_deposit =>
        reset ← should_reset validator_list preferred_deposit;
        Ok (if (reset : bool) then stake_pool <| preferred_deposit_validator_vote_address := None |>
            else stake_pool)
    | None => Ok stake_pool
    end;
  match preferred_withdraw_validator_vote_address stake_pool with
  | Some preferred_withdraw =>
      reset ← should_reset validator_list preferred_withdraw;
      Ok (if (reset : bool) then stake_pool <| preferred_withdraw_validator_vote_address := None |>
          else stake_pool)
  | None => Ok stake_pool
  end.

(** [process_cleanup_removed_validator_entries] *)
Definition process_cleanup_removed_validator_entries (accounts : list AccountInfo) : M unit :=
  '(stake_pool_info, it) ← lift (next_account_info accounts);
  '(validator_list_info, _) ← lift (next_account_info it);
  stake_pool ← load_valid_pool program_id stake_pool_info;
  lift (check_validator_list stake_pool validator_list_info);;
  read (check_account_owner validator_list_info program_id);;
  '(header, validator_list) ← open_validator_list validator_list_info;
  validator_list ← lift (vec_retain (T:=ValidatorStakeInfo)
    (fun x => b ← is_removed x; Ok (negb b)) validator_list);
  write_data validator_list_info (borsh_ser header ++ validator_list);;
  when (is_writable stake_pool_info)
    (stake_pool ← read (load StakePool stake_pool_info);
     stake_pool ← lift (check_preferred stake_pool validator_list);
     store stake_pool_info stake_pool);;
  drop_borrow_mut validator_list_info.
End Update.
