(* ===== verification/Init.v ===== *)
(** * Creating a pool (src/program/src/processor.rs, [process_initialize])

    The checks on the new accounts, the mint and the reserve, and the fields of
    the new pool. *)

From S2P Require Import Prelude Errors Fees Pool BigVec Borsh ValidatorList Runtime Checks Admin.
From S2P Require Import Deposit.

(** [native_mint::DECIMALS] *)
Definition NATIVE_MINT_DECIMALS : Z := 9.

Section Init.
Context `{Runtime}.
Variable program_id : Pubkey.

(** The two accounts to initialise: owned by the program, distinct, unused, the
    list sized for [max_validators].  Returns the unused pool and the empty
    list. *)
Definition init_accounts (stake_pool_info validator_list_info : AccountInfo) (max_validators : Z)
    : M (StakePool * ValidatorList) :=
  fail_if (key stake_pool_info =?ₖ key validator_list_info) (into_program_error AlreadyInUse);;
  read (check_account_owner stake_pool_info program_id);;
  stake_pool ← read (load StakePool stake_pool_info);
  fail_if (negb (pool_is_uninitialized stake_pool)) (into_program_error AlreadyInUse);;
  read (check_account_owner validator_list_info program_id);;
  validator_list ← read (load ValidatorList validator_list_info);
  fail_if (negb (header_is_uninitialized (header validator_list))) (into_program_error AlreadyInUse);;
  data_length ← data_len validator_list_info;
  let expected_max_validators := calculate_max_validators data_length in
  fail_if (negb (expected_max_validators =? max_validators) || (max_validators =? 0))
    (into_program_error UnexpectedValidatorListAccountSize);;
  fail_if (MAX_VALIDATORS_IN_POOL <? max_validators) (into_program_error TooManyValidatorsInPool);;
  mret (stake_pool, mkValidatorList (mkHeader ValidatorListType max_validators) []).

(** Both accounts are rent exempt and no fee exceeds 100%. *)
Definition init_rent_and_fees (stake_pool_info validator_list_info : AccountInfo) (rent : Rent)
    (epoch_fee withdrawal_fee deposit_fee : Fee) (referral_fee : Z) : M unit :=
  pool_lamports ← lamports stake_pool_info;
  pool_len ← data_len stake_pool_info;
  fail_if (negb (rent_is_exempt rent pool_lamports pool_len)) AccountNotRentExempt;;
  list_lamports ← lamports validator_list_info;
  list_len ← data_len validator_list_info;
  fail_if (negb (rent_is_exempt rent list_lamports list_len)) AccountNotRentExempt;;
  fail_if ((denominator epoch_fee <? numerator epoch_fee)
           || (denominator withdrawal_fee <? numerator withdrawal_fee)
           || (denominator deposit_fee <? numerator deposit_fee)
           || (100 <? referral_fee)) (into_program_error FeeTooHigh).

(** The pool mint: no supply, SOL's decimals, minted by the withdraw authority
    only, never frozen, no unsupported extension. *)
Definition check_init_mint (pool_mint_info : AccountInfo) (withdraw_authority_key : Pubkey) : M unit :=
  pool_mint_data ← read (try_borrow_data pool_mint_info);
  pool_mint ← lift (unpack_mint pool_mint_data);
  fail_if (negb (mint_supply pool_mint =? 0)) (into_program_error NonZeroPoolTokenSupply);;
  fail_if (negb (mint_decimals pool_mint =? NATIVE_MINT_DECIMALS))
    (into_program_error IncorrectMintDecimals);;
  fail_if (negb (bool_decide (mint_authority pool_mint = Some withdraw_authority_key)))
    (into_program_error WrongMintingAuthority);;
  fail_if (bool_decide (is_Some (freeze_authority pool_mint)))
    (into_program_error InvalidMintFreezeAuthority);;
  extensions ← lift (mint_extensions pool_mint);
  fail_if (existsb (fun x => negb (is_extension_supported_for_mint x)) extensions)
    (into_program_error UnsupportedMintExtension).

(** The reserve: an initialised stake account of the withdraw authority without
    lockup.  Returns the lamports above its minimum. *)
Definition check_init_reserve (reserve_stake_info : AccountInfo) (withdraw_authority_key : Pubkey) : M Z :=
  reserve_owner ← owner reserve_stake_info;
  fail_if (negb (reserve_owner =?ₖ stake_program_id)) IncorrectProgramId;;
  stake_state ← read (load_stake_state reserve_stake_info);
  match stake_state with
  | StakeInitialized meta =>
      fail_if (negb (bool_decide (meta_lockup meta = lockup_default)))
        (into_program_error WrongStakeStake);;
      fail_if (negb (auth_staker (authorized meta) =?ₖ withdraw_authority_key))
        (into_program_error WrongStakeStake);;
      fail_if (negb (auth_withdrawer (authorized meta) =?ₖ withdraw_authority_key))
        (into_program_error WrongStakeStake);;
      l ← lamports reserve_stake_info;
      lift (calc (checked_sub l (minimum_reserve_lamports meta)))
  | _ => lift (fail_pool WrongStakeStake)
  end.

(** The fields of the new pool. *)
Definition init_pool (stake_pool : StakePool) (manager_key staker_key stake_deposit_authority_key : Pubkey)
    (withdraw_bump_seed : Z) (validator_list_key reserve_stake_key manager_fee_key : Pubkey)
    (total_lamports current_epoch : Z) (sol_deposit_authority_key : option Pubkey)
    (fee withdrawal_fee deposit_fee : Fee) (referral_fee : Z) : StakePool :=
  stake_pool
    <| account_type := StakePoolType |>
    <| manager := manager_key |>
    <| staker := staker_key |>
    <| stake_deposit_authority := stake_deposit_authority_key |>
    <| stake_withdraw_bump_seed := withdraw_bump_seed |>
    <| validator_list := validator_list_key |>
    <| reserve_stake := reserve_stake_key |>
    <| manager_fee_account := manager_fee_key |>
    <| Pool.total_lamports := total_lamports |>
    <| pool_token_supply := total_lamports |>
    <| last_update_epoch := current_epoch |>
    <| lockup := lockup_default |>
    <| epoch_fee := fee |>
    <| next_epoch_fee := FENone |>
    <| preferred_deposit_validator_vote_address := None |>
    <| preferred_withdraw_validator_vote_address := None |>
    <| stake_deposit_fee := deposit_fee |>
    <| stake_withdrawal_fee := withdrawal_fee |>
    <| next_stake_withdrawal_fee := FENone |>
    <| stake_referral_fee := referral_fee |>
    <| sol_deposit_authority := sol_deposit_authority_key |>
    <| sol_deposit_fee := deposit_fee |>
    <| sol_referral_fee := referral_fee |>
    <| sol_withdraw_authority := None |>
    <| sol_withdrawal_fee := withdrawal_fee |>
    <| next_sol_withdrawal_fee := FENone |>
    <| last_epoch_pool_token_supply := 0 |>
    <| last_epoch_total_lamports := 0 |>.

(** [process_initialize] *)
Definition process_initialize (accounts : list AccountInfo) (fee withdrawal_fee deposit_fee : Fee)
    (referral_fee max_validators : Z) : M unit :=
  '(stake_pool_info, it) ← lift (next_account_info accounts);
  '(manager_info, it) ← lift (next_account_info it);
  '(staker_info, it) ← lift (next_account_info it);
  '(withdraw_authority_info, it) ← lift (next_account_info it);
  '(validator_list_info, it) ← lift (next_account_info it);
  '(reserve_stake_info, it) ← lift (next_account_info it);
  '(pool_mint_info, it) ← lift (next_account_info it);
  '(manager_fee_info, it) ← lift (next_account_info it);
  '(token_program_info, it) ← lift (next_account_info it);
  rent ← lift rent_get;
  fail_if (negb (is_signer manager_info)) (into_program_error SignatureMissing);;
  '(stake_pool, new_list) ← init_accounts stake_pool_info validator_list_info max_validators;
  init_rent_and_fees stake_pool_info validator_list_info rent fee withdrawal_fee deposit_fee
    referral_fee;;
  lift (check_spl_token_program_account (key token_program_info));;
  mint_owner ← owner pool_mint_info;
  fail_if (negb (mint_owner =?ₖ key token_program_info)) IncorrectProgramId;;
  let stake_pool := stake_pool <| token_program_id := key token_program_info |>
                               <| pool_mint := key pool_mint_info |> in
  let '(stake_deposit_authority_key, sol_deposit_authority_key) :=
    match next_account_info it with
    | Ok (deposit_authority_info, _) =>
        (key deposit_authority_info, Some (key deposit_authority_info))
    | _ => (fst (find_deposit_authority_program_address program_id (key stake_pool_info)), None)
    end in
  let '(withdraw_authority_key, withdraw_bump_seed) :=
    find_withdraw_authority_program_address program_id (key stake_pool_info) in
  fail_if (negb (withdraw_authority_key =?ₖ key withdraw_authority_info))
    (into_program_error InvalidProgramAddress);;
  check_init_mint pool_mint_info withdraw_authority_key;;
  read (check_manager_fee_info stake_pool manager_fee_info);;
  total_lamports ← check_init_reserve reserve_stake_info withdraw_authority_key;
  when (0 <? total_lamports)
    (token_mint_to (key stake_pool_info) AUTHORITY_WITHDRAW withdraw_bump_seed token_program_info
       pool_mint_info manager_fee_info withdraw_authority_info total_lamports);;
  store validator_list_info new_list;;
  clock ← lift clock_get;
  store stake_pool_info
    (init_pool stake_pool (key manager_info) (key staker_info) stake_deposit_authority_key
       withdraw_bump_seed (key validator_list_info) (key reserve_stake_info) (key manager_fee_info)
       total_lamports (epoch clock) sol_deposit_authority_key fee withdrawal_fee deposit_fee
       referral_fee).
End Init.
