(* ===== verification/Instruction.v ===== *)
(** * Instruction data (src/program/src/instruction.rs)

    [StakePoolInstruction] and its Borsh encoding: the wire format the program
    decodes before it dispatches. *)

From S2P Require Import Prelude Errors Fees Pool BigVec Borsh ValidatorList Runtime Checks Admin.

(** ** Strings: UTF-8 bytes behind a length *)

Definition in_range (lo hi : Z) (b : byte) : bool := (lo <=? Z_of_byte b) && (Z_of_byte b <=? hi).

(** [str::from_utf8] succeeds. *)
Fixpoint valid_utf8 (l : list byte) : bool :=
  match l with
  | [] => true
  | b0 :: r0 =>
      if in_range 0x00 0x7f b0 then valid_utf8 r0
      else match r0 with
      | [] => false
      | b1 :: r1 =>
          if in_range 0xc2 0xdf b0 && in_range 0x80 0xbf b1 then valid_utf8 r1
          else match r1 with
          | [] => false
          | b2 :: r2 =>
              if ((in_range 0xe0 0xe0 b0 && in_range 0xa0 0xbf b1) ||
                  (in_range 0xe1 0xec b0 && in_range 0x80 0xbf b1) ||
                  (in_range 0xed 0xed b0 && in_range 0x80 0x9f b1) ||
                  (in_range 0xee 0xef b0 && in_range 0x80 0xbf b1)) && in_range 0x80 0xbf b2
              then valid_utf8 r2
              else match r2 with
              | [] => false
              | b3 :: r3 =>
                  ((in_range 0xf0 0xf0 b0 && in_range 0x90 0xbf b1) ||
                   (in_range 0xf1 0xf3 b0 && in_range 0x80 0xbf b1) ||
                   (in_range 0xf4 0xf4 b0 && in_range 0x80 0x8f b1)) &&
                  in_range 0x80 0xbf b2 && in_range 0x80 0xbf b3 && valid_utf8 r3
              end
          end
      end
  end.

(** [String] *)
Definition string_codec : Borsh (list byte).
Proof.
  refine {| borsh_ser := ser_string;
            borsh_de l :=
              '(n, l) ← @borsh_de Z u32_codec l;
              '(s, rest) ← take_bytes (Z.to_nat n) l;
              if valid_utf8 s then Some (s, rest) else None;
            borsh_typed s := Z.of_nat (length s) < 2 ^ 32 /\ valid_utf8 s = true |}.
  - intros s rest [Hn Hs]. unfold ser_string. rewrite <- app_assoc.
    change (le_encode 4 ?z) with (@borsh_ser Z u32_codec z).
    rewrite borsh_de_ser by (simpl; lia). cbn [mbind option_bind].
    rewrite Nat2Z.id, take_bytes_app by done. cbn [mbind option_bind]. by rewrite Hs.
  - intros l s rest Hd. apply bind_Some in Hd as ([n l1] & Hn & Hd).
    apply bind_Some in Hd as ([t r] & Ht & Hd).
    apply borsh_ser_de in Hn as [Hn ->]. apply take_bytes_Some in Ht as [-> Hl].
    destruct (valid_utf8 t) eqn:Hv; [|done]. injection Hd as -> ->.
    assert (0 <= n < 2 ^ 32) by exact Hn. unfold ser_string.
    split; [split; [lia|done]|]. rewrite Hl, Z2Nat.id, <- app_assoc by lia. done.
Defined.

(** [bool] *)
Definition bool_codec : Borsh bool.
Proof.
  refine {| borsh_ser (b : bool) := if b then [x01] else [x00];
            borsh_de l := match l with
                          | x00 :: l => Some (false, l)
                          | x01 :: l => Some (true, l)
                          | _ => None
                          end;
            borsh_typed _ := True |}.
  - by intros [] rest _.
  - intros [|b l] o rest; [done|]. destruct b; try done; by intros [=<- <-].
Defined.

Definition preferred_codec : Borsh PreferredValidatorType.
Proof.
  refine (@iso_codec bool PreferredValidatorType bool_codec
    (fun b : bool => if b then PreferredWithdraw else PreferredDeposit)
    (fun t => match t with PreferredWithdraw => true | PreferredDeposit => false end) _ _);
    by intros [].
Defined.

Definition funding_codec : Borsh FundingType.
Proof.
  refine {| borsh_ser t := match t with
                           | FundingStakeDeposit => [x00]
                           | FundingSolDeposit => [x01]
                           | FundingSolWithdraw => [x02]
                           end;
            borsh_de l := match l with
                          | x00 :: l => Some (FundingStakeDeposit, l)
                          | x01 :: l => Some (FundingSolDeposit, l)
                          | x02 :: l => Some (FundingSolWithdraw, l)
                          | _ => None
                          end;
            borsh_typed _ := True |}.
  - by intros [] rest _.
  - intros [|b l] o rest; [done|]. destruct b; try done; by intros [=<- <-].
Defined.

(** [FeeType] *)
Definition fee_type_codec : Borsh FeeType.
Proof.
  refine {| borsh_ser t := match t with
              | SolReferral p => x00 :: @borsh_ser _ u8_codec p
              | StakeReferral p => x01 :: @borsh_ser _ u8_codec p
              | EpochFee f => x02 :: borsh_ser f
              | StakeWithdrawalFee f => x03 :: borsh_ser f
              | SolDepositFee f => x04 :: borsh_ser f
              | StakeDepositFee f => x05 :: borsh_ser f
              | SolWithdrawalFee f => x06 :: borsh_ser f
              end;
            borsh_de l := match l with
              | x00 :: l => prod_map SolReferral id <$> @borsh_de _ u8_codec l
              | x01 :: l => prod_map StakeReferral id <$> @borsh_de _ u8_codec l
              | x02 :: l => prod_map EpochFee id <$> borsh_de l
              | x03 :: l => prod_map StakeWithdrawalFee id <$> borsh_de l
              | x04 :: l => prod_map SolDepositFee id <$> borsh_de l
              | x05 :: l => prod_map StakeDepositFee id <$> borsh_de l
              | x06 :: l => prod_map SolWithdrawalFee id <$> borsh_de l
              | _ => None
              end;
            borsh_typed := fee_type_typed |}.
  - intros t rest Ht. destruct t; cbn [app]; by rewrite borsh_de_ser.
  - intros [|b l] t rest; [done|].
    destruct b; try done; intros ([x r] & Hx & [=-> ->])%fmap_Some;
      apply borsh_ser_de in Hx as [? ->]; done.
Defined.

(** ** Instructions *)

(** [enum StakePoolInstruction] *)
Inductive StakePoolInstruction :=
| Initialize (fee withdrawal_fee deposit_fee : Fee) (referral_fee max_validators : Z)
| AddValidatorToPool (seed : Z)
| RemoveValidatorFromPool
| DecreaseValidatorStake (lamports transient_stake_seed : Z)
| IncreaseValidatorStake (lamports transient_stake_seed : Z)
| SetPreferredValidator (validator_type : PreferredValidatorType)
    (validator_vote_address : option Pubkey)
| UpdateValidatorListBalance (start_index : Z) (no_merge : bool)
| UpdateStakePoolBalance
| CleanupRemovedValidatorEntries
| DepositStake
| WithdrawStake (pool_tokens : Z)
| SetManager
| SetFee (fee : FeeType)
| SetStaker
| DepositSol (lamports : Z)
| SetFundingAuthority (funding_type : FundingType)
| WithdrawSol (pool_tokens : Z)
| CreateTokenMetadata (name symbol uri : list byte)
| UpdateTokenMetadata (name symbol uri : list byte)
| IncreaseAdditionalValidatorStake (lamports transient_stake_seed ephemeral_stake_seed : Z)
| DecreaseAdditionalValidatorStake (lamports transient_stake_seed ephemeral_stake_seed : Z)
| DecreaseValidatorStakeWithReserve (lamports transient_stake_seed : Z)
| Redelegate (lamports source_transient_stake_seed ephemeral_stake_seed
    destination_transient_stake_seed : Z)
| DepositStakeWithSlippage (minimum_pool_tokens_out : Z)
| WithdrawStakeWithSlippage (pool_tokens_in minimum_lamports_out : Z)
| DepositSolWithSlippage (lamports_in minimum_pool_tokens_out : Z)
| WithdrawSolWithSlippage (pool_tokens_in minimum_lamports_out : Z)
| DepositWsolWithSession (lamports : Z)
| WithdrawWsolWithSession (pool_tokens : Z).

(** ** Encoding: the variant's index, then its fields *)

#[local] Infix "⊗" := (@pair_codec _ _) (at level 62, right associativity).

Definition unit_codec : Borsh unit.
Proof.
  refine {| borsh_ser _ := []; borsh_de l := Some (tt, l); borsh_typed _ := True |}.
  - by intros [].
  - by intros l [] rest [=->].
Defined.

(** The shapes of the variants' fields. *)
Definition init_codec : Borsh (Fee * (Fee * (Fee * (Z * Z)))) :=
  fee_codec ⊗ fee_codec ⊗ fee_codec ⊗ u8_codec ⊗ u32_codec.
Definition u64x2_codec : Borsh (Z * Z) := u64_codec ⊗ u64_codec.
Definition u64x3_codec : Borsh (Z * (Z * Z)) := u64_codec ⊗ u64_codec ⊗ u64_codec.
Definition u64x4_codec : Borsh (Z * (Z * (Z * Z))) := u64_codec ⊗ u64_codec ⊗ u64_codec ⊗ u64_codec.
Definition preferred_args_codec : Borsh (PreferredValidatorType * option Pubkey) :=
  preferred_codec ⊗ option_codec.
Definition update_args_codec : Borsh (Z * bool) := u32_codec ⊗ bool_codec.
Definition metadata_codec : Borsh (list byte * (list byte * list byte)) :=
  string_codec ⊗ string_codec ⊗ string_codec.

(** A variant as its index and the encoding of its fields. *)
Record variant := mkVariant {
  var_type : Type;
  var_codec : Borsh var_type;
  var_make : var_type -> StakePoolInstruction;
}.
Definition variant_of_tag (tag : byte) : option variant :=
  match tag with
  | x00 => Some (mkVariant _ init_codec (fun '(f, (w, (d, (r, m)))) => Initialize f w d r m))
  | x01 => Some (mkVariant _ u32_codec AddValidatorToPool)
  | x02 => Some (mkVariant _ unit_codec (fun _ => RemoveValidatorFromPool))
  | x03 => Some (mkVariant _ u64x2_codec (fun '(l, s) => DecreaseValidatorStake l s))
  | x04 => Some (mkVariant _ u64x2_codec (fun '(l, s) => IncreaseValidatorStake l s))
  | x05 => Some (mkVariant _ preferred_args_codec (fun '(t, v) => SetPreferredValidator t v))
  | x06 => Some (mkVariant _ update_args_codec (fun '(i, n) => UpdateValidatorListBalance i n))
  | x07 => Some (mkVariant _ unit_codec (fun _ => UpdateStakePoolBalance))
  | x08 => Some (mkVariant _ unit_codec (fun _ => CleanupRemovedValidatorEntries))
  | x09 => Some (mkVariant _ unit_codec (fun _ => DepositStake))
  | x0a => Some (mkVariant _ u64_codec WithdrawStake)
  | x0b => Some (mkVariant _ unit_codec (fun _ => SetManager))
  | x0c => Some (mkVariant _ fee_type_codec SetFee)
  | x0d => Some (mkVariant _ unit_codec (fun _ => SetStaker))
  | x0e => Some (mkVariant _ u64_codec DepositSol)
  | x0f => Some (mkVariant _ funding_codec SetFundingAuthority)
  | x10 => Some (mkVariant _ u64_codec WithdrawSol)
  | x11 => Some (mkVariant _ metadata_codec (fun '(n, (s, u)) => CreateTokenMetadata n s u))
  | x12 => Some (mkVariant _ metadata_codec (fun '(n, (s, u)) => UpdateTokenMetadata n s u))
  | x13 => Some (mkVariant _ u64x3_codec (fun '(l, (t, e)) => IncreaseAdditionalValidatorStake l t e))
  | x14 => Some (mkVariant _ u64x3_codec (fun '(l, (t, e)) => DecreaseAdditionalValidatorStake l t e))
  | x15 => Some (mkVariant _ u64x2_codec (fun '(l, s) => DecreaseValidatorStakeWithReserve l s))
  | x16 => Some (mkVariant _ u64x4_codec (fun '(l, (s, (e, d))) => Redelegate l s e d))
  | x17 => Some (mkVariant _ u64_codec DepositStakeWithSlippage)
  | x18 => Some (mkVariant _ u64x2_codec (fun '(p, m) => WithdrawStakeWithSlippage p m))
  | x19 => Some (mkVariant _ u64x2_codec (fun '(l, m) => DepositSolWithSlippage l m))
  | x1a => Some (mkVariant _ u64x2_codec (fun '(p, m) => WithdrawSolWithSlippage p m))
  | x1b => Some (mkVariant _ u64_codec DepositWsolWithSession)
  | x1c => Some (mkVariant _ u64_codec WithdrawWsolWithSession)
  | _ => None
  end.

(** The bytes of an instruction and the range of its fields. *)
Definition ser_with {T} (tag : byte) (c : Borsh T) (x : T) : list byte := tag :: @borsh_ser T c x.
Definition instruction_ser (i : StakePoolInstruction) : list byte :=
  match i with
  | Initialize f w d r m => ser_with x00 init_codec (f, (w, (d, (r, m))))
  | AddValidatorToPool s => ser_with x01 u32_codec s
  | RemoveValidatorFromPool => ser_with x02 unit_codec tt
  | DecreaseValidatorStake l s => ser_with x03 u64x2_codec (l, s)
  | IncreaseValidatorStake l s => ser_with x04 u64x2_codec (l, s)
  | SetPreferredValidator t v => ser_with x05 preferred_args_codec (t, v)
  | UpdateValidatorListBalance i n => ser_with x06 update_args_codec (i, n)
  | UpdateStakePoolBalance => ser_with x07 unit_codec tt
  | CleanupRemovedValidatorEntries => ser_with x08 unit_codec tt
  | DepositStake => ser_with x09 unit_codec tt
  | WithdrawStake p => ser_with x0a u64_codec p
  | SetManager => ser_with x0b unit_codec tt
  | SetFee f => ser_with x0c fee_type_codec f
  | SetStaker => ser_with x0d unit_codec tt
  | DepositSol l => ser_with x0e u64_codec l
  | SetFundingAuthority t => ser_with x0f funding_codec t
  | WithdrawSol p => ser_with x10 u64_codec p
  | CreateTokenMetadata n s u => ser_with x11 metadata_codec (n, (s, u))
  | UpdateTokenMetadata n s u => ser_with x12 metadata_codec (n, (s, u))
  | IncreaseAdditionalValidatorStake l t e => ser_with x13 u64x3_codec (l, (t, e))
  | DecreaseAdditionalValidatorStake l t e => ser_with x14 u64x3_codec (l, (t, e))
  | DecreaseValidatorStakeWithReserve l s => ser_with x15 u64x2_codec (l, s)
  | Redelegate l s e d => ser_with x16 u64x4_codec (l, (s, (e, d)))
  | DepositStakeWithSlippage m => ser_with x17 u64_codec m
  | WithdrawStakeWithSlippage p m => ser_with x18 u64x2_codec (p, m)
  | DepositSolWithSlippage l m => ser_with x19 u64x2_codec (l, m)
  | WithdrawSolWithSlippage p m => ser_with x1a u64x2_codec (p, m)
  | DepositWsolWithSession l => ser_with x1b u64_codec l
  | WithdrawWsolWithSession p => ser_with x1c u64_codec p
  end.

(** Every field fits its width and every string is UTF-8. *)
Definition instruction_typed (i : StakePoolInstruction) : Prop :=
  match i with
  | Initialize f w d r m => @borsh_typed _ init_codec (f, (w, (d, (r, m))))
  | AddValidatorToPool s => is_uint 32 s
  | DecreaseValidatorStake l s | IncreaseValidatorStake l s
  | DecreaseValidatorStakeWithReserve l s | WithdrawStakeWithSlippage l s
  | DepositSolWithSlippage l s | WithdrawSolWithSlippage l s => is_uint 64 l /\ is_uint 64 s
  | SetPreferredValidator t v => True
  | UpdateValidatorListBalance i n => is_uint 32 i
  | WithdrawStake p | DepositSol p | WithdrawSol p | DepositStakeWithSlippage p
  | DepositWsolWithSession p | WithdrawWsolWithSession p => is_uint 64 p
  | SetFee f => fee_type_typed f
  | CreateTokenMetadata n s u | UpdateTokenMetadata n s u =>
      @borsh_typed _ metadata_codec (n, (s, u))
  | IncreaseAdditionalValidatorStake l t e | DecreaseAdditionalValidatorStake l t e =>
      is_uint 64 l /\ is_uint 64 t /\ is_uint 64 e
  | Redelegate l s e d => is_uint 64 l /\ is_uint 64 s /\ is_uint 64 e /\ is_uint 64 d
  | _ => True
  end.

(** [StakePoolInstruction::deserialize] *)
Definition instruction_de (l : list byte) : option (StakePoolInstruction * list byte) :=
  match l with
  | [] => None
  | tag :: l =>
      v ← variant_of_tag tag;
      prod_map (var_make v) id <$> @borsh_de _ (var_codec v) l
  end.

Lemma instruction_de_ser i rest :
  instruction_typed i -> instruction_de (instruction_ser i ++ rest) = Some (i, rest).
Proof.
  intros Ht. destruct i; unfold instruction_ser, ser_with, instruction_de; cbn [app];
    cbn [variant_of_tag mbind option_bind var_codec var_make];
    rewrite borsh_de_ser; try done.
  cbn. by destruct validator_vote_address.
Qed.

(** Every tag's variant encodes with that tag. *)
Lemma variant_ser tag v x :
  variant_of_tag tag = Some v -> @borsh_typed _ (var_codec v) x ->
  instruction_ser (var_make v x) = tag :: @borsh_ser _ (var_codec v) x /\
  instruction_typed (var_make v x).
Proof.
  intros Hv. destruct tag; try done; injection Hv as <-; cbn [var_type var_codec var_make] in *;
    intros Hx; repeat match goal with x : prod _ _ |- _ => destruct x | x : unit |- _ => destruct x end;
    try done.
  split; [done|]. exact (proj1 Hx).
Qed.

#[export] Instance instruction_codec : Borsh StakePoolInstruction.
Proof.
  refine {| borsh_ser := instruction_ser; borsh_de := instruction_de;
            borsh_typed := instruction_typed |}.
  - apply instruction_de_ser.
  - intros [|tag l] i rest Hd; [done|]. cbn [instruction_de] in Hd.
    apply bind_Some in Hd as (v & Hv & Hd).
    apply fmap_Some in Hd as ([x r] & Hx & [=-> ->]).
    apply borsh_ser_de in Hx as [Ht ->].
    destruct (variant_ser tag v x Hv Ht) as [-> Hi]. done.
Defined.

(** C30: the instruction wire format round trips.  Every well-typed instruction
    decodes from its bytes, and input is accepted only if it is exactly the
    encoding of the instruction it decodes to, so no two instructions share an
    encoding and trailing bytes are rejected. *)
Theorem instruction_roundtrip (i : StakePoolInstruction) (input : list byte) :
  (instruction_typed i -> try_from_slice (instruction_ser i) = Ok i) /\
  (try_from_slice input = Ok i -> input = instruction_ser i /\ instruction_typed i).
Proof.
  unfold try_from_slice. cbn [borsh_de instruction_codec]. split.
  - intros Ht. rewrite <- (app_nil_r (instruction_ser i)). by rewrite instruction_de_ser.
  - destruct (instruction_de input) as [[j [|]]|] eqn:E; try done. intros [=->].
    change (borsh_de input = Some (i, [])) in E. apply borsh_ser_de in E as [Ht ->].
    split; [apply app_nil_r|done].
Qed.

Lemma instruction_roundtrip_witness :
  try_from_slice (instruction_ser (SetFee (EpochFee (mkFee 100 3)))) = Ok (SetFee (EpochFee (mkFee 100 3))).
Proof.
  apply (instruction_roundtrip (SetFee (EpochFee (mkFee 100 3))) []).
  vm_compute. split; split; discriminate || reflexivity.
Defined.
