(* ===== verification/Process.v ===== *)
(** * Dispatch (src/program/src/processor.rs, [Processor::process])

    Decoding of the instruction data and the choice of the handler. *)

From S2P Require Import Prelude Errors Fees Pool BigVec Borsh ValidatorList Runtime Checks Admin.
From S2P Require Import Deposit Withdraw Validators Update Init Instruction.

Section Process.
Context `{Runtime}.
Variable program_id : Pubkey.

(** The handler of an instruction with its arguments. *)
Definition dispatch (accounts : list AccountInfo) (instruction : StakePoolInstruction) : M unit :=
  match instruction with
  | Initialize fee withdrawal_fee deposit_fee referral_fee max_validators =>
      process_initialize program_id accounts fee withdrawal_fee deposit_fee referral_fee max_validators
  | AddValidatorToPool seed => process_add_validator_to_pool program_id accounts seed
  | RemoveValidatorFromPool => process_remove_validator_from_pool program_id accounts
  | DecreaseValidatorStake lamports transient_stake_seed =>
      process_decrease_validator_stake program_id accounts lamports transient_stake_seed None false
  | DecreaseValidatorStakeWithReserve lamports transient_stake_seed =>
      process_decrease_validator_stake program_id accounts lamports transient_stake_seed None true
  | DecreaseAdditionalValidatorStake lamports transient_stake_seed ephemeral_stake_seed =>
      process_decrease_validator_stake program_id accounts lamports transient_stake_seed
        (Some ephemeral_stake_seed) true
  | IncreaseValidatorStake lamports transient_stake_seed =>
      process_increase_validator_stake program_id accounts lamports transient_stake_seed None
  | IncreaseAdditionalValidatorStake lamports transient_stake_seed ephemeral_stake_seed =>
      process_increase_validator_stake program_id accounts lamports transient_stake_seed
        (Some ephemeral_stake_seed)
  | SetPreferredValidator validator_type validator_vote_address =>
      process_set_preferred_validator program_id accounts validator_type validator_vote_address
  | UpdateValidatorListBalance start_index no_merge =>
      process_update_validator_list_balance program_id accounts start_index no_merge
  | UpdateStakePoolBalance => process_update_stake_pool_balance program_id accounts
  | CleanupRemovedValidatorEntries => process_cleanup_removed_validator_entries program_id accounts
  | DepositStake => process_deposit_stake program_id accounts None
  | WithdrawStake amount => process_withdraw_stake program_id accounts amount None
  | SetFee fee => process_set_fee program_id accounts fee
  | SetManager => process_set_manager program_id accounts
  | SetStaker => process_set_staker program_id accounts
  | SetFundingAuthority funding_type => process_set_funding_authority program_id accounts funding_type
  | DepositSol lamports => process_deposit_sol program_id accounts lamports None false
  | DepositWsolWithSession lamports => process_deposit_wsol_with_session program_id accounts lamports
  | WithdrawSol pool_tokens => process_withdraw_sol program_id accounts pool_tokens None false
  | CreateTokenMetadata name symbol uri =>
      process_create_pool_token_metadata program_id accounts name symbol uri
  | UpdateTokenMetadata name symbol uri =>
      process_update_pool_token_metadata program_id accounts name symbol uri
  | Redelegate _ _ _ _ => lift (Err InvalidInstructionData)
  | DepositStakeWithSlippage minimum_pool_tokens_out =>
      process_deposit_stake program_id accounts (Some minimum_pool_tokens_out)
  | WithdrawStakeWithSlippage pool_tokens_in minimum_lamports_out =>
      process_withdraw_stake program_id accounts pool_tokens_in (Some minimum_lamports_out)
  | DepositSolWithSlippage lamports_in minimum_pool_tokens_out =>
      process_deposit_sol program_id accounts lamports_in (Some minimum_pool_tokens_out) false
  | WithdrawSolWithSlippage pool_tokens_in minimum_lamports_out =>
      process_withdraw_sol program_id accounts pool_tokens_in (Some minimum_lamports_out) false
  | WithdrawWsolWithSession pool_tokens_in =>
      process_withdraw_wsol_with_session program_id accounts pool_tokens_in
  end.

(** [Processor::process] *)
Definition process (accounts : list AccountInfo) (input : list byte) : M unit :=
  instruction ← lift (try_from_slice input);
  dispatch accounts instruction.
End Process.
