(* ===== verification/Entry.v ===== *)
(** * The entry point (src/program/src/entrypoint.rs) and the texts of errors

    The entry point runs the processor, logs the error if there is one and returns
    it.  The texts of errors are those of [PrintProgramError] (processor.rs) and of
    [Display] (error.rs); how a [ProgramError] is printed is up to the runtime's
    crates, class [ErrorPrinting]. *)

From S2P Require Import Prelude Errors Fees Pool BigVec Borsh ValidatorList Runtime Platform Checks Scenario.
From S2P Require Import Admin Instruction Process.

#[local] Open Scope string_scope.

(** [impl PrintProgramError for StakePoolError]: what [print] logs. *)
Definition error_message (e : StakePoolError) : string :=
  match e with
  | AlreadyInUse => "Error: The account cannot be initialized because it is already being used"
  | InvalidProgramAddress =>
      "Error: The program address provided doesn't match the value generated by the program"
  | InvalidState => "Error: The stake pool state is invalid"
  | CalculationFailure => "Error: The calculation failed"
  | FeeTooHigh => "Error: Stake pool fee > 1"
  | WrongAccountMint => "Error: Token account is associated with the wrong mint"
  | WrongManager => "Error: Wrong pool manager account"
  | SignatureMissing => "Error: Required signature is missing"
  | InvalidValidatorStakeList => "Error: Invalid validator stake list account"
  | InvalidFeeAccount => "Error: Invalid manager fee account"
  | WrongPoolMint => "Error: Specified pool mint account is wrong"
  | WrongStakeStake => "Error: Stake account is not in the state expected by the program"
  | UserStakeNotActive => "Error: User stake is not active"
  | ValidatorAlreadyAdded =>
      "Error: Stake account voting for this validator already exists in the pool"
  | ValidatorNotFound => "Error: Stake account for this validator not found in the pool"
  | InvalidStakeAccountAddress =>
      "Error: Stake account address not properly derived from the validator address"
  | StakeListOutOfDate =>
      "Error: Identify validator stake accounts with old balances and update them"
  | StakeListAndPoolOutOfDate =>
      "Error: First update old validator stake account balances and then pool stake balance"
  | UnknownValidatorStakeAccount =>
      "Error: Validator stake account is not found in the list storage"
  | WrongMintingAuthority => "Error: Wrong minting authority set for mint pool account"
  | UnexpectedValidatorListAccountSize =>
      "Error: The size of the given validator stake list does match the expected amount"
  | WrongStaker => "Error: Wrong pool staker account"
  | NonZeroPoolTokenSupply => "Error: Pool token supply is not zero on initialization"
  | StakeLamportsNotEqualToMinimum =>
      "Error: The lamports in the validator stake account is not equal to the minimum"
  | IncorrectDepositVoteAddress =>
      "Error: The provided deposit stake account is not delegated to the preferred deposit vote account"
  | IncorrectWithdrawVoteAddress =>
      "Error: The provided withdraw stake account is not the preferred deposit vote account"
  | InvalidMintFreezeAuthority => "Error: The mint has an invalid freeze authority"
  | FeeIncreaseTooHigh =>
      "Error: The fee cannot increase by a factor exceeding the stipulated ratio"
  | WithdrawalTooSmall => "Error: Not enough pool tokens provided to withdraw 1-lamport stake"
  | DepositTooSmall => "Error: Not enough lamports provided for deposit to result in one pool token"
  | InvalidStakeDepositAuthority =>
      "Error: Provided stake deposit authority does not match the program's"
  | InvalidSolDepositAuthority =>
      "Error: Provided sol deposit authority does not match the program's"
  | InvalidPreferredValidator => "Error: Provided preferred validator is invalid"
  | TransientAccountInUse =>
      "Error: Provided validator stake account already has a transient stake account in use"
  | InvalidSolWithdrawAuthority =>
      "Error: Provided sol withdraw authority does not match the program's"
  | SolWithdrawalTooLarge => "Error: Too much SOL withdrawn from the stake pool's reserve account"
  | InvalidMetadataAccount =>
      "Error: Metadata account derived from pool mint account does not match the one passed to program"
  | UnsupportedMintExtension => "Error: mint has an unsupported extension"
  | UnsupportedFeeAccountExtension => "Error: fee account has an unsupported extension"
  | ExceededSlippage => "Error: instruction exceeds desired slippage limit"
  | IncorrectMintDecimals => "Error: Provided mint does not have 9 decimals to match SOL"
  | ReserveDepleted =>
      "Error: Pool reserve does not have enough lamports to fund rent-exempt reserve in split destination. Deposit more SOL in reserve, or pre-fund split destination with the rent-exempt reserve for a stake account."
  | MissingRequiredSysvar => "Missing required sysvar account"
  | SessionExpired => "Error: This session has expired"
  | SessionUserMismatch => "Error: This session was created for a different user"
  | SessionUnauthorizedProgram => "Error: This session was created for a different program"
  | SessionMissingRequiredSignature => "Error: A required program signer appears as a non-signer"
  | SessionClockError => "Error: There was an error loading the clock sysvar"
  | SessionInvalidAccountData => "Error: A session account failed to deserialize"
  | SessionInvalidAccountDiscriminator => "Error: A session account has the wrong discriminator"
  | SessionInvalidAccountVersion => "Error: A session account has the wrong version"
  | SessionLimitsExceeded => "Error: Session limits have been exceeded"
  | SessionRevoked => "Error: The session has been revoked"
  | EpochRewardDistributionInProgress =>
      "Epoch reward distribution is currently in progress, stakes are still being updated"
  | TooManyValidatorsInPool => "The stake pool has too many validators in the pool"
  end.

(** [impl Display for StakePoolError], derived from the [error] attributes. *)
Definition error_display (e : StakePoolError) : string :=
  match e with
  | AlreadyInUse => "AlreadyInUse"
  | InvalidProgramAddress => "InvalidProgramAddress"
  | InvalidState => "InvalidState"
  | CalculationFailure => "CalculationFailure"
  | FeeTooHigh => "FeeTooHigh"
  | WrongAccountMint => "WrongAccountMint"
  | WrongManager => "WrongManager"
  | SignatureMissing => "SignatureMissing"
  | InvalidValidatorStakeList => "InvalidValidatorStakeList"
  | InvalidFeeAccount => "InvalidFeeAccount"
  | WrongPoolMint => "WrongPoolMint"
  | WrongStakeStake => "WrongStakeStake"
  | UserStakeNotActive => "UserStakeNotActive"
  | ValidatorAlreadyAdded => "ValidatorAlreadyAdded"
  | ValidatorNotFound => "ValidatorNotFound"
  | InvalidStakeAccountAddress => "InvalidStakeAccountAddress"
  | StakeListOutOfDate => "StakeListOutOfDate"
  | StakeListAndPoolOutOfDate => "StakeListAndPoolOutOfDate"
  | UnknownValidatorStakeAccount => "UnknownValidatorStakeAccount"
  | WrongMintingAuthority => "WrongMintingAuthority"
  | UnexpectedValidatorListAccountSize => "UnexpectedValidatorListAccountSize"
  | WrongStaker => "WrongStaker"
  | NonZeroPoolTokenSupply => "NonZeroPoolTokenSupply"
  | StakeLamportsNotEqualToMinimum => "StakeLamportsNotEqualToMinimum"
  | IncorrectDepositVoteAddress => "IncorrectDepositVoteAddress"
  | IncorrectWithdrawVoteAddress => "IncorrectWithdrawVoteAddress"
  | InvalidMintFreezeAuthority => "InvalidMintFreezeAuthority"
  | FeeIncreaseTooHigh => "FeeIncreaseTooHigh"
  | WithdrawalTooSmall => "WithdrawalTooSmall"
  | DepositTooSmall => "DepositTooSmall"
  | InvalidStakeDepositAuthority => "InvalidStakeDepositAuthority"
  | InvalidSolDepositAuthority => "InvalidSolDepositAuthority"
  | InvalidPreferredValidator => "InvalidPreferredValidator"
  | TransientAccountInUse => "TransientAccountInUse"
  | InvalidSolWithdrawAuthority => "InvalidSolWithdrawAuthority"
  | SolWithdrawalTooLarge => "SolWithdrawalTooLarge"
  | InvalidMetadataAccount => "InvalidMetadataAccount"
  | UnsupportedMintExtension => "UnsupportedMintExtension"
  | UnsupportedFeeAccountExtension => "UnsupportedFeeAccountExtension"
  | ExceededSlippage => "Instruction exceeds desired slippage limit"
  | IncorrectMintDecimals => "IncorrectMintDecimals"
  | ReserveDepleted => "ReserveDepleted"
  | MissingRequiredSysvar => "Missing required sysvar account"
  | EpochRewardDistributionInProgress =>
      "Epoch reward distribution is currently in progress, stakes are still being updated"
  | TooManyValidatorsInPool => "The stake pool has too many validators in the pool"
  | SessionExpired => "SessionExpired"
  | SessionUserMismatch => "SessionUserMismatch"
  | SessionUnauthorizedProgram => "SessionUnauthorizedProgram"
  | SessionMissingRequiredSignature => "SessionMissingRequiredSignature"
  | SessionClockError => "SessionClockError"
  | SessionInvalidAccountData => "SessionInvalidAccountData"
  | SessionInvalidAccountDiscriminator => "SessionInvalidAccountDiscriminator"
  | SessionInvalidAccountVersion => "SessionInvalidAccountVersion"
  | SessionLimitsExceeded => "SessionLimitsExceeded"
  | SessionRevoked => "SessionRevoked"
  end.

(** [<StakePoolError as DecodeError>::type_of] *)
Definition error_type_of : string := "Stake Pool Error".

(** [ProgramError::print::<E>], given how [E] decodes and prints the code of a custom
    error; it hands a custom error that decodes over to the printer of [E]. *)
Class ErrorPrinting := program_error_print : (Z -> option (list string)) -> ProgramError -> list string.
Definition ErrorPrintingLaws `{ErrorPrinting} : Prop := forall decode code lines,
  decode code = Some lines -> program_error_print decode (Custom code) = lines.

Section Entry.
Context `{Runtime} `{P : ErrorPrinting}.

(** The codes of [StakePoolError], printed. *)
Definition decode_and_print (code : Z) : option (list string) :=
  (fun e => [error_message e]) <$> stake_pool_error_from_code code.

(** [process_instruction]: the result, and what it logs itself. *)
Definition process_instruction (program_id : Pubkey) (accounts : list AccountInfo)
    (instruction_data : list byte) (w : World) : presult (unit * World) * list string :=
  match process program_id accounts instruction_data w with
  | Err error => (Err error, program_error_print decode_and_print error)
  | Ok r => (Ok r, [])
  | Panic => (Panic, [])
  end.

End Entry.

(** ** Errors can be told apart by their texts *)

(** The first error with a text. *)
Definition error_of_text (text : StakePoolError -> string) (t : string) : option StakePoolError :=
  List.find (fun e => String.eqb (text e) t) stake_pool_errors.
Lemma error_of_message e : error_of_text error_message (error_message e) = Some e.
Proof. by destruct e; vm_compute. Qed.
Lemma error_of_display e : error_of_text error_display (error_display e) = Some e.
Proof. by destruct e; vm_compute. Qed.
Lemma text_inj text e1 e2 :
  (forall e, error_of_text text (text e) = Some e) -> text e1 = text e2 -> e1 = e2.
Proof. intros Ht He. apply (f_equal (error_of_text text)) in He. rewrite !Ht in He. by injection He. Qed.

Section EntryCorrect.
Context `{Runtime} `{P : ErrorPrinting}.
Hypothesis printing : ErrorPrintingLaws.

(** C35: the entry point reports errors.  It returns what the processor returns, logs
    nothing of its own otherwise, and an error of the pool is logged as one line, from
    which, as from the code that is returned, the error can be told: no two errors share
    a code, a logged text or a displayed text. *)
Theorem entry_reports_errors program_id accounts data w :
  fst (process_instruction program_id accounts data w) = process program_id accounts data w /\
  (is_Ok (process program_id accounts data w) = true ->
     snd (process_instruction program_id accounts data w) = []) /\
  (forall e, process program_id accounts data w = fail_pool e ->
     snd (process_instruction program_id accounts data w) = [error_message e]) /\
  (forall e1 e2, error_message e1 = error_message e2 -> e1 = e2) /\
  (forall e1 e2, error_display e1 = error_display e2 -> e1 = e2) /\
  (forall e1 e2, into_program_error e1 = into_program_error e2 -> e1 = e2).
Proof.
  unfold process_instruction. split_and!.
  - by destruct (process _ _ _ _).
  - by destruct (process _ _ _ _).
  - intros e ->. cbn. apply printing. unfold decode_and_print.
    by rewrite stake_pool_error_from_code_code.
  - intros e1 e2. apply text_inj, error_of_message.
  - intros e1 e2. apply text_inj, error_of_display.
  - apply into_program_error_inj.
Qed.
End EntryCorrect.

(** ** Witness *)
Section EntryWitness.
Import Demo Scenario.

(** A printer as it is documented. *)
Definition demo_printing : ErrorPrinting := fun decode e =>
  match e with
  | Custom code => default ["Error: Unknown"] (decode code)
  | _ => ["Error"]
  end.

(** A change of the staker that neither the staker nor the manager signed. *)
Lemma entry_reports_errors_witness :
  let accounts := [w_info pool_key; s_info user_key; r_info user_key] in
  process (H:=demo) program accounts (instruction_ser SetStaker) world = fail_pool SignatureMissing /\
  snd (process_instruction (H:=demo) (P:=demo_printing) program accounts (instruction_ser SetStaker) world) =
    ["Error: Required signature is missing"].
Proof.
  intros accounts.
  assert (Hp : process (H:=demo) program accounts (instruction_ser SetStaker) world =
    fail_pool SignatureMissing) by (vm_compute; reflexivity).
  split; [exact Hp|].
  refine (proj1 (proj2 (proj2 (entry_reports_errors (P:=demo_printing) _ program accounts _ world)))
    SignatureMissing Hp).
  intros decode code lines Hd. cbn. by rewrite Hd.
Defined.
End EntryWitness.
