(* ===== verification/Trace.v ===== *)
(** * What a handler asks other programs to do

    [Emits m l]: every successful run of [m] appends exactly the calls [l] to the
    trace of completed cross-program invocations.  The instances follow the
    helper functions of the processor, so the calls of a handler's part are found
    by instance search. *)

From S2P Require Import Prelude Errors Fees Pool BigVec Borsh ValidatorList Runtime Checks Admin.
From S2P Require Import Deposit Withdraw.

Class Emits {A} (m : M A) (l : list CpiCall) : Prop :=
  emits w a w' : m w = Ok (a, w') -> cpi_log w' = cpi_log w ++ l.
#[export] Hint Mode Emits - ! - : typeclass_instances.

(** A computation that calls nobody. *)
Lemma emits_nothing {A} (m : M A) :
  (forall w a w', m w = Ok (a, w') -> cpi_log w' = cpi_log w) -> Emits m [].
Proof. intros Hm w a w' Hx. rewrite app_nil_r. by eapply Hm. Qed.

#[export] Instance emits_ret {A} (a : A) : Emits (mret a) [].
Proof. apply emits_nothing. by intros w b w' [=_ <-]. Qed.
#[export] Instance emits_lift {A} (r : presult A) : Emits (lift r) [].
Proof. apply emits_nothing. by intros w a w' [_ ->]%lift_Ok. Qed.
#[export] Instance emits_read {A} (f : World -> presult A) : Emits (read f) [].
Proof. apply emits_nothing. by intros w a w' [_ ->]%read_Ok. Qed.
#[export] Instance emits_observe {A} (f : World -> presult A) : Emits (observe f) [].
Proof. apply emits_nothing. by intros w a w' (_ & _ & ->)%observe_Ok. Qed.
#[export] Instance emits_fail_if c e : Emits (fail_if c e) [].
Proof. apply emits_lift. Qed.
#[export] Instance emits_ok_or_pool {A} (o : option A) e : Emits (ok_or_pool o e) [].
Proof. apply emits_lift. Qed.
#[export] Instance emits_bind {A B} (m : M A) (f : A -> M B) l1 l2 :
  Emits m l1 -> (forall a, Emits (f a) l2) -> Emits (m ≫= f) (l1 ++ l2).
Proof.
  intros Hm Hf w b w' (a & w1 & H1 & H2)%M_bind_Ok.
  rewrite (Hf a _ _ _ H2), (Hm _ _ _ H1). by rewrite app_assoc.
Qed.
#[export] Instance emits_when (c : bool) m l : Emits m l -> Emits (when c m) (if c then l else []).
Proof. intros Hm. unfold when. destruct c; [done|apply emits_ret]. Qed.
#[export] Instance emits_if {A} (c : bool) (m1 m2 : M A) l1 l2 :
  Emits m1 l1 -> Emits m2 l2 -> Emits (if c then m1 else m2) (if c then l1 else l2).
Proof. by destruct c. Qed.

Section Trace.
Context `{Runtime}.

#[export] Instance emits_lamports i : Emits (lamports i) [].
Proof. apply emits_nothing. by intros w a w' [=_ <-]. Qed.
#[export] Instance emits_owner i : Emits (owner i) [].
Proof. apply emits_nothing. by intros w a w' [=_ <-]. Qed.
#[export] Instance emits_data_len i : Emits (data_len i) [].
Proof. apply emits_nothing. by intros w a w' [=_ <-]. Qed.
#[export] Instance emits_write_data i d : Emits (write_data i d) [].
Proof. apply emits_nothing. by intros w a w' [=_ <-]. Qed.
#[export] Instance emits_store {T} `{Borsh T} i (x : T) : Emits (store i x) [].
Proof. apply emits_nothing. by intros w a w' (_ & d & _ & ->)%store_Ok. Qed.
#[export] Instance emits_drop_borrow_mut i : Emits (drop_borrow_mut i) [].
Proof. apply emits_nothing. by intros w a w' [=_ <-]. Qed.
#[export] Instance emits_drop_borrow i : Emits (drop_borrow i) [].
Proof. apply emits_nothing. by intros w a w' [=_ <-]. Qed.
#[export] Instance emits_borrow_mut i : Emits (borrow_mut i) [].
Proof.
  apply emits_nothing. intros w a w'. unfold borrow_mut. case_bool_decide; [done|]. by intros [=_ <-].
Qed.
#[export] Instance emits_hold_borrow i : Emits (hold_borrow i) [].
Proof.
  apply emits_nothing. intros w a w'. unfold hold_borrow. case_bool_decide; [done|]. by intros [=_ <-].
Qed.
#[export] Instance emits_assign_entry i o v : Emits (assign_entry i o v) [].
Proof. apply emits_nothing. intros w a w'. unfold assign_entry. by intros [=_ <-]. Qed.
#[export] Instance emits_open_validator_list i : Emits (open_validator_list i) [].
Proof. apply emits_nothing. intros w [h v] w' Hx. unfold open_validator_list in Hx. inv_run Hx.
  rename select (borrow_mut _ _ = _) into Hb. apply emits_borrow_mut in Hb. by rewrite app_nil_r in Hb.
Qed.

(** The primitive: one call. *)
#[export] Instance emits_invoke_signed ix infos s : Emits (invoke_signed ix infos s) [mkCall ix s].
Proof. by intros w a w' (_ & accts & _ & ->)%invoke_signed_Ok. Qed.
#[export] Instance emits_invoke ix infos : Emits (invoke ix infos) [mkCall ix []].
Proof. apply emits_invoke_signed. Qed.

(** ** The calls of the helper functions *)

(** A call signed by an authority of the pool. *)
Definition pool_call (stake_pool : Pubkey) (authority_type : list byte) (bump_seed : Z)
    (ix : CpiInstruction) : CpiCall :=
  mkCall ix [authority_seeds stake_pool authority_type bump_seed].
(** A call signed by the transaction's signers only. *)
Definition user_call (ix : CpiInstruction) : CpiCall := mkCall ix [].

#[export] Instance emits_stake_delegate p t b i1 i2 i3 i4 i5 i6 :
  Emits (stake_delegate p t b i1 i2 i3 i4 i5 i6) [pool_call p t b (StakeDelegate (key i1) (key i6) (key i2))].
Proof. apply emits_invoke_signed. Qed.
#[export] Instance emits_stake_deactivate p t b i1 i2 i3 :
  Emits (stake_deactivate p t b i1 i2 i3) [pool_call p t b (StakeDeactivate (key i1) (key i3))].
Proof. apply emits_invoke_signed. Qed.
#[export] Instance emits_stake_split p t b i1 i2 n i3 :
  Emits (stake_split p t b i1 i2 n i3) [pool_call p t b (StakeSplit (key i1) (key i2) n (key i3))].
Proof. apply emits_invoke_signed. Qed.
#[export] Instance emits_stake_merge p t b i1 i2 i3 i4 i5 :
  Emits (stake_merge p t b i1 i2 i3 i4 i5) [pool_call p t b (StakeMerge (key i3) (key i1) (key i2))].
Proof. apply emits_invoke_signed. Qed.
#[export] Instance emits_stake_withdraw p t b i1 i2 i3 i4 i5 n :
  Emits (stake_withdraw p t b i1 i2 i3 i4 i5 n)
    [pool_call p t b (StakeWithdraw (key i1) (key i2) (key i3) n)].
Proof. apply emits_invoke_signed. Qed.
#[export] Instance emits_token_mint_to p t b i1 i2 i3 i4 n :
  Emits (token_mint_to p t b i1 i2 i3 i4 n)
    [pool_call p t b (TokenMintTo (key i1) (key i2) (key i3) (key i4) n)].
Proof. apply (emits_bind _ _ [] _); apply _. Qed.
#[export] Instance emits_stake_authorize_signed p t b i1 i2 k i3 :
  Emits (stake_authorize_signed p t b i1 i2 k i3)
    [pool_call p t b (StakeAuthorizeIx (key i1) (key i2) k AuthorizeStaker);
     pool_call p t b (StakeAuthorizeIx (key i1) (key i2) k AuthorizeWithdrawer)].
Proof. apply (emits_bind _ _ [_] [_]); apply _. Qed.
#[export] Instance emits_stake_authorize i1 i2 k i3 :
  Emits (stake_authorize i1 i2 k i3)
    [user_call (StakeAuthorizeIx (key i1) (key i2) k AuthorizeStaker);
     user_call (StakeAuthorizeIx (key i1) (key i2) k AuthorizeWithdrawer)].
Proof. apply (emits_bind _ _ [_] [_]); apply _. Qed.
#[export] Instance emits_token_burn i1 i2 i3 i4 n :
  Emits (token_burn i1 i2 i3 i4 n) [user_call (TokenBurn (key i1) (key i2) (key i3) (key i4) n)].
Proof. apply (emits_bind _ _ [] _); apply _. Qed.
#[export] Instance emits_token_transfer i1 i2 i3 i4 i5 n d :
  Emits (token_transfer i1 i2 i3 i4 i5 n d)
    [user_call (TokenTransferChecked (key i1) (key i2) (key i3) (key i4) (key i5) n d)].
Proof. apply (emits_bind _ _ [] _); apply _. Qed.
#[export] Instance emits_sol_transfer i1 i2 n :
  Emits (sol_transfer i1 i2 n) [user_call (SystemTransfer (key i1) (key i2) n)].
Proof. apply emits_invoke. Qed.
#[export] Instance emits_create_stake_account i s n :
  Emits (create_stake_account i s n)
    [mkCall (SystemAllocate (key i) n) [s]; mkCall (SystemAssign (key i) stake_program_id) [s]].
Proof. apply (emits_bind _ _ [_] [_]); apply _. Qed.

(** ** The calls of parts of handlers *)

(** The tokens minted for a deposit. *)
Definition deposit_mints (pool token_program mint user manager referrer authority : AccountInfo)
    (bump_seed : Z) (s : DepositSplit) : list CpiCall :=
  let mint_to info n :=
    pool_call (key pool) AUTHORITY_WITHDRAW bump_seed
      (TokenMintTo (key token_program) (key mint) (key info) (key authority) n) in
  [mint_to user (pool_tokens_user s)] ++
  (if 0 <? pool_tokens_manager_deposit_fee s
   then [mint_to manager (pool_tokens_manager_deposit_fee s)] else []) ++
  (if 0 <? pool_tokens_referral_fee s then [mint_to referrer (pool_tokens_referral_fee s)] else []).

#[export] Instance emits_mint_deposit i1 i2 i3 i4 i5 i6 i7 b s :
  Emits (mint_deposit i1 i2 i3 i4 i5 i6 i7 b s) (deposit_mints i1 i2 i3 i4 i5 i6 i7 b s).
Proof. unfold mint_deposit, deposit_mints. apply _. Qed.

(** The tokens burnt, and paid as fee, for a withdrawal the owner signed. *)
Definition withdrawal_burns (token_program account mint authority manager : AccountInfo)
    (a : Withdrawal) (decimals : Z) : list CpiCall :=
  [user_call (TokenBurn (key token_program) (key account) (key mint) (key authority) (pool_tokens_burnt a))] ++
  (if 0 <? pool_tokens_fee a
   then [user_call (TokenTransferChecked (key token_program) (key account) (key mint) (key manager)
           (key authority) (pool_tokens_fee a) decimals)] else []).
#[export] Instance emits_burn_with_signature i1 i2 i3 i4 i5 a d :
  Emits (burn_with_signature i1 i2 i3 i4 i5 a d) (withdrawal_burns i1 i2 i3 i4 i5 a d).
Proof. unfold burn_with_signature, withdrawal_burns. apply _. Qed.
End Trace.

(** Follow the trace through the steps of a run. *)
Ltac track_log :=
  repeat match goal with
  | H : ?m ?w = Ok (?a, ?w') |- _ =>
      lazymatch goal with
      | _ : cpi_log w' = cpi_log w ++ _ |- _ => fail
      | _ =>
          let Hn := fresh "Hlog" in
          pose proof (emits (Emits:=_) (m:=m) w a w' H : cpi_log w' = cpi_log w ++ _) as Hn
      end
  end.

(** Close an equation between traces. *)
Ltac solve_log :=
  repeat match goal with H : cpi_log ?w = _ |- context [cpi_log ?w] => rewrite H; clear H end;
  rewrite ?app_nil_r, <- ?app_assoc; done.
