(* ===== verification/Spec.v ===== *)
(** * Specification of a pool

    [pool_step] is what each instruction may do to a pool, and whose signature it
    needs.  [pool_evolves] says of a run that a pool account took such a step or
    was left alone; the lemmas here reduce it to what a handler stores.  The
    files UserSteps and StakerSteps prove it of every handler, Refinement of the
    dispatcher. *)

From S2P Require Import Prelude Errors Fees Pool BigVec Borsh ValidatorList Runtime Platform.
From S2P Require Import Checks Admin Tracking Deposit Withdraw Validators Update Init Instruction.
From S2P Require Import Process.

(** ** Specification *)

Definition signed (accts : list AccountInfo) (k : Pubkey) : Prop :=
  exists i, i ∈ accts /\ key i = k /\ is_signer i = true.

Definition is_deposit (i : StakePoolInstruction) : bool :=
  match i with
  | DepositStake | DepositStakeWithSlippage _ | DepositSol _ | DepositSolWithSlippage _ _
  | DepositWsolWithSession _ => true
  | _ => false
  end.
Definition is_withdrawal (i : StakePoolInstruction) : bool :=
  match i with
  | WithdrawStake _ | WithdrawStakeWithSlippage _ _ | WithdrawSol _ | WithdrawSolWithSlippage _ _
  | WithdrawWsolWithSession _ => true
  | _ => false
  end.

(** [q] is [p] with some preferred validators reset. *)
Definition preferred_reset (p q : StakePool) : Prop :=
  exists d w,
    (d = preferred_deposit_validator_vote_address p \/ d = None) /\
    (w = preferred_withdraw_validator_vote_address p \/ w = None) /\
    q = p <| preferred_deposit_validator_vote_address := d |>
          <| preferred_withdraw_validator_vote_address := w |>.

Inductive pool_step (auth : Pubkey -> Prop) : StakePoolInstruction -> StakePool -> StakePool -> Prop :=
| StepSetManager p m f :
    auth (manager p) -> auth m ->
    pool_step auth SetManager p (p <| manager := m |> <| manager_fee_account := f |>)
| StepSetFee p ft q :
    auth (manager p) -> check_too_high ft = Ok tt -> update_fee p ft = Ok q ->
    pool_step auth (SetFee ft) p q
| StepSetStaker p s :
    auth (staker p) \/ auth (manager p) -> pool_step auth SetStaker p (p <| staker := s |>)
| StepSetStakeDeposit p k :
    auth (manager p) ->
    pool_step auth (SetFundingAuthority FundingStakeDeposit) p (p <| stake_deposit_authority := k |>)
| StepSetSolDeposit p k :
    auth (manager p) ->
    pool_step auth (SetFundingAuthority FundingSolDeposit) p (p <| sol_deposit_authority := k |>)
| StepSetSolWithdraw p k :
    auth (manager p) ->
    pool_step auth (SetFundingAuthority FundingSolWithdraw) p (p <| sol_withdraw_authority := k |>)
| StepPreferDeposit p v :
    auth (staker p) ->
    pool_step auth (SetPreferredValidator PreferredDeposit v) p
      (p <| preferred_deposit_validator_vote_address := v |>)
| StepPreferWithdraw p v :
    auth (staker p) ->
    pool_step auth (SetPreferredValidator PreferredWithdraw v) p
      (p <| preferred_withdraw_validator_vote_address := v |>)
| StepRemoveValidator p q :
    auth (staker p) -> preferred_reset p q -> pool_step auth RemoveValidatorFromPool p q
| StepCleanup p q :
    preferred_reset p q -> pool_step auth CleanupRemovedValidatorEntries p q
| StepDeposit i p d t :
    is_deposit i = true -> is_uint 64 d -> calc_pool_tokens_for_deposit p d = Some t ->
    total_lamports p + d < 2 ^ 64 -> pool_token_supply p + t < 2 ^ 64 ->
    pool_step auth i p (after_deposit p d t)
| StepWithdraw i p q t l l' :
    is_withdrawal i = true -> is_uint 64 t -> calc_lamports_withdraw_amount p t = Some l' ->
    0 <= l <= l' -> l <= total_lamports p -> t <= pool_token_supply p -> preferred_reset p q ->
    pool_step auth i p (after_withdraw q t l)
| StepUpdate p e L S :
    is_uint 64 e -> is_uint 64 L -> is_uint 64 S ->
    pool_step auth UpdateStakePoolBalance p
      (advance_epoch p e (total_lamports p) (pool_token_supply p)
         <| total_lamports := L |> <| pool_token_supply := S |>).

(** ** Preferred validators *)

Lemma preferred_reset_refl p : preferred_reset p p.
Proof. eexists _, _. split; [by left|]. split; [by left|]. by destruct p. Qed.

Lemma preferred_reset_typed p q : preferred_reset p q -> pool_typed p -> pool_typed q.
Proof. intros (d & w & _ & _ & ->) []. constructor; done. Qed.

Lemma reset_preferred_reset p v : preferred_reset p (reset_preferred p v).
Proof.
  unfold reset_preferred. do 2 case_bool_decide; eexists _, _;
    (split; [by (left + right)|]; split; [by (left + right)|]; by destruct p).
Qed.

(** ** Runs as steps *)
Section Spec.
Context {R : Runtime} {program_id : Pubkey} {L : RuntimeLaws R program_id}.

(** The pool [p] of the account [P] after the instruction [i] with [accts]. *)
Definition pool_evolves (accts : list AccountInfo) (i : StakePoolInstruction) (P : Pubkey)
    (p : StakePool) (w' : World) : Prop :=
  exists p', holds_pool program_id P p' w' /\
    (p' = p \/
     exists info, head accts = Some info /\ key info = P /\ pool_step (signed accts) i p p').

Lemma evolves_same accts i P p w' : holds_pool program_id P p w' -> pool_evolves accts i P p w'.
Proof. intros Hp. exists p. auto. Qed.

(** A handler ends by storing the pool [q] in its first account. *)
Lemma evolves_store accts i P p info q w u w' :
  head accts = Some info -> holds_pool program_id P p w -> pool_typed q ->
  (key info = P -> pool_step (signed accts) i p q) ->
  store info q w = Ok (u, w') -> pool_evolves accts i P p w'.
Proof.
  intros Hh Hp Hq Hs Hst. pose proof (store_holds _ _ _ _ _ _ _ Hq Hp Hst) as Hp'.
  destruct (key info =?ₖ P) eqn:E; bool_props; [|by apply evolves_same].
  exists q. split; [done|]. right. eauto.
Qed.

(** What happens afterwards to other accounts does not matter. *)
Lemma evolves_keeps {A} accts i P p (m : M A) w a w' :
  m w = Ok (a, w') -> Keeps program_id m -> pool_evolves accts i P p w ->
  pool_evolves accts i P p w'.
Proof.
  intros Hm Hk (p' & Hp & Hs). exists p'. split; [by eapply keeps|done].
Qed.

Lemma evolves_kept {A} accts i P p (m : M A) w a w' :
  m w = Ok (a, w') -> Keeps program_id m -> holds_pool program_id P p w ->
  pool_evolves accts i P p w'.
Proof. intros. apply evolves_same. by eapply keeps. Qed.

Lemma evolves_at {A} accts i P p (m : M A) w a w' :
  m w = Ok (a, w') -> KeepsAt program_id P m -> pool_evolves accts i P p w ->
  pool_evolves accts i P p w'.
Proof. intros Hm Hk (p' & Hp & Hs). exists p'. split; [by eapply Hk|done]. Qed.

Lemma evolves_write accts i P p info d w u w' :
  write_data info d w = Ok (u, w') -> key info <> P -> pool_evolves accts i P p w ->
  pool_evolves accts i P p w'.
Proof.
  intros Hm Hk (p' & Hp & Hs). exists p'. split; [by eapply write_data_holds|done].
Qed.

Lemma signed_in accts i : i ∈ accts -> is_signer i = true -> signed accts (key i).
Proof. intros. by exists i. Qed.

(** Signature checks give signatures. *)
Lemma check_manager_Ok p i u : check_manager p i = Ok u -> key i = manager p /\ is_signer i = true.
Proof. intros Hc. unfold check_manager in Hc. inv_ok Hc. by bool_props. Qed.
Lemma check_staker_Ok p i u : check_staker p i = Ok u -> key i = staker p /\ is_signer i = true.
Proof. intros Hc. unfold check_staker in Hc. inv_ok Hc. by bool_props. Qed.


(** A step needs proving only for the pool the handler loaded. *)
Lemma evolves_loaded accts i P p info v q w1 w u w' :
  head accts = Some info -> holds_pool program_id P p w1 -> load StakePool info w1 = Ok v ->
  holds_pool program_id P p w ->
  pool_typed q -> pool_step (signed accts) i v q -> store info q w = Ok (u, w') ->
  pool_evolves accts i P p w'.
Proof.
  intros Hh Hp1 Hl Hp Hq Hs Hst. eapply evolves_store; [done..| |exact Hst].
  intros E. by rewrite <- (load_holds _ _ _ _ _ Hp1 Hl E).
Qed.

(** The first account is what matters of the account list of an inner call,
    when the step needs no signature. *)
Lemma evolves_inner accts accts' i P p w :
  head accts = head accts' ->
  (forall a a' q, pool_step a i p q -> pool_step a' i p q) ->
  pool_evolves accts i P p w -> pool_evolves accts' i P p w.
Proof.
  intros Hh Ha (p' & Hp & Hs). exists p'. split; [done|].
  destruct Hs as [->|(info & Hi & Hk & Hs)]; [by left|right].
  exists info. split; [congruence|]. split; [done|]. by eapply Ha.
Qed.

Lemma deposit_any_auth i p q a a' :
  is_deposit i = true \/ is_withdrawal i = true -> pool_step a i p q -> pool_step a' i p q.
Proof.
  intros Hi Hs. inversion Hs; subst; try (by destruct Hi).
  - by apply StepDeposit.
  - by eapply StepWithdraw.
Qed.

Lemma keeps_at_assign P info o v :
  key info <> P -> KeepsAt program_id P (assign_entry info o v).
Proof. intros Hk p w a w' Hp Hm. by eapply write_data_holds. Qed.

Lemma preferred_reset_totals p q :
  preferred_reset p q ->
  total_lamports q = total_lamports p /\ pool_token_supply q = pool_token_supply p.
Proof. by intros (d & w & _ & _ & ->). Qed.

End Spec.
Arguments pool_evolves program_id : clear implicits.

(** Invert a handler down to what its parts did. *)
Ltac inv_handler H :=
  inv_run H; inv_accounts;
  repeat match goal with
  | Hl : load_valid_pool _ _ _ = Ok _ |- _ =>
      let Hv := fresh "Hv" in let Ho := fresh "Ho" in let E := fresh "E" in
      apply load_valid_pool_Ok in Hl as (E & Hl & Hv & Ho); subst_eq E
  end.

