(* ===== verification/UserSteps.v ===== *)
(** * Handlers of the manager and of the users are steps of the specification

    One lemma per handler, as in StakerSteps. *)

From S2P Require Import Prelude Errors Fees Pool BigVec Borsh ValidatorList Runtime Platform.
From S2P Require Import Checks Admin Tracking Deposit Withdraw Validators Update Init Instruction.
From S2P Require Import Process Spec.

Section UserSteps.
Context {R : Runtime} {program_id : Pubkey} {L : RuntimeLaws R program_id}.

(** *** Administration *)

Lemma set_manager_step accts w u w' P p :
  holds_pool program_id P p w -> process_set_manager program_id accts w = Ok (u, w') ->
  pool_evolves program_id accts SetManager P p w'.
Proof.
  intros Hp Hx. unfold process_set_manager in Hx. inv_handler Hx. bool_props.
  rename select (check_manager _ _ = _) into Hm. apply check_manager_Ok in Hm as [Hm Hms].
  rename select (load _ _ _ = _) into Hl.
  eapply evolves_loaded; [done|exact Hp|exact Hl|exact Hp| | |exact Hx].
  - apply load_typed in Hl as []. constructor; done.
  - apply StepSetManager; [rewrite <- Hm|]; (apply signed_in; [set_solver|done]).
Qed.

Lemma set_fee_step accts ft w u w' P p :
  fee_type_typed ft -> holds_pool program_id P p w ->
  process_set_fee program_id accts ft w = Ok (u, w') -> pool_evolves program_id accts (SetFee ft) P p w'.
Proof.
  intros Hft Hp Hx. unfold process_set_fee in Hx. inv_handler Hx.
  rename select (check_manager _ _ = _) into Hm. apply check_manager_Ok in Hm as [Hm Hms].
  rename select (load _ _ _ = _) into Hl. rename select (update_fee _ _ = _) into Hu.
  rename select (check_too_high _ = _) into Hh. match type of Hh with _ = Ok ?x => destruct x end.
  eapply evolves_loaded; [done|exact Hp|exact Hl|exact Hp| | |exact Hx].
  - eapply update_fee_typed; [by eapply load_typed|done|exact Hu].
  - apply StepSetFee; [|done|done]. rewrite <- Hm. apply signed_in; [set_solver|done].
Qed.

Lemma set_staker_step accts w u w' P p :
  holds_pool program_id P p w -> process_set_staker program_id accts w = Ok (u, w') ->
  pool_evolves program_id accts SetStaker P p w'.
Proof.
  intros Hp Hx. unfold process_set_staker in Hx. inv_handler Hx.
  rename select (load _ _ _ = _) into Hl. rename select (is_err _ && _ = false) into Hs.
  eapply evolves_loaded; [done|exact Hp|exact Hl|exact Hp| | |exact Hx].
  - apply load_typed in Hl as []. constructor; done.
  - apply StepSetStaker. apply andb_false_iff in Hs as [Hs|Hs]; [left|right].
    + destruct (check_staker v a0) eqn:E; [|done|by unfold check_staker, err_if in E; repeat case_match].
      apply check_staker_Ok in E as [<- Hs']. apply signed_in; [set_solver|done].
    + destruct (check_manager v a0) eqn:E; [|done|by unfold check_manager, err_if in E; repeat case_match].
      apply check_manager_Ok in E as [<- Hs']. apply signed_in; [set_solver|done].
Qed.

Lemma set_funding_step accts ft w u w' P p :
  holds_pool program_id P p w -> process_set_funding_authority program_id accts ft w = Ok (u, w') ->
  pool_evolves program_id accts (SetFundingAuthority ft) P p w'.
Proof.
  intros Hp Hx. unfold process_set_funding_authority in Hx. inv_handler Hx.
  rename select (check_manager _ _ = _) into Hm. apply check_manager_Ok in Hm as [Hm Hms].
  rename select (load _ _ _ = _) into Hl.
  assert (signed (a :: a0 :: l0) (manager v)) by (rewrite <- Hm; apply signed_in; [set_solver|done]).
  eapply evolves_loaded; [done|exact Hp|exact Hl|exact Hp| | |exact Hx].
  - apply load_typed in Hl as []. destruct ft; constructor; done.
  - destruct ft; by constructor.
Qed.

Lemma set_preferred_step accts t v w u w' P p :
  holds_pool program_id P p w -> process_set_preferred_validator program_id accts t v w = Ok (u, w') ->
  pool_evolves program_id accts (SetPreferredValidator t v) P p w'.
Proof.
  intros Hp Hx. unfold process_set_preferred_validator in Hx. inv_handler Hx.
  rename select (check_staker _ _ = _) into Hm. apply check_staker_Ok in Hm as [Hm Hms].
  rename select (load _ _ _ = _) into Hl. rename select (store _ _ _ = _) into Hst.
  track_pool.
  eapply evolves_keeps; [exact Hx|apply _|].
  eapply evolves_loaded; [done|exact Hp|exact Hl|exact Hp1| | |exact Hst].
  - apply load_typed in Hl as []. destruct t; constructor; done.
  - destruct t; constructor; rewrite <- Hm; (apply signed_in; [set_solver|done]).
Qed.

Lemma create_metadata_step accts n s t w u w' P p :
  holds_pool program_id P p w ->
  process_create_pool_token_metadata program_id accts n s t w = Ok (u, w') ->
  pool_evolves program_id accts (CreateTokenMetadata n s t) P p w'.
Proof.
  intros Hp Hx. eapply evolves_kept; [exact Hx| |exact Hp].
  unfold process_create_pool_token_metadata. solve_keeps.
Qed.

Lemma update_metadata_step accts n s t w u w' P p :
  holds_pool program_id P p w ->
  process_update_pool_token_metadata program_id accts n s t w = Ok (u, w') ->
  pool_evolves program_id accts (UpdateTokenMetadata n s t) P p w'.
Proof.
  intros Hp Hx. eapply evolves_kept; [exact Hx| |exact Hp].
  unfold process_update_pool_token_metadata. solve_keeps.
Qed.

(** *** Deposits *)

#[export] Instance keeps_mint_deposit i1 i2 i3 i4 i5 i6 i7 b s :
  Keeps program_id (mint_deposit i1 i2 i3 i4 i5 i6 i7 b s).
Proof. unfold mint_deposit. solve_keeps. Qed.

Lemma deposit_sol_checks_Ok i1 i2 i3 i4 i5 i6 i7 r w v w' :
  deposit_sol_checks program_id i1 i2 i3 i4 i5 i6 i7 r w = Ok (v, w') ->
  w' = w /\ load StakePool i1 w = Ok v.
Proof. intros Hx. unfold deposit_sol_checks in Hx. inv_handler Hx. done. Qed.

Lemma after_deposit_typed p d t :
  pool_typed p -> is_uint 64 d -> calc_pool_tokens_for_deposit p d = Some t ->
  total_lamports p + d < 2 ^ 64 -> pool_token_supply p + t < 2 ^ 64 -> pool_typed (after_deposit p d t).
Proof.
  intros Hp Hd Ht ? ?. pose proof (calc_pool_tokens_for_deposit_typed p d t Hp Hd Ht).
  pose proof (pt_total _ Hp). pose proof (pt_supply _ Hp). unfold is_uint in *.
  apply pool_typed_totals; [done|unfold is_uint; lia..].
Qed.

Lemma sol_deposit_split_tokens p d m s :
  sol_deposit_split p d m = Ok s -> calc_pool_tokens_for_deposit p d = Some (new_pool_tokens s).
Proof.
  intros Hs. unfold sol_deposit_split in Hs. apply bind_Ok in Hs as (t & Ht%calc_Ok & Hs).
  inv_ok Hs. done.
Qed.

Lemma deposit_sol_step accts d m b i w u w' P p :
  is_deposit i = true -> is_uint 64 d -> holds_pool program_id P p w ->
  process_deposit_sol program_id accts d m b w = Ok (u, w') -> pool_evolves program_id accts i P p w'.
Proof.
  intros Hi Hd Hp Hx. unfold process_deposit_sol in Hx. inv_handler Hx.
  rename select (deposit_sol_checks _ _ _ _ _ _ _ _ _ _ = _) into Hc.
  apply deposit_sol_checks_Ok in Hc as [-> Hl]. track_pool.
  rename select (record_deposit _ _ _ = _) into Hrec. apply record_deposit_Ok in Hrec as (-> & H1 & H2).
  rename select (sol_deposit_split _ _ _ = _) into Hs. apply sol_deposit_split_tokens in Hs.
  eapply evolves_loaded; [done|exact Hp|exact Hl|eassumption| | |exact Hx].
  - apply after_deposit_typed; [by eapply load_typed|done..].
  - by apply StepDeposit.
Qed.

#[export] Instance keeps_check_wsol_accounts i1 i2 i3 i4 :
  Keeps program_id (check_wsol_accounts program_id i1 i2 i3 i4).
Proof. unfold check_wsol_accounts. solve_keeps. Qed.
#[export] Instance keeps_unwrap_wsol k i1 i2 i3 i4 i5 i6 i7 i8 i9 d :
  Keeps program_id (unwrap_wsol program_id k i1 i2 i3 i4 i5 i6 i7 i8 i9 d).
Proof. unfold unwrap_wsol. solve_keeps. Qed.

Lemma deposit_wsol_step accts d w u w' P p :
  is_uint 64 d -> holds_pool program_id P p w ->
  process_deposit_wsol_with_session program_id accts d w = Ok (u, w') ->
  pool_evolves program_id accts (DepositWsolWithSession d) P p w'.
Proof.
  intros Hd Hp Hx. unfold process_deposit_wsol_with_session in Hx. inv_handler Hx. track_pool.
  eapply (deposit_sol_step _ _ _ _ (DepositWsolWithSession d)) in Hx; [|done|done|eassumption].
  eapply evolves_inner; [|intros; eapply deposit_any_auth; [by left|eassumption]|exact Hx]. done.
Qed.

Lemma deposit_stake_checks_Ok i1 i2 i3 i4 i5 i6 i7 i8 i9 c w v w' :
  deposit_stake_checks program_id i1 i2 i3 i4 i5 i6 i7 i8 i9 c w = Ok (v, w') ->
  w' = w /\ load StakePool i1 w = Ok v.
Proof. intros Hx. unfold deposit_stake_checks in Hx. inv_handler Hx. done. Qed.

#[export] Instance keeps_deposit_stake_entry i1 i2 p l k :
  Keeps program_id (deposit_stake_entry program_id i1 i2 p l k).
Proof. unfold deposit_stake_entry. solve_keeps. Qed.
#[export] Instance keeps_take_deposited_stake i1 i2 i3 i4 i5 i6 i7 p :
  Keeps program_id (take_deposited_stake program_id i1 i2 i3 i4 i5 i6 i7 p).
Proof. unfold take_deposited_stake. solve_keeps. Qed.

Lemma stake_deposit_split_tokens p d ds m s :
  stake_deposit_split p d ds m = Ok s -> calc_pool_tokens_for_deposit p d = Some (new_pool_tokens s).
Proof.
  intros Hs. unfold stake_deposit_split in Hs. apply bind_Ok in Hs as (t & Ht%calc_Ok & Hs).
  inv_ok Hs. done.
Qed.

Lemma deposit_stake_step accts m i w u w' P p :
  is_deposit i = true -> holds_pool program_id P p w -> pool_is_valid p = true ->
  process_deposit_stake program_id accts m w = Ok (u, w') -> pool_evolves program_id accts i P p w'.
Proof.
  intros Hi Hp Hv Hx. unfold process_deposit_stake in Hx. inv_handler Hx.
  rename select (deposit_stake_checks _ _ _ _ _ _ _ _ _ _ _ _ = _) into Hc.
  apply deposit_stake_checks_Ok in Hc as [-> Hl].
  rename select (open_validator_list _ _ = _) into Ho.
  pose proof (open_list_not_pool _ _ _ _ _ _ Hp Hv Ho) as Hne.
  track_pool.
  rename select (record_deposit _ _ _ = _) into Hrec. apply record_deposit_Ok in Hrec as (-> & H1 & H2).
  rename select (stake_deposit_split _ _ _ _ = _) into Hs. apply stake_deposit_split_tokens in Hs.
  rename select (calc (checked_sub (lamports_of _ _) _) = _) into Hd.
  apply calc_Ok, checked_sub_Some in Hd as [Hd Hle].
  pose proof (load_typed _ _ _ Hl) as Ht. pose proof (pt_total _ Ht).
  eapply evolves_keeps; [exact Hx|apply _|]. eapply evolves_at; [eassumption|by apply keeps_at_assign|].
  eapply evolves_loaded; [done|exact Hp|exact Hl|eassumption| | |eassumption].
  - apply after_deposit_typed; [done| |done..]. unfold is_uint in *. lia.
  - apply StepDeposit; [done| |done..]. unfold is_uint in *. lia.
Qed.

(** *** Withdrawals *)

#[export] Instance keeps_fee_waived p i1 i2 : Keeps program_id (fee_waived p i1 i2).
Proof. unfold fee_waived. solve_keeps. Qed.
#[export] Instance keeps_check_reserve_remains i n : Keeps program_id (check_reserve_remains i n).
Proof. unfold check_reserve_remains. solve_keeps. Qed.
#[export] Instance keeps_burn_with_session i1 i2 i3 i4 i5 i6 a d :
  Keeps program_id (burn_with_session program_id i1 i2 i3 i4 i5 i6 a d).
Proof. unfold burn_with_session. solve_keeps. Qed.
#[export] Instance keeps_burn_with_signature i1 i2 i3 i4 i5 a d :
  Keeps program_id (burn_with_signature i1 i2 i3 i4 i5 a d).
Proof. unfold burn_with_signature. solve_keeps. Qed.

#[export] Instance keeps_withdraw_burn b s i1 i2 i3 i4 i5 a d :
  Keeps program_id (withdraw_burn program_id b s i1 i2 i3 i4 i5 a d).
Proof. unfold withdraw_burn. solve_keeps. Qed.

Lemma withdraw_sol_checks_Ok i1 i2 i3 i4 i5 i6 i7 r w v d w' :
  withdraw_sol_checks program_id i1 i2 i3 i4 i5 i6 i7 r w = Ok ((v, d), w') ->
  w' = w /\ load StakePool i1 w = Ok v.
Proof. intros Hx. unfold withdraw_sol_checks in Hx. inv_handler Hx. done. Qed.

Lemma after_withdraw_typed p t l :
  pool_typed p -> 0 <= l <= total_lamports p -> 0 <= t <= pool_token_supply p ->
  pool_typed (after_withdraw p t l).
Proof.
  intros Hp Hl Ht. pose proof (pt_total _ Hp). pose proof (pt_supply _ Hp). unfold is_uint in *.
  apply pool_typed_totals; [done|unfold is_uint; lia..].
Qed.

(** A withdrawal fee is not negative, so what is burnt is at most what was
    handed in. *)
Lemma withdrawal_fee_nonneg f p waived t m a :
  fee_ok f -> is_uint 64 t -> withdrawal_amounts p waived (v ← fee_apply f t; try_from 64 v) t m = Ok a ->
  0 <= pool_tokens_fee a.
Proof.
  intros Hf Ht (Hw & _)%withdrawal_amounts_Ok.
  destruct Hw as [[_ ->]|[_ Hw]]; [done|]. apply bind_Some in Hw as (v & Hv & Hw). inv_ok Hw.
  by eapply fee_apply_nonneg.
Qed.

Lemma withdrawal_burnt_bounds f p waived t m a :
  fee_ok f -> is_uint 64 t -> withdrawal_amounts p waived (v ← fee_apply f t; try_from 64 v) t m = Ok a ->
  is_uint 64 (pool_tokens_burnt a).
Proof.
  intros Hf Ht Ha. pose proof (withdrawal_fee_nonneg _ _ _ _ _ _ Hf Ht Ha).
  apply withdrawal_amounts_Ok in Ha as (_ & Hs & Hle & _). unfold is_uint in *. lia.
Qed.

Lemma withdraw_sol_step accts t m b i w u w' P p :
  is_withdrawal i = true -> is_uint 64 t -> holds_pool program_id P p w ->
  process_withdraw_sol program_id accts t m b w = Ok (u, w') -> pool_evolves program_id accts i P p w'.
Proof.
  intros Hi Ht Hp Hx. unfold process_withdraw_sol in Hx. inv_handler Hx.
  rename select (withdraw_sol_checks _ _ _ _ _ _ _ _ _ _ = _) into Hck.
  apply withdraw_sol_checks_Ok in Hck as [-> Hl]. track_pool.
  rename select (record_withdrawal _ _ _ = _) into Hrec.
  apply record_withdrawal_Ok in Hrec as (-> & H1 & H2).
  rename select (withdrawal_amounts _ _ _ _ _ = _) into Ha.
  pose proof (load_typed _ _ _ Hl) as Hty.
  apply withdrawal_burnt_bounds in Ha as Hb; [|apply (pt_sol_withdrawal_fee _ Hty)|done].
  apply withdrawal_amounts_Ok in Ha as (_ & _ & _ & Hcalc & _).
  pose proof (calc_lamports_withdraw_amount_mul _ _ _ Hty Hb Hcalc) as [Hl0 _].
  eapply evolves_loaded; [done|exact Hp|exact Hl|eassumption| | |exact Hx].
  - apply after_withdraw_typed; [done|lia|]. unfold is_uint in *. lia.
  - eapply StepWithdraw; [done|exact Hb|exact Hcalc|lia|done|done|apply preferred_reset_refl].
Qed.

Lemma withdraw_wsol_step accts t w u w' P p :
  is_uint 64 t -> holds_pool program_id P p w ->
  process_withdraw_wsol_with_session program_id accts t w = Ok (u, w') ->
  pool_evolves program_id accts (WithdrawWsolWithSession t) P p w'.
Proof.
  intros Ht Hp Hx. unfold process_withdraw_wsol_with_session in Hx. inv_handler Hx. track_pool.
  rename select (process_withdraw_sol _ _ _ _ _ _ = _) into Hs.
  eapply evolves_keeps; [exact Hx|apply _|].
  eapply (withdraw_sol_step _ _ _ _ (WithdrawWsolWithSession t)) in Hs; [|done|done|eassumption].
  eapply evolves_inner; [|intros; eapply deposit_any_auth; [by right|eassumption]|exact Hs]. done.
Qed.

Lemma withdraw_stake_checks_Ok i1 i2 i3 i4 i5 i6 i7 c w v d w' :
  withdraw_stake_checks program_id i1 i2 i3 i4 i5 i6 i7 c w = Ok ((v, d), w') ->
  w' = w /\ load StakePool i1 w = Ok v.
Proof. intros Hx. unfold withdraw_stake_checks in Hx. inv_handler Hx. done. Qed.

Lemma withdraw_stake_source_Ok i1 i2 v l n w q n' o w' P p :
  holds_pool program_id P p w -> 0 <= n ->
  withdraw_stake_source program_id i1 i2 v l n w = Ok ((q, n', o), w') ->
  w' = w /\ preferred_reset v q /\ 0 <= n' <= n.
Proof.
  intros Hp Hn Hx. unfold withdraw_stake_source in Hx. inv_run Hx.
  - split; [|split; [apply preferred_reset_refl|lia]].
    rename select (check_reserve_source _ _ _ _ _ _ = _) into Hck.
    unfold check_reserve_source in Hck. inv_run Hck. done.
  - rename select (withdraw_from_entry _ _ _ _ _ _ _ = _) into Hw.
    apply withdraw_from_entry_Ok in Hw as [Hle Hw]. split; [done|].
    destruct Hw as [[-> ->]|[-> ->]]; (split; [|split; [|done]]).
    + apply preferred_reset_refl.
    + done.
    + apply reset_preferred_reset.
    + apply (lamports_of_typed _ _ _ _ Hp).
Qed.

#[export] Instance keeps_check_reserve_source i m b1 b2 n :
  Keeps program_id (check_reserve_source i m b1 b2 n).
Proof. unfold check_reserve_source. solve_keeps. Qed.

Lemma withdraw_stake_step accts t m i w u w' P p :
  is_withdrawal i = true -> is_uint 64 t -> holds_pool program_id P p w -> pool_is_valid p = true ->
  process_withdraw_stake program_id accts t m w = Ok (u, w') -> pool_evolves program_id accts i P p w'.
Proof.
  intros Hi Ht Hp Hv Hx. unfold process_withdraw_stake in Hx. inv_handler Hx.
  rename select (withdraw_stake_checks _ _ _ _ _ _ _ _ _ _ = _) into Hck.
  apply withdraw_stake_checks_Ok in Hck as [-> Hl].
  rename select (open_validator_list _ _ = _) into Hop.
  pose proof (open_list_not_pool _ _ _ _ _ _ Hp Hv Hop) as Hne. track_pool.
  rename select (withdrawal_amounts _ _ _ _ _ = _) into Ha.
  pose proof (load_typed _ _ _ Hl) as Hty.
  apply withdrawal_burnt_bounds in Ha as Hb; [|apply (pt_stake_withdrawal_fee _ Hty)|done].
  apply withdrawal_amounts_Ok in Ha as (_ & _ & _ & Hcalc & _).
  pose proof (calc_lamports_withdraw_amount_mul _ _ _ Hty Hb Hcalc) as [Hl0 _].
  rename select (withdraw_stake_source _ _ _ _ _ _ _ = _) into Hsrc.
  eapply withdraw_stake_source_Ok in Hsrc as (-> & Hpr & Hn); [|eassumption|lia]. track_pool.
  rename select (record_withdrawal _ _ _ = _) into Hrec.
  apply record_withdrawal_Ok in Hrec as (-> & H1 & H2).
  pose proof (preferred_reset_totals _ _ Hpr) as [Ht1 Ht2].
  eapply evolves_keeps; [exact Hx|apply _|].
  eapply evolves_at; [eassumption| |].
  { destruct o as [[[??]?]|]; [|apply keeps_at_keeps, _].
    apply keeps_at_bind; [apply keeps_at_keeps, _|intros]. by apply keeps_at_assign. }
  eapply evolves_loaded; [done|exact Hp|exact Hl|eassumption| | |eassumption].
  - apply after_withdraw_typed; [by eapply preferred_reset_typed|lia|]. unfold is_uint in *. lia.
  - eapply StepWithdraw; [done|exact Hb|exact Hcalc|lia|lia|lia|done].
Qed.
End UserSteps.
