(* ===== verification/StakerSteps.v ===== *)
(** * Handlers of the staker, epoch updates and initialisation are steps

    One lemma per handler: a pool in any account takes a step of [pool_step] or is
    left alone. *)

From S2P Require Import Prelude Errors Fees Pool BigVec Borsh ValidatorList Runtime Platform.
From S2P Require Import Checks Admin Tracking Deposit Withdraw Validators Update Init Instruction.
From S2P Require Import Process Spec.

Section StakerSteps.
Context {R : Runtime} {program_id : Pubkey} {L : RuntimeLaws R program_id}.

Lemma staker_checks_Ok i1 i2 i3 w v w' :
  staker_checks program_id i1 i2 i3 w = Ok (v, w') ->
  w' = w /\ load StakePool i1 w = Ok v /\ key i2 = staker v /\ is_signer i2 = true.
Proof.
  intros Hx. unfold staker_checks in Hx. inv_handler Hx.
  rename select (check_staker _ _ = _) into Hm. by apply check_staker_Ok in Hm as [Hm Hms].
Qed.

#[export] Instance keeps_staker_checks i1 i2 i3 : Keeps program_id (staker_checks program_id i1 i2 i3).
Proof. unfold staker_checks. solve_keeps. Qed.
#[export] Instance keeps_add_validator_funds i r : Keeps program_id (add_validator_funds i r).
Proof. unfold add_validator_funds. solve_keeps. Qed.
#[export] Instance keeps_find_entry l k : Keeps program_id (find_entry l k).
Proof. unfold find_entry. solve_keeps. Qed.
#[export] Instance keeps_remove_transient i1 i2 i3 i4 p : Keeps program_id (remove_transient i1 i2 i3 i4 p).
Proof. unfold remove_transient. solve_keeps. Qed.
#[export] Instance keeps_removal_status i1 i2 i3 i4 p v k :
  Keeps program_id (removal_status program_id i1 i2 i3 i4 p v k).
Proof. unfold removal_status. solve_keeps. Qed.
#[export] Instance keeps_check_transient_in_use v m s c : Keeps program_id (check_transient_in_use v m s c).
Proof. unfold check_transient_in_use. solve_keeps. Qed.
#[export] Instance keeps_increase_amount i n r : Keeps program_id (increase_amount i n r).
Proof. unfold increase_amount. solve_keeps. Qed.
#[export] Instance keeps_increase_source i1 i2 i3 i4 i5 i6 i7 e b t :
  Keeps program_id (increase_source program_id i1 i2 i3 i4 i5 i6 i7 e b t).
Proof. unfold increase_source. solve_keeps. Qed.
#[export] Instance keeps_delegate_if_needed i1 i2 i3 i4 i5 i6 i7 b c :
  Keeps program_id (delegate_if_needed i1 i2 i3 i4 i5 i6 i7 b c).
Proof. unfold delegate_if_needed. solve_keeps. Qed.
#[export] Instance keeps_increase_transient i1 i2 i3 i4 i5 i6 i7 i8 b c v s1 s2 t :
  Keeps program_id (increase_transient i1 i2 i3 i4 i5 i6 i7 i8 b c v s1 s2 t).
Proof. unfold increase_transient. solve_keeps. Qed.
#[export] Instance keeps_check_decrease_amount i m n : Keeps program_id (check_decrease_amount i m n).
Proof. unfold check_decrease_amount. solve_keeps. Qed.
#[export] Instance keeps_fund_ephemeral i1 i2 i3 i4 o1 o2 b r :
  Keeps program_id (fund_ephemeral i1 i2 i3 i4 o1 o2 b r).
Proof. unfold fund_ephemeral. solve_keeps. Qed.
#[export] Instance keeps_decrease_source i1 i2 i3 i4 o1 o2 e b r n :
  Keeps program_id (decrease_source program_id i1 i2 i3 i4 o1 o2 e b r n).
Proof. unfold decrease_source. solve_keeps. Qed.
#[export] Instance keeps_fund_transient i1 i2 i3 i4 i5 o1 o2 b r n :
  Keeps program_id (fund_transient i1 i2 i3 i4 i5 o1 o2 b r n).
Proof. unfold fund_transient. solve_keeps. Qed.
#[export] Instance keeps_decrease_transient i1 i2 i3 i4 i5 o1 o2 b r v k s1 s2 n :
  Keeps program_id (decrease_transient i1 i2 i3 i4 i5 o1 o2 b r v k s1 s2 n).
Proof. unfold decrease_transient. solve_keeps. Qed.

(** *** Adding and removing validators *)

Lemma keeps_at_push P info v : key info <> P -> KeepsAt program_id P (push_entry info v).
Proof.
  intros Hk p w a w' Hp Hm. unfold push_entry in Hm.
  destruct (vec_push _ _) as [d r]. inv_run Hm. by eapply write_data_holds.
Qed.

Lemma add_validator_step accts s w u w' P p :
  holds_pool program_id P p w -> pool_is_valid p = true ->
  process_add_validator_to_pool program_id accts s w = Ok (u, w') ->
  pool_evolves program_id accts (AddValidatorToPool s) P p w'.
Proof.
  intros Hp Hv Hx. unfold process_add_validator_to_pool in Hx. inv_handler Hx.
  rename select (staker_checks _ _ _ _ _ = _) into Hck. apply staker_checks_Ok in Hck as (-> & Hl & _).
  rename select (open_validator_list _ _ = _) into Hop.
  pose proof (open_list_not_pool _ _ _ _ _ _ Hp Hv Hop) as Hne. track_pool.
  eapply evolves_keeps; [exact Hx|apply _|].
  eapply evolves_at; [eassumption|by apply keeps_at_push|]. by apply evolves_same.
Qed.

Lemma remove_validator_step accts w u w' P p :
  holds_pool program_id P p w -> pool_is_valid p = true ->
  process_remove_validator_from_pool program_id accts w = Ok (u, w') ->
  pool_evolves program_id accts RemoveValidatorFromPool P p w'.
Proof.
  intros Hp Hv Hx. unfold process_remove_validator_from_pool in Hx. inv_handler Hx.
  rename select (staker_checks _ _ _ _ _ = _) into Hck.
  apply staker_checks_Ok in Hck as (-> & Hl & Hst & Hsg).
  rename select (open_validator_list _ _ = _) into Hop.
  pose proof (open_list_not_pool _ _ _ _ _ _ Hp Hv Hop) as Hne. track_pool.
  rename select (assign_entry _ _ _ _ = _) into Has. rename select (store _ _ _ = _) into Hsto.
  eapply evolves_keeps; [exact Hx|apply _|].
  eapply evolves_loaded; [done|exact Hp|exact Hl| | | |exact Hsto].
  - eapply keeps_at_assign; [exact Hne| |exact Has]. eassumption.
  - eapply preferred_reset_typed; [apply reset_preferred_reset|by eapply load_typed].
  - apply StepRemoveValidator; [|apply reset_preferred_reset].
    rewrite <- Hst. apply signed_in; [set_solver|done].
Qed.

(** *** Moving stake *)

(** A handler that opens the list of the pool and writes one entry of it. *)
Ltac list_only Hp Hv Hx :=
  match goal with Hop : open_validator_list _ ?w1 = Ok _ |- _ =>
    match goal with H : staker_checks _ _ _ _ _ = Ok _ |- _ => apply staker_checks_Ok in H as (-> & _) end;
    pose proof (open_list_not_pool _ _ _ _ _ _ Hp Hv Hop); track_pool
  end;
  eapply evolves_keeps; [exact Hx|apply _|];
  eapply evolves_at; [eassumption|by apply keeps_at_assign|]; by apply evolves_same.

Lemma increase_step accts n s e i w u w' P p :
  holds_pool program_id P p w -> pool_is_valid p = true ->
  process_increase_validator_stake program_id accts n s e w = Ok (u, w') ->
  pool_evolves program_id accts i P p w'.
Proof.
  intros Hp Hv Hx. unfold process_increase_validator_stake in Hx. inv_run Hx; list_only Hp Hv Hx.
Qed.

Lemma decrease_step accts n s e b i w u w' P p :
  holds_pool program_id P p w -> pool_is_valid p = true ->
  process_decrease_validator_stake program_id accts n s e b w = Ok (u, w') ->
  pool_evolves program_id accts i P p w'.
Proof.
  intros Hp Hv Hx. unfold process_decrease_validator_stake in Hx. inv_run Hx; list_only Hp Hv Hx.
Qed.

(** *** Epoch updates *)

#[export] Instance keeps_merge_into c s d : Keeps program_id (merge_into c s d).
Proof. unfold merge_into. solve_keeps. Qed.
#[export] Instance keeps_stake_state_ok i : Keeps program_id (stake_state_ok i).
Proof. unfold stake_state_ok. solve_keeps. Qed.
#[export] Instance keeps_merge_active_transient c i1 i2 o s :
  Keeps program_id (merge_active_transient c i1 i2 o s).
Proof. unfold merge_active_transient. solve_keeps. Qed.
#[export] Instance keeps_update_delegated_transient c i1 i2 o s b :
  Keeps program_id (update_delegated_transient c i1 i2 o s b).
Proof. unfold update_delegated_transient. solve_keeps. Qed.
#[export] Instance keeps_update_transient c i1 i2 o1 o2 v : Keeps program_id (update_transient c i1 i2 o1 o2 v).
Proof. unfold update_transient. solve_keeps. Qed.
#[export] Instance keeps_update_delegated_validator c i m s b :
  Keeps program_id (update_delegated_validator c i m s b).
Proof. unfold update_delegated_validator. solve_keeps. Qed.
#[export] Instance keeps_update_validator c i o b t : Keeps program_id (update_validator c i o b t).
Proof. unfold update_validator. solve_keeps. Qed.
#[export] Instance keeps_update_entry c v i1 i2 : Keeps program_id (update_entry program_id c v i1 i2).
Proof. unfold update_entry. solve_keeps. Qed.

Lemma keeps_at_update_loop P c info vs : forall o stakes,
  key info <> P -> KeepsAt program_id P (update_loop program_id c info o vs stakes).
Proof.
  induction vs as [|v vs IH]; intros o stakes Hk; [apply keeps_at_keeps, _|].
  destruct stakes as [|i1 [|i2 stakes]]; simpl; [apply keeps_at_keeps, _..|].
  apply keeps_at_bind; [apply keeps_at_keeps, _|intros v'].
  apply keeps_at_bind; [by apply keeps_at_assign|intros _]. by apply IH.
Qed.

Lemma update_list_step accts s b w u w' P p :
  holds_pool program_id P p w -> pool_is_valid p = true ->
  process_update_validator_list_balance program_id accts s b w = Ok (u, w') ->
  pool_evolves program_id accts (UpdateValidatorListBalance s b) P p w'.
Proof.
  intros Hp Hv Hx. unfold process_update_validator_list_balance in Hx. inv_handler Hx.
  rename select (deserialize_vec _ = _) into Hd. rename select (borrow_mut _ _ = _) into Hb.
  assert (key a1 <> P) as Hne.
  { unfold borrow_mut in Hb. case_bool_decide; [done|]. injection Hb as <- <-.
    eapply header_not_pool; [exact Hp|exact Hv| |exact Hd].
    rename select (negb (header_is_valid _) = false) into Hh.
    apply negb_false_iff, bool_decide_eq_true in Hh. by rewrite Hh. }
  track_pool. eapply evolves_keeps; [exact Hx|apply _|].
  eapply evolves_at; [eassumption|by apply keeps_at_update_loop|]. by apply evolves_same.
Qed.

Lemma check_preferred_Ok v l q : check_preferred v l = Ok q -> preferred_reset v q.
Proof.
  intros Hq. unfold check_preferred in Hq. apply bind_Ok in Hq as (v1 & H1 & H2).
  destruct v as [???????????????? d w ????????????]. cbn in H1.
  destruct d as [d|]; [apply bind_Ok in H1 as ([] & _ & [=<-])|injection H1 as <-]; cbn in H2;
    (destruct w as [w|]; [apply bind_Ok in H2 as ([] & _ & [=<-])|injection H2 as <-]);
    eexists _, _; (split; [by (left + right)|]); (split; [by (left + right)|done]).
Qed.

Lemma cleanup_step accts w u w' P p :
  holds_pool program_id P p w -> pool_is_valid p = true ->
  process_cleanup_removed_validator_entries program_id accts w = Ok (u, w') ->
  pool_evolves program_id accts CleanupRemovedValidatorEntries P p w'.
Proof.
  intros Hp Hv Hx. unfold process_cleanup_removed_validator_entries in Hx. inv_handler Hx.
  rename select (open_validator_list _ _ = _) into Hop.
  pose proof (open_list_not_pool _ _ _ _ _ _ Hp Hv Hop) as Hne. track_pool.
  rename select (write_data _ _ _ = _) into Hwr. rename select (when _ _ _ = _) into Hwh.
  eapply write_data_holds in Hwr as Hp1; [|exact Hne|eassumption].
  eapply evolves_keeps; [exact Hx|apply _|].
  apply when_Ok in Hwh as [[_ Hwh]|[_ ->]]; [|by apply evolves_same]. inv_run Hwh.
  rename select (check_preferred _ _ = _) into Hpr. apply check_preferred_Ok in Hpr.
  eapply evolves_loaded; [done|exact Hp1|eassumption|exact Hp1| |by apply StepCleanup|exact Hwh].
  eapply preferred_reset_typed; [exact Hpr|by eapply load_typed].
Qed.

(** *** The balance update *)

#[export] Instance keeps_reserve_excess i : Keeps program_id (reserve_excess i).
Proof. unfold reserve_excess. solve_keeps. Qed.

Lemma update_pool_checks_Ok i1 i2 i3 i4 i5 i6 i7 w v w' :
  update_pool_checks program_id i1 i2 i3 i4 i5 i6 i7 w = Ok (v, w') ->
  w' = w /\ load StakePool i1 w = Ok v.
Proof. intros Hx. unfold update_pool_checks in Hx. inv_handler Hx. done. Qed.

Lemma stake_lamports_Ok v n :
  stake_lamports v = Ok n ->
  n = uint_of_array (active_stake_lamports v) + uint_of_array (transient_stake_lamports v).
Proof.
  unfold stake_lamports. intros Hn. apply ok_or_Ok, checked_add_Some in Hn as [-> _]. done.
Qed.

Lemma sum_validators_typed e vs : forall t t',
  is_uint 64 t -> sum_validators e t vs = Ok t' -> is_uint 64 t'.
Proof.
  induction vs as [|v vs IH]; simpl; intros t t' Ht Hs; [by injection Hs as <-|].
  inv_ok Hs. eapply IH; [|exact Hs].
  rename select (stake_lamports _ = _) into Hn. apply stake_lamports_Ok in Hn as ->.
  rename select (calc _ = _) into Ha. apply calc_Ok, checked_add_Some in Ha as [-> Ha].
  pose proof (uint_of_array_range (active_stake_lamports v)).
  pose proof (uint_of_array_range (transient_stake_lamports v)).
  unfold is_uint in *. lia.
Qed.

Lemma reserve_excess_Ok i w n w' :
  reserve_excess i w = Ok (n, w') ->
  w' = w /\ exists meta, load_stake_state i w = Ok (StakeInitialized meta) /\
    n = lamports_of i w - minimum_reserve_lamports meta /\ minimum_reserve_lamports meta <= lamports_of i w.
Proof.
  intros Hx. unfold reserve_excess in Hx. inv_run Hx. destruct v; inv_run Hx; try done.
  apply calc_Ok, checked_sub_Some in Hx as [-> Hle]. eauto 6.
Qed.

Lemma load_stake_state_typed i w s : load_stake_state i w = Ok s -> stake_state_typed s.
Proof.
  intros Hl. unfold load_stake_state in Hl. apply bind_Ok in Hl as (d & _ & Hd).
  by eapply decode_stake_typed.
Qed.

Lemma reserve_excess_typed i w n w' :
  is_uint 64 (lamports_of i w) -> reserve_excess i w = Ok (n, w') -> is_uint 64 n.
Proof.
  intros Hl (_ & meta & Hm%load_stake_state_typed & -> & Hle)%reserve_excess_Ok. unfold is_uint in *.
  cbn in Hm. unfold meta_typed, minimum_reserve_lamports, MINIMUM_RESERVE_LAMPORTS, saturating_add in *.
  unfold is_uint in *. lia.
Qed.

Lemma future_default_ok {A} (P : A -> Prop) f d :
  P d -> future_forall P f -> P (default d (future_get f)).
Proof. destruct f; simpl; tauto. Qed.
Lemma update_epoch_ok {A} (P : A -> Prop) f : future_forall P f -> future_forall P (update_epoch f).
Proof. destruct f; simpl; tauto. Qed.

Lemma advance_epoch_typed p e l s :
  pool_typed p -> is_uint 64 e -> is_uint 64 l -> is_uint 64 s -> pool_typed (advance_epoch p e l s).
Proof.
  intros [] ? ? ?. unfold advance_epoch. destruct (_ <? _); [|by constructor].
  constructor; simpl; try done; (by apply future_default_ok) || by apply update_epoch_ok.
Qed.

#[export] Instance keeps_epoch_fee_tokens p i r : Keeps program_id (epoch_fee_tokens p i r).
Proof. unfold epoch_fee_tokens. solve_keeps. Qed.

Lemma update_pool_step accts w u w' P p :
  holds_pool program_id P p w -> pool_is_valid p = true ->
  process_update_stake_pool_balance program_id accts w = Ok (u, w') ->
  pool_evolves program_id accts UpdateStakePoolBalance P p w'.
Proof.
  intros Hp Hv Hx. unfold process_update_stake_pool_balance in Hx. inv_handler Hx.
  rename select (update_pool_checks _ _ _ _ _ _ _ _ _ = _) into Hck.
  apply update_pool_checks_Ok in Hck as [-> Hl]. track_pool.
  rename select (sum_validators _ _ _ = _) into Hsum. rename select (reserve_excess _ _ = _) into Hres.
  eapply sum_validators_typed in Hsum as Ht1; [|eapply reserve_excess_typed; [|exact Hres]; by eapply lamports_of_typed].
  rename select (unpack_mint _ = _) into Hm. apply unpack_mint_typed in Hm as Ht2.
  rename select (clock_get = _) into Hck. apply clock_typed in Hck as Ht3.
  pose proof (load_typed _ _ _ Hl) as Hty.
  eapply evolves_keeps; [exact Hx|apply _|]. eapply evolves_keeps; [eassumption|apply _|].
  eapply evolves_loaded; [done|exact Hp|exact Hl|eassumption| | |eassumption].
  - apply pool_typed_totals; [|done..].
    apply advance_epoch_typed; [done|done|apply (pt_total _ Hty)|apply (pt_supply _ Hty)].
  - by apply StepUpdate.
Qed.

(** *** Initialisation *)

(** A pool that exists cannot be initialised again, nor be used as a list. *)
Lemma init_accounts_Ok i1 i2 n w q l w' P p :
  holds_pool program_id P p w -> pool_is_valid p = true ->
  init_accounts program_id i1 i2 n w = Ok ((q, l), w') ->
  w' = w /\ key i1 <> P /\ key i2 <> P.
Proof.
  intros Hp Hv Hx. unfold init_accounts in Hx. inv_run Hx. split; [done|].
  rename select (load StakePool _ _ = _) into Hl1. rename select (load ValidatorList _ _ = _) into Hl2.
  rename select (negb (pool_is_uninitialized _) = false) into Hu1.
  rename select (negb (header_is_uninitialized _) = false) into Hu2.
  apply negb_false_iff, bool_decide_eq_true in Hu1, Hu2. apply bool_decide_eq_true in Hv.
  split; intros E.
  - rewrite (load_holds _ _ _ _ _ Hp Hl1 E) in Hu1. congruence.
  - unfold load, borrow in Hl2. case_bool_decide; [done|]. apply bind_Ok in Hl2 as (d & [=<-] & Hl2).
    apply try_from_slice_unchecked_Ok in Hl2 as [_ [r2 Hl2]].
    destruct Hp as (_ & a & Ha & _ & Hp). apply try_from_slice_unchecked_Ok in Hp as [_ [r1 Hp]].
    unfold account in Hl2. rewrite E, Ha in Hl2. simpl in Hl2. rewrite Hp in Hl2.
    cbn in Hl2. by rewrite Hv, Hu2 in Hl2.
Qed.

#[export] Instance keeps_init_accounts i1 i2 n : Keeps program_id (init_accounts program_id i1 i2 n).
Proof. unfold init_accounts. solve_keeps. Qed.
#[export] Instance keeps_init_rent_and_fees i1 i2 r f1 f2 f3 n :
  Keeps program_id (init_rent_and_fees i1 i2 r f1 f2 f3 n).
Proof. unfold init_rent_and_fees. solve_keeps. Qed.
#[export] Instance keeps_check_init_mint i k : Keeps program_id (check_init_mint i k).
Proof. unfold check_init_mint. solve_keeps. Qed.
#[export] Instance keeps_check_init_reserve i k : Keeps program_id (check_init_reserve i k).
Proof. unfold check_init_reserve. solve_keeps. Qed.

Lemma initialize_step accts f1 f2 f3 n1 n2 w u w' P p :
  holds_pool program_id P p w -> pool_is_valid p = true ->
  process_initialize program_id accts f1 f2 f3 n1 n2 w = Ok (u, w') ->
  pool_evolves program_id accts (Initialize f1 f2 f3 n1 n2) P p w'.
Proof.
  intros Hp Hv Hx. unfold process_initialize in Hx. inv_run Hx.
  rename select (init_accounts _ _ _ _ _ = _) into Hi.
  apply (init_accounts_Ok _ _ _ _ _ _ _ _ _ Hp Hv) in Hi as (-> & Hk1 & Hk2). track_pool.
  rename select (store (T:=ValidatorList) _ _ _ = _) into Hst.
  eapply store_other_holds in Hst; [|exact Hk2|eassumption].
  apply evolves_same. eapply store_other_holds in Hx; [exact Hx|exact Hk1|exact Hst].
Qed.
End StakerSteps.
