(* ===== verification/Contracts.v ===== *)
(** * What passing the checks of a handler says

    The inversion lemmas of the account checks, and the predicates the
    correctness theorems of the handlers state them with. *)

From S2P Require Import Prelude Errors Fees Pool BigVec Borsh ValidatorList Runtime Platform Checks.
From S2P Require Import Scenario Admin Tracking Deposit Withdraw Validators Update Init Instruction Process.
From S2P Require Import Trace Spec.

Section Contracts.
Context {R : Runtime}.
Variable program_id : Pubkey.

(** The account [info] is a pool of the program, it holds [p], and [p] is up to
    date at [clock]. *)
Record current_pool (info : AccountInfo) (p : StakePool) (clock : Clock) (w : World) : Prop := {
  cp_pool : pool_at w (key info) = Ok p;
  cp_owner : owner_of info w = program_id;
  cp_valid : pool_is_valid p = true;
  cp_epoch : epoch clock <= last_update_epoch p;
}.

(** An optional authority is honoured: if it is set, it is the account passed,
    and that account signed. *)
Definition authorised (authority : option Pubkey) (passed : list AccountInfo) : Prop :=
  forall a, authority = Some a -> exists i rest, passed = i :: rest /\ key i = a /\ is_signer i = true.

Lemma check_sol_deposit_authority_Ok p it u :
  check_sol_deposit_authority p (fst <$> next_account_info it) = Ok u ->
  authorised (sol_deposit_authority p) it.
Proof.
  unfold check_sol_deposit_authority. intros Hc a Ha. rewrite Ha in Hc.
  destruct it as [|i it]; simpl in Hc; [done|]. inv_ok Hc. bool_props. eauto.
Qed.

Lemma check_sol_withdraw_authority_Ok p it u :
  check_sol_withdraw_authority p (fst <$> next_account_info it) = Ok u ->
  authorised (sol_withdraw_authority p) it.
Proof.
  unfold check_sol_withdraw_authority. intros Hc a Ha. rewrite Ha in Hc.
  destruct it as [|i it]; simpl in Hc; [done|]. inv_ok Hc. bool_props. eauto.
Qed.

Lemma check_reserve_stake_Ok p i u : check_reserve_stake p i = Ok u -> key i = reserve_stake p.
Proof. unfold check_reserve_stake. destruct (negb _) eqn:E; [done|]. by bool_props. Qed.
Lemma check_validator_list_Ok p i u : check_validator_list p i = Ok u -> key i = validator_list p.
Proof. unfold check_validator_list. destruct (negb _) eqn:E; [done|]. by bool_props. Qed.
Lemma check_mint_Ok p i w d : check_mint p i w = Ok d -> key i = pool_mint p.
Proof. unfold check_mint. destruct (negb _) eqn:E; [done|]. by bool_props. Qed.
Lemma check_authority_withdraw_Ok p k pool u :
  check_authority_withdraw p k program_id pool = Ok u ->
  create_program_address [pk_bytes pool; AUTHORITY_WITHDRAW; bump (stake_withdraw_bump_seed p)] program_id
    = Ok k.
Proof.
  unfold check_authority_withdraw, check_program_derived_authority. intros Hc.
  apply bind_Ok in Hc as (e & He & Hc). destruct (k =?ₖ e) eqn:E; [|done]. bool_props. by subst.
Qed.
Lemma check_stake_deposit_authority_Ok p k u :
  check_stake_deposit_authority p k = Ok u -> k = stake_deposit_authority p.
Proof. unfold check_stake_deposit_authority. destruct (_ =?ₖ _) eqn:E; [|done]. by bool_props. Qed.

Lemma check_validator_stake_address_Ok pool k vote seed u :
  check_validator_stake_address program_id pool k vote seed = Ok u ->
  k = fst (find_stake_program_address program_id vote pool seed).
Proof.
  unfold check_validator_stake_address. destruct (find_stake_program_address _ _ _ _) as [a b].
  destruct (negb _) eqn:E; [done|]. by bool_props.
Qed.
Lemma check_transient_stake_address_Ok pool k vote seed b :
  check_transient_stake_address program_id pool k vote seed = Ok b ->
  (k, b) = find_transient_stake_program_address program_id vote pool seed.
Proof.
  unfold check_transient_stake_address.
  destruct (find_transient_stake_program_address _ _ _ _) as [a c].
  destruct (negb _) eqn:E; [done|]. intros [=<-]. bool_props. by subst.
Qed.
Lemma check_ephemeral_stake_address_Ok pool k seed b :
  check_ephemeral_stake_address program_id pool k seed = Ok b ->
  (k, b) = find_ephemeral_stake_program_address program_id pool seed.
Proof.
  unfold check_ephemeral_stake_address.
  destruct (find_ephemeral_stake_program_address _ _ _) as [a c].
  destruct (negb _) eqn:E; [done|]. intros [=<-]. bool_props. by subst.
Qed.
Lemma check_account_owner_Ok i k w u : check_account_owner i k w = Ok u -> owner_of i w = k.
Proof. unfold check_account_owner. intros Hc%err_if_Ok. by bool_props. Qed.
End Contracts.

(** ** The validator list of a pool *)
Section Lists.
Context {R : Runtime} {program_id : Pubkey}.

(** The account [k] of the program holds the list [vl]. *)
Definition holds_list (k : Pubkey) (vl : ValidatorList) (w : World) : Prop :=
  exists d, holds_data program_id k d w /\ list_rep vl d.

(** The list [vl] with its entry [i] replaced. *)
Definition with_entry (vl : ValidatorList) (i : nat) (v : ValidatorStakeInfo) : ValidatorList :=
  mkValidatorList (header vl) (<[i := v]> (validators vl)).

(** The place of an entry in the vector. *)
Definition entry_offset (i : nat) : nat := VEC_SIZE_BYTES + i * VSI_LEN.

Lemma holds_list_keeps {A} (m : M A) `{!Keeps program_id m} k vl w a w' :
  holds_list k vl w -> m w = Ok (a, w') -> holds_list k vl w'.
Proof. intros (d & Hd & Hr) Hm. exists d. split; [by eapply keeps_data|done]. Qed.

Lemma holds_list_account k vl w : holds_list k vl w -> list_rep vl (acc_data (account w k)).
Proof. intros (d & (_ & a & Ha & _ & Hd) & Hr). unfold account. rewrite Ha. simpl. by rewrite Hd. Qed.

Lemma open_list_spec info vl w h v w' :
  holds_list (key info) vl w -> open_validator_list info w = Ok ((h, v), w') ->
  h = header vl /\ vec_rep (validators vl) v /\ vl_account_type h = ValidatorListType.
Proof.
  intros Hl%holds_list_account (_ & _ & _ & _ & _ & Hd & Ht)%open_validator_list_Ok.
  apply deserialize_vec_rep in Hl as (v' & Hv & _ & Hr). rewrite Hv in Hd. by injection Hd as <- <-.
Qed.

(** What is read while the list is open could be read before. *)
Lemma get_stake_state_open info i w h v w' r :
  open_validator_list info w = Ok ((h, v), w') -> get_stake_state i w' = Ok r -> get_stake_state i w = Ok r.
Proof.
  intros (Ha & _ & _ & Hb & _ & _)%open_validator_list_Ok. unfold get_stake_state, load_stake_state, borrow, account.
  rewrite Ha, Hb. do 2 case_bool_decide; try done. set_solver.
Qed.
(** The list that was opened is not the account of the pool. *)
Lemma open_list_ne info k p w h v w' :
  pool_at w k = Ok p -> pool_is_valid p = true -> open_validator_list info w = Ok ((h, v), w') ->
  key info <> k.
Proof.
  intros Hp Hv (_ & _ & _ & _ & _ & Hd & Ht)%open_validator_list_Ok <-. unfold deserialize_vec in Hd.
  apply bind_Ok in Hd as (h' & Hd & [=-> _]).
  apply try_from_slice_unchecked_Ok in Hd as [_ [r2 Hd]].
  apply try_from_slice_unchecked_Ok in Hp as [_ [r1 Hp]]. apply bool_decide_eq_true in Hv.
  eapply pool_list_tags; [exact Hv| |exact Hp|exact Hd]. by rewrite Ht.
Qed.
Lemma lamports_open info i w h v w' :
  open_validator_list info w = Ok ((h, v), w') -> lamports_of i w' = lamports_of i w.
Proof. intros (Ha & _)%open_validator_list_Ok. unfold lamports_of, account. by rewrite Ha. Qed.
Lemma holds_list_lamports k vl w i : holds_list k vl w -> is_uint 64 (lamports_of i w).
Proof.
  intros (d & ([_ Ht] & _) & _). by apply typed_lamports.
Qed.

(** The entry found for a vote account is the first one with that address. *)
Definition entry_at (vl : ValidatorList) (k : Pubkey) (i : nat) (v : ValidatorStakeInfo) : Prop :=
  validators vl !! i = Some v /\ vote_account_address v = k /\ vl_find vl k = Some v.

Lemma find_mut_spec vl d k off v :
  vec_rep (validators vl) d -> vec_find_mut (memcmp_pubkey k) d = Ok (Some (off, v)) ->
  exists i, off = entry_offset i /\ entry_at vl k i v.
Proof.
  intros Hr Hf. rewrite (vec_find_mut_rep _ _ _ _ Hr (memcmp_pubkey_decides k)) in Hf.
  injection Hf as Hf. apply fmap_Some in Hf as ([i x] & Hf & [=-> ->]).
  exists i. split; [done|]. pose proof Hf as (Hi & Hx & _)%list_find_Some.
  split; [done|]. split; [by apply pubkey_eqb_true|].
  unfold vl_find.
  rewrite <- (list_find_bool (fun v => vote_account_address v =?ₖ k)) by (intros; apply pubkey_eqb_true).
  by rewrite Hf.
Qed.

(** Searching the list for an entry with a property. *)
Lemma find_some_spec predicate (P : ValidatorStakeInfo -> bool) vl d o :
  vec_rep (validators vl) d -> decides predicate P -> vec_find predicate d = Ok o ->
  bool_decide (is_Some o) = existsb P (validators vl).
Proof.
  intros Hr Hd Hf. rewrite (vec_find_list_find _ _ _ _ Hr Hd) in Hf. injection Hf as <-.
  apply Bool.eq_iff_eq_true. rewrite bool_decide_eq_true, fmap_is_Some, existsb_exists. split.
  - intros [[i x] (Hi & Hx & _)%list_find_Some]. exists x. split; [|done].
    apply list_elem_of_In. by eapply list_elem_of_lookup_2.
  - intros (x & Hx%list_elem_of_In & HP). by eapply list_find_elem_of.
Qed.

(** Assigning through the reference replaces that entry. *)
Lemma assign_entry_spec info vl i v v' w u w' :
  holds_list (key info) vl w -> validators vl !! i = Some v ->
  assign_entry info (entry_offset i) v' w = Ok (u, w') ->
  holds_list (key info) (with_entry vl i v') w'.
Proof.
  intros (d & Hd & (bv & Hdv & Hh & Hr)) Hi Hx. unfold assign_entry, write_data in Hx. injection Hx as _ <-.
  assert (E : acc_data (account w (key info)) = d).
  { destruct Hd as (_ & a & Ha & _ & Hd). unfold account. by rewrite Ha. }
  rewrite E. eexists. split; [|].
  - pose proof (put_data_holds_data _ _ (key info) (vec_assign (HEADER_LEN + entry_offset i) v' d) w Hd) as Hp.
    by rewrite decide_True in Hp.
  - exists (vec_assign (entry_offset i) v' bv). cbn [header with_entry validators].
    split; [|split; [done|exact (vec_assign_rep _ _ _ _ _ Hr Hi)]].
    rewrite Hdv. unfold vec_assign. rewrite <- (length_header (header vl)). apply splice_skip.
Qed.

(** Writing a new vector behind the header. *)
Lemma write_vec_spec info vl vs d w u w' :
  holds_list (key info) vl w -> vec_rep vs d ->
  write_data info (borsh_ser (header vl) ++ d) w = Ok (u, w') ->
  holds_list (key info) (mkValidatorList (header vl) vs) w'.
Proof.
  intros (d0 & Hd & (bv & _ & Hh & _)) Hr [=_ <-]. eexists. split.
  - pose proof (put_data_holds_data _ _ (key info) (borsh_ser (header vl) ++ d) w Hd) as Hp.
    by rewrite decide_True in Hp.
  - exists d. done.
Qed.

Lemma get_stake_state_typed `{!RuntimeLaws R program_id} i w m s :
  get_stake_state i w = Ok (m, s) -> is_uint 64 (delegation_stake (delegation s)).
Proof.
  unfold get_stake_state, load_stake_state. intros Hx. apply bind_Ok in Hx as (st & Hx & Hst).
  apply bind_Ok in Hx as (d & _ & Hd). apply decode_stake_typed in Hd.
  destruct st; try done. injection Hst as -> ->. apply Hd.
Qed.

(** Storing a value elsewhere leaves the list alone. *)
Lemma store_keeps_list {T} `{Borsh T} info (x : T) k vl w u w' :
  key info <> k -> holds_list k vl w -> store info x w = Ok (u, w') -> holds_list k vl w'.
Proof.
  intros Hk (d & Hd & Hr) (_ & d' & _ & ->)%store_Ok. exists d. split; [|done].
  pose proof (put_data_holds_data _ _ (key info) d' w Hd) as Hp. by rewrite decide_False in Hp.
Qed.

(** What was stored is read back, also after a store elsewhere. *)
Lemma store_read {T} `{Borsh T} info (x : T) w u w' :
  borsh_typed x -> store info x w = Ok (u, w') ->
  try_from_slice_unchecked (acc_data (account w' (key info))) = Ok x.
Proof.
  intros Hx (_ & d & Hd & ->)%store_Ok. rewrite account_put_data. by eapply to_writer_read.
Qed.
Lemma store_data_ne {T} `{Borsh T} info (x : T) w u w' k :
  key info <> k -> store info x w = Ok (u, w') -> acc_data (account w' k) = acc_data (account w k).
Proof. intros Hk (_ & d & _ & ->)%store_Ok. by rewrite account_put_data_ne. Qed.

(** Neither writing data nor changing borrows moves lamports. *)
Lemma lamports_put_data info k d w : lamports_of info (put_data k d w) = lamports_of info w.
Proof.
  unfold lamports_of. destruct (decide (k = key info)) as [->|Hk].
  - by rewrite account_put_data.
  - by rewrite account_put_data_ne.
Qed.
Lemma lamports_store {T} `{Borsh T} i info (x : T) w u w' :
  store info x w = Ok (u, w') -> lamports_of i w' = lamports_of i w.
Proof. intros (_ & d & _ & ->)%store_Ok. apply lamports_put_data. Qed.
Lemma lamports_assign i info o v w u w' :
  assign_entry info o v w = Ok (u, w') -> lamports_of i w' = lamports_of i w.
Proof. unfold assign_entry, write_data. intros [=_ <-]. apply lamports_put_data. Qed.
Lemma lamports_drop i info w u w' :
  drop_borrow_mut info w = Ok (u, w') -> lamports_of i w' = lamports_of i w.
Proof. by intros [=_ <-]. Qed.

(** The pool survives writes to the list. *)
Lemma pool_at_assign info o v w u w' k :
  key info <> k -> assign_entry info o v w = Ok (u, w') -> pool_at w' k = pool_at w k.
Proof.
  unfold assign_entry, write_data. intros Hk [=_ <-]. unfold pool_at. by rewrite account_put_data_ne.
Qed.
Lemma pool_at_write info d w u w' k :
  key info <> k -> write_data info d w = Ok (u, w') -> pool_at w' k = pool_at w k.
Proof. intros Hk [=_ <-]. unfold pool_at. by rewrite account_put_data_ne. Qed.
Lemma pool_at_open info w h v w' k :
  open_validator_list info w = Ok ((h, v), w') -> pool_at w' k = pool_at w k.
Proof. intros (Ha & _)%open_validator_list_Ok. unfold pool_at, account. by rewrite Ha. Qed.
Lemma pool_at_drop info w u w' k : drop_borrow_mut info w = Ok (u, w') -> pool_at w' k = pool_at w k.
Proof. by intros [=_ <-]. Qed.
Lemma pool_at_drop_shared info w u w' k : drop_borrow info w = Ok (u, w') -> pool_at w' k = pool_at w k.
Proof. by intros [=_ <-]. Qed.
End Lists.
Arguments holds_list program_id : clear implicits.

(** Follow a list through the steps that keep it. *)
Ltac track_list :=
  repeat match goal with
  | Hp : holds_list ?pid ?k ?vl ?w, H : ?m ?w = Ok (?a, ?w') |- _ =>
      lazymatch goal with
      | _ : holds_list pid k vl w' |- _ => fail
      | _ =>
          let Hn := fresh "Hvl" in
          assert (Hn : holds_list pid k vl w')
            by (refine (holds_list_keeps (Keeps0:=_) m k vl w a w' Hp H); solve_keeps)
      end
  end.

#[export] Hint Resolve check_sol_deposit_authority_Ok check_sol_withdraw_authority_Ok
  check_reserve_stake_Ok check_validator_list_Ok check_mint_Ok check_authority_withdraw_Ok
  check_stake_deposit_authority_Ok check_validator_stake_address_Ok check_account_owner_Ok : contracts.

(** The concrete pool and its list. *)
Section Fixture.
Import Demo Scenario.

Lemma holds_data_intro k d w :
  running_program w = program ->
  forallb (fun kv => (0 <=? acc_lamports kv.2) && (acc_lamports kv.2 <? 2 ^ 64)) (map_to_list (accounts w)) = true ->
  (a ← accounts w !! k; if acc_owner a =?ₖ program then Some (acc_data a) else None) = Some d ->
  holds_data program k d w.
Proof.
  intros Hr Hl Ha. split; [split; [done|by apply lamports_typed_check]|].
  apply bind_Some in Ha as (a & Ha & Hd). destruct (_ =?ₖ _) eqn:E; [|done]. bool_props.
  injection Hd as <-. eauto.
Qed.

Lemma holds_list_intro k vl d w :
  holds_data program k d w -> Z.of_nat (length d) < 2 ^ 63 -> try_from_slice_unchecked d = Ok vl ->
  holds_list program k vl w.
Proof. intros Hd Hl Ht. exists d. split; [done|]. by apply list_rep_decode. Qed.

Lemma world_holds_pool : holds_pool program pool_key pool world.
Proof.
  apply holds_pool_data. eexists. split; [|]; [apply holds_data_intro; vm_compute; reflexivity|].
  vm_compute. reflexivity.
Qed.

Lemma world_holds_list : holds_list program list_key vlist world.
Proof.
  eapply holds_list_intro; [apply holds_data_intro; vm_compute; reflexivity|vm_compute; reflexivity..].
Qed.
End Fixture.
