(* ===== verification/Refinement.v ===== *)
(** * The processor implements the specification

    Every successful run of [process] is a step of [pool_step] for the pool
    account it was given, and leaves every other pool of the program alone.
    Invariants and safety properties of sequences of transactions follow by rule
    induction. *)

From S2P Require Import Prelude Errors Fees Pool BigVec Borsh ValidatorList Runtime Platform.
From S2P Require Import Checks Scenario Admin Tracking Deposit Withdraw Validators Update Init.
From S2P Require Import Instruction Process Spec UserSteps StakerSteps Contracts.

(** ** Sequences of transactions *)

(** What the transactions of other programs may do: credit and debit lamports,
    change their own accounts, but not the data or the owner of an account of
    this program. *)
Definition foreign (program_id : Pubkey) (w w' : World) : Prop :=
  running_program w' = running_program w /\
  (lamports_typed (accounts w) -> lamports_typed (accounts w')) /\
  forall k a, accounts w !! k = Some a -> acc_owner a = program_id ->
    exists a', accounts w' !! k = Some a' /\ acc_data a' = acc_data a /\ acc_owner a' = program_id.

(** An instruction starts without outstanding borrows. *)
Definition fresh_instruction (w : World) : World :=
  w <| borrowed_mut := [] |> <| borrowed_shared := [] |>.

(** Instructions of this program that satisfy [ok], and transactions of other
    programs, in any order. *)
Inductive runs {R : Runtime} (program_id : Pubkey)
    (ok : list AccountInfo -> StakePoolInstruction -> Prop) : World -> World -> Prop :=
| runs_done w : runs program_id ok w w
| runs_process w w1 w2 accts input i u :
    try_from_slice input = Ok i -> ok accts i ->
    process program_id accts input (fresh_instruction w) = Ok (u, w1) ->
    runs program_id ok w1 w2 -> runs program_id ok w w2
| runs_foreign w w1 w2 :
    foreign program_id w w1 -> runs program_id ok w1 w2 -> runs program_id ok w w2.

(** ** What a step preserves *)

(** The fields fixed when the pool is created. *)
Definition same_config (p q : StakePool) : Prop :=
  account_type q = account_type p /\ validator_list q = validator_list p /\
  reserve_stake q = reserve_stake p /\ pool_mint q = pool_mint p /\
  token_program_id q = token_program_id p /\
  stake_withdraw_bump_seed q = stake_withdraw_bump_seed p /\ lockup q = lockup p.

(** A fee and its pending change, before ([f], [nf]) and after ([g], [ng]) some
    epochs in which nothing new was scheduled. *)
Definition scheduled (f g : Fee) (nf ng : FutureEpoch Fee) : Prop :=
  (g = f \/ future_into_option nf = Some g) /\
  (future_into_option ng = None \/ future_into_option ng = future_into_option nf).

(** What needs the manager's signature. *)
Definition manager_fields (p q : StakePool) : Prop :=
  manager q = manager p /\ manager_fee_account q = manager_fee_account p /\
  stake_deposit_authority q = stake_deposit_authority p /\
  sol_deposit_authority q = sol_deposit_authority p /\
  sol_withdraw_authority q = sol_withdraw_authority p /\
  stake_deposit_fee q = stake_deposit_fee p /\ sol_deposit_fee q = sol_deposit_fee p /\
  stake_referral_fee q = stake_referral_fee p /\ sol_referral_fee q = sol_referral_fee p /\
  scheduled (epoch_fee p) (epoch_fee q) (next_epoch_fee p) (next_epoch_fee q) /\
  scheduled (stake_withdrawal_fee p) (stake_withdrawal_fee q)
    (next_stake_withdrawal_fee p) (next_stake_withdrawal_fee q) /\
  scheduled (sol_withdrawal_fee p) (sol_withdrawal_fee q)
    (next_sol_withdrawal_fee p) (next_sol_withdrawal_fee q).

Lemma scheduled_refl f nf : scheduled f f nf nf.
Proof. split; auto. Qed.
Lemma scheduled_trans f g h nf ng nh :
  scheduled f g nf ng -> scheduled g h ng nh -> scheduled f h nf nh.
Proof. unfold scheduled. intuition congruence. Qed.
Lemma scheduled_epoch f nf : scheduled f (default f (future_get nf)) nf (update_epoch nf).
Proof. destruct nf; split; simpl; auto. Qed.

Section Steps.
Variable auth : Pubkey -> Prop.

(** Case analysis on a step, with [update_fee] and preferred resets unfolded. *)
Ltac step_cases Hs :=
  inversion Hs; subst;
  repeat match goal with
  | H : preferred_reset _ _ |- _ => destruct H as (? & ? & ? & ? & ->)
  | H : update_fee _ ?ft = Ok _ |- _ => destruct ft; simpl in H; inv_ok H
  end; unfold advance_epoch in *; repeat case_match; simpl in *.

Lemma step_config i p q : pool_step auth i p q -> same_config p q.
Proof. intros Hs. by step_cases Hs. Qed.

Lemma step_fees_valid i p q : pool_step auth i p q -> pool_fees_valid p -> pool_fees_valid q.
Proof.
  intros Hs Hv. inversion Hs; subst; try (by destruct Hv; constructor).
  - by eapply update_fee_fees_valid.
  - rename select (preferred_reset _ _) into Hr. destruct Hr as (?&?&_&_&->). by destruct Hv; constructor.
  - rename select (preferred_reset _ _) into Hr. destruct Hr as (?&?&_&_&->). by destruct Hv; constructor.
  - rename select (preferred_reset _ _) into Hr. destruct Hr as (?&?&_&_&->). by destruct Hv; constructor.
  - destruct Hv. unfold advance_epoch. destruct (_ <? _); constructor; simpl; try done;
      (by apply future_default_ok) || by apply update_epoch_ok.
Qed.

Lemma step_manager i p q : pool_step auth i p q -> ~ auth (manager p) -> manager_fields p q.
Proof.
  intros Hs Hn. step_cases Hs; try done; split_and!; try done;
    first [apply scheduled_refl|apply scheduled_epoch].
Qed.

Lemma manager_fields_refl p : manager_fields p p.
Proof. split_and!; auto using scheduled_refl. Qed.

Lemma manager_fields_trans p q r : manager_fields p q -> manager_fields q r -> manager_fields p r.
Proof.
  unfold manager_fields. intros (?&?&?&?&?&?&?&?&?&S1&S2&S3) (?&?&?&?&?&?&?&?&?&T1&T2&T3).
  split_and!; try congruence; by eapply scheduled_trans.
Qed.

Lemma step_staker i p q :
  pool_step auth i p q -> ~ auth (manager p) -> ~ auth (staker p) ->
  staker q = staker p.
Proof. intros Hs Hn Hn'. step_cases Hs; try done. tauto. Qed.

(** Only the balance update and what moves value in and out change the totals;
    the latter never to the disadvantage of the other token holders. *)
Lemma step_price i p q :
  pool_step auth i p q -> i <> UpdateStakePoolBalance -> pool_typed p -> 0 < pool_token_supply p ->
  price_le p q.
Proof.
  intros Hs Hi Hp HS. inversion Hs; subst; try (by unfold price_le; simpl; lia).
  - rename select (update_fee _ _ = _) into Hu. apply update_fee_frame in Hu as (E1 & E2 & _).
    unfold price_le. rewrite E1, E2. lia.
  - rename select (preferred_reset _ _) into Hr. apply preferred_reset_totals in Hr as [E1 E2].
    unfold price_le. rewrite E1, E2. lia.
  - rename select (preferred_reset _ _) into Hr. apply preferred_reset_totals in Hr as [E1 E2].
    unfold price_le. rewrite E1, E2. lia.
  - by apply deposit_price_le.
  - rename select (preferred_reset _ _) into Hr. apply preferred_reset_totals in Hr as [E1 E2].
    rename select (calc_lamports_withdraw_amount _ _ = _) into Hc.
    apply calc_lamports_withdraw_amount_mul in Hc as [_ Hc]; [|done..].
    unfold price_le. simpl. rewrite E1, E2. nia.
  - done.
Qed.
End Steps.

(** ** The refinement *)
Section Refinement.
Context {R : Runtime} {program_id : Pubkey} {L : RuntimeLaws R program_id}.

Lemma dispatch_step accts i w u w' P p :
  holds_pool program_id P p w -> pool_is_valid p = true -> instruction_typed i ->
  dispatch program_id accts i w = Ok (u, w') -> pool_evolves program_id accts i P p w'.
Proof.
  intros Hp Hv Ht Hx. destruct i; simpl in Hx, Ht.
  - by eapply initialize_step.
  - by eapply add_validator_step.
  - by eapply remove_validator_step.
  - by eapply decrease_step.
  - by eapply increase_step.
  - by eapply set_preferred_step.
  - by eapply update_list_step.
  - by eapply update_pool_step.
  - by eapply cleanup_step.
  - by eapply deposit_stake_step.
  - by eapply withdraw_stake_step.
  - by eapply set_manager_step.
  - by eapply set_fee_step.
  - by eapply set_staker_step.
  - by eapply deposit_sol_step.
  - by eapply set_funding_step.
  - by eapply withdraw_sol_step.
  - by eapply create_metadata_step.
  - by eapply update_metadata_step.
  - by eapply increase_step.
  - by eapply decrease_step.
  - by eapply decrease_step.
  - done.
  - by eapply deposit_stake_step.
  - destruct Ht as [Ht _]. eapply withdraw_stake_step; [reflexivity|exact Ht|exact Hp|..|exact Hx]; done.
  - destruct Ht as [Ht _]. eapply deposit_sol_step; [reflexivity|exact Ht|exact Hp|..|exact Hx]; done.
  - destruct Ht as [Ht _]. eapply withdraw_sol_step; [reflexivity|exact Ht|exact Hp|..|exact Hx]; done.
  - by eapply deposit_wsol_step.
  - by eapply withdraw_wsol_step.
Qed.

(** A run of [process] decodes its input and dispatches. *)
Lemma process_dispatch accts input w u w' :
  process program_id accts input w = Ok (u, w') ->
  exists i, try_from_slice input = Ok i /\ instruction_typed i /\
    dispatch program_id accts i w = Ok (u, w').
Proof.
  intros Hx. unfold process in Hx. inv_run Hx. rename select (try_from_slice _ = _) into Hd.
  exists v. split; [done|]. split; [|done]. unfold try_from_slice in Hd.
  destruct (borsh_de input) as [[j [|]]|] eqn:E; try done. injection Hd as ->.
  by apply borsh_ser_de in E as [? _].
Qed.

Lemma process_step accts input w u w' i P p :
  holds_pool program_id P p w -> pool_is_valid p = true ->
  try_from_slice input = Ok i -> process program_id accts input w = Ok (u, w') ->
  pool_evolves program_id accts i P p w'.
Proof.
  intros Hp Hv Hi (j & Hj & Ht & Hx)%process_dispatch.
  replace j with i in * by congruence. by eapply dispatch_step.
Qed.

Lemma step_valid auth i p q : pool_step auth i p q -> pool_is_valid p = true -> pool_is_valid q = true.
Proof.
  intros (E & _)%step_config Hv. unfold pool_is_valid in *. by rewrite E.
Qed.

(** An invariant of steps is an invariant of runs. *)
Lemma runs_invariant (ok : list AccountInfo -> StakePoolInstruction -> Prop)
    (I : StakePool -> Prop) (w w' : World) (P : Pubkey) (p : StakePool) :
  (forall accts i q q', ok accts i -> pool_typed q -> I q -> pool_step (signed accts) i q q' -> I q') ->
  runs program_id ok w w' ->
  holds_pool program_id P p w -> pool_is_valid p = true -> I p ->
  exists q, holds_pool program_id P q w' /\ pool_is_valid q = true /\ I q.
Proof.
  intros Hst Hr. revert p.
  induction Hr as [w|w w1 w2 accts input i u Hi Hok Hx _ IH|w w1 w2 (Hrp & Ht & Hf) _ IH];
    intros p Hp Hv HI.
  - eauto.
  - destruct (process_step accts input (fresh_instruction w) u w1 i P p) as (q & Hq & Hs); [done..|].
    destruct Hs as [->|(info & _ & _ & Hs)]; [by eapply IH|].
    eapply IH; [exact Hq|by eapply step_valid|]. eapply Hst; [done| |done|done].
    by eapply holds_pool_typed.
  - destruct Hp as ([Hr1 Ht1] & a & Ha & Ho & Hd).
    destruct (Hf _ _ Ha Ho) as (a' & Ha' & Hd' & Ho'). eapply IH; [|done|done].
    split; [split; [congruence|auto]|]. exists a'. by rewrite Hd'.
Qed.

(** C1: refinement.  A successful run of the program is the run of an instruction
    whose encoding was its input, and for every initialised pool of the program
    it is a step of the specification [pool_step] if the pool account is the
    first account passed, authorised by the accounts that signed, or leaves the
    pool exactly as it was.  No instruction touches a pool it was not given, and
    none makes an account stop being a pool. *)
Theorem process_refines_spec accts input w u w' P p :
  holds_pool program_id P p w -> pool_is_valid p = true ->
  process program_id accts input w = Ok (u, w') ->
  exists i, input = instruction_ser i /\ pool_evolves program_id accts i P p w'.
Proof.
  intros Hp Hv Hx. pose proof Hx as (i & Hi & _ & _)%process_dispatch.
  exists i. split; [|by eapply process_step].
  unfold try_from_slice in Hi. destruct (borsh_de input) as [[j [|]]|] eqn:E; try done.
  injection Hi as ->. apply borsh_ser_de in E as [_ ->]. apply app_nil_r.
Qed.

Lemma runs_pool w w' P p :
  holds_pool program_id P p w -> pool_is_valid p = true -> pool_fees_valid p ->
  runs program_id (fun _ _ => True) w w' ->
  exists q, holds_pool program_id P q w' /\ pool_is_valid q = true /\ pool_typed q /\
    pool_fees_valid q /\ same_config p q.
Proof.
  intros Hp Hv Hf Hr.
  eapply (runs_invariant _ (fun q => pool_fees_valid q /\ same_config p q) _ _ P p) in Hr
    as (q & Hq & Hvq & Hfq & Hcq); [|clear Hr|done..].
  { exists q. split_and!; try done. by eapply holds_pool_typed. }
  intros accts i q q' _ _ [Hfq Hcq] Hs. split; [by eapply step_fees_valid|].
  apply step_config in Hs. unfold same_config in *. intuition congruence.
Qed.

(** C2: invariant of every reachable pool.  Starting from an initialised pool
    whose fees are at most 100%, after any sequence of instructions of the
    program and of transactions of other programs the pool is still an
    initialised pool whose integer fields are in range and whose fees, current
    and pending, are at most 100%, and its validator list, reserve, mint, token
    program, bump seed and lockup are those it was created with. *)
Theorem pool_invariant w w' P p :
  holds_pool program_id P p w -> pool_is_valid p = true -> pool_fees_valid p ->
  runs program_id (fun _ _ => True) w w' ->
  exists q, holds_pool program_id P q w' /\ pool_is_valid q = true /\ pool_typed q /\
    pool_fees_valid q /\ same_config p q.
Proof. apply runs_pool. Qed.

(** C4: the manager's authority.  In a sequence of transactions in which the
    manager of a pool signs none of this program's instructions, the manager
    stays the manager, and the fee account, the funding authorities, the deposit
    fees and the referral fees stay as they were, whoever else signs; the epoch
    and withdrawal fees are the old ones or the changes that were already
    pending, and no other change gets scheduled. *)
Theorem manager_authority w w' P p :
  holds_pool program_id P p w -> pool_is_valid p = true ->
  runs program_id (fun accts _ => ~ signed accts (manager p)) w w' ->
  exists q, holds_pool program_id P q w' /\ manager_fields p q.
Proof.
  intros Hp Hv Hr.
  eapply (runs_invariant _ (manager_fields p) _ _ P p) in Hr as (q & Hq & _ & Hfq); [eauto|clear Hr|done|done|apply manager_fields_refl].
  intros accts i q q' Hn _ Hm Hs.
  assert (E : manager q = manager p) by apply Hm. rewrite <- E in Hn.
  apply step_manager in Hs; [|done]. by eapply manager_fields_trans.
Qed.

(** C27: the staker's authority.  The staker of a pool changes only in a
    transaction that the manager or the staker of the pool signs. *)
Theorem staker_authority w w' P p :
  holds_pool program_id P p w -> pool_is_valid p = true ->
  runs program_id (fun accts _ => ~ signed accts (manager p) /\ ~ signed accts (staker p)) w w' ->
  exists q, holds_pool program_id P q w' /\ staker q = staker p.
Proof.
  intros Hp Hv Hr.
  eapply (runs_invariant _ (fun q => manager q = manager p /\ staker q = staker p) _ _ P p) in Hr
    as (q & Hq & _ & Hfq); [exists q; tauto|clear Hr|done..].
  intros accts i q q' [Hn Hn'] _ [Hm Hst] Hs. rewrite <- Hm in Hn. rewrite <- Hst in Hn'.
  split; [|rewrite <- Hst; by eapply step_staker].
  apply step_manager in Hs as [-> _]; done.
Qed.

(** C5: no instruction except the balance update lowers the value of a pool
    token.  Whatever the instruction, its arguments and its signers, after a
    successful run a token of a pool with token holders is worth at least as
    many lamports as before; rounding never works against the holders. *)
Theorem process_price_monotone accts input w u w' i P p :
  holds_pool program_id P p w -> pool_is_valid p = true -> 0 < pool_token_supply p ->
  try_from_slice input = Ok i -> i <> UpdateStakePoolBalance ->
  process program_id accts input w = Ok (u, w') ->
  exists q, holds_pool program_id P q w' /\ price_le p q.
Proof.
  intros Hp Hv HS Hi Hne Hx. pose proof (process_step _ _ _ _ _ _ _ _ Hp Hv Hi Hx) as (q & Hq & Hs).
  exists q. split; [done|]. destruct Hs as [->|(info & _ & _ & Hs)]; [by unfold price_le|].
  eapply step_price; [exact Hs|done| |done]. by eapply holds_pool_typed.
Qed.
End Refinement.

(** ** Witnesses on the concrete platform *)
Section Witnesses.
Import Demo Scenario.

Definition deposit_accounts : list AccountInfo :=
  [w_info pool_key; r_info withdraw_authority; w_info reserve_key; s_info user_key;
   w_info user_tokens_key; w_info fee_key; w_info referrer_key; w_info mint_key;
   r_info system_id; r_info token_id].
Definition deposit_input : list byte := instruction_ser (DepositSol 3000000).
Definition deposited : World :=
  world_after world (process (H:=demo) program deposit_accounts deposit_input world).

Lemma deposit_runs : process (H:=demo) program deposit_accounts deposit_input world = Ok (tt, deposited).
Proof. apply world_after_Ok. vm_compute. reflexivity. Qed.

Lemma process_refines_spec_witness :
  exists i, deposit_input = instruction_ser i /\
    pool_evolves program deposit_accounts i pool_key pool deposited.
Proof.
  apply (process_refines_spec (L:=demo_laws program) deposit_accounts deposit_input world tt deposited pool_key pool).
  - apply world_holds_pool.
  - reflexivity.
  - apply deposit_runs.
Defined.

(** A deposit, then a transaction elsewhere that credits the pool account. *)
Definition credit (k : Pubkey) (n : Z) (w : World) : World :=
  w <| accounts := <[k := (account (H:=demo) w k) <| acc_lamports := n |>]> (accounts w) |>.
Definition credited : World := credit pool_key 5 deposited.

Lemma credit_foreign k0 n w : is_uint 64 n -> foreign program w (credit k0 n w).
Proof.
  intros Hn. split; [reflexivity|]. split.
  - intros Ht. by apply map_Forall_insert_2.
  - intros k a Ha Ho. destruct (decide (k = k0)) as [->|Hk].
    + eexists. split; [apply lookup_insert_eq|]. simpl. unfold account. by rewrite Ha.
    + exists a. split; [|done]. simpl. by rewrite lookup_insert_ne.
Qed.

Lemma deposit_run (ok : list AccountInfo -> StakePoolInstruction -> Prop) :
  ok deposit_accounts (DepositSol 3000000) -> runs (R:=demo) program ok world credited.
Proof.
  intros Hok. eapply (runs_process (R:=demo) _ _ _ deposited); [|exact Hok| |].
  - instantiate (1 := deposit_input). vm_compute. reflexivity.
  - exact deposit_runs.
  - apply (runs_foreign (R:=demo) _ _ _ credited); [|apply runs_done].
    apply (credit_foreign pool_key 5 deposited). unfold is_uint. lia.
Qed.

Lemma not_signed_check accts k :
  existsb (fun i => bool_decide (key i = k) && is_signer i) accts = false -> ~ signed accts k.
Proof.
  intros Hb (i & Hi & Hk & Hs). rewrite <- not_true_iff_false in Hb. apply Hb.
  apply existsb_exists. exists i. split; [by apply list_elem_of_In|].
  rewrite Hs, bool_decide_eq_true_2 by done. done.
Qed.

Lemma pool_invariant_witness :
  exists q, holds_pool program pool_key q credited /\ pool_is_valid q = true /\ pool_typed q /\
    pool_fees_valid q /\ same_config pool q.
Proof.
  apply (pool_invariant (L:=demo_laws program) world credited pool_key pool).
  - apply world_holds_pool.
  - reflexivity.
  - apply scenario_fees_valid.
  - apply deposit_run. exact I.
Defined.

Lemma manager_authority_witness :
  exists q, holds_pool program pool_key q credited /\ manager_fields pool q.
Proof.
  apply (manager_authority (L:=demo_laws program) world credited pool_key pool).
  - apply world_holds_pool.
  - reflexivity.
  - apply deposit_run. apply not_signed_check. vm_compute. reflexivity.
Defined.

Lemma staker_authority_witness :
  exists q, holds_pool program pool_key q credited /\ staker q = staker pool.
Proof.
  apply (staker_authority (L:=demo_laws program) world credited pool_key pool).
  - apply world_holds_pool.
  - reflexivity.
  - apply deposit_run. split; apply not_signed_check; vm_compute; reflexivity.
Defined.

Lemma process_price_monotone_witness :
  exists q, holds_pool program pool_key q deposited /\ price_le pool q.
Proof.
  apply (process_price_monotone (L:=demo_laws program) deposit_accounts deposit_input world tt deposited
           (DepositSol 3000000) pool_key pool).
  - apply world_holds_pool.
  - reflexivity.
  - vm_compute. reflexivity.
  - vm_compute. reflexivity.
  - discriminate.
  - apply deposit_runs.
Defined.
End Witnesses.
