(* ===== verification/DepositCorrect.v ===== *)
(** * Correctness of deposits

    What [DepositSol], [DepositStake] and [DepositWsolWithSession] do when they
    succeed: the accounts they accept, the tokens they mint and to whom, the calls
    they make and the state they leave. *)

From S2P Require Import Prelude Errors Fees Pool BigVec Borsh ValidatorList Runtime Platform Checks.
From S2P Require Import Scenario Admin Tracking Deposit Withdraw Validators Update Init Instruction.
From S2P Require Import Process Trace Spec UserSteps Contracts.

Section DepositCorrect.
Context {R : Runtime}.
Variable program_id : Pubkey.

(** What a SOL deposit takes for granted about its accounts. *)
Record sol_deposit_accounts (pool authority reserve manager mint token_program : AccountInfo)
    (rest : list AccountInfo) (p : StakePool) : Prop := {
  sda_authority : create_program_address
    [pk_bytes (key pool); AUTHORITY_WITHDRAW; bump (stake_withdraw_bump_seed p)] program_id
    = Ok (key authority);
  sda_reserve : key reserve = reserve_stake p;
  sda_manager : key manager = manager_fee_account p;
  sda_mint : key mint = pool_mint p;
  sda_token : key token_program = token_program_id p;
  sda_deposit_authority : authorised (sol_deposit_authority p) rest;
}.

Lemma deposit_sol_checks_spec i1 i2 i3 i4 i5 i6 i7 rest w p w' :
  deposit_sol_checks program_id i1 i2 i3 i4 i5 i6 i7 (fst <$> next_account_info rest) w = Ok (p, w') ->
  w' = w /\ sol_deposit_accounts i1 i2 i3 i4 i5 i7 rest p /\
  exists clock, clock_get = Ok clock /\ current_pool program_id i1 p clock w.
Proof.
  intros Hx. unfold deposit_sol_checks in Hx. inv_handler Hx. bool_props.
  split; [done|]. split; [constructor; eauto with contracts|].
  eexists. split; [eassumption|]. constructor; [by apply load_pool_at|done|done|lia].
Qed.

(** The outcome of a SOL deposit of [d] into the pool [p]: the division [s] of the
    tokens, the new totals and the mints. *)
Record sol_deposited (pool authority user manager referrer mint token : AccountInfo) (p : StakePool)
    (d : Z) (minimum : option Z) (s : DepositSplit) (w' : World) (mints : list CpiCall) : Prop := {
  sd_tokens : calc_pool_tokens_for_deposit p d = Some (new_pool_tokens s);
  sd_split : split_ok s minimum;
  sd_fee : calc_pool_tokens_sol_deposit_fee p (new_pool_tokens s) =
    Some (pool_tokens_manager_deposit_fee s + pool_tokens_referral_fee s);
  sd_pool : pool_at w' (key pool) = Ok (after_deposit p d (new_pool_tokens s));
  sd_mints : mints =
    deposit_mints pool token mint user manager referrer authority (stake_withdraw_bump_seed p) s;
}.

Lemma deposit_sol_spec pool authority reserve from user manager referrer mint system token rest
    d minimum (b : bool) w u w' :
  is_uint 64 d ->
  (forall p, pool_at w (key pool) = Ok p -> pool_fees_valid p) ->
  process_deposit_sol program_id
    (pool :: authority :: reserve :: from :: user :: manager :: referrer :: mint :: system :: token :: rest)
    d minimum b w = Ok (u, w') ->
  exists p clock s mints,
    clock_get = Ok clock /\ current_pool program_id pool p clock w /\
    sol_deposit_accounts pool authority reserve manager mint token rest p /\
    sol_deposited pool authority user manager referrer mint token p d minimum s w' mints /\
    cpi_log w' = cpi_log w ++
      (if b then [] else [user_call (SystemTransfer (key from) (key reserve) d)]) ++ mints.
Proof.
  intros Hd Hf Hx. unfold process_deposit_sol in Hx. inv_handler Hx.
  rename select (deposit_sol_checks _ _ _ _ _ _ _ _ _ _ = _) into Hck.
  apply deposit_sol_checks_spec in Hck as (-> & Hacc & clock & Hclock & Hcur).
  rename select (sol_deposit_split _ _ _ = _) into Hs.
  pose proof (cp_pool _ _ _ _ _ Hcur) as Hpool. pose proof (pool_at_typed _ _ _ Hpool) as Hty.
  apply sol_deposit_split_Ok in Hs as (Ht & Hok & Hfee & _); [|done|by apply Hf|done].
  rename select (record_deposit _ _ _ = _) into Hrec. apply record_deposit_Ok in Hrec as (-> & Hb1 & Hb2).
  track_log. eexists _, clock, _, _. split_and!; [done..| |].
  - constructor; [done..| |reflexivity]. eapply store_pool_at; [|exact Hx]. by apply after_deposit_typed.
  - destruct b; solve_log.
Qed.

(** C6: a SOL deposit.  If it succeeds, the account is an initialised pool of the
    program that is up to date, the reserve, fee account, mint, token program
    and withdraw authority are the pool's, and a deposit authority, if set,
    signed.  The tokens are those of the exchange rate; the user's part, the
    manager's and the referrer's add up to them, the fee being the one of the
    fee schedule; the user gets at least one token and at least what was asked
    for.  The lamports go from the user to the reserve, each part is minted to
    its account under the pool's withdraw authority, nothing else is called,
    and the pool's totals grow by the deposit and by the tokens. *)
Theorem deposit_sol_correct pool authority reserve from user manager referrer mint system token rest
    d minimum w u w' :
  is_uint 64 d ->
  (forall p, pool_at w (key pool) = Ok p -> pool_fees_valid p) ->
  process_deposit_sol program_id
    (pool :: authority :: reserve :: from :: user :: manager :: referrer :: mint :: system :: token :: rest)
    d minimum false w = Ok (u, w') ->
  exists p clock s mints,
    clock_get = Ok clock /\ current_pool program_id pool p clock w /\
    sol_deposit_accounts pool authority reserve manager mint token rest p /\
    sol_deposited pool authority user manager referrer mint token p d minimum s w' mints /\
    cpi_log w' = cpi_log w ++ [user_call (SystemTransfer (key from) (key reserve) d)] ++ mints.
Proof. intros Hd Hf Hx. exact (deposit_sol_spec _ _ _ _ _ _ _ _ _ _ _ _ _ false _ _ _ Hd Hf Hx). Qed.

(** ** Wrapped SOL *)

(** The calls that move [d] lamports from the user's wrapped SOL account to the
    reserve: through the transient token account, with its rent paid by and
    returned to the fee payer. *)
Definition unwrap_calls (user_pubkey : Pubkey) (reserve token session wsol_mint payer user_wsol
    transient signer : AccountInfo) (rent : Rent) (d : Z) : list CpiCall :=
  let signer_seeds := [program_signer_seed; bump (snd (find_program_address [program_signer_seed] program_id))] in
  let transient_seeds := [TRANSIENT_WSOL_SEED; pk_bytes user_pubkey;
    bump (snd (find_program_address [TRANSIENT_WSOL_SEED; pk_bytes user_pubkey] program_id))] in
  [mkCall (CreatePdaAccount (key payer) rent token_account_len (key token) (key transient)) [transient_seeds];
   user_call (TokenInitializeAccount3 (key token) (key transient) (key wsol_mint) (key signer));
   mkCall (SessionTransferChecked (key token) (key user_wsol) (key wsol_mint) (key transient) (key session)
             (Some (key signer)) d 9) [signer_seeds];
   mkCall (TokenCloseAccount (key token) (key transient) (key signer) (key signer)) [signer_seeds];
   mkCall (SystemTransfer (key signer) (key payer) (minimum_balance rent token_account_len)) [signer_seeds];
   mkCall (SystemTransfer (key signer) (key reserve) d) [signer_seeds]].

(** The user behind a signer or session, and that user's wrapped SOL account. *)
Definition wsol_user (session wsol_mint user_wsol : AccountInfo) (w : World) (k : Pubkey) : Prop :=
  extract_user_from_signer_or_session session (account w (key session)) program_id = Ok k /\
  key wsol_mint = native_mint_id /\ get_associated_token_address k native_mint_id = key user_wsol.

Lemma check_wsol_accounts_spec i1 i2 i3 i4 w k w' :
  check_wsol_accounts program_id i1 i2 i3 i4 w = Ok (k, w') -> w' = w /\ wsol_user i4 i1 i2 w k.
Proof.
  intros Hx. unfold check_wsol_accounts in Hx. inv_run Hx. bool_props.
  split; [done|]. split; [done|]. split; [done|]. congruence.
Qed.

Lemma unwrap_wsol_spec k i1 i2 i3 i4 i5 i6 i7 i8 i9 d w u w' :
  unwrap_wsol program_id k i1 i2 i3 i4 i5 i6 i7 i8 i9 d w = Ok (u, w') ->
  exists rent, rent_get = Ok rent /\
    key i9 = fst (find_program_address [program_signer_seed] program_id) /\
    cpi_log w' = cpi_log w ++ unwrap_calls k i1 i3 i4 i5 i6 i7 i8 i9 rent d.
Proof.
  intros Hx. unfold unwrap_wsol in Hx. unfold unwrap_calls.
  destruct (find_program_address [program_signer_seed] program_id) as [a b].
  destruct (find_program_address [TRANSIENT_WSOL_SEED; _] program_id) as [a' b'].
  inv_run Hx. bool_props. eexists. split; [eassumption|]. split; [done|]. track_log. solve_log.
Qed.

(** C31: a deposit of wrapped SOL through a session.  If it succeeds, the session
    stands for a user, the wrapped SOL account is that user's associated account
    of the native mint, and the deposit is a SOL deposit of the same amount in
    which the lamports reach the reserve by unwrapping: exactly the six calls of
    [unwrap_calls], then the mints. *)
Theorem deposit_wsol_correct `{!RuntimeLaws R program_id} pool authority reserve user manager referrer mint
    system token session wsol_mint payer user_wsol transient signer rest d p w u w' :
  is_uint 64 d -> holds_pool program_id (key pool) p w -> pool_fees_valid p ->
  process_deposit_wsol_with_session program_id
    (pool :: authority :: reserve :: user :: manager :: referrer :: mint :: system :: token :: session ::
     wsol_mint :: payer :: user_wsol :: transient :: signer :: rest) d w = Ok (u, w') ->
  exists clock s mints k rent,
    clock_get = Ok clock /\ epoch clock <= last_update_epoch p /\ rent_get = Ok rent /\
    wsol_user session wsol_mint user_wsol w k /\
    sol_deposit_accounts pool authority reserve manager mint token (option_list (head rest)) p /\
    sol_deposited pool authority user manager referrer mint token p d None s w' mints /\
    cpi_log w' = cpi_log w ++
      unwrap_calls k reserve token session wsol_mint payer user_wsol transient signer rent d ++ mints.
Proof.
  intros Hd Hp Hf Hx. unfold process_deposit_wsol_with_session in Hx. inv_handler Hx.
  rename select (check_wsol_accounts _ _ _ _ _ _ = _) into Hck.
  apply check_wsol_accounts_spec in Hck as [-> Hk]. track_pool.
  rename select (unwrap_wsol _ _ _ _ _ _ _ _ _ _ _ _ _ = _) into Hun.
  apply unwrap_wsol_spec in Hun as (rent & Hrent & Hsig & Hlog). pose proof (holds_pool_at _ _ _ Hp0) as Hat.
  apply deposit_sol_spec in Hx as (q & clock & s & mints & Hclock & Hcur & Hacc & Hdep & Hlog');
    [|done|rewrite Hat; by intros ? [=<-]].
  rewrite (cp_pool _ _ _ _ _ Hcur) in Hat. injection Hat as ->.
  exists clock, s, mints, v0, rent. split_and!; try done; [by destruct Hcur|].
  rewrite Hlog', Hlog. by rewrite <- app_assoc.
Qed.

(** ** Stake *)

Record stake_deposit_accounts (pool list deposit_authority authority reserve manager mint
    token_program : AccountInfo) (p : StakePool) : Prop := {
  kda_authority : create_program_address
    [pk_bytes (key pool); AUTHORITY_WITHDRAW; bump (stake_withdraw_bump_seed p)] program_id
    = Ok (key authority);
  kda_list : key list = validator_list p;
  kda_deposit_authority : key deposit_authority = stake_deposit_authority p;
  kda_reserve : key reserve = reserve_stake p;
  kda_manager : key manager = manager_fee_account p;
  kda_mint : key mint = pool_mint p;
  kda_token : key token_program = token_program_id p;
}.

Lemma deposit_stake_checks_spec i1 i2 i3 i4 i5 i6 i7 i8 i9 clock w p w' :
  deposit_stake_checks program_id i1 i2 i3 i4 i5 i6 i7 i8 i9 clock w = Ok (p, w') ->
  w' = w /\ stake_deposit_accounts i1 i2 i3 i4 i5 i6 i7 i8 p /\ current_pool program_id i1 p clock w /\
  owner_of i2 w = program_id.
Proof.
  intros Hx. unfold deposit_stake_checks in Hx. inv_handler Hx.
  bool_props.
  split; [done|]. split; [constructor; eauto with contracts|].
  split; [|eauto with contracts]. constructor; [by apply load_pool_at|done|done|lia].
Qed.

(** Taking over the deposited stake, as calls. *)
Definition take_stake_calls (pool stake deposit_authority authority validator_stake : AccountInfo)
    (p : StakePool) : list CpiCall :=
  let '(derived, bump_seed) := find_deposit_authority_program_address program_id (key pool) in
  let authorize kind := StakeAuthorizeIx (key stake) (key deposit_authority) (key authority) kind in
  (if key deposit_authority =?ₖ derived
   then [pool_call (key pool) AUTHORITY_DEPOSIT bump_seed (authorize AuthorizeStaker);
         pool_call (key pool) AUTHORITY_DEPOSIT bump_seed (authorize AuthorizeWithdrawer)]
   else [user_call (authorize AuthorizeStaker); user_call (authorize AuthorizeWithdrawer)]) ++
  [pool_call (key pool) AUTHORITY_WITHDRAW (stake_withdraw_bump_seed p)
     (StakeMerge (key validator_stake) (key stake) (key authority))].

#[export] Instance emits_take_deposited_stake i1 i2 i3 i4 i5 i6 i7 p :
  Emits (take_deposited_stake program_id i1 i2 i3 i4 i5 i6 i7 p) (take_stake_calls i1 i2 i3 i4 i5 p).
Proof.
  unfold take_deposited_stake, take_stake_calls.
  destruct (find_deposit_authority_program_address _ _) as [k b]. apply _.
Qed.

#[export] Instance emits_deposit_stake_entry i1 i2 p l k :
  Emits (deposit_stake_entry program_id i1 i2 p l k) [].
Proof.
  unfold deposit_stake_entry. apply emits_nothing. intros w [o v] w' Hx. inv_run Hx.
  destruct (preferred_deposit_validator_vote_address p); [|by injection Hr as _ <-].
  by apply fail_if_Ok in Hr as [_ ->].
Qed.

(** The entry a stake deposit goes to: preferred if a preference is set, at its
    derived address, active. *)
Lemma deposit_stake_entry_spec pool validator_stake p vl d k w off v w' :
  vec_rep (validators vl) d ->
  deposit_stake_entry program_id pool validator_stake p d k w = Ok ((off, v), w') ->
  w' = w /\ exists i, off = entry_offset i /\ entry_at vl k i v /\ status v = status_into_pod Active /\
    key validator_stake = fst (find_stake_program_address program_id k (key pool)
                                 (nonzero (uint_of_array (validator_seed_suffix v)))) /\
    (forall q, preferred_deposit_validator_vote_address p = Some q -> q = k).
Proof.
  intros Hr Hx. unfold deposit_stake_entry in Hx. inv_run Hx.
  rename select (vec_find_mut _ _ = _) into Hf. bool_props.
  destruct (find_mut_spec _ _ _ _ _ Hr Hf) as (i & -> & Hi).
  split; [destruct (preferred_deposit_validator_vote_address p);
          [by apply fail_if_Ok in Hr0 as [_ ->]|by injection Hr0 as _ <-]|].
  exists i. split_and!; eauto with contracts; [by apply bool_decide_eq_true in Hr4|].
  intros q Hq. rewrite Hq in Hr0. apply fail_if_Ok in Hr0 as [Hr0 _]. by bool_props.
Qed.

(** The stake was taken over by the pool and merged, and the validator's account
    gained [deposit] lamports and [stake_deposit] delegated lamports by it. *)
Definition stake_gained (pool stake deposit_authority authority validator_stake clock_info history
    : AccountInfo) (p : StakePool) (pre : Stake) (w : World) (deposit stake_deposit : Z) : Prop :=
  exists wb wm post,
    accounts wb = accounts w /\
    take_deposited_stake program_id pool stake deposit_authority authority validator_stake clock_info
      history p wb = Ok (tt, wm) /\
    snd <$> get_stake_state validator_stake w = Ok pre /\
    snd <$> get_stake_state validator_stake wm = Ok post /\
    lamports_of validator_stake wm = lamports_of validator_stake w + deposit /\
    delegation_stake (delegation post) = delegation_stake (delegation pre) + stake_deposit.

(** C7: a stake deposit.  If it succeeds on a pool whose list account holds
    [vl], the pool is up to date and the accounts are the pool's; the stake goes
    to the derived account of an active validator of the list, the preferred one
    if a preference is set.  The deposit is what the validator's account gained
    in lamports from the merge, the stake part what its delegation gained; the
    tokens are those of the exchange rate for the whole deposit and are divided
    between user, manager and referrer without remainder.  The calls are exactly
    the change of authorities, the merge, the mints, and the withdrawal to the
    reserve of the part that is not stake.  The totals grow by the deposit and
    its tokens, and the only entry of the list that changes is the validator's,
    which records the lamports now in its account. *)
Theorem deposit_stake_correct `{!RuntimeLaws R program_id} pool list deposit_authority authority stake
    validator_stake reserve user manager referrer mint clock_info history token stake_program rest
    vl minimum w u w' :
  holds_list program_id (key list) vl w ->
  (forall p, pool_at w (key pool) = Ok p -> pool_fees_valid p) ->
  process_deposit_stake program_id
    (pool :: list :: deposit_authority :: authority :: stake :: validator_stake :: reserve :: user ::
     manager :: referrer :: mint :: clock_info :: history :: token :: stake_program :: rest)
    minimum w = Ok (u, w') ->
  exists p clock s i v pre deposit stake_deposit,
    clock_from clock_info w = Ok clock /\ current_pool program_id pool p clock w /\
    stake_deposit_accounts pool list deposit_authority authority reserve manager mint token p /\
    stake_gained pool stake deposit_authority authority validator_stake clock_info history p pre w
      deposit stake_deposit /\
    entry_at vl (voter_pubkey (delegation pre)) i v /\ status v = status_into_pod Active /\
    key validator_stake = fst (find_stake_program_address program_id (voter_pubkey (delegation pre))
      (key pool) (nonzero (uint_of_array (validator_seed_suffix v)))) /\
    (forall q, preferred_deposit_validator_vote_address p = Some q -> q = voter_pubkey (delegation pre)) /\
    0 <= stake_deposit <= deposit /\
    stake_deposit_split p deposit stake_deposit minimum = Ok s /\ split_ok s minimum /\
    calc_pool_tokens_for_deposit p deposit = Some (new_pool_tokens s) /\
    pool_at w' (key pool) = Ok (after_deposit p deposit (new_pool_tokens s)) /\
    holds_list program_id (key list)
      (with_entry vl i (v <| active_stake_lamports :=
         array_of_uint 8 (lamports_of validator_stake w') |>)) w' /\
    cpi_log w' = cpi_log w ++
      take_stake_calls pool stake deposit_authority authority validator_stake p ++
      deposit_mints pool token mint user manager referrer authority (stake_withdraw_bump_seed p) s ++
      (if 0 <? deposit - stake_deposit
       then [pool_call (key pool) AUTHORITY_WITHDRAW (stake_withdraw_bump_seed p)
               (StakeWithdraw (key validator_stake) (key authority) (key reserve)
                  (deposit - stake_deposit))]
       else []).
Proof.
  intros Hvl Hf Hx. unfold process_deposit_stake in Hx. inv_handler Hx.
  rename select (deposit_stake_checks _ _ _ _ _ _ _ _ _ _ _ _ = _) into Hck.
  apply deposit_stake_checks_spec in Hck as (-> & Hacc & Hcur & Hown).
  rename select (open_validator_list _ _ = _) into Hop.
  destruct (open_list_spec _ _ _ _ _ _ Hvl Hop) as (-> & Hrep & _). track_list. track_log.
  rename select (deposit_stake_entry _ _ _ _ _ _ _ = _) into He.
  eapply deposit_stake_entry_spec in He as (-> & i & -> & Hi & Hact & Hkey & Hpref); [|exact Hrep].
  rename select (stake_deposit_split _ _ _ _ = _) into Hs.
  repeat match goal with H : calc (checked_sub _ _) = Ok _ |- _ =>
    apply calc_Ok, checked_sub_Some in H as [-> ?] end.
  rename select (record_deposit _ _ _ = _) into Hrec. apply record_deposit_Ok in Hrec as (-> & Hb1 & Hb2).
  rename select (take_deposited_stake _ _ _ _ _ _ _ _ _ _ = _) into Htake.
  pose proof (cp_pool _ _ _ _ _ Hcur) as Hpool. pose proof (pool_at_typed _ _ _ Hpool) as Hty.
  pose proof (open_list_ne _ _ _ _ _ _ _ Hpool (cp_valid _ _ _ _ _ Hcur) Hop) as Hne.
  rewrite (lamports_open _ _ _ _ _ _ Hop) in *.
  rename select (get_stake_state _ w4 = _) into Hpost.
  rename select (get_stake_state _ w2 = _) into Hpre. pose proof (get_stake_state_typed _ _ _ _ Hpre).
  pose proof (get_stake_state_typed _ _ _ _ Hpost). apply (get_stake_state_open _ _ _ _ _ _ _ Hop) in Hpre.
  pose proof (holds_list_lamports _ _ _ validator_stake Hvl).
  assert (is_uint 64 (lamports_of validator_stake w4)) by (eapply holds_list_lamports; eassumption).
  pose proof Hs as Hs'.
  apply stake_deposit_split_Ok in Hs' as (Htok & Hok); [|done|by apply Hf|unfold is_uint in *; lia..].
  set (deposit := lamports_of validator_stake w4 - lamports_of validator_stake w) in *.
  rename select (store _ _ _ = _) into Hst. rename select (assign_entry _ _ _ _ = _) into Has.
  eapply store_keeps_list in Hst as Hvl7; [|exact (not_eq_sym Hne)|eassumption].
  pose proof (assign_entry_spec _ _ _ _ _ _ _ _ Hvl7 (proj1 Hi) Has) as Hvl6.
  eexists _, _, _, i, _, _, deposit, _.
  split; [eassumption|]. split; [exact Hcur|]. split; [exact Hacc|]. split.
  { exists w2, w4. destruct v3. eexists. split; [apply (open_validator_list_Ok _ _ _ _ _ Hop)|].
    split; [exact Htake|]. rewrite Hpre, Hpost. split_and!; [done..| |]; [unfold deposit; lia|].
    instantiate (1 := delegation_stake (delegation s0) - delegation_stake (delegation s)). simpl. lia. }
  repeat (split; [first [exact Hi|exact Hact|exact Hkey|exact Hpref|exact Hs|exact Hok|exact Htok|lia]|]).
  split; [|split; [|solve_log]].
  - rewrite (pool_at_drop _ _ _ _ _ Hx), (pool_at_assign _ _ _ _ _ _ _ Hne Has).
    eapply store_pool_at; [|exact Hst]. apply after_deposit_typed; unfold is_uint in *; lia || done.
  - rewrite (lamports_drop _ _ _ _ _ Hx), (lamports_assign _ _ _ _ _ _ _ Has).
    eapply (holds_list_keeps (drop_borrow_mut list)); [exact Hvl6|exact Hx].
Qed.
End DepositCorrect.

(** ** Witnesses *)
Section DepositWitnesses.
Import Demo Scenario.

Definition sol_deposit_run : presult (unit * World) :=
  process_deposit_sol (H:=demo) program
    [w_info pool_key; r_info withdraw_authority; w_info reserve_key; s_info user_key;
     w_info user_tokens_key; w_info fee_key; w_info referrer_key; w_info mint_key;
     r_info system_id; r_info token_id] 3000000 None false world.

Lemma deposit_sol_correct_witness :
  exists p s mints,
    sol_deposited (R:=demo) (w_info pool_key) (r_info withdraw_authority) (w_info user_tokens_key)
      (w_info fee_key) (w_info referrer_key) (w_info mint_key) (r_info token_id) p 3000000 None s
      (world_after world sol_deposit_run) mints.
Proof.
  assert (Hd : is_uint 64 3000000) by (unfold is_uint; lia).
  assert (Hx : sol_deposit_run = Ok (tt, world_after world sol_deposit_run))
    by (apply world_after_Ok; vm_compute; reflexivity).
  unfold sol_deposit_run in Hx.
  destruct ((fun Hf => deposit_sol_correct (R:=demo) program _ _ _ _ _ _ _ _ _ _ _ _ _ _ _ _ Hd Hf Hx) world_fees_valid)
    as (p & clock & s & mints & _ & _ & _ & Hdep & _).
  exists p, s, mints. exact Hdep.
Defined.

(** A user with wrapped SOL. *)
Definition wsol_key : Pubkey := get_associated_token_address  user_key native_mint_id.
Definition signer_key : Pubkey := fst (find_program_address  [program_signer_seed] program).
Definition wsol_transient_key : Pubkey :=
  fst (find_program_address  [TRANSIENT_WSOL_SEED; pk_bytes user_key] program).
Definition wsol_world : World :=
  world <| accounts :=
    <[wsol_key := token_account 5000000]> (<[signer_key := mkAccount 5000000 [] system_id]>
      (<[native_mint_id := mkAccount RENT [] token_id]> (accounts world))) |>.
Definition wsol_deposit_run : presult (unit * World) :=
  process_deposit_wsol_with_session (H:=demo) program
    [w_info pool_key; r_info withdraw_authority; w_info reserve_key;
     w_info user_tokens_key; w_info fee_key; w_info referrer_key; w_info mint_key;
     r_info system_id; r_info token_id; s_info user_key; r_info (native_mint_id );
     s_info user_key; w_info wsol_key; w_info wsol_transient_key; w_info signer_key] 3000000 wsol_world.


Lemma wsol_holds_pool : holds_pool program pool_key pool wsol_world.
Proof.
  apply holds_pool_data. eexists. split; [|]; [apply holds_data_intro; vm_compute; reflexivity|].
  vm_compute. reflexivity.
Qed.

Lemma deposit_wsol_correct_witness :
  exists s mints,
    sol_deposited (R:=demo) (w_info pool_key) (r_info withdraw_authority) (w_info user_tokens_key)
      (w_info fee_key) (w_info referrer_key) (w_info mint_key) (r_info token_id) pool 3000000 None s
      (world_after wsol_world wsol_deposit_run) mints.
Proof.
  assert (Hd : is_uint 64 3000000) by (unfold is_uint; lia).
  assert (Hx : wsol_deposit_run = Ok (tt, world_after wsol_world wsol_deposit_run))
    by (apply world_after_Ok; vm_compute; reflexivity).
  unfold wsol_deposit_run in Hx.
  destruct ((fun Hp => deposit_wsol_correct (R:=demo) program _ _ _ _ _ _ _ _ _ _ _ _ _ _ _ _ _ pool _ _ _
               Hd Hp scenario_fees_valid Hx) wsol_holds_pool)
    as (clock & s & mints & k & rent & _ & _ & _ & _ & _ & Hdep & _).
  exists s, mints. exact Hdep.
Defined.

Definition stake_deposit_run : presult (unit * World) :=
  process_deposit_stake (H:=demo) program
    [w_info pool_key; w_info list_key; r_info deposit_authority; r_info withdraw_authority;
     w_info user_stake_key; w_info (stake_address vote1); w_info reserve_key; w_info user_tokens_key;
     w_info fee_key; w_info referrer_key; w_info mint_key; clock_info; clock_info; r_info token_id;
     r_info stake_id] None world.

Lemma deposit_stake_correct_witness :
  exists p vote i v deposit s,
    entry_at vlist vote i v /\ split_ok s None /\
    pool_at (H:=demo) (world_after world stake_deposit_run) pool_key =
      Ok (after_deposit p deposit (new_pool_tokens s)).
Proof.
  assert (Hx : stake_deposit_run = Ok (tt, world_after world stake_deposit_run))
    by (apply world_after_Ok; vm_compute; reflexivity).
  unfold stake_deposit_run in Hx.
  destruct ((fun Hl Hf => deposit_stake_correct (R:=demo) program _ _ _ _ _ _ _ _ _ _ _ _ _ _ _ _ vlist _ _ _ _
               Hl Hf Hx) world_holds_list world_fees_valid)
    as (p & clock & s & i & v & pre & deposit & sd & _ & _ & _ & _ & Hi & _ & _ & _ & _ & _ & Hok & _ & Hp & _).
  exists p, (voter_pubkey (delegation pre)), i, v, deposit, s. exact (conj Hi (conj Hok Hp)).
Defined.
End DepositWitnesses.
