(* ===== verification/WithdrawCorrect.v ===== *)
(** * Correctness of withdrawals

    What [WithdrawSol], [WithdrawStake] and [WithdrawWsolWithSession] do when they
    succeed; [stake_taken] describes where the stake of a withdrawal may come
    from. *)

From S2P Require Import Prelude Errors Fees Pool BigVec Borsh ValidatorList Runtime Platform Checks.
From S2P Require Import Scenario Admin Tracking Deposit Withdraw Validators Update Init Instruction.
From S2P Require Import Process Trace Spec UserSteps Contracts DepositCorrect.

Section WithdrawCorrect.
Context {R : Runtime}.
Variable program_id : Pubkey.

(** ** SOL *)

(** What a SOL withdrawal takes for granted about its accounts. *)
Record sol_withdrawal_accounts (pool authority reserve manager mint token_program : AccountInfo)
    (rest : list AccountInfo) (p : StakePool) : Prop := {
  swa_authority : create_program_address
    [pk_bytes (key pool); AUTHORITY_WITHDRAW; bump (stake_withdraw_bump_seed p)] program_id
    = Ok (key authority);
  swa_reserve : key reserve = reserve_stake p;
  swa_manager : key manager = manager_fee_account p;
  swa_mint : key mint = pool_mint p;
  swa_token : key token_program = token_program_id p;
  swa_withdraw_authority : authorised (sol_withdraw_authority p) rest;
}.

Lemma withdraw_sol_checks_spec i1 i2 i3 i4 i5 i6 i7 rest w p decimals w' :
  withdraw_sol_checks program_id i1 i2 i3 i4 i5 i6 i7 (fst <$> next_account_info rest) w
    = Ok ((p, decimals), w') ->
  w' = w /\ sol_withdrawal_accounts i1 i2 i3 i4 i5 i7 rest p /\ check_mint p i5 w = Ok decimals /\
  exists clock, clock_get = Ok clock /\ current_pool program_id i1 p clock w.
Proof.
  intros Hx. unfold withdraw_sol_checks in Hx. inv_handler Hx. bool_props.
  split; [done|]. split; [constructor; eauto with contracts|]. split; [done|].
  eexists. split; [eassumption|]. constructor; [by apply load_pool_at|done|done|lia].
Qed.

(** Whether the fee is waived is read off the accounts. *)
Lemma fee_waived_spec p i1 i2 w b w' : fee_waived p i1 i2 w = Ok (b, w') -> w' = w.
Proof. intros Hx. unfold fee_waived in Hx. by inv_run Hx. Qed.

(** The terms of a withdrawal of [t] tokens from [p]: fee and burnt part add up,
    the payout is the exchange rate's and not below what was asked for. *)
Record withdrawal_terms (p : StakePool) (waived : bool) (fee : option Z) (t : Z) (minimum : option Z)
    (a : Withdrawal) : Prop := {
  wt_fee : if waived then pool_tokens_fee a = 0 else fee = Some (pool_tokens_fee a);
  wt_sum : pool_tokens_fee a + pool_tokens_burnt a = t;
  wt_fee_bounds : 0 <= pool_tokens_fee a <= t;
  wt_lamports : calc_lamports_withdraw_amount p (pool_tokens_burnt a) = Some (withdraw_lamports a);
  wt_positive : 0 < withdraw_lamports a;
  wt_slippage m : minimum = Some m -> m <= withdraw_lamports a;
}.

Lemma withdrawal_terms_intro p waived f t m a :
  pool_typed p -> fee_ok f -> is_uint 64 t ->
  withdrawal_amounts p waived (v ← fee_apply f t; try_from 64 v) t m = Ok a ->
  withdrawal_terms p waived (v ← fee_apply f t; try_from 64 v) t m a.
Proof.
  intros Hp Hf Ht Ha. pose proof (withdrawal_fee_nonneg _ _ _ _ _ _ Hf Ht Ha).
  pose proof (withdrawal_burnt_bounds _ _ _ _ _ _ Hf Ht Ha) as Hb.
  apply withdrawal_amounts_Ok in Ha as (Hw & Hs & Hle & Hc & Hz & Hm).
  pose proof (calc_lamports_withdraw_amount_mul _ _ _ Hp Hb Hc) as [Hl _]. unfold is_uint in *.
  constructor; [destruct Hw as [[-> ?]|[-> ?]]; done|lia|lia|done|lia|done].
Qed.

(** The reserve keeps its minimum. *)
Definition reserve_remains (reserve : AccountInfo) (n : Z) (w : World) : Prop :=
  exists meta, load_stake_state reserve w = Ok (StakeInitialized meta) /\
    (0 < minimum_reserve_lamports meta -> n + minimum_reserve_lamports meta <= lamports_of reserve w).

Lemma check_reserve_remains_spec i n w u w' :
  check_reserve_remains i n w = Ok (u, w') -> w' = w /\ reserve_remains i n w.
Proof.
  intros Hx. unfold check_reserve_remains in Hx. inv_run Hx. destruct v; try done.
  inv_run Hx. bool_props. split; [done|].
  eexists. split; [eassumption|]. unfold saturating_sub in *. lia.
Qed.

(** Burning and paying the fee inside a session. *)
Definition session_burns (program_signer token_program account mint authority manager : AccountInfo)
    (a : Withdrawal) (decimals : Z) : list CpiCall :=
  let signer_seeds := [program_signer_seed; bump (snd (find_program_address [program_signer_seed] program_id))] in
  [mkCall (SessionBurn (key token_program) (key account) (key mint) (key authority)
             (Some (key program_signer)) (pool_tokens_burnt a)) [signer_seeds]] ++
  (if 0 <? pool_tokens_fee a
   then [mkCall (SessionTransferChecked (key token_program) (key account) (key mint) (key manager)
                   (key authority) (Some (key program_signer)) (pool_tokens_fee a) decimals) [signer_seeds]]
   else []).

#[export] Instance emits_burn_with_session i1 i2 i3 i4 i5 i6 a d :
  Emits (burn_with_session program_id i1 i2 i3 i4 i5 i6 a d) (session_burns i1 i2 i3 i4 i5 i6 a d).
Proof.
  unfold burn_with_session, session_burns. destruct (find_program_address _ _) as [k b].
  do 2 (apply (emits_bind _ _ [] _); [apply _|intros _]). apply (emits_bind _ _ [_] _); [apply _|intros _].
  apply emits_when. apply (emits_bind _ _ [] _); apply _.
Qed.

Definition burn_calls (wsol : bool) (signer : presult AccountInfo)
    (token_program account mint authority manager : AccountInfo) (a : Withdrawal) (decimals : Z)
    : list CpiCall :=
  match wsol, signer with
  | true, Ok signer => session_burns signer token_program account mint authority manager a decimals
  | _, _ => withdrawal_burns token_program account mint authority manager a decimals
  end.
#[export] Instance emits_withdraw_burn b s i1 i2 i3 i4 i5 a d :
  Emits (withdraw_burn program_id b s i1 i2 i3 i4 i5 a d) (burn_calls b s i1 i2 i3 i4 i5 a d).
Proof. unfold withdraw_burn, burn_calls. destruct b; [destruct s|]; apply _. Qed.
#[export] Instance emits_fee_waived p i1 i2 : Emits (fee_waived p i1 i2) [].
Proof. apply emits_nothing. by intros w b w' ->%fee_waived_spec. Qed.
#[export] Instance emits_check_reserve_remains i n : Emits (check_reserve_remains i n) [].
Proof. apply emits_nothing. by intros w b w' [-> _]%check_reserve_remains_spec. Qed.

(** A SOL withdrawal: its terms, its effect on the pool and its calls. *)
Definition sol_withdrawn (pool authority transfer_authority burn_from reserve destination manager mint
    token : AccountInfo) (rest : list AccountInfo) (p : StakePool) (t : Z) (minimum : option Z)
    (b : bool) (w w' : World) : Prop :=
  exists a waived decimals,
    fee_waived p burn_from manager w = Ok (waived, w) /\ check_mint p mint w = Ok decimals /\
    withdrawal_terms p waived (calc_pool_tokens_sol_withdrawal_fee p t) t minimum a /\
    reserve_remains reserve (withdraw_lamports a) w /\
    pool_at w' (key pool) = Ok (after_withdraw p (pool_tokens_burnt a) (withdraw_lamports a)) /\
    pool_tokens_burnt a <= pool_token_supply p /\ withdraw_lamports a <= total_lamports p /\
    cpi_log w' = cpi_log w ++
      burn_calls b (fst <$> next_account_info (tail rest)) token burn_from mint transfer_authority manager
        a decimals ++
      [pool_call (key pool) AUTHORITY_WITHDRAW (stake_withdraw_bump_seed p)
         (StakeWithdraw (key reserve) (key authority) (key destination) (withdraw_lamports a))].

Lemma withdraw_sol_spec pool authority transfer_authority burn_from reserve destination manager mint
    clock_info history stake_program token rest t minimum (b : bool) w u w' :
  is_uint 64 t ->
  process_withdraw_sol program_id
    (pool :: authority :: transfer_authority :: burn_from :: reserve :: destination :: manager :: mint ::
     clock_info :: history :: stake_program :: token :: rest) t minimum b w = Ok (u, w') ->
  exists p clock,
    clock_get = Ok clock /\ current_pool program_id pool p clock w /\
    sol_withdrawal_accounts pool authority reserve manager mint token rest p /\
    sol_withdrawn pool authority transfer_authority burn_from reserve destination manager mint token rest
      p t minimum b w w'.
Proof.
  intros Ht Hx. unfold process_withdraw_sol in Hx. inv_handler Hx.
  rename select (withdraw_sol_checks _ _ _ _ _ _ _ _ _ _ = _) into Hck.
  apply withdraw_sol_checks_spec in Hck as (-> & Hacc & Hdec & clock & Hclock & Hcur).
  rename select (fee_waived _ _ _ _ = _) into Hw. pose proof Hw as ->%fee_waived_spec. track_log.
  rename select (check_reserve_remains _ _ _ = _) into Hres.
  apply check_reserve_remains_spec in Hres as [-> Hres].
  rename select (withdrawal_amounts _ _ _ _ _ = _) into Ha.
  pose proof (cp_pool _ _ _ _ _ Hcur) as Hpool. pose proof (pool_at_typed _ _ _ Hpool) as Hty.
  apply withdrawal_terms_intro in Ha; [|done|apply (pt_sol_withdrawal_fee _ Hty)|done].
  rename select (record_withdrawal _ _ _ = _) into Hrec.
  apply record_withdrawal_Ok in Hrec as (-> & Hb1 & Hb2).
  pose proof (wt_positive _ _ _ _ _ _ Ha). pose proof (wt_sum _ _ _ _ _ _ Ha).
  pose proof (wt_fee_bounds _ _ _ _ _ _ Ha).
  eexists _, clock. split; [done|]. split; [exact Hcur|]. split; [exact Hacc|].
  eexists _, _, _. do 4 (split; [eassumption|]). split; [|split; [done|split; [done|solve_log]]].
  eapply store_pool_at; [|exact Hx]. apply after_withdraw_typed; [done|lia..].
Qed.

(** C8: a SOL withdrawal the owner of the tokens signs.  If it succeeds, the
    account is an up-to-date pool of the program, the reserve, fee account, mint,
    token program and withdraw authority are the pool's, and a withdraw
    authority, if set, signed.  Fee and burnt tokens add up to the tokens handed
    in, the fee being that of the fee schedule unless it is waived; the payout
    is the exchange rate's for the burnt tokens, positive, not below what was
    asked for, and leaves the reserve its rent-exempt minimum.  The calls are
    the burn, the transfer of the fee if there is one, and the withdrawal from
    the reserve to the destination; the pool's totals shrink by the payout and
    the burnt tokens. *)
Theorem withdraw_sol_correct pool authority transfer_authority burn_from reserve destination manager mint
    clock_info history stake_program token rest t minimum w u w' :
  is_uint 64 t ->
  process_withdraw_sol program_id
    (pool :: authority :: transfer_authority :: burn_from :: reserve :: destination :: manager :: mint ::
     clock_info :: history :: stake_program :: token :: rest) t minimum false w = Ok (u, w') ->
  exists p clock,
    clock_get = Ok clock /\ current_pool program_id pool p clock w /\
    sol_withdrawal_accounts pool authority reserve manager mint token rest p /\
    sol_withdrawn pool authority transfer_authority burn_from reserve destination manager mint token rest
      p t minimum false w w'.
Proof. intros Ht Hx. exact (withdraw_sol_spec _ _ _ _ _ _ _ _ _ _ _ _ _ _ _ false _ _ _ Ht Hx). Qed.


(** ** Stake *)

Record stake_withdrawal_accounts (pool list authority manager mint token_program : AccountInfo)
    (p : StakePool) : Prop := {
  kwa_authority : create_program_address
    [pk_bytes (key pool); AUTHORITY_WITHDRAW; bump (stake_withdraw_bump_seed p)] program_id
    = Ok (key authority);
  kwa_list : key list = validator_list p;
  kwa_manager : key manager = manager_fee_account p;
  kwa_mint : key mint = pool_mint p;
  kwa_token : key token_program = token_program_id p;
}.

Lemma withdraw_stake_checks_spec i1 i2 i3 i4 i5 i6 i7 clock w p decimals w' :
  withdraw_stake_checks program_id i1 i2 i3 i4 i5 i6 i7 clock w = Ok ((p, decimals), w') ->
  w' = w /\ stake_withdrawal_accounts i1 i2 i3 i4 i5 i6 p /\ check_mint p i5 w = Ok decimals /\
  current_pool program_id i1 p clock w.
Proof.
  intros Hx. unfold withdraw_stake_checks in Hx. inv_handler Hx. bool_props.
  split; [done|]. split; [constructor; eauto with contracts|]. split; [done|].
  constructor; [by apply load_pool_at|done|done|lia].
Qed.

(** Some active validator has more than [n] lamports of active, or transient, stake. *)
Definition has_active_above (vl : ValidatorList) (n : Z) : bool :=
  existsb (fun v => (n <? uint_of_array (active_stake_lamports v)) && vsi_is_active v) (validators vl).
Definition has_transient_above (vl : ValidatorList) (n : Z) : bool :=
  existsb (fun v => (n <? uint_of_array (transient_stake_lamports v)) && vsi_is_active v) (validators vl).

Lemma and_active_decides p P : decides p P -> decides (and_active p) (fun v => P v && vsi_is_active v).
Proof.
  intros Hp v. unfold and_active. rewrite (Hp v). cbn. destruct (P v); [apply is_active_decides|done].
Qed.

Lemma find_active_spec vl d n o :
  vec_rep (validators vl) d -> vec_find (and_active (active_lamports_greater_than n)) d = Ok o ->
  bool_decide (is_Some o) = has_active_above vl n.
Proof. intros Hr. exact (find_some_spec _ _ _ _ _ Hr (and_active_decides _ _ (active_greater_decides n))). Qed.
Lemma find_transient_spec vl d n o :
  vec_rep (validators vl) d -> vec_find (and_active (transient_lamports_greater_than n)) d = Ok o ->
  bool_decide (is_Some o) = has_transient_above vl n.
Proof. intros Hr. exact (find_some_spec _ _ _ _ _ Hr (and_active_decides _ _ (transient_greater_decides n))). Qed.

(** A preferred validator that has stake above [n] is used first. *)
Definition preference_respected (p : StakePool) (vl : ValidatorList) (vote : Pubkey) (n : Z) : Prop :=
  forall q v, preferred_withdraw_validator_vote_address p = Some q -> vl_find vl q = Some v ->
    n < uint_of_array (active_stake_lamports v) -> q = vote.

Lemma check_preferred_withdraw_spec p vl d vote n u :
  vec_rep (validators vl) d -> check_preferred_withdraw p d vote n = Ok u ->
  preference_respected p vl vote n.
Proof.
  intros Hr Hc q v Hq Hv Hn. unfold check_preferred_withdraw in Hc. rewrite Hq in Hc.
  rewrite (vec_find_list_find _ _ _ _ Hr (memcmp_pubkey_decides q)) in Hc.
  unfold vl_find in Hv. rewrite <- (list_find_bool (fun v => vote_account_address v =?ₖ q)) in Hv
    by (intros; apply pubkey_eqb_true).
  rewrite Hv in Hc. cbn in Hc. apply err_if_Ok in Hc. unfold saturating_sub in Hc.
  destruct (q =?ₖ vote) eqn:E; [by bool_props|]. simpl in Hc. lia.
Qed.

(** The bounds of a withdrawal of stake from the account [from]: what must stay
    in it, and the same with the tolerance of one pool token. *)
Record withdrawal_bounds (from : AccountInfo) (p : StakePool) (w : World) (state : StakeStateV2)
    (meta : Meta) (required per_token : Z) : Prop := {
  wb_state : load_stake_state from w = Ok state;
  wb_meta : stake_state_meta state = Some meta;
  wb_required : exists n, get_minimum_delegation = Ok n /\ required = minimum_stake_lamports meta n;
  wb_per_token : get_lamports_per_pool_token p = Some per_token;
}.

(** Where the stake comes from: the pool and list after it is taken, and how much
    is taken for the [n] lamports of the withdrawal. *)
Inductive stake_taken (pool from : AccountInfo) (p : StakePool) (vl : ValidatorList) (n : Z) (w : World)
    (state : StakeStateV2) (meta : Meta) (required per_token : Z)
    : StakePool -> Z -> ValidatorList -> Prop :=
| TakenReserve :
    key from = reserve_stake p ->
    has_active_above vl (saturating_add 64 required per_token) = false ->
    has_transient_above vl (saturating_add 64 required per_token) = false ->
    minimum_reserve_lamports meta <= saturating_sub (lamports_of from w) n ->
    stake_taken pool from p vl n w state meta required per_token p n vl
| TakenActive d i v :
    stake_state_delegation state = Some d -> entry_at vl (voter_pubkey d) i v ->
    status v = status_into_pod Active ->
    preference_respected p vl (voter_pubkey d) (saturating_add 64 required per_token) ->
    has_active_above vl (saturating_add 64 required per_token) = true ->
    key from = fst (find_stake_program_address program_id (voter_pubkey d) (key pool)
                      (nonzero (uint_of_array (validator_seed_suffix v)))) ->
    required <= saturating_sub (lamports_of from w) n ->
    n <= uint_of_array (active_stake_lamports v) ->
    stake_taken pool from p vl n w state meta required per_token p n
      (with_entry vl i (v <| active_stake_lamports :=
         array_of_uint 8 (uint_of_array (active_stake_lamports v) - n) |>))
| TakenTransient d i v :
    stake_state_delegation state = Some d -> entry_at vl (voter_pubkey d) i v ->
    status v = status_into_pod Active ->
    preference_respected p vl (voter_pubkey d) (saturating_add 64 required per_token) ->
    has_active_above vl (saturating_add 64 required per_token) = false ->
    has_transient_above vl (saturating_add 64 required per_token) = true \/
      uint_of_array (transient_stake_lamports v) <> 0 ->
    key from = fst (find_transient_stake_program_address program_id (voter_pubkey d) (key pool)
                      (uint_of_array (transient_seed_suffix v))) ->
    required <= saturating_sub (lamports_of from w) n ->
    n <= uint_of_array (transient_stake_lamports v) ->
    stake_taken pool from p vl n w state meta required per_token p n
      (with_entry vl i (v <| transient_stake_lamports :=
         array_of_uint 8 (uint_of_array (transient_stake_lamports v) - n) |>))
| TakenWhole d i v :
    stake_state_delegation state = Some d -> entry_at vl (voter_pubkey d) i v ->
    status v = status_into_pod Active ->
    preference_respected p vl (voter_pubkey d) (saturating_add 64 required per_token) ->
    has_active_above vl (saturating_add 64 required per_token) = false ->
    has_transient_above vl (saturating_add 64 required per_token) = false ->
    uint_of_array (transient_stake_lamports v) = 0 ->
    key from = fst (find_stake_program_address program_id (voter_pubkey d) (key pool)
                      (nonzero (uint_of_array (validator_seed_suffix v)))) ->
    lamports_of from w <= n <= saturating_add 64 (lamports_of from w) per_token ->
    uint_of_array (active_stake_lamports v) = lamports_of from w ->
    stake_taken pool from p vl n w state meta required per_token
      (reset_preferred p (voter_pubkey d)) (lamports_of from w)
      (with_entry vl i (v <| active_stake_lamports := array_of_uint 8 0 |>
                          <| status := status_into_pod ReadyForRemoval |>)).

(** The list after the entry [o] was updated for [n] lamports. *)
Definition taken_entry (vl : ValidatorList) (o : option (nat * ValidatorStakeInfo * StakeWithdrawSource))
    (n : Z) (vl' : ValidatorList) : Prop :=
  match o with
  | None => vl' = vl
  | Some (off, v, source) =>
      exists i v', off = entry_offset i /\ validators vl !! i = Some v /\
        entry_after_withdrawal v source n = Ok v' /\ vl' = with_entry vl i v'
  end.

(** The withdrawal from an entry's account. *)
Lemma entry_taken pool from p vl n w state meta required per d i v source q n' v' :
  stake_state_delegation state = Some d -> entry_at vl (voter_pubkey d) i v ->
  status v = status_into_pod Active ->
  preference_respected p vl (voter_pubkey d) (saturating_add 64 required per) ->
  withdraw_source program_id (key pool) from v (voter_pubkey d)
    (has_active_above vl (saturating_add 64 required per))
    (has_transient_above vl (saturating_add 64 required per)) = Ok source ->
  withdraw_from_entry source p (voter_pubkey d) (lamports_of from w) required per n = Ok (q, n') ->
  entry_after_withdrawal v source n' = Ok v' ->
  stake_taken pool from p vl n w state meta required per q n' (with_entry vl i v').
Proof.
  intros Hd Hi Hact Hpref Hs Hw He. unfold withdraw_source in Hs.
  destruct (has_active_above _ _) eqn:Ha; [|destruct (_ || _) eqn:Hb]; inv_ok Hs;
    unfold withdraw_from_entry in Hw; inv_ok Hw; unfold entry_after_withdrawal in He; inv_ok He; bool_props;
    repeat match goal with H : calc (checked_sub _ _) = Ok _ |- _ =>
      apply calc_Ok, checked_sub_Some in H as [-> ?] end; subst.
  - eapply TakenActive; eauto with contracts.
  - eapply TakenTransient; eauto with contracts lia.
    + destruct (has_transient_above _ _); [by left|right]. simpl in Hb. lia.
    + rename select (check_transient_stake_address _ _ _ _ _ = _) into Hc.
      apply check_transient_stake_address_Ok in Hc. by rewrite <- Hc.
  - rename select (uint_of_array (active_stake_lamports v) - _ = 0) into Hz. rewrite Hz.
    eapply TakenWhole; eauto with contracts lia.
Qed.

Lemma entry_offset_inj i j : entry_offset i = entry_offset j -> i = j.
Proof. unfold entry_offset, VSI_LEN. lia. Qed.

Lemma withdraw_stake_source_spec pool from p vl d n w q n' o w' :
  vec_rep (validators vl) d ->
  withdraw_stake_source program_id pool from p d n w = Ok ((q, n', o), w') ->
  w' = w /\
  (forall off v source, o = Some (off, v, source) ->
     exists i, off = entry_offset i /\ validators vl !! i = Some v) /\
  exists state meta required per, withdrawal_bounds from p w state meta required per /\
    forall vl', taken_entry vl o n' vl' -> stake_taken pool from p vl n w state meta required per q n' vl'.
Proof.
  intros Hr Hx. unfold withdraw_stake_source in Hx. inv_run Hx;
    rename select (calc _ = Ok _) into Hper; apply calc_Ok in Hper;
    repeat match goal with H : vec_find (and_active _) _ = Ok _ |- _ =>
      apply (find_active_spec _ _ _ _ Hr) in H || apply (find_transient_spec _ _ _ _ Hr) in H; rewrite H in * end.
  - rename select (check_reserve_source _ _ _ _ _ _ = _) into Hck.
    unfold check_reserve_source in Hck. inv_run Hck. bool_props. split; [done|]. split; [done|].
    eexists _, _, _, _. split; [constructor; eauto|]. intros vl' ->. apply TakenReserve; [done|done|done|lia].
  - rename select (vec_find_mut _ _ = _) into Hf.
    destruct (find_mut_spec _ _ _ _ _ Hr Hf) as (i & -> & Hi).
    split; [done|]. split; [intros off v' source [=<- <- <-]; exists i; split; [done|apply Hi]|].
    eexists _, _, _, _. split; [constructor; eauto|].
    intros vl' (j & v' & <-%entry_offset_inj & _ & He & ->).
    rename select (check_preferred_withdraw _ _ _ _ = _) into Hp.
    eapply check_preferred_withdraw_spec in Hp; [|exact Hr].
    rename select (negb _ = false) into Hact. apply negb_false_iff, bool_decide_eq_true in Hact.
    eapply entry_taken; eassumption.
Qed.

(** The write of the updated entry. *)
Lemma write_taken_entry list vl o n k w u w' :
  holds_list program_id (key list) vl w -> key list <> k ->
  (forall off v source, o = Some (off, v, source) ->
     exists i, off = entry_offset i /\ validators vl !! i = Some v) ->
  match o with
  | Some (off, v, source) => v ← lift (entry_after_withdrawal v source n); assign_entry list off v
  | None => mret tt
  end w = Ok (u, w') ->
  pool_at w' k = pool_at w k /\ cpi_log w' = cpi_log w /\
  exists vl', taken_entry vl o n vl' /\ holds_list program_id (key list) vl' w'.
Proof.
  intros Hvl Hk Ho Hx. destruct o as [[[off v] source]|]; inv_run Hx; [|split; [done|]; split; [done|]; by exists vl].
  destruct (Ho _ _ _ eq_refl) as (i & -> & Hi). split; [by eapply pool_at_assign|].
  split; [track_log; solve_log|]. eexists. split; [by eexists _, _|]. by eapply assign_entry_spec.
Qed.

Lemma stake_taken_facts pool from p vl n w state meta required per q n' vl' :
  0 <= n -> 0 <= lamports_of from w ->
  stake_taken pool from p vl n w state meta required per q n' vl' ->
  preferred_reset p q /\ 0 <= n' <= n /\ stake_withdraw_bump_seed q = stake_withdraw_bump_seed p.
Proof.
  intros Hn Hl []; (split; [apply preferred_reset_refl || apply reset_preferred_reset|]); split; try lia; try done.
  unfold reset_preferred. by do 2 case_bool_decide.
Qed.

(** C9: a stake withdrawal.  If it succeeds on a pool whose list account holds
    [vl], the pool is up to date and the accounts are the pool's; the terms of
    the withdrawal are those of the fee schedule and the exchange rate; the stake
    comes from the reserve only when no validator has stake left, otherwise from
    the account of an active validator of the list, the preferred one while it
    has stake, from active stake before transient stake, and the whole account
    only when that is all the validator has.  What is taken is split off to the
    user's account, whose authorities become the user's; exactly the burnt
    tokens and the lamports taken leave the pool's totals, the entry of the list
    shrinks by the lamports taken and is marked for removal when it is emptied. *)
Theorem withdraw_stake_correct `{!RuntimeLaws R program_id} pool list authority from to user
    transfer_authority burn_from manager mint clock_info token stake_program rest vl t minimum w u w' :
  is_uint 64 t -> holds_list program_id (key list) vl w ->
  process_withdraw_stake program_id
    (pool :: list :: authority :: from :: to :: user :: transfer_authority :: burn_from :: manager ::
     mint :: clock_info :: token :: stake_program :: rest) t minimum w = Ok (u, w') ->
  exists p q clock a waived decimals n vl' w1 state meta required per,
    clock_from clock_info w = Ok clock /\ current_pool program_id pool p clock w /\
    stake_withdrawal_accounts pool list authority manager mint token p /\
    accounts w1 = accounts w /\ fee_waived p burn_from manager w1 = Ok (waived, w1) /\
    check_mint p mint w = Ok decimals /\
    withdrawal_terms p waived (calc_pool_tokens_stake_withdrawal_fee p t) t minimum a /\
    withdrawal_bounds from p w1 state meta required per /\
    stake_taken pool from p vl (withdraw_lamports a) w1 state meta required per q n vl' /\
    pool_at w' (key pool) = Ok (after_withdraw q (pool_tokens_burnt a) n) /\
    holds_list program_id (key list) vl' w' /\
    cpi_log w' = cpi_log w ++
      [user_call (TokenBurn (key token) (key burn_from) (key mint) (key transfer_authority)
         (pool_tokens_burnt a));
       pool_call (key pool) AUTHORITY_WITHDRAW (stake_withdraw_bump_seed p)
         (StakeSplit (key from) (key authority) n (key to));
       pool_call (key pool) AUTHORITY_WITHDRAW (stake_withdraw_bump_seed p)
         (StakeAuthorizeIx (key to) (key authority) (key user) AuthorizeStaker);
       pool_call (key pool) AUTHORITY_WITHDRAW (stake_withdraw_bump_seed p)
         (StakeAuthorizeIx (key to) (key authority) (key user) AuthorizeWithdrawer)] ++
      (if 0 <? pool_tokens_fee a
       then [user_call (TokenTransferChecked (key token) (key burn_from) (key mint) (key manager)
               (key transfer_authority) (pool_tokens_fee a) decimals)]
       else []).
Proof.
  intros Ht Hvl Hx. unfold process_withdraw_stake in Hx. inv_handler Hx.
  rename select (withdraw_stake_checks _ _ _ _ _ _ _ _ _ _ = _) into Hck.
  apply withdraw_stake_checks_spec in Hck as (-> & Hacc & Hdec & Hcur).
  rename select (open_validator_list _ _ = _) into Hop.
  destruct (open_list_spec _ _ _ _ _ _ Hvl Hop) as (-> & Hrep & _).
  rename select (fee_waived _ _ _ _ = _) into Hw. pose proof Hw as ->%fee_waived_spec.
  rename select (withdraw_stake_source _ _ _ _ _ _ _ = _) into Hsrc.
  apply (withdraw_stake_source_spec _ _ _ vl) in Hsrc as (-> & Ho & state & meta & required & per & Hb & Htaken);
    [|exact Hrep].
  pose proof (cp_pool _ _ _ _ _ Hcur) as Hpool. pose proof (pool_at_typed _ _ _ Hpool) as Hty.
  pose proof (open_list_ne _ _ _ _ _ _ _ Hpool (cp_valid _ _ _ _ _ Hcur) Hop) as Hne.
  rename select (withdrawal_amounts _ _ _ _ _ = _) into Ha.
  apply withdrawal_terms_intro in Ha; [|done|apply (pt_stake_withdrawal_fee _ Hty)|done].
  track_list. track_log. rename select (store _ _ _ = _) into Hst.
  eapply store_keeps_list in Hst as Hvl8; [|exact (not_eq_sym Hne)|eassumption].
  match type of Hx with _ ?wd = _ =>
    match goal with H : _ = Ok (_, wd) |- _ => rename H into Hwr end end.
  eapply write_taken_entry in Hwr as (Hpk & Hlg & vl' & Hvl' & Hl'); [|exact Hvl8|exact Hne|exact Ho].
  specialize (Htaken _ Hvl').
  pose proof (wt_positive _ _ _ _ _ _ Ha). pose proof (wt_sum _ _ _ _ _ _ Ha).
  pose proof (wt_fee_bounds _ _ _ _ _ _ Ha).
  assert (is_uint 64 (lamports_of from w1)) by (eapply holds_list_lamports; eassumption).
  apply stake_taken_facts in Htaken as Hfacts; [|lia|unfold is_uint in *; lia].
  destruct Hfacts as (Hpr & Hn & Hbump). rewrite Hbump in *.
  rename select (record_withdrawal _ _ _ = _) into Hrec. apply record_withdrawal_Ok in Hrec as (-> & Hb1 & Hb2).
  pose proof (preferred_reset_totals _ _ Hpr) as [Ht1 Ht2].
  eexists _, _, _, _, _, _, _, vl', w1, _, _, _, _. split_and!; try eassumption.
  - apply (open_validator_list_Ok _ _ _ _ _ Hop).
  - rewrite (pool_at_drop _ _ _ _ _ Hx), Hpk. eapply store_pool_at; [|exact Hst].
    apply after_withdraw_typed; [by eapply preferred_reset_typed|lia..].
  - eapply (holds_list_keeps (drop_borrow_mut list)); [exact Hl'|exact Hx].
  - solve_log.
Qed.
End WithdrawCorrect.

(** ** Witnesses *)
Section WithdrawWitnesses.
Import Demo Scenario.

Definition sol_withdrawal_run : presult (unit * World) :=
  process_withdraw_sol (H:=demo) program
    [w_info pool_key; r_info withdraw_authority; s_info user_key; w_info user_tokens_key;
     w_info reserve_key; w_info user_key; w_info fee_key; w_info mint_key; clock_info; clock_info;
     r_info stake_id; r_info token_id] 1000000 None false world.

Lemma withdraw_sol_correct_witness :
  exists p, sol_withdrawn (R:=demo) program (w_info pool_key) (r_info withdraw_authority) (s_info user_key)
    (w_info user_tokens_key) (w_info reserve_key) (w_info user_key) (w_info fee_key) (w_info mint_key)
    (r_info token_id) [] p 1000000 None false world (world_after world sol_withdrawal_run).
Proof.
  assert (Ht : is_uint 64 1000000) by (unfold is_uint; lia).
  assert (Hx : sol_withdrawal_run = Ok (tt, world_after world sol_withdrawal_run))
    by (apply world_after_Ok; vm_compute; reflexivity).
  unfold sol_withdrawal_run in Hx.
  destruct (withdraw_sol_correct (R:=demo) program _ _ _ _ _ _ _ _ _ _ _ _ _ _ _ _ _ _ Ht Hx)
    as (p & clock & _ & _ & _ & Hw).
  exists p. exact Hw.
Defined.

Definition wsol_withdrawal_run : presult (unit * World) :=
  process_withdraw_wsol_with_session (H:=demo) program
    [w_info pool_key; r_info withdraw_authority; s_info user_key; w_info user_tokens_key;
     w_info reserve_key; w_info wsol_key; w_info fee_key; w_info mint_key; clock_info; clock_info;
     r_info stake_id; r_info token_id; r_info native_mint_id; s_info user_key; r_info user_key;
     r_info system_id; r_info signer_key; r_info (associated_token_program_id (Runtime:=demo))]
    1000000 wsol_world.


Definition stake_withdrawal_run : presult (unit * World) :=
  process_withdraw_stake (H:=demo) program
    [w_info pool_key; w_info list_key; r_info withdraw_authority; w_info (stake_address vote1);
     w_info user_stake_key; r_info user_key; s_info user_key; w_info user_tokens_key; w_info fee_key;
     w_info mint_key; clock_info; r_info token_id; r_info stake_id] 1000000 None world.

Lemma withdraw_stake_correct_witness :
  exists a q n vl' w1 state meta required per,
    stake_taken (R:=demo) program (w_info pool_key) (w_info (stake_address vote1)) pool vlist
      (withdraw_lamports a) w1 state meta required per q n vl' /\
    holds_list program list_key vl' (world_after world stake_withdrawal_run).
Proof.
  assert (Ht : is_uint 64 1000000) by (unfold is_uint; lia).
  assert (Hx : stake_withdrawal_run = Ok (tt, world_after world stake_withdrawal_run))
    by (apply world_after_Ok; vm_compute; reflexivity).
  unfold stake_withdrawal_run in Hx.
  destruct ((fun Hl => withdraw_stake_correct (R:=demo) program _ _ _ _ _ _ _ _ _ _ _ _ _ _ vlist _ _ _ _ _
               Ht Hl Hx) world_holds_list)
    as (p & q & clock & a & waived & decimals & n & vl' & w1 & state & meta & required & per &
        _ & Hcur & _ & _ & _ & _ & _ & _ & Hs & _ & Hl & _).
  pose proof (cp_pool _ _ _ _ _ Hcur : pool_at (H:=demo) world pool_key = Ok p) as Hp.
  rewrite world_pool_at in Hp. injection Hp as <-.
  exists a, q, n, vl', w1, state, meta, required, per. exact (conj Hs Hl).
Defined.
End WithdrawWitnesses.
