(* ===== verification/UpdateCorrect.v ===== *)
(** * Correctness of the epoch updates

    The balance update, the cleanup and the update of the list, and that a leaving
    validator reaches its removal. *)

From S2P Require Import Prelude Errors Fees Pool BigVec Borsh ValidatorList Runtime Platform Checks.
From S2P Require Import Scenario Admin Tracking Deposit Withdraw Validators Update Init Instruction.
From S2P Require Import Process Trace Spec StakerSteps Contracts.

Section UpdateCorrect.
Context {R : Runtime}.
Variable program_id : Pubkey.

(** ** UpdateStakePoolBalance *)

Record update_pool_accounts (pool authority list reserve manager mint token_program : AccountInfo)
    (p : StakePool) : Prop := {
  upa_authority : create_program_address
    [pk_bytes (key pool); AUTHORITY_WITHDRAW; bump (stake_withdraw_bump_seed p)] program_id
    = Ok (key authority);
  upa_list : key list = validator_list p;
  upa_reserve : key reserve = reserve_stake p;
  upa_manager : key manager = manager_fee_account p;
  upa_mint : key mint = pool_mint p;
  upa_token : key token_program = token_program_id p;
}.

Lemma update_pool_checks_spec i1 i2 i3 i4 i5 i6 i7 w p w' :
  update_pool_checks program_id i1 i2 i3 i4 i5 i6 i7 w = Ok (p, w') ->
  w' = w /\ update_pool_accounts i1 i2 i3 i4 i5 i6 i7 p /\
  pool_at w (key i1) = Ok p /\ owner_of i1 w = program_id /\ pool_is_valid p = true.
Proof.
  intros Hx. unfold update_pool_checks in Hx. inv_handler Hx. bool_props.
  split; [done|]. split; [constructor; eauto with contracts|].
  split; [by apply load_pool_at|done].
Qed.

(** The lamports of all entries. *)
Definition entry_lamports (v : ValidatorStakeInfo) : Z :=
  uint_of_array (active_stake_lamports v) + uint_of_array (transient_stake_lamports v).
Definition staked (vs : list ValidatorStakeInfo) : Z := foldr (fun v n => entry_lamports v + n) 0 vs.
(** The entry was updated in the epoch [e]. *)
Definition entry_current (e : Z) (v : ValidatorStakeInfo) : Prop :=
  e <= uint_of_array (vsi_last_update_epoch v).

(** The sum succeeds exactly when the entries are up to date and the sum fits. *)
Lemma sum_validators_Ok e vs : forall t n,
  sum_validators e t vs = Ok n ->
  Forall (entry_current e) vs /\ n = t + staked vs /\ (vs = [] \/ n < 2 ^ 64).
Proof.
  induction vs as [|v vs IH]; intros t n Hs; simpl in Hs.
  - injection Hs as <-. split; [done|]. simpl. auto with lia.
  - inv_ok Hs. rename select (stake_lamports _ = _) into Hl. apply stake_lamports_Ok in Hl as ->.
    rename select (calc _ = _) into Ha. apply calc_Ok, checked_add_Some in Ha as [-> Ha].
    apply IH in Hs as (Hcur & -> & Hfit). split; [constructor; [|done]; unfold entry_current; bool_props; lia|].
    split; [simpl; unfold entry_lamports; lia|]. right. destruct Hfit as [->|Hfit]; simpl; [lia|done].
Qed.

(** An entry that was not updated this epoch stops the sum. *)
Lemma sum_validators_stale e vs t v :
  v ∈ vs -> uint_of_array (vsi_last_update_epoch v) < e -> is_Ok (sum_validators e t vs) = false.
Proof.
  intros Hv He. destruct (sum_validators e t vs) as [n| |] eqn:E; [|done..].
  apply sum_validators_Ok in E as [Hc _]. rewrite Forall_forall in Hc. specialize (Hc _ Hv).
  unfold entry_current in Hc. lia.
Qed.

Lemma epoch_fee_tokens_spec p i r w n w' :
  epoch_fee_tokens p i r w = Ok (n, w') ->
  w' = w /\ (if is_Ok (check_manager_fee_info p i w) then calc_epoch_fee_amount p r = Some n else n = 0).
Proof.
  intros Hx. unfold epoch_fee_tokens in Hx. inv_run Hx.
  - rewrite Hr, Hc. split; [done|]. by apply calc_Ok.
  - by rewrite Hc.
Qed.
#[export] Instance emits_epoch_fee_tokens p i r : Emits (epoch_fee_tokens p i r) [].
Proof. apply emits_nothing. by intros w a w' [-> _]%epoch_fee_tokens_spec. Qed.
#[export] Instance emits_reserve_excess i : Emits (reserve_excess i) [].
Proof. apply emits_nothing. by intros w a w' [-> _]%reserve_excess_Ok. Qed.

(** The list as it is read for the sum. *)
Lemma read_all_spec vl d n vs :
  vec_rep (validators vl) d -> vec_len d = Ok n ->
  deserialize_slice (T:=ValidatorStakeInfo) 0 n d = Ok vs -> vs = validators vl.
Proof.
  intros Hr Hn Hs. rewrite (vec_len_rep _ _ Hr) in Hn. injection Hn as <-. unfold deserialize_slice in Hs.
  rewrite (deserialize_mut_slice_rep _ _ 0 _ Hr) in Hs by lia. cbn in Hs. injection Hs as <-.
  by rewrite firstn_all.
Qed.

(** What the pool is worth: the reserve above its minimum and the stake of the
    list, as seen in [w]. *)
Definition pool_worth (reserve : AccountInfo) (vl : ValidatorList) (w : World) (n : Z) : Prop :=
  exists meta, load_stake_state reserve w = Ok (StakeInitialized meta) /\
    minimum_reserve_lamports meta <= lamports_of reserve w /\
    n = lamports_of reserve w - minimum_reserve_lamports meta + staked (validators vl).

(** What a successful balance update did to the pool and its list [vl]. *)
Definition balance_updated (pool authority list reserve manager mint token : AccountInfo)
    (vl : ValidatorList) (w w' : World) : Prop :=
  exists p clock total fee w1 w2 m,
    clock_get = Ok clock /\ pool_at w (key pool) = Ok p /\ owner_of pool w = program_id /\
    pool_is_valid p = true /\ update_pool_accounts pool authority list reserve manager mint token p /\
    Forall (entry_current (epoch clock)) (validators vl) /\
    accounts w1 = accounts w /\ pool_worth reserve vl w1 total /\ is_uint 64 total /\
    (if is_Ok (check_manager_fee_info p manager w1)
     then calc_epoch_fee_amount p (saturating_sub total (total_lamports p)) = Some fee else fee = 0) /\
    when (0 <? fee)
      (token_mint_to (key pool) AUTHORITY_WITHDRAW (stake_withdraw_bump_seed p) token mint manager
         authority fee) w1 = Ok (tt, w2) /\
    unpack_mint (acc_data (account w2 (key mint))) = Ok m /\
    cpi_log w' = cpi_log w ++
      (if 0 <? fee
       then [pool_call (key pool) AUTHORITY_WITHDRAW (stake_withdraw_bump_seed p)
               (TokenMintTo (key token) (key mint) (key manager) (key authority) fee)]
       else []) /\
    pool_at w' (key pool) =
      Ok (advance_epoch p (epoch clock) (total_lamports p) (pool_token_supply p)
            <| total_lamports := total |> <| pool_token_supply := mint_supply m |>) /\
    holds_list program_id (key list) vl w'.

Lemma update_pool_run `{!RuntimeLaws R program_id} pool authority list reserve manager mint token rest
    vl w u w' :
  holds_list program_id (key list) vl w ->
  process_update_stake_pool_balance program_id
    (pool :: authority :: list :: reserve :: manager :: mint :: token :: rest) w = Ok (u, w') ->
  balance_updated pool authority list reserve manager mint token vl w w'.
Proof.
  intros Hvl Hx. unfold process_update_stake_pool_balance in Hx. inv_handler Hx.
  rename select (update_pool_checks _ _ _ _ _ _ _ _ _ = _) into Hck.
  apply update_pool_checks_spec in Hck as (-> & Hacc & Hpool & Hown & Hval).
  rename select (open_validator_list _ _ = _) into Hop.
  destruct (open_list_spec _ _ _ _ _ _ Hvl Hop) as (-> & Hrep & _). track_list. track_log.
  rename select (reserve_excess _ _ = _) into Hres. pose proof Hres as (-> & meta & Hst & -> & Hmin)%reserve_excess_Ok.
  rename select (deserialize_slice _ _ _ = _) into Hs. eapply read_all_spec in Hs; [|exact Hrep|eassumption]. subst.
  rename select (sum_validators _ _ _ = _) into Hsum.
  pose proof Hsum as (Hfresh & -> & _)%sum_validators_Ok.
  eapply sum_validators_typed in Hsum as Htot;
    [|eapply reserve_excess_typed; [|exact Hres]; by eapply holds_list_lamports].
  rename select (epoch_fee_tokens _ _ _ _ = _) into Hfee. apply epoch_fee_tokens_spec in Hfee as [-> Hfee].
  pose proof (open_list_ne _ _ _ _ _ _ _ Hpool Hval Hop) as Hne.
  rename select (store _ _ _ = _) into Hsto. rename select (hold_borrow _ _ = _) into Hh.
  eapply store_keeps_list in Hsto as Hvl7; [|exact (not_eq_sym Hne)|eassumption]. track_list.
  unfold hold_borrow in Hh. case_bool_decide; [done|]. injection Hh as <- <-.
  rename select (unpack_mint _ = _) into Hm. pose proof (pool_at_typed _ _ _ Hpool) as Hty.
  destruct v7. eexists _, _, _, _, w1, _, _.
  split; [eassumption|]. split; [exact Hpool|]. split; [exact Hown|]. split; [exact Hval|].
  split; [exact Hacc|]. split; [exact Hfresh|]. split; [apply (open_validator_list_Ok _ _ _ _ _ Hop)|].
  split; [exists meta; split; [exact Hst|]; split; [exact Hmin|reflexivity]|]. split; [exact Htot|].
  split; [exact Hfee|]. split; [eassumption|]. split; [exact Hm|]. split; [solve_log|]. split; [|eassumption].
  rewrite (pool_at_drop _ _ _ _ _ Hx). rename select (drop_borrow _ _ = _) into Hdb.
  rewrite (pool_at_drop_shared _ _ _ _ _ Hdb). eapply store_pool_at, Hsto.
  apply pool_typed_totals; [|done|by eapply unpack_mint_typed].
  apply advance_epoch_typed; [done|by eapply clock_typed|apply (pt_total _ Hty)|apply (pt_supply _ Hty)].
Qed.

(** C10: the balance update.  If it succeeds on a pool whose list account holds
    [vl], the accounts are the pool's and every entry of the list was updated in
    the current epoch.  The new total is the reserve above its minimum plus the
    stake of all entries; the fee is the one of the epoch fee on the growth of
    the total, zero if the fee account cannot receive it, and is the only thing
    minted; the token supply is read back from the mint after that.  Pending
    fees advance once per epoch, together with the remembered totals, and the
    list is left alone. *)
Theorem update_pool_correct `{!RuntimeLaws R program_id} pool authority list reserve manager mint token rest
    vl w u w' :
  holds_list program_id (key list) vl w ->
  process_update_stake_pool_balance program_id
    (pool :: authority :: list :: reserve :: manager :: mint :: token :: rest) w = Ok (u, w') ->
  exists p clock total fee w1 w2 m,
    clock_get = Ok clock /\ pool_at w (key pool) = Ok p /\ owner_of pool w = program_id /\
    pool_is_valid p = true /\ update_pool_accounts pool authority list reserve manager mint token p /\
    Forall (entry_current (epoch clock)) (validators vl) /\
    accounts w1 = accounts w /\ pool_worth reserve vl w1 total /\ is_uint 64 total /\
    (if is_Ok (check_manager_fee_info p manager w1)
     then calc_epoch_fee_amount p (saturating_sub total (total_lamports p)) = Some fee else fee = 0) /\
    when (0 <? fee)
      (token_mint_to (key pool) AUTHORITY_WITHDRAW (stake_withdraw_bump_seed p) token mint manager
         authority fee) w1 = Ok (tt, w2) /\
    unpack_mint (acc_data (account w2 (key mint))) = Ok m /\
    cpi_log w' = cpi_log w ++
      (if 0 <? fee
       then [pool_call (key pool) AUTHORITY_WITHDRAW (stake_withdraw_bump_seed p)
               (TokenMintTo (key token) (key mint) (key manager) (key authority) fee)]
       else []) /\
    pool_at w' (key pool) =
      Ok (advance_epoch p (epoch clock) (total_lamports p) (pool_token_supply p)
            <| total_lamports := total |> <| pool_token_supply := mint_supply m |>) /\
    holds_list program_id (key list) vl w'.
Proof. apply update_pool_run. Qed.

(** ** CleanupRemovedValidatorEntries *)

(** A preference survives while the list has the validator as active. *)
Definition still_preferred (vl : ValidatorList) (o : option Pubkey) : option Pubkey :=
  k ← o; v ← vl_find vl k; if vsi_is_active v then Some k else None.

Lemma should_reset_spec vl d k b :
  vec_rep (validators vl) d -> should_reset d k = Ok b ->
  still_preferred vl (Some k) = (if b then None else Some k).
Proof.
  intros Hr Hb. unfold should_reset in Hb.
  rewrite (vec_find_list_find _ _ _ _ Hr (memcmp_pubkey_decides k)) in Hb. cbn in Hb. injection Hb as <-.
  cbn. unfold vl_find.
  rewrite <- (list_find_bool (fun v => vote_account_address v =?ₖ k)) by (intros; apply pubkey_eqb_true).
  destruct (list_find _ _) as [[i v]|]; cbn; [|done]. unfold vsi_is_active. by case_bool_decide.
Qed.

(** One of the two preferences, as a field of the pool. *)
Lemma reset_field_spec (get : StakePool -> option Pubkey) (put : option Pubkey -> StakePool -> StakePool)
    vl d p q :
  (forall p, put (get p) p = p) -> vec_rep (validators vl) d ->
  match get p with
  | Some k => reset ← should_reset d k; Ok (if (reset : bool) then put None p else p)
  | None => Ok p
  end = Ok q -> q = put (still_preferred vl (get p)) p.
Proof.
  intros Hput Hr Hq. specialize (Hput p). destruct (get p) as [k|]; [|injection Hq as <-; symmetry; exact Hput].
  apply bind_Ok in Hq as (b & Hb & [=<-]). rewrite (should_reset_spec _ _ _ _ Hr Hb).
  by destruct b.
Qed.

Lemma check_preferred_spec vl d p q :
  vec_rep (validators vl) d -> check_preferred p d = Ok q ->
  q = p <| preferred_deposit_validator_vote_address :=
            still_preferred vl (preferred_deposit_validator_vote_address p) |>
        <| preferred_withdraw_validator_vote_address :=
            still_preferred vl (preferred_withdraw_validator_vote_address p) |>.
Proof.
  intros Hr Hq. unfold check_preferred in Hq. apply bind_Ok in Hq as (v1 & Hd & Hw).
  apply (reset_field_spec preferred_deposit_validator_vote_address
    (fun o p => p <| preferred_deposit_validator_vote_address := o |>) vl) in Hd; [|by intros []|done].
  apply (reset_field_spec preferred_withdraw_validator_vote_address
    (fun o p => p <| preferred_withdraw_validator_vote_address := o |>) vl) in Hw; [|by intros []|done].
  by rewrite Hd in Hw.
Qed.

(** The list without the entries that are ready to go. *)
Definition cleaned (vl : ValidatorList) : ValidatorList :=
  mkValidatorList (header vl) (kept (fun v => negb (vsi_is_removed v)) (validators vl)).

Lemma retain_spec vl d d' :
  vec_rep (validators vl) d ->
  vec_retain (T:=ValidatorStakeInfo) (fun x => b ← is_removed x; Ok (negb b)) d = Ok d' ->
  vec_rep (validators (cleaned vl)) d'.
Proof.
  intros Hr Hd. destruct (vec_retain_rep (fun x => b ← is_removed x; Ok (negb b))
    (fun v => negb (vsi_is_removed v)) _ _ Hr) as (d'' & Hd'' & Hr' & _).
  - intros v. by rewrite (is_removed_decides v).
  - rewrite Hd in Hd''. by injection Hd'' as ->.
Qed.

(** What a successful cleanup did to the pool and its list [vl]. *)
Definition list_cleaned (pool list : AccountInfo) (vl : ValidatorList) (w w' : World) : Prop :=
  exists p, pool_at w (key pool) = Ok p /\ owner_of pool w = program_id /\ pool_is_valid p = true /\
    key list = validator_list p /\ holds_list program_id (key list) (cleaned vl) w' /\
    cpi_log w' = cpi_log w /\
    pool_at w' (key pool) = Ok (
      if is_writable pool then
        p <| preferred_deposit_validator_vote_address :=
               still_preferred (cleaned vl) (preferred_deposit_validator_vote_address p) |>
          <| preferred_withdraw_validator_vote_address :=
               still_preferred (cleaned vl) (preferred_withdraw_validator_vote_address p) |>
      else p).

Lemma cleanup_runs pool list rest vl w u w' :
  holds_list program_id (key list) vl w ->
  process_cleanup_removed_validator_entries program_id (pool :: list :: rest) w = Ok (u, w') ->
  list_cleaned pool list vl w w'.
Proof.
  intros Hvl Hx. unfold process_cleanup_removed_validator_entries in Hx. inv_handler Hx.
  rename select (open_validator_list _ _ = _) into Hop.
  destruct (open_list_spec _ _ _ _ _ _ Hvl Hop) as (-> & Hrep & _).
  rename select (vec_retain _ _ = _) into Hret. apply (retain_spec vl) in Hret; [|done].
  rename select (write_data _ _ _ = _) into Hwr. rename select (when _ _ _ = _) into Hwh.
  pose proof (load_pool_at _ _ _ Hr1) as Hpool. pose proof (open_list_ne _ _ _ _ _ _ _ Hpool Hv Hop) as Hne.
  assert (Hl1 : holds_list program_id (key list) vl w1)
    by (eapply (holds_list_keeps (open_validator_list list)); eassumption).
  pose proof (write_vec_spec _ _ _ _ _ _ _ Hl1 Hret Hwr) as Hl2.
  pose proof (pool_at_write _ _ _ _ _ _ Hne Hwr) as Hp2. rewrite (pool_at_open _ _ _ _ _ _ Hop), Hpool in Hp2.
  exists v. split; [done|]. split; [done|]. split; [done|]. split; [eauto with contracts|].
  rewrite (pool_at_drop _ _ _ _ _ Hx). apply when_Ok in Hwh as [[Hwt Hwh]|[Hwt ->]]; rewrite Hwt; track_log.
  - inv_run Hwh. track_log. rename select (load StakePool pool w2 = _) into Hld. apply load_pool_at in Hld.
    rewrite Hp2 in Hld. injection Hld as <-. rename select (check_preferred _ _ = _) into Hck.
    pose proof (check_preferred_Ok _ _ _ Hck) as Hres. apply (check_preferred_spec (cleaned vl)) in Hck as ->; [|done].
    split; [|split; [solve_log|]].
    + eapply (holds_list_keeps (drop_borrow_mut list)); [|exact Hx].
      eapply (store_keeps_list (T:=StakePool)); [exact (not_eq_sym Hne)|exact Hl2|exact Hwh].
    + eapply store_pool_at, Hwh. eapply preferred_reset_typed; [exact Hres|by eapply pool_at_typed].
  - split; [by eapply (holds_list_keeps (drop_borrow_mut list))|]. split; [solve_log|done].
Qed.

(** C12: cleaning up.  If it succeeds on a pool whose list account holds [vl],
    the list afterwards has exactly the entries that are not ready for removal,
    in their order, under the same header; the pool forgets a preferred
    validator exactly when the list no longer has it as active (when the pool
    account was passed as writable), nothing else of it changes, and nothing is
    called. *)
Theorem cleanup_correct pool list rest vl w u w' :
  holds_list program_id (key list) vl w ->
  process_cleanup_removed_validator_entries program_id (pool :: list :: rest) w = Ok (u, w') ->
  exists p, pool_at w (key pool) = Ok p /\ owner_of pool w = program_id /\ pool_is_valid p = true /\
    key list = validator_list p /\ holds_list program_id (key list) (cleaned vl) w' /\
    cpi_log w' = cpi_log w /\
    pool_at w' (key pool) = Ok (
      if is_writable pool then
        p <| preferred_deposit_validator_vote_address :=
               still_preferred (cleaned vl) (preferred_deposit_validator_vote_address p) |>
          <| preferred_withdraw_validator_vote_address :=
               still_preferred (cleaned vl) (preferred_withdraw_validator_vote_address p) |>
      else p).
Proof. apply cleanup_runs. Qed.
(** ** UpdateValidatorListBalance *)

(** The account pair of an entry is the derived one. *)
Definition entry_accounts (c : UpdateContext) (v : ValidatorStakeInfo) (stake transient : AccountInfo) : Prop :=
  key stake = fst (find_stake_program_address program_id (vote_account_address v)
                     (key (uc_stake_pool_info c)) (nonzero (uint_of_array (validator_seed_suffix v)))) /\
  key transient = fst (find_transient_stake_program_address program_id (vote_account_address v)
                         (key (uc_stake_pool_info c)) (uint_of_array (transient_seed_suffix v))).

(** How the status of an entry may move: a leaving validator only comes closer
    to its removal, and none is brought back. *)
Definition status_moves (b b' : byte) : Prop :=
  b' = b \/ b' = status_into_pod DeactivatingTransient \/ b' = status_into_pod ReadyForRemoval \/
  (b = status_into_pod DeactivatingAll /\ b' = status_into_pod DeactivatingValidator).

(** The entry keeps its identity and is marked as updated. *)
Record entry_refreshed (e : Z) (v v' : ValidatorStakeInfo) : Prop := {
  er_vote : vote_account_address v' = vote_account_address v;
  er_seed : validator_seed_suffix v' = validator_seed_suffix v;
  er_transient_seed : transient_seed_suffix v' = transient_seed_suffix v;
  er_unused : unused v' = unused v;
  er_epoch : vsi_last_update_epoch v' = array_of_uint 8 e;
  er_status : status_moves (status v) (status v');
}.

Definition entry_updated (c : UpdateContext) (v : ValidatorStakeInfo) (stake transient : AccountInfo)
    (v' : ValidatorStakeInfo) : Prop :=
  (~ entry_accounts c v stake transient /\ v' = v) \/
  (entry_accounts c v stake transient /\ entry_refreshed (epoch (uc_clock c)) v v').

(** The run of entries [vs] and their account pairs. *)
Inductive entries_updated (c : UpdateContext)
    : list ValidatorStakeInfo -> list AccountInfo -> list ValidatorStakeInfo -> Prop :=
| EntriesNil : entries_updated c [] [] []
| EntriesCons v vs stake transient stakes v' vs' :
    entry_updated c v stake transient v' -> entries_updated c vs stakes vs' ->
    entries_updated c (v :: vs) (stake :: transient :: stakes) (v' :: vs').

Lemma status_try_from_Ok b s : status_try_from b = Ok s -> b = status_into_pod s.
Proof. unfold status_try_from. destruct b; try done; by intros [=<-]. Qed.

Lemma remove_transient_moves b b' : remove_transient_stake b = Ok b' -> status_moves b b'.
Proof.
  unfold remove_transient_stake. intros Hb. apply bind_Ok in Hb as (s & ->%status_try_from_Ok & [=<-]).
  unfold status_moves. destruct s; simpl; auto.
Qed.

Lemma update_transient_moves c i1 i2 o1 o2 v w b n w' :
  update_transient c i1 i2 o1 o2 v w = Ok ((b, n), w') -> status_moves (status v) b.
Proof.
  intros Hx. unfold update_transient in Hx.
  destruct (_ =? 0); [injection Hx as <- <- <-; by left|].
  destruct o2 as [[|m|m st|]|]; try (injection Hx as <- <- <-; by left); destruct (usable c m);
    try (injection Hx as <- <- <-; by left).
  - destruct (uc_no_merge c); inv_run Hx; [by left|]. by apply remove_transient_moves.
  - inv_run Hx; [by left|]. rename select (update_delegated_transient _ _ _ _ _ _ _ = _) into Hb.
    unfold update_delegated_transient in Hb. inv_run Hb; [by apply remove_transient_moves|by left..].
Qed.

Lemma update_validator_moves c i o b0 t w b n w' :
  update_validator c i o b0 t w = Ok ((b, n), w') ->
  b = b0 \/ b = status_into_pod DeactivatingTransient \/ b = status_into_pod ReadyForRemoval.
Proof.
  intros Hx. unfold update_validator in Hx.
  destruct o as [[|m|m st|]|]; try (injection Hx as <- <- <-; by left); destruct (usable c m);
    try (injection Hx as <- <- <-; by left).
  - inv_run Hx. destruct (_ =? 0); auto.
  - unfold update_delegated_validator in Hx. inv_run Hx. rename select (status_try_from b0 = Ok _) into Hs.
    apply status_try_from_Ok in Hs as ->.
    destruct v0; inv_run Hx; try (by left); rename select (remove_validator_stake _ = _) into Hrm;
      cbn in Hrm; injection Hrm as <-; auto.
Qed.

Lemma check_addresses_spec c v i1 i2 :
  is_err (check_validator_stake_address program_id (key (uc_stake_pool_info c)) (key i1)
            (vote_account_address v) (nonzero (uint_of_array (validator_seed_suffix v))))
  || is_err (check_transient_stake_address program_id (key (uc_stake_pool_info c)) (key i2)
               (vote_account_address v) (uint_of_array (transient_seed_suffix v))) = false <->
  entry_accounts c v i1 i2.
Proof.
  unfold entry_accounts, check_validator_stake_address, check_transient_stake_address.
  destruct (find_stake_program_address _ _ _ _) as [a1 b1].
  destruct (find_transient_stake_program_address _ _ _ _) as [a2 b2]. simpl.
  destruct (a1 =?ₖ key i1) eqn:E1, (a2 =?ₖ key i2) eqn:E2; simpl; bool_props; split; try done;
    intros [? ?]; congruence.
Qed.

Lemma update_entry_spec c v i1 i2 w v' w' :
  update_entry program_id c v i1 i2 w = Ok (v', w') -> entry_updated c v i1 i2 v'.
Proof.
  intros Hx. unfold update_entry in Hx. destruct (_ || _) eqn:E.
  - injection Hx as <- <-. left. split; [|done]. intros Ha%check_addresses_spec. congruence.
  - apply check_addresses_spec in E. right. split; [done|]. inv_run Hx.
    rename select (update_transient _ _ _ _ _ _ _ = _) into Ht. apply update_transient_moves in Ht.
    rename select (update_validator _ _ _ _ _ _ = _) into Hval. apply update_validator_moves in Hval.
    constructor; try done. simpl. unfold status_moves in *. naive_solver.
Qed.

Lemma entry_offset_S i : (entry_offset i + VSI_LEN)%nat = entry_offset (S i).
Proof. unfold entry_offset. lia. Qed.

(** The entries of a list, replaced from [pre] on. *)
Lemma with_entry_app h pre v vs v' :
  with_entry (mkValidatorList h (pre ++ v :: vs)) (length pre) v' = mkValidatorList h (pre ++ v' :: vs).
Proof. unfold with_entry. simpl. by rewrite insert_app_r_alt, Nat.sub_diag by lia. Qed.

Lemma update_loop_spec `{!RuntimeLaws R program_id} c list h post vs : forall pre stakes w u w',
  length stakes = (2 * length vs)%nat ->
  holds_list program_id (key list) (mkValidatorList h (pre ++ vs ++ post)) w ->
  update_loop program_id c list (entry_offset (length pre)) vs stakes w = Ok (u, w') ->
  exists vs', entries_updated c vs stakes vs' /\
    holds_list program_id (key list) (mkValidatorList h (pre ++ vs' ++ post)) w'.
Proof.
  induction vs as [|v vs IH]; intros pre stakes w u w' Hlen Hvl Hx.
  - destruct stakes; [|done]. injection Hx as _ <-. exists []. split; [constructor|done].
  - destruct stakes as [|i1 [|i2 stakes]]; simpl in Hlen; [lia..|]. cbn [update_loop] in Hx. inv_run Hx.
    rename select (update_entry _ _ _ _ _ _ = _) into He. rename select (assign_entry _ _ _ _ = _) into Ha.
    eapply (holds_list_keeps (update_entry program_id c v i1 i2)) in Hvl; [|exact He].
    eapply assign_entry_spec in Hvl; [|by apply list_lookup_middle|exact Ha].
    simpl in Hvl. rewrite with_entry_app in Hvl. rewrite entry_offset_S in Hx.
    specialize (IH (pre ++ [v0])). rewrite length_app, Nat.add_comm in IH. simpl in IH.
    apply IH in Hx as (vs' & Hvs & Hl); [|lia|by rewrite <- app_assoc].
    exists (v0 :: vs'). split; [|by rewrite <- app_assoc in Hl].
    constructor; [by eapply update_entry_spec|done].
Qed.
(** A run of the list that was read, in place. *)
Lemma read_slice_spec vl d start n off vs :
  vec_rep (validators vl) d -> is_uint 64 start -> is_uint 64 n ->
  vl_deserialize_mut_slice d start n = Ok (off, vs) ->
  exists pre post, validators vl = pre ++ vs ++ post /\ Z.of_nat (length pre) = start /\
    Z.of_nat (length vs) = n /\ off = entry_offset (length pre).
Proof.
  intros Hr Hs Hn Hx. unfold vl_deserialize_mut_slice in Hx.
  destruct (decide (Z.of_nat (length (validators vl)) < start + n)) as [Hlt|Hge].
  { rewrite (deserialize_mut_slice_out_of_range _ _ _ _ Hr Hs Hn Hlt) in Hx. done. }
  unfold is_uint in *. rewrite <- (Z2Nat.id start), <- (Z2Nat.id n) in Hx by lia.
  rewrite (deserialize_mut_slice_rep _ _ _ _ Hr) in Hx by lia. injection Hx as <- <-.
  exists (take (Z.to_nat start) (validators vl)), (drop (Z.to_nat n) (drop (Z.to_nat start) (validators vl))).
  rewrite !take_drop, !length_take, length_drop, !Nat.min_l by lia. split_and!; [done|lia|lia|done].
Qed.

(** What a successful update of the list did to the entries from [start] on. *)
Definition list_updated (stakes : list AccountInfo)
    (pool authority list reserve clock_info history : AccountInfo) (start : Z) (no_merge : bool)
    (vl : ValidatorList) (p : StakePool) (w w' : World) : Prop :=
  exists clock pre vs post vs',
    clock_from clock_info w = Ok clock /\ epoch_rewards_active = Ok false /\ pool_is_valid p = true /\
    key list = validator_list p /\ key reserve = reserve_stake p /\
    create_program_address
      [pk_bytes (key pool); AUTHORITY_WITHDRAW; bump (stake_withdraw_bump_seed p)] program_id
      = Ok (key authority) /\
    validators vl = pre ++ vs ++ post /\ Z.of_nat (length pre) = start /\
    length stakes = (2 * length vs)%nat /\
    entries_updated (mkUpdate pool authority reserve clock_info history p clock no_merge) vs stakes vs' /\
    holds_list program_id (key list) (mkValidatorList (header vl) (pre ++ vs' ++ post)) w' /\
    holds_pool program_id (key pool) p w'.

Lemma update_list_run `{!RuntimeLaws R program_id} pool authority list reserve clock_info history
    stake_program stakes start no_merge vl p w u w' :
  is_uint 32 start -> Z.of_nat (length stakes) < 2 ^ 64 ->
  holds_list program_id (key list) vl w -> holds_pool program_id (key pool) p w ->
  process_update_validator_list_balance program_id
    (pool :: authority :: list :: reserve :: clock_info :: history :: stake_program :: stakes)
    start no_merge w = Ok (u, w') ->
  list_updated stakes pool authority list reserve clock_info history start no_merge vl p w w'.
Proof.
  intros Hstart Hlen Hvl Hp Hx. pose proof Hx as Hst.
  unfold process_update_validator_list_balance in Hx. inv_handler Hx.
  rename select (load StakePool _ _ = _) into Hld. apply load_pool_at in Hld.
  rewrite (holds_pool_at _ _ _ Hp) in Hld. injection Hld as <-.
  apply (update_list_step _ _ _ _ _ _ _ _ Hp Hv) in Hst as (q & Hq & Hst).
  assert (q = p) as -> by (destruct Hst as [->|(? & _ & _ & Hst)]; [done|by inversion Hst]).
  rename select (borrow_mut _ _ = _) into Hb. rename select (deserialize_vec _ = _) into Hd.
  pose proof (holds_list_account _ _ _ Hvl) as (bv & Hbv & _ & Hrep)%deserialize_vec_rep.
  pose proof Hb as Hb'. unfold borrow_mut in Hb'. case_bool_decide; [done|]. injection Hb' as <- _.
  rewrite Hbv in Hd. injection Hd as <- <-. bool_props.
  rename select (vl_deserialize_mut_slice _ _ _ = _) into Hsl.
  apply (read_slice_spec vl) in Hsl as (pre & post & Hvs & Hpre & Hn & ->); [|done|unfold is_uint in *; lia|unfold is_uint; clear - Hlen; Z.div_mod_to_equations; lia].
  eapply (holds_list_keeps (borrow_mut list)) in Hvl; [|exact Hb].
  destruct vl as [h vs0]. simpl in Hvs. subst vs0. rename select (update_loop _ _ _ _ _ _ _ = _) into Hlp.
  assert (length stakes = (2 * length l7)%nat) as Hlen2 by (Z.div_mod_to_equations; lia).
  apply (update_loop_spec _ _ h post) in Hlp as (vs' & Hvs' & Hl'); [|done|exact Hvl].
  eexists _, pre, l7, post, vs'. split_and!; eauto with contracts; [congruence|].
  eapply (holds_list_keeps (drop_borrow_mut list)); [exact Hl'|exact Hx].
Qed.

(** ** Leaving validators leave *)

Lemma observe_run {A} (f : World -> presult A) w : f w <> Panic -> observe f w = Ok (f w, w).
Proof. unfold observe. by destruct (f w). Qed.

Lemma M_bind_run {A B} (m : M A) (f : A -> M B) w a w' : m w = Ok (a, w') -> (m ≫= f) w = f a w'.
Proof. intros Hm. unfold mbind, M_bind. by rewrite Hm. Qed.

Lemma stake_state_ok_run i w :
  load_stake_state i w <> Panic -> stake_state_ok i w = Ok (result_ok (load_stake_state i w), w).
Proof. intros Hn. unfold stake_state_ok. by rewrite (M_bind_run _ _ _ _ _ (observe_run _ _ Hn)). Qed.

(** The absorption of an inactive stake that is leaving. *)
Lemma update_validator_absorbs c i meta st w w' :
  uc_no_merge c = false -> usable c meta = true ->
  stake_is_inactive_without_history st (epoch (uc_clock c)) = true ->
  lamports_of i w <= delegation_stake (delegation st) + rent_exempt_reserve meta ->
  0 <= rent_exempt_reserve meta ->
  merge_into c i (uc_reserve_stake_info c) w = Ok (tt, w') ->
  update_validator c i (Some (StakeStake meta st)) (status_into_pod DeactivatingValidator) 0 w =
    Ok ((status_into_pod ReadyForRemoval, 0), w').
Proof.
  intros Hm Hu Hi Hl Hr Hmerge. unfold update_validator. rewrite Hu. unfold update_delegated_validator.
  rewrite (M_bind_run _ _ w (lamports_of i w) w) by done.
  replace (0 <? _) with false by (unfold saturating_sub; lia).
  rewrite (M_bind_run _ _ w tt w) by done. rewrite (M_bind_run _ _ w DeactivatingValidator w) by done.
  rewrite Hm, Hi. rewrite (M_bind_run _ _ _ _ _ Hmerge). done.
Qed.

End UpdateCorrect.

(** ** Witnesses *)
Section UpdateWitnesses.
Import Demo Scenario.

Definition pool_update_run : presult (unit * World) :=
  process_update_stake_pool_balance (H:=demo) program
    [w_info pool_key; r_info withdraw_authority; w_info list_key; w_info reserve_key; w_info fee_key;
     w_info mint_key; r_info token_id] world.

Lemma update_pool_correct_witness :
  Forall (entry_current EPOCH) (validators vlist) /\
  holds_list program list_key vlist (world_after world pool_update_run).
Proof.
  assert (Hx : pool_update_run = Ok (tt, world_after world pool_update_run))
    by (apply world_after_Ok; vm_compute; reflexivity).
  unfold pool_update_run in Hx.
  destruct ((fun Hl => update_pool_correct (R:=demo) program _ _ _ _ _ _ _ _ vlist _ _ _ Hl Hx) world_holds_list)
    as (p & clock & total & fee & w1 & w2 & m & Hclock & _ & _ & _ & _ & Hcur & _ & _ & _ & _ & _ & _ & _ & _ & Hl).
  injection Hclock as <-. exact (conj Hcur Hl).
Defined.

(** A list with an entry that is ready for removal. *)
Definition leaving_list : ValidatorList :=
  mkValidatorList (header vlist) (entry vote3 0 0 0 EPOCH ReadyForRemoval :: validators vlist).
Definition leaving_world : World := world_of pool leaving_list.
Definition cleanup_run : presult (unit * World) :=
  process_cleanup_removed_validator_entries (H:=demo) program [w_info pool_key; w_info list_key] leaving_world.

Lemma leaving_world_holds_list : holds_list program list_key leaving_list leaving_world.
Proof.
  eapply holds_list_intro; [apply holds_data_intro; vm_compute; reflexivity|vm_compute; reflexivity..].
Qed.

Lemma cleanup_correct_witness :
  cleaned leaving_list = vlist /\
  holds_list program list_key (cleaned leaving_list) (world_after leaving_world cleanup_run).
Proof.
  assert (Hx : cleanup_run = Ok (tt, world_after leaving_world cleanup_run))
    by (apply world_after_Ok; vm_compute; reflexivity).
  unfold cleanup_run in Hx.
  destruct ((fun Hl => cleanup_correct (R:=demo) program _ _ _ leaving_list _ _ _ Hl Hx) leaving_world_holds_list)
    as (p & _ & _ & _ & _ & Hl & _).
  split; [vm_compute; reflexivity|exact Hl].
Defined.

Definition list_update_run : presult (unit * World) :=
  process_update_validator_list_balance (H:=demo) program
    [w_info pool_key; r_info withdraw_authority; w_info list_key; w_info reserve_key; clock_info; clock_info;
     r_info stake_id; w_info (stake_address vote2); w_info (transient_address vote2 7)] 1 false world.


(** The first validator is leaving, and its stake was deactivated two epochs ago. *)
Definition leaving_entry : ValidatorStakeInfo := entry vote1 10000000 0 0 9 DeactivatingValidator.
Definition leaving_context : UpdateContext :=
  mkUpdate (w_info pool_key) (r_info withdraw_authority) (w_info reserve_key) clock_info clock_info pool
    (mkClock EPOCH) false.
Definition deactivated_world : World :=
  world <| accounts :=
    <[stake_address vote1 := stake_account 10000000 (stake_on vote1 10000000 5 8)]> (accounts world) |>.

End UpdateWitnesses.
