(* ===== verification/StakerCorrect.v ===== *)
(** * Correctness of adding and removing validators

    The checks all operations of the staker share, and the two handlers that
    change which validators a pool has. *)

From S2P Require Import Prelude Errors Fees Pool BigVec Borsh ValidatorList Runtime Platform Checks.
From S2P Require Import Scenario Admin Tracking Deposit Withdraw Validators Update Init Instruction.
From S2P Require Import Process Trace Spec StakerSteps Contracts.

Section StakerCorrect.
Context {R : Runtime}.
Variable program_id : Pubkey.

(** What every operation of the staker checks: the staker signed, the pool is up
    to date, and the list and withdraw authority are the pool's. *)
Record staker_accounts (pool staker_info authority list : AccountInfo) (p : StakePool) (clock : Clock)
    (w : World) : Prop := {
  sa_pool : current_pool program_id pool p clock w;
  sa_staker : key staker_info = staker p;
  sa_signed : is_signer staker_info = true;
  sa_authority : create_program_address
    [pk_bytes (key pool); AUTHORITY_WITHDRAW; bump (stake_withdraw_bump_seed p)] program_id
    = Ok (key authority);
  sa_list : key list = validator_list p;
}.

Lemma staker_checks_spec pool staker_info authority list w p w' clock u :
  staker_checks program_id pool staker_info authority w = Ok (p, w') ->
  (last_update_epoch p <? epoch clock) = false -> check_validator_list p list = Ok u ->
  w' = w /\ staker_accounts pool staker_info authority list p clock w.
Proof.
  intros Hx He Hl. unfold staker_checks in Hx. inv_handler Hx. bool_props.
  rename select (check_staker _ _ = _) into Hm. apply check_staker_Ok in Hm as [Hm Hms].
  split; [done|]. constructor; eauto with contracts.
  constructor; [by apply load_pool_at|done|done|lia].
Qed.

#[export] Instance emits_staker_checks i1 i2 i3 : Emits (staker_checks program_id i1 i2 i3) [].
Proof. apply emits_nothing. by intros w a w' [-> _]%staker_checks_Ok. Qed.
#[export] Instance emits_find_entry l k : Emits (find_entry l k) [].
Proof. unfold find_entry. apply (emits_bind _ _ [] []); apply _. Qed.

(** ** Adding a validator *)

(** The vote accounts of the list are distinct. *)
Definition votes_distinct (vl : ValidatorList) : Prop := NoDup (vote_account_address <$> validators vl).

Lemma vl_find_None vl k : vl_find vl k = None -> k ∉ vote_account_address <$> validators vl.
Proof.
  unfold vl_find. intros Hf Hin. apply list_elem_of_fmap in Hin as (v & -> & Hv).
  apply fmap_None, list_find_None in Hf. rewrite Forall_forall in Hf. by apply (Hf v).
Qed.

Lemma check_can_add_spec h vl d vote u :
  vec_rep (validators vl) d -> check_can_add h d vote = Ok u ->
  Z.of_nat (length (validators vl)) <> max_validators h /\
  Z.of_nat (length (validators vl)) < MAX_VALIDATORS_IN_POOL /\ vl_find vl vote = None.
Proof.
  intros Hr Hc. unfold check_can_add in Hc. rewrite (vec_len_rep _ _ Hr) in Hc.
  rewrite (vec_find_list_find _ _ _ _ Hr (memcmp_pubkey_decides vote)) in Hc. inv_ok Hc. bool_props.
  split; [lia|]. split; [done|]. unfold vl_find.
  rewrite <- (list_find_bool (fun v => vote_account_address v =?ₖ vote)) by (intros; apply pubkey_eqb_true).
  rename select (bool_decide _ = false) into Hn. apply bool_decide_eq_false in Hn.
  destruct (snd <$> _); [|done]. by destruct Hn.
Qed.

Lemma push_entry_spec info vl v w u w' :
  holds_list program_id (key info) vl w -> Z.of_nat (length (validators vl)) < MAX_VALIDATORS_IN_POOL ->
  push_entry info v w = Ok (u, w') ->
  holds_list program_id (key info) (mkValidatorList (header vl) (validators vl ++ [v])) w' /\
  cpi_log w' = cpi_log w /\ forall k, key info <> k -> pool_at w' k = pool_at w k.
Proof.
  intros Hvl Hn Hx. unfold push_entry in Hx.
  pose proof (holds_list_account _ _ _ Hvl) as (bv & Hd & _ & Hr). rewrite Hd in Hx.
  rewrite <- (length_header (header vl)) in Hx. unfold packed_len in Hx.
  rewrite drop_app_length, take_app_length in Hx.
  destruct (decide (VEC_SIZE_BYTES + S (length (validators vl)) * size_of ValidatorStakeInfo <= length bv)%nat)
    as [Hroom|Hroom].
  - destruct (vec_push_rep v _ _ Hr) as (bv' & Hp & Hr' & _); [unfold MAX_VALIDATORS_IN_POOL in Hn; lia|done|].
    rewrite Hp in Hx. inv_run Hx. split; [by eapply write_vec_spec|].
    split; [track_log; solve_log|]. intros k Hk. by eapply pool_at_write.
  - rewrite (vec_push_unfold v _ _ Hr) in Hx by (unfold MAX_VALIDATORS_IN_POOL in Hn; lia). cbv zeta in Hx.
    rewrite (proj2 (Nat.ltb_lt _ _)) in Hx by lia. inv_run Hx.
Qed.

(** What a new validator costs the reserve. *)
Definition add_funds (reserve : AccountInfo) (rent : Rent) (w : World) (n : Z) : Prop :=
  exists m state meta, get_minimum_delegation = Ok m /\
    n = saturating_add 64 (minimum_delegation m) (minimum_balance rent stake_state_size) /\
    load_stake_state reserve w = Ok state /\ stake_state_meta state = Some meta /\
    minimum_reserve_lamports meta <= saturating_sub (lamports_of reserve w) n.

Lemma add_validator_funds_spec reserve rent w n w' :
  add_validator_funds reserve rent w = Ok (n, w') -> w' = w /\ add_funds reserve rent w n.
Proof.
  intros Hx. unfold add_validator_funds in Hx. inv_run Hx. bool_props. split; [done|].
  eexists _, _, _. split_and!; [eassumption|reflexivity|eassumption..|lia].
Qed.
#[export] Instance emits_add_validator_funds i r : Emits (add_validator_funds i r) [].
Proof. apply emits_nothing. by intros w a w' [-> _]%add_validator_funds_spec. Qed.

(** C22: adding a validator.  If it succeeds on a pool whose list account holds
    [vl], the staker signed, the pool is up to date, the accounts are the pool's,
    and the vote account was not in the list, which was neither full nor at the
    limit.  The list afterwards has one more entry at its end: active, with the
    stake the new account is funded with, updated in this epoch; so vote accounts
    that were distinct stay distinct.  The new stake account is the derived one;
    it is created, funded from the reserve, which keeps its minimum, and
    delegated to the validator, and nothing else is called. *)
Theorem add_validator_correct `{!RuntimeLaws R program_id} pool staker_info reserve authority list stake vote
    rent_info clock_info history config system stake_program rest seed vl w u w' :
  holds_list program_id (key list) vl w ->
  process_add_validator_to_pool program_id
    (pool :: staker_info :: reserve :: authority :: list :: stake :: vote :: rent_info :: clock_info ::
     history :: config :: system :: stake_program :: rest) seed w = Ok (u, w') ->
  exists p rent clock n w1,
    rent_from rent_info w = Ok rent /\ clock_from clock_info w = Ok clock /\
    staker_accounts pool staker_info authority list p clock w /\ key reserve = reserve_stake p /\
    vl_find vl (key vote) = None /\ Z.of_nat (length (validators vl)) <> max_validators (header vl) /\
    Z.of_nat (length (validators vl)) < MAX_VALIDATORS_IN_POOL /\
    key stake = fst (find_stake_program_address program_id (key vote) (key pool) (nonzero seed)) /\
    accounts w1 = accounts w /\ add_funds reserve rent w1 n /\
    let vl' := mkValidatorList (header vl)
      (validators vl ++ [new_validator_entry (key vote) n (epoch clock) seed]) in
    holds_list program_id (key list) vl' w' /\ (votes_distinct vl -> votes_distinct vl') /\
    cpi_log w' = cpi_log w ++
      let seeds := [pk_bytes (key vote); pk_bytes (key pool); default [] (le_encode 4 <$> nonzero seed);
        bump (snd (find_stake_program_address program_id (key vote) (key pool) (nonzero seed)))] in
      [mkCall (SystemAllocate (key stake) stake_state_size) [seeds];
       mkCall (SystemAssign (key stake) stake_program_id) [seeds];
       pool_call (key pool) AUTHORITY_WITHDRAW (stake_withdraw_bump_seed p)
         (StakeSplit (key reserve) (key authority) n (key stake));
       pool_call (key pool) AUTHORITY_WITHDRAW (stake_withdraw_bump_seed p)
         (StakeDelegate (key stake) (key authority) (key vote))].
Proof.
  intros Hvl Hx. unfold process_add_validator_to_pool in Hx. inv_handler Hx.
  rename select (find_stake_program_address _ _ _ _ = _) into Hfind. rewrite Hfind.
  rename select (staker_checks _ _ _ _ _ = _) into Hck.
  eapply staker_checks_spec in Hck as (-> & Hacc); [|eassumption..].
  rename select (open_validator_list _ _ = _) into Hop.
  destruct (open_list_spec _ _ _ _ _ _ Hvl Hop) as (-> & Hrep & _). track_list. track_log.
  rename select (check_can_add _ _ _ = _) into Hadd.
  apply (check_can_add_spec _ vl) in Hadd as (Hfull & Hmax & Hnew); [|done].
  rename select (add_validator_funds _ _ _ = _) into Hfunds.
  apply add_validator_funds_spec in Hfunds as [-> Hfunds].
  rename select (push_entry _ _ _ = _) into Hpush.
  eapply push_entry_spec in Hpush as (Hl & Hlg & _); [|eassumption|done]. bool_props.
  eexists _, _, _, _, w1. cbv zeta. split_and!; eauto with contracts.
  - apply (open_validator_list_Ok _ _ _ _ _ Hop).
  - eapply (holds_list_keeps (drop_borrow_mut list)); [exact Hl|exact Hx].
  - intros Hd. unfold votes_distinct. simpl. rewrite fmap_app. apply NoDup_app. split; [done|].
    split; [|apply NoDup_singleton]. intros k Hk Hin. simpl in Hin. apply list_elem_of_singleton in Hin as ->.
    by apply (vl_find_None _ _ Hnew).
  - solve_log.
Qed.
(** ** Removing a validator *)

Lemma find_entry_spec vl d k w off v w' :
  vec_rep (validators vl) d -> find_entry d k w = Ok ((off, v), w') ->
  w' = w /\ exists i, off = entry_offset i /\ entry_at vl k i v.
Proof.
  intros Hr Hx. unfold find_entry in Hx. inv_run Hx. subst.
  rename select (vec_find_mut _ _ = _) into Hf. split; [done|]. by eapply find_mut_spec.
Qed.

(** The deactivation of a stake account by the pool. *)
Definition deactivate_call (pool stake authority : AccountInfo) (p : StakePool) : CpiCall :=
  pool_call (key pool) AUTHORITY_WITHDRAW (stake_withdraw_bump_seed p)
    (StakeDeactivate (key stake) (key authority)).

(** Winding down the transient stake, given what its account holds. *)
Definition wind_down_calls (pool transient authority : AccountInfo) (p : StakePool)
    (state : presult (Meta * Stake)) : list CpiCall :=
  match state with
  | Ok (meta, st) =>
      if stake_is_usable_by_pool meta (key authority) (lockup p) &&
         (deactivation_epoch (delegation st) =? EPOCH_MAX)
      then [deactivate_call pool transient authority p] else []
  | _ => []
  end.

Lemma removal_status_spec pool transient clock_info authority p v k w st w' :
  removal_status program_id pool transient clock_info authority p v k w = Ok (st, w') ->
  let t := 0 <? uint_of_array (transient_stake_lamports v) in
  st = (if t then DeactivatingAll else DeactivatingValidator) /\
  (t = true -> key transient = fst (find_transient_stake_program_address program_id k (key pool)
                                      (uint_of_array (transient_seed_suffix v)))) /\
  cpi_log w' = cpi_log w ++
    (if t then wind_down_calls pool transient authority p (get_stake_state transient w) else []).
Proof.
  intros Hx t. unfold removal_status in Hx. fold t in Hx.
  destruct t; [|injection Hx as <- <-; by rewrite app_nil_r].
  inv_run Hx. rename select (check_transient_stake_address _ _ _ _ _ = _) into Hc.
  apply check_transient_stake_address_Ok in Hc. split; [done|]. split; [intros _; by rewrite <- Hc|].
  rename select (remove_transient _ _ _ _ _ _ = _) into Hrm. unfold remove_transient in Hrm. inv_run Hrm.
  unfold wind_down_calls. destruct (get_stake_state transient w) as [[m s]| |]; subst;
    track_log; solve_log.
Qed.

(** C23: removing a validator.  If it succeeds on a pool whose list account holds
    [vl], the staker signed, the pool is up to date, the accounts are the pool's,
    and the stake account is the derived one of an active validator of the list.
    That validator's entry is marked as deactivating, together with its transient
    stake if it has one, and is the only entry that changes; the validator stops
    being preferred; stake that is not deactivating yet, transient stake first,
    is deactivated, and nothing else is called. *)
Theorem remove_validator_correct `{!RuntimeLaws R program_id} pool staker_info authority list stake transient
    clock_info stake_program rest vl w u w' :
  holds_list program_id (key list) vl w ->
  process_remove_validator_from_pool program_id
    (pool :: staker_info :: authority :: list :: stake :: transient :: clock_info :: stake_program :: rest) w
    = Ok (u, w') ->
  exists p clock meta st i v w1,
    clock_from clock_info w = Ok clock /\ staker_accounts pool staker_info authority list p clock w /\
    accounts w1 = accounts w /\ get_stake_state stake w = Ok (meta, st) /\
    entry_at vl (voter_pubkey (delegation st)) i v /\ status v = status_into_pod Active /\
    key stake = fst (find_stake_program_address program_id (voter_pubkey (delegation st)) (key pool)
                       (nonzero (uint_of_array (validator_seed_suffix v)))) /\
    let t := 0 <? uint_of_array (transient_stake_lamports v) in
    (t = true -> key transient = fst (find_transient_stake_program_address program_id
       (voter_pubkey (delegation st)) (key pool) (uint_of_array (transient_seed_suffix v)))) /\
    holds_list program_id (key list)
      (with_entry vl i (v <| status := status_into_pod (if t then DeactivatingAll else DeactivatingValidator) |>))
      w' /\
    pool_at w' (key pool) = Ok (reset_preferred p (voter_pubkey (delegation st))) /\
    cpi_log w' = cpi_log w ++
      (if t then wind_down_calls pool transient authority p (get_stake_state transient w1) else []) ++
      (if deactivation_epoch (delegation st) =? EPOCH_MAX
       then [deactivate_call pool stake authority p] else []).
Proof.
  intros Hvl Hx. unfold process_remove_validator_from_pool in Hx. inv_handler Hx.
  rename select (staker_checks _ _ _ _ _ = _) into Hck.
  eapply staker_checks_spec in Hck as (-> & Hacc); [|eassumption..].
  rename select (open_validator_list _ _ = _) into Hop.
  destruct (open_list_spec _ _ _ _ _ _ Hvl Hop) as (-> & Hrep & _).
  rename select (find_entry _ _ _ = _) into Hf.
  eapply find_entry_spec in Hf as (-> & i & -> & Hi); [|exact Hrep]. track_list.
  rename select (removal_status _ _ _ _ _ _ _ _ _ = _) into Hrs. apply removal_status_spec in Hrs.
  rename select (assign_entry _ _ _ _ = _) into Has. rename select (store _ _ _ = _) into Hst.
  destruct Hrs as (-> & Htr & Hlg). track_log. pose proof (cp_pool _ _ _ _ _ (sa_pool _ _ _ _ _ _ _ Hacc)) as Hpool.
  pose proof (open_list_ne _ _ _ _ _ _ _ Hpool (cp_valid _ _ _ _ _ (sa_pool _ _ _ _ _ _ _ Hacc)) Hop) as Hne.
  eapply assign_entry_spec in Has as Hl5; [|eassumption|apply Hi].
  eapply store_keeps_list in Hst as Hl6; [|exact (not_eq_sym Hne)|exact Hl5].
  rename select (get_stake_state _ _ = _) into Hgs. apply (get_stake_state_open _ _ _ _ _ _ _ Hop) in Hgs.
  rename select (negb _ = false) into Hact. apply negb_false_iff, bool_decide_eq_true in Hact.
  eexists _, _, _, _, i, _, w1. cbv zeta. split_and!; eauto with contracts.
  - apply (open_validator_list_Ok _ _ _ _ _ Hop).
  - eapply (holds_list_keeps (drop_borrow_mut list)); [exact Hl6|exact Hx].
  - rewrite (pool_at_drop _ _ _ _ _ Hx). eapply store_pool_at, Hst.
    eapply preferred_reset_typed; [apply reset_preferred_reset|by eapply pool_at_typed].
  - solve_log.
Qed.
End StakerCorrect.

(** ** Witnesses *)
Section StakerWitnesses.
Import Demo Scenario.

Definition add_run : presult (unit * World) :=
  process_add_validator_to_pool (H:=demo) program
    [w_info pool_key; s_info staker_key; w_info reserve_key; r_info withdraw_authority; w_info list_key;
     w_info (stake_address vote3); r_info vote3; clock_info; clock_info; clock_info; clock_info;
     r_info system_id; r_info stake_id] 0 world.

Lemma add_validator_correct_witness :
  exists n e, holds_list program list_key
    (mkValidatorList (header vlist) (validators vlist ++ [new_validator_entry vote3 n e 0]))
    (world_after world add_run).
Proof.
  assert (Hx : add_run = Ok (tt, world_after world add_run)) by (apply world_after_Ok; vm_compute; reflexivity).
  unfold add_run in Hx.
  destruct ((fun Hl => add_validator_correct (R:=demo) program _ _ _ _ _ _ _ _ _ _ _ _ _ _ _ vlist _ _ _
               Hl Hx) world_holds_list)
    as (p & rent & clock & n & w1 & _ & _ & _ & _ & _ & _ & _ & _ & _ & _ & Hl & _ & _).
  exists n, (epoch clock). exact Hl.
Defined.

Definition remove_run : presult (unit * World) :=
  process_remove_validator_from_pool (H:=demo) program
    [w_info pool_key; s_info staker_key; r_info withdraw_authority; w_info list_key;
     w_info (stake_address vote2); w_info (transient_address vote2 7); clock_info; r_info stake_id] world.

Lemma remove_validator_correct_witness :
  exists i v, entry_at vlist vote2 i v /\
    holds_list program list_key (with_entry vlist i (v <| status := status_into_pod DeactivatingAll |>))
      (world_after world remove_run).
Proof.
  assert (Hx : remove_run = Ok (tt, world_after world remove_run))
    by (apply world_after_Ok; vm_compute; reflexivity).
  unfold remove_run in Hx.
  destruct ((fun Hl => remove_validator_correct (R:=demo) program _ _ _ _ _ _ _ _ _ vlist _ _ _ Hl Hx)
              world_holds_list)
    as (p & clock & meta & st & i & v & w1 & _ & _ & _ & Hst & Hi & _ & _ & _ & Hl & _ & _).
  assert (voter_pubkey (delegation st) = vote2) as Hk.
  { clear - Hst. vm_compute in Hst. injection Hst as _ <-. reflexivity. }
  rewrite Hk in Hi. exists i, v. split; [exact Hi|].
  replace (0 <? uint_of_array (transient_stake_lamports v)) with true in Hl; [exact Hl|].
  destruct Hi as (_ & _ & Hv). clear - Hv. vm_compute in Hv. injection Hv as <-. reflexivity.
Defined.
End StakerWitnesses.
