(* ===== verification/MoveStake.v ===== *)
(** * Correctness of moving stake between the reserve and a validator

    The increase and the decrease of a validator's stake in all their variants. *)

From S2P Require Import Prelude Errors Fees Pool BigVec Borsh ValidatorList Runtime Platform Checks.
From S2P Require Import Scenario Admin Tracking Deposit Withdraw Validators Update Init Instruction.
From S2P Require Import Process Trace Spec StakerSteps Contracts StakerCorrect.

Section MoveStake.
Context {R : Runtime}.
Variable program_id : Pubkey.

(** The transient account is free, or the variant with an ephemeral account adds
    to the pending one. *)
Definition transient_free (v : ValidatorStakeInfo) (ephemeral : option Z) (seed : Z)
    (check : World -> presult unit) (w : World) : Prop :=
  0 < uint_of_array (transient_stake_lamports v) ->
  ephemeral <> None /\ seed = uint_of_array (transient_seed_suffix v) /\ check w = Ok tt.

Lemma check_transient_in_use_spec v e seed check w u w' :
  check_transient_in_use v e seed check w = Ok (u, w') -> w' = w /\ transient_free v e seed check w.
Proof.
  intros Hx. unfold check_transient_in_use in Hx.
  apply when_Ok in Hx as [[Ht Hx]|[Ht ->]]; [|split; [done|]; bool_props; intros ?; lia].
  inv_run Hx. bool_props. split; [done|]. intros _. split; [by eapply bool_decide_eq_false|].
  split; [done|]. by destruct u.
Qed.
#[export] Instance emits_check_transient_in_use v e seed check : Emits (check_transient_in_use v e seed check) [].
Proof. apply emits_nothing. by intros w a w' [-> _]%check_transient_in_use_spec. Qed.

(** Creating a stake account at a derived address. *)
Definition create_calls (stake : AccountInfo) (s : seeds) : list CpiCall :=
  [mkCall (SystemAllocate (key stake) stake_state_size) [s];
   mkCall (SystemAssign (key stake) stake_program_id) [s]].

(** The common opening of the handlers that move stake: the staker's checks, the
    list [Hvl], the entry [i] found in it and the state of its transient
    account. *)
Ltac open_entry Hvl Hacc Hop i Hi Htu :=
  let Hck := fresh "Hck" in let Hrep := fresh "Hrep" in let Hf := fresh "Hf" in
  rename select (staker_checks _ _ _ _ _ = _) into Hck;
  eapply staker_checks_spec in Hck as (-> & Hacc); [|eassumption..];
  rename select (open_validator_list _ _ = _) into Hop;
  destruct (open_list_spec _ _ _ _ _ _ Hvl Hop) as (-> & Hrep & _);
  rename select (find_entry _ _ _ = _) into Hf;
  eapply find_entry_spec in Hf as (-> & i & -> & Hi); [|exact Hrep]; track_list;
  rename select (check_transient_in_use _ _ _ _ _ = _) into Htu;
  apply check_transient_in_use_spec in Htu as [-> Htu].

(** ** Increase *)

(** What leaves the reserve for an increase by [n]. *)
Definition increase_funds (reserve : AccountInfo) (n : Z) (rent : Rent) (w : World) (total : Z) : Prop :=
  exists m, get_minimum_delegation = Ok m /\ minimum_delegation m <= n /\
    total = saturating_add 64 n (minimum_balance rent stake_state_size) /\
    minimum_balance rent stake_state_size <= saturating_sub (lamports_of reserve w) total.

Lemma increase_amount_spec reserve n rent w total w' :
  increase_amount reserve n rent w = Ok (total, w') -> w' = w /\ increase_funds reserve n rent w total.
Proof.
  intros Hx. unfold increase_amount in Hx. inv_run Hx. bool_props. split; [done|].
  eexists. split_and!; [eassumption|lia|done|lia].
Qed.
#[export] Instance emits_increase_amount i n r : Emits (increase_amount i n r) [].
Proof. apply emits_nothing. by intros w a w' [-> _]%increase_amount_spec. Qed.

(** The account the increase is taken from, and the calls that prepare it. *)
Definition increase_from (reserve : AccountInfo) (ephemeral : option (Z * AccountInfo)) : AccountInfo :=
  match ephemeral with Some (_, i) => i | None => reserve end.
Definition ephemeral_calls (pool reserve authority vote : AccountInfo) (p : StakePool)
    (ephemeral : option (Z * AccountInfo)) (total : Z) : list CpiCall :=
  match ephemeral with
  | Some (seed, i) =>
      create_calls i (ephemeral_seeds (key pool) seed
        (snd (find_ephemeral_stake_program_address program_id (key pool) seed))) ++
      [pool_call (key pool) AUTHORITY_WITHDRAW (stake_withdraw_bump_seed p)
         (StakeSplit (key reserve) (key authority) total (key i));
       pool_call (key pool) AUTHORITY_WITHDRAW (stake_withdraw_bump_seed p)
         (StakeDelegate (key i) (key authority) (key vote))]
  | None => []
  end.

Lemma increase_source_spec pool reserve authority vote clock_info history config e p total w src w' :
  increase_source program_id pool reserve authority vote clock_info history config e
    (stake_withdraw_bump_seed p) total w = Ok (src, w') ->
  src = increase_from reserve e /\
  (forall seed i, e = Some (seed, i) ->
     key i = fst (find_ephemeral_stake_program_address program_id (key pool) seed)) /\
  cpi_log w' = cpi_log w ++ ephemeral_calls pool reserve authority vote p e total.
Proof.
  intros Hx. unfold increase_source in Hx. destruct e as [[seed i]|]; inv_run Hx.
  - rename select (check_ephemeral_stake_address _ _ _ _ = _) into Hc.
    apply check_ephemeral_stake_address_Ok in Hc. split; [done|].
    split; [intros ? ? [=<- <-]; by rewrite <- Hc|].
    unfold ephemeral_calls. rewrite <- Hc. track_log. solve_log.
  - split; [done|]. split; [done|]. by rewrite app_nil_r.
Qed.

(** A transient account that is already delegated needs no delegation. *)
Definition is_delegated (state : StakeStateV2) (clock : Clock) : bool :=
  match state with
  | StakeStake _ stake => activation_epoch (delegation stake) <=? epoch clock
  | _ => false
  end.

(** The source reaches the transient account: merged into a pending one, or split
    off into a new one that is delegated unless it already is. *)
Definition increase_reaches (pool source authority transient vote : AccountInfo) (p : StakePool)
    (clock : Clock) (v : ValidatorStakeInfo) (seed total : Z) (w w' : World) : Prop :=
  let call := pool_call (key pool) AUTHORITY_WITHDRAW (stake_withdraw_bump_seed p) in
  if 0 <? uint_of_array (transient_stake_lamports v) then
    cpi_log w' = cpi_log w ++ [call (StakeMerge (key transient) (key source) (key authority))]
  else exists w1 state,
    cpi_log w1 = cpi_log w ++
      create_calls transient (transient_seeds (key pool) (key vote) seed
        (snd (find_transient_stake_program_address program_id (key vote) (key pool) seed))) ++
      [call (StakeSplit (key source) (key authority) total (key transient))] /\
    load_stake_state transient w1 = Ok state /\
    cpi_log w' = cpi_log w1 ++
      (if is_delegated state clock then []
       else [call (StakeDelegate (key transient) (key authority) (key vote))]).

Lemma increase_transient_spec pool source authority transient vote clock_info history config p clock v
    seed b total w u w' :
  (key transient, b) = find_transient_stake_program_address program_id (key vote) (key pool) seed ->
  increase_transient pool source authority transient vote clock_info history config
    (stake_withdraw_bump_seed p) clock v seed b total w = Ok (u, w') ->
  increase_reaches pool source authority transient vote p clock v seed total w w'.
Proof.
  intros Hb Hx. unfold increase_transient in Hx. unfold increase_reaches. rewrite <- Hb.
  destruct (0 <? _); [track_log; solve_log|]. inv_run Hx.
  unfold delegate_if_needed in Hx. inv_run Hx. eexists _, _. split_and!; [|eassumption|].
  - track_log. solve_log.
  - fold (is_delegated v2 clock) in Hx. destruct (is_delegated _ _); track_log; solve_log.
Qed.
(** The accounts that depend on the variant: with an ephemeral account, its
    place is in front of the transient account and no rent sysvar is passed. *)
Definition ephemeral_infos (ephemeral : option (Z * AccountInfo)) : list AccountInfo :=
  match ephemeral with Some (_, i) => [i] | None => [] end.
Definition rent_infos (ephemeral : option (Z * AccountInfo)) (rent_info : AccountInfo) : list AccountInfo :=
  match ephemeral with Some _ => [] | None => [rent_info] end.
Definition rent_of (ephemeral : option (Z * AccountInfo)) (rent_info : AccountInfo) (w : World) : presult Rent :=
  match ephemeral with Some _ => rent_get | None => rent_from rent_info w end.

(** C24: increasing a validator's stake, in both variants.  If it succeeds on a
    pool whose list account holds [vl], the staker signed, the pool is up to
    date, the accounts are the pool's and the validator's, and the validator is
    active.  A transient stake that is pending can only be added to by the
    variant with an ephemeral account, under its seed, while it is activating.
    The amount asked for, at least the minimum delegation, and the rent of a stake
    account leave the reserve, which stays rent exempt, and reach the transient
    account of that seed by the calls stated and no others.  The validator's
    entry, and no other, records them as additional transient stake. *)
Theorem increase_correct `{!RuntimeLaws R program_id} pool staker_info authority list reserve ephemeral
    transient validator_stake vote clock_info rent_info history config system stake_program rest n seed vl
    w u w' :
  holds_list program_id (key list) vl w ->
  process_increase_validator_stake program_id
    (pool :: staker_info :: authority :: list :: reserve :: ephemeral_infos ephemeral ++
     transient :: validator_stake :: vote :: clock_info :: rent_infos ephemeral rent_info ++
     history :: config :: system :: stake_program :: rest) n seed (fst <$> ephemeral) w = Ok (u, w') ->
  exists p clock rent i v total w1 w2 w3,
    clock_from clock_info w = Ok clock /\ rent_of ephemeral rent_info w = Ok rent /\
    staker_accounts program_id pool staker_info authority list p clock w /\ key reserve = reserve_stake p /\
    accounts w1 = accounts w /\ cpi_log w1 = cpi_log w /\
    entry_at vl (key vote) i v /\ status v = status_into_pod Active /\
    check_validator_stake_account validator_stake program_id (key pool) (key authority) (key vote)
      (uint_of_array (validator_seed_suffix v)) (lockup p) w1 = Ok tt /\
    transient_free v (fst <$> ephemeral) seed (check_if_stake_activating transient (epoch clock)) w1 /\
    increase_funds reserve n rent w1 total /\
    (forall s e, ephemeral = Some (s, e) ->
       key e = fst (find_ephemeral_stake_program_address program_id (key pool) s)) /\
    key transient = fst (find_transient_stake_program_address program_id (key vote) (key pool) seed) /\
    cpi_log w2 = cpi_log w ++ ephemeral_calls pool reserve authority vote p ephemeral total /\
    increase_reaches pool (increase_from reserve ephemeral) authority transient vote p clock v seed total w2 w3 /\
    cpi_log w' = cpi_log w3 /\
    holds_list program_id (key list)
      (with_entry vl i
         (v <| transient_stake_lamports :=
                 array_of_uint 8 (uint_of_array (transient_stake_lamports v) + total) |>
            <| transient_seed_suffix := array_of_uint 8 seed |>)) w' /\
    uint_of_array (transient_stake_lamports v) + total < 2 ^ 64.
Proof.
  intros Hvl Hx. unfold process_increase_validator_stake in Hx.
  destruct ephemeral as [[es e]|]; cbn [ephemeral_infos rent_infos app fmap option_fmap option_map fst] in Hx;
    inv_handler Hx; try discriminate;
    (rename select (next_if _ _ = _) into Hn); cbn in Hn; injection Hn; intros; subst.
  all: open_entry Hvl Hacc Hop i Hi Htu;
    rename select (increase_amount _ _ _ _ = _) into Ham;
    apply increase_amount_spec in Ham as [-> Ham];
    rename select (increase_source _ _ _ _ _ _ _ _ _ _ _ _ = _) into Hsrc;
    apply increase_source_spec in Hsrc as (-> & Hek & Hlg);
    rename select (check_transient_stake_address _ _ _ _ _ = _) into Hta;
    apply check_transient_stake_address_Ok in Hta;
    rename select (increase_transient _ _ _ _ _ _ _ _ _ _ _ _ _ _ _ = _) into Hit;
    eapply increase_transient_spec in Hit; [|exact Hta];
    rename select (calc (checked_add _ _ _) = _) into Hadd; apply calc_Ok, checked_add_Some in Hadd as [-> Hfit];
    rename select (assign_entry _ _ _ _ = _) into Has; pose proof (emits _ _ _ Has) as Hla;
    eapply assign_entry_spec in Has; [|eassumption|apply Hi];
    rename select (negb _ = false) into Hact; apply negb_false_iff, bool_decide_eq_true in Hact;
    rename select (check_validator_stake_account _ _ _ _ _ _ _ _ = _) into Hvs;
    match type of Hvs with _ = Ok ?x => destruct x end; pose proof (emits _ _ _ Hop) as Hlo;
    rewrite app_nil_r in Hla, Hlo; rewrite Hlo in Hlg;
    do 3 eexists; exists i; do 2 eexists; eexists w1, _, _;
    (split_and!; [eassumption|eassumption|exact Hacc|eauto with contracts|
       apply (open_validator_list_Ok _ _ _ _ _ Hop)|exact Hlo|exact Hi|exact Hact|exact Hvs|exact Htu|exact Ham|
       exact Hek|by rewrite <- Hta|exact Hlg|exact Hit| | |exact Hfit]);
    [by rewrite (emits _ _ _ Hx), app_nil_r, Hla|].
  all: eapply (holds_list_keeps (drop_borrow_mut list)); [exact Has|exact Hx].
Qed.
(** ** Decrease *)

(** A decrease by [n]: at least the minimum delegation, and the validator's
    account keeps what it needs. *)
Definition decrease_allowed (validator_stake : AccountInfo) (meta : Meta) (n : Z) (w : World) : Prop :=
  exists m, get_minimum_delegation = Ok m /\ minimum_delegation m <= n /\
    n + minimum_stake_lamports meta m <= lamports_of validator_stake w.

Lemma check_decrease_amount_spec i meta n w u w' :
  check_decrease_amount i meta n w = Ok (u, w') -> w' = w /\ decrease_allowed i meta n w.
Proof.
  intros Hx. unfold check_decrease_amount in Hx. inv_run Hx.
  apply when_Ok in Hx as [[_ Hx]|[Hlt ->]]; [inv_run Hx|]. bool_props. split; [done|].
  eexists. split; [eassumption|]. lia.
Qed.
#[export] Instance emits_check_decrease_amount i m n : Emits (check_decrease_amount i m n) [].
Proof. apply emits_nothing. by intros w a w' [-> _]%check_decrease_amount_spec. Qed.

(** Rent the reserve pays for a derived account, if one was passed. *)
Definition rent_calls (pool authority : AccountInfo) (p : StakePool) (reserve : option AccountInfo)
    (account : AccountInfo) (needed : Z) : list CpiCall :=
  match reserve with
  | Some r =>
      if 0 <? needed
      then [pool_call (key pool) AUTHORITY_WITHDRAW (stake_withdraw_bump_seed p)
              (StakeWithdraw (key r) (key authority) (key account) needed)] else []
  | None => []
  end.
(** What an account misses of the rent of a stake account. *)
Definition rent_missing (rent : Rent) (i : AccountInfo) (w : World) : Z :=
  saturating_sub (minimum_balance rent stake_state_size) (lamports_of i w).

Lemma fund_ephemeral_spec pool authority i clock_info reserve history p rent w u w' :
  fund_ephemeral pool authority i clock_info reserve history (stake_withdraw_bump_seed p)
    (minimum_balance rent stake_state_size) w = Ok (u, w') ->
  cpi_log w' = cpi_log w ++ rent_calls pool authority p reserve i (rent_missing rent i w).
Proof.
  intros Hx. unfold fund_ephemeral in Hx. unfold rent_calls, rent_missing.
  destruct reserve as [r|]; [|injection Hx as _ <-; by rewrite app_nil_r]. inv_run Hx.
  apply when_Ok in Hx as [[Ht Hx]|[Ht ->]]; rewrite Ht; [|by rewrite app_nil_r].
  inv_run Hx. track_log. solve_log.
Qed.

(** The account the decrease is taken from: the validator's own, or an ephemeral
    one that is created, funded, split off and deactivated. *)
Definition decrease_taken (pool validator_stake authority : AccountInfo) (p : StakePool)
    (reserve : option AccountInfo) (ephemeral : option (Z * AccountInfo)) (rent : Rent) (n : Z)
    (source : AccountInfo) (split : Z) (w w' : World) : Prop :=
  match ephemeral with
  | Some (seed, i) =>
      source = i /\ split = lamports_of i w' /\
      key i = fst (find_ephemeral_stake_program_address program_id (key pool) seed) /\
      exists w1,
        cpi_log w1 = cpi_log w ++ create_calls i (ephemeral_seeds (key pool) seed
          (snd (find_ephemeral_stake_program_address program_id (key pool) seed))) /\
        cpi_log w' = cpi_log w1 ++ rent_calls pool authority p reserve i (rent_missing rent i w1) ++
          [pool_call (key pool) AUTHORITY_WITHDRAW (stake_withdraw_bump_seed p)
             (StakeSplit (key validator_stake) (key authority) n (key i));
           deactivate_call pool i authority p]
  | None => source = validator_stake /\ split = n /\ w' = w
  end.

Lemma decrease_source_spec pool validator_stake authority clock_info reserve history e p rent n w src split w' :
  decrease_source program_id pool validator_stake authority clock_info reserve history e
    (stake_withdraw_bump_seed p) (minimum_balance rent stake_state_size) n w = Ok ((src, split), w') ->
  decrease_taken pool validator_stake authority p reserve e rent n src split w w'.
Proof.
  intros Hx. unfold decrease_source in Hx. destruct e as [[seed i]|]; inv_run Hx; [|done].
  rename select (check_ephemeral_stake_address _ _ _ _ = _) into Hc.
  apply check_ephemeral_stake_address_Ok in Hc. unfold decrease_taken. rewrite <- Hc.
  rename select (fund_ephemeral _ _ _ _ _ _ _ _ _ = _) into Hf. apply fund_ephemeral_spec in Hf.
  split; [done|]. split; [done|]. split; [done|]. eexists. split; [track_log; solve_log|].
  track_log. unfold deactivate_call. solve_log.
Qed.

(** What the transient account misses, unless the whole source moves over. *)
Definition transient_missing (rent : Rent) (source transient : AccountInfo) (split : Z) (w : World) : Z :=
  if lamports_of source w =? split then 0 else rent_missing rent transient w.

Lemma fund_transient_spec pool authority transient source clock_info reserve history p rent split w u w' :
  fund_transient pool authority transient source clock_info reserve history (stake_withdraw_bump_seed p)
    (minimum_balance rent stake_state_size) split w = Ok (u, w') ->
  cpi_log w' = cpi_log w ++ rent_calls pool authority p reserve transient
    (transient_missing rent source transient split w).
Proof.
  intros Hx. unfold fund_transient in Hx. unfold rent_calls, transient_missing, rent_missing.
  destruct reserve as [r|]; [|injection Hx as _ <-; by rewrite app_nil_r]. inv_run Hx.
  apply when_Ok in Hx as [[Ht Hx]|[Ht ->]].
  - apply negb_true_iff in Ht. rewrite Ht. inv_run Hx. track_log. solve_log.
  - apply negb_false_iff in Ht. rewrite Ht. by rewrite app_nil_r.
Qed.
(** The source reaches the transient account: merged into a pending one, or split
    off into a new one, whose rent the reserve pays, and deactivated. *)
Definition decrease_reaches (pool source authority transient : AccountInfo) (p : StakePool)
    (reserve : option AccountInfo) (rent : Rent) (v : ValidatorStakeInfo) (vote : Pubkey)
    (seed split : Z) (w w' : World) : Prop :=
  let call := pool_call (key pool) AUTHORITY_WITHDRAW (stake_withdraw_bump_seed p) in
  if 0 <? uint_of_array (transient_stake_lamports v) then
    cpi_log w' = cpi_log w ++ [call (StakeMerge (key transient) (key source) (key authority))]
  else exists w1 w2 meta st,
    cpi_log w1 = cpi_log w ++ create_calls transient (transient_seeds (key pool) vote seed
      (snd (find_transient_stake_program_address program_id vote (key pool) seed))) /\
    cpi_log w2 = cpi_log w1 ++
      rent_calls pool authority p reserve transient (transient_missing rent source transient split w1) ++
      [call (StakeSplit (key source) (key authority) split (key transient))] /\
    get_stake_state transient w2 = Ok (meta, st) /\
    cpi_log w' = cpi_log w2 ++
      (if deactivation_epoch (delegation st) =? EPOCH_MAX
       then [deactivate_call pool transient authority p] else []).

Lemma decrease_transient_spec pool source authority transient clock_info reserve history p rent v vote seed b
    split w u w' :
  (key transient, b) = find_transient_stake_program_address program_id vote (key pool) seed ->
  decrease_transient pool source authority transient clock_info reserve history (stake_withdraw_bump_seed p)
    (minimum_balance rent stake_state_size) v vote seed b split w = Ok (u, w') ->
  decrease_reaches pool source authority transient p reserve rent v vote seed split w w'.
Proof.
  intros Hb Hx. unfold decrease_transient in Hx. unfold decrease_reaches. rewrite <- Hb.
  destruct (0 <? _); inv_run Hx; [track_log; solve_log|].
  rename select (fund_transient _ _ _ _ _ _ _ _ _ _ _ = _) into Hf. apply fund_transient_spec in Hf.
  eexists _, _, _, _. split_and!; [| |eassumption|].
  - track_log. solve_log.
  - track_log. solve_log.
  - unfold deactivate_call. track_log. solve_log.
Qed.

Lemma check_optional_reserve_spec (o : option AccountInfo) p w u w' :
  match o with Some r => lift (check_reserve_stake p r) | None => mret tt end w = Ok (u, w') ->
  w' = w /\ forall r, o = Some r -> key r = reserve_stake p.
Proof.
  destruct o as [r|]; intros Hx; inv_run Hx; (split; [done|]); [|done].
  intros ? [=<-]. eauto with contracts.
Qed.

(** The accounts that depend on the variant. *)
Definition option_infos (o : option AccountInfo) : list AccountInfo :=
  match o with Some i => [i] | None => [] end.

(** C25: decreasing a validator's stake, in all three variants ([reserve] is
    passed when it pays the rent, [ephemeral] when a pending decrease is added
    to).  If it succeeds on a pool whose list account holds [vl], the staker
    signed, the pool is up to date, and the accounts are the pool's and those of
    an active validator, whose account keeps its minimum.  A pending transient
    stake can only be added to through an ephemeral account, under its seed, while
    it is deactivating in this epoch.  The lamports asked for leave the
    validator's account and reach the transient account of that seed by the calls
    stated and no others.  The validator's entry, and no other, has them
    subtracted from its active stake and records what the transient account then
    holds. *)
Theorem decrease_correct `{!RuntimeLaws R program_id} pool staker_info authority list reserve validator_stake
    ephemeral transient clock_info sysvar system stake_program rest n seed vl w u w' :
  holds_list program_id (key list) vl w ->
  process_decrease_validator_stake program_id
    (pool :: staker_info :: authority :: list :: option_infos reserve ++ validator_stake ::
     ephemeral_infos ephemeral ++ transient :: clock_info :: sysvar :: system :: stake_program :: rest)
    n seed (fst <$> ephemeral) (bool_decide (is_Some reserve)) w = Ok (u, w') ->
  exists p clock rent meta st i v source split w1 w2 w3,
    clock_from clock_info w = Ok clock /\
    match ephemeral, reserve with None, None => rent_from sysvar w | _, _ => rent_get end = Ok rent /\
    staker_accounts program_id pool staker_info authority list p clock w /\
    (forall r, reserve = Some r -> key r = reserve_stake p) /\
    accounts w1 = accounts w /\ cpi_log w1 = cpi_log w /\
    get_stake_state validator_stake w1 = Ok (meta, st) /\
    let vote := voter_pubkey (delegation st) in
    entry_at vl vote i v /\ status v = status_into_pod Active /\
    key validator_stake = fst (find_stake_program_address program_id vote (key pool)
                                 (nonzero (uint_of_array (validator_seed_suffix v)))) /\
    transient_free v (fst <$> ephemeral) seed (check_if_stake_deactivating transient (epoch clock)) w1 /\
    decrease_allowed validator_stake meta n w1 /\
    key transient = fst (find_transient_stake_program_address program_id vote (key pool) seed) /\
    decrease_taken pool validator_stake authority p reserve ephemeral rent n source split w1 w2 /\
    decrease_reaches pool source authority transient p reserve rent v vote seed split w2 w3 /\
    cpi_log w' = cpi_log w3 /\ n <= uint_of_array (active_stake_lamports v) /\
    holds_list program_id (key list)
      (with_entry vl i
         (v <| active_stake_lamports := array_of_uint 8 (uint_of_array (active_stake_lamports v) - n) |>
            <| transient_stake_lamports := array_of_uint 8 (lamports_of transient w3) |>
            <| transient_seed_suffix := array_of_uint 8 seed |>)) w'.
Proof.
  intros Hvl Hx. unfold process_decrease_validator_stake in Hx.
  destruct ephemeral as [[es e]|], reserve as [r|];
    cbn [ephemeral_infos option_infos app fmap option_fmap option_map fst] in Hx;
    inv_handler Hx; try discriminate;
    match goal with H : _ = Ok _ |- _ => apply check_optional_reserve_spec in H as [-> Hres] end;
    repeat match goal with H : next_if _ _ = Ok _ |- _ => cbn in H; injection H; clear H; intros; subst end.
  all: open_entry Hvl Hacc Hop i Hi Htu;
    rename select (check_decrease_amount _ _ _ _ = _) into Ham;
    apply check_decrease_amount_spec in Ham as [-> Ham];
    rename select (decrease_source _ _ _ _ _ _ _ _ _ _ _ _ = _) into Hsrc; apply decrease_source_spec in Hsrc;
    rename select (check_transient_stake_address _ _ _ _ _ = _) into Hta;
    apply check_transient_stake_address_Ok in Hta;
    rename select (decrease_transient _ _ _ _ _ _ _ _ _ _ _ _ _ _ _ = _) into Hit;
    eapply decrease_transient_spec in Hit; [|exact Hta];
    rename select (calc (checked_sub _ _) = _) into Hsub; apply calc_Ok, checked_sub_Some in Hsub as [-> Hle];
    rename select (assign_entry _ _ _ _ = _) into Has; pose proof (emits _ _ _ Has) as Hla;
    eapply assign_entry_spec in Has; [|eassumption|apply Hi];
    rename select (negb _ = false) into Hact; apply negb_false_iff, bool_decide_eq_true in Hact;
    pose proof (emits _ _ _ Hop) as Hlo; rewrite app_nil_r in Hla, Hlo;
    do 5 eexists; exists i; do 3 eexists; eexists w1, _, _; cbv zeta;
    (split_and!; [eassumption|eassumption|exact Hacc|exact Hres|apply (open_validator_list_Ok _ _ _ _ _ Hop)|
       exact Hlo|eassumption|exact Hi|exact Hact|eauto with contracts|exact Htu|exact Ham|by rewrite <- Hta|
       exact Hsrc|exact Hit| |exact Hle|]);
    [by rewrite (emits _ _ _ Hx), app_nil_r, Hla|].
  all: eapply (holds_list_keeps (drop_borrow_mut list)); [exact Has|exact Hx].
Qed.
End MoveStake.

(** ** Witnesses *)
Section MoveWitnesses.
Import Demo Scenario.

Definition increase_run : presult (unit * World) :=
  process_increase_validator_stake (H:=demo) program
    [w_info pool_key; s_info staker_key; r_info withdraw_authority; w_info list_key; w_info reserve_key;
     w_info (transient_address vote1 3); r_info (stake_address vote1); r_info vote1; clock_info; clock_info;
     clock_info; clock_info; r_info system_id; r_info stake_id] 2000000 3 None world.

Lemma increase_correct_witness :
  exists i v total, entry_at vlist vote1 i v /\
    holds_list program list_key
      (with_entry vlist i
         (v <| transient_stake_lamports :=
                 array_of_uint 8 (uint_of_array (transient_stake_lamports v) + total) |>
            <| transient_seed_suffix := array_of_uint 8 3 |>)) (world_after world increase_run).
Proof.
  assert (Hx : increase_run = Ok (tt, world_after world increase_run))
    by (apply world_after_Ok; vm_compute; reflexivity).
  unfold increase_run in Hx.
  destruct ((fun Hl => increase_correct (R:=demo) program (w_info pool_key) (s_info staker_key)
     (r_info withdraw_authority) (w_info list_key) (w_info reserve_key) None (w_info (transient_address vote1 3))
     (r_info (stake_address vote1)) (r_info vote1) clock_info clock_info clock_info clock_info (r_info system_id)
     (r_info stake_id) [] _ _ vlist _ _ _ Hl Hx) world_holds_list)
    as (p & clock & rent & i & v & total & w1 & w2 & w3 & _ & _ & _ & _ & _ & _ & Hi & _ & _ & _ & _ & _ & _ &
        _ & _ & _ & Hl & _).
  exists i, v, total. exact (conj Hi Hl).
Defined.

Definition decrease_run : presult (unit * World) :=
  process_decrease_validator_stake (H:=demo) program
    [w_info pool_key; s_info staker_key; r_info withdraw_authority; w_info list_key; w_info reserve_key;
     w_info (stake_address vote1); w_info (transient_address vote1 3); clock_info; clock_info;
     r_info system_id; r_info stake_id] 2000000 3 None true world.

Lemma decrease_correct_witness :
  exists vote i v w3, entry_at vlist vote i v /\
    holds_list program list_key
      (with_entry vlist i
         (v <| active_stake_lamports := array_of_uint 8 (uint_of_array (active_stake_lamports v) - 2000000) |>
            <| transient_stake_lamports :=
                 array_of_uint 8 (lamports_of (H:=demo) (w_info (transient_address vote1 3)) w3) |>
            <| transient_seed_suffix := array_of_uint 8 3 |>)) (world_after world decrease_run).
Proof.
  assert (Hx : decrease_run = Ok (tt, world_after world decrease_run))
    by (apply world_after_Ok; vm_compute; reflexivity).
  unfold decrease_run in Hx.
  destruct ((fun Hl => decrease_correct (R:=demo) program (w_info pool_key) (s_info staker_key)
     (r_info withdraw_authority) (w_info list_key) (Some (w_info reserve_key)) (w_info (stake_address vote1)) None
     (w_info (transient_address vote1 3)) clock_info clock_info (r_info system_id)
     (r_info stake_id) [] _ _ vlist _ _ _ Hl Hx) world_holds_list)
    as (p & clock & rent & meta & st & i & v & source & split & w1 & w2 & w3 & _ & _ & _ & _ & _ & _ & _ & Hi &
        _ & _ & _ & _ & _ & _ & _ & _ & _ & Hl).
  exists (voter_pubkey (delegation st)), i, v, w3. exact (conj Hi Hl).
Defined.
End MoveWitnesses.
