(* ===== verification/InitCorrect.v ===== *)
(** * Correctness of the creation of a pool

    A pool that [Initialize] creates satisfies the invariants the other theorems
    start from. *)

From S2P Require Import Prelude Errors Fees Pool BigVec Borsh ValidatorList Runtime Platform Checks.
From S2P Require Import Scenario Admin Tracking Deposit Withdraw Validators Update Init Instruction.
From S2P Require Import Process Trace Spec StakerSteps Contracts.

Section InitCorrect.
Context {R : Runtime}.
Variable program_id : Pubkey.

(** The accounts a pool is made of, before it is created. *)
Record fresh_accounts (pool list : AccountInfo) (max : Z) (p : StakePool) (w : World) : Prop := {
  fa_distinct : key pool <> key list;
  fa_pool_owner : owner_of pool w = program_id;
  fa_list_owner : owner_of list w = program_id;
  fa_pool : pool_at w (key pool) = Ok p;
  fa_unused : pool_is_uninitialized p = true;
  fa_list_unused : exists vl, load ValidatorList list w = Ok vl /\
    header_is_uninitialized (header vl) = true;
  fa_capacity : calculate_max_validators (Z.of_nat (length (acc_data (account w (key list))))) = max;
  fa_max : 0 <> max /\ max <= MAX_VALIDATORS_IN_POOL;
}.

Lemma init_accounts_spec pool list max w p vl w' :
  init_accounts program_id pool list max w = Ok ((p, vl), w') ->
  w' = w /\ vl = mkValidatorList (mkHeader ValidatorListType max) [] /\ fresh_accounts pool list max p w.
Proof.
  intros Hx. unfold init_accounts in Hx. inv_run Hx. bool_props. split; [done|]. split; [done|].
  constructor; eauto with contracts. by apply load_pool_at.
Qed.

(** No fee exceeds 100%. *)
Definition init_fees_valid (fee withdrawal_fee deposit_fee : Fee) (referral_fee : Z) : Prop :=
  fee_at_most_one fee /\ fee_at_most_one withdrawal_fee /\ fee_at_most_one deposit_fee /\ referral_fee <= 100.

Lemma init_rent_and_fees_spec i1 i2 rent f1 f2 f3 n w u w' :
  init_rent_and_fees i1 i2 rent f1 f2 f3 n w = Ok (u, w') -> w' = w /\ init_fees_valid f1 f2 f3 n.
Proof.
  intros Hx. unfold init_rent_and_fees in Hx. inv_run Hx. bool_props. split; [done|].
  unfold init_fees_valid, fee_at_most_one. lia.
Qed.

(** The mint of a new pool. *)
Definition mint_ready (mint : AccountInfo) (authority : Pubkey) (w : World) : Prop :=
  exists m, unpack_mint (acc_data (account w (key mint))) = Ok m /\ mint_supply m = 0 /\
    mint_decimals m = NATIVE_MINT_DECIMALS /\ mint_authority m = Some authority /\ freeze_authority m = None.

Lemma check_init_mint_spec i k w u w' : check_init_mint i k w = Ok (u, w') -> w' = w /\ mint_ready i k w.
Proof.
  intros Hx. unfold check_init_mint in Hx. inv_run Hx.
  rename select (try_borrow_data _ _ = _) into Hd. unfold try_borrow_data in Hd.
  destruct (bool_decide (_ ∈ _)); [done|]. injection Hd as Hd. subst. bool_props. split; [done|].
  eexists. split; [eassumption|]. split_and!; try done; [by eapply bool_decide_eq_true|].
  rename select (bool_decide (is_Some _) = false) into Hn. apply bool_decide_eq_false in Hn.
  destruct (freeze_authority _); [|done]. by destruct Hn.
Qed.

(** The reserve of a new pool, with [n] lamports above its minimum. *)
Definition reserve_ready (reserve : AccountInfo) (authority : Pubkey) (w : World) (n : Z) : Prop :=
  exists meta, owner_of reserve w = stake_program_id /\
    load_stake_state reserve w = Ok (StakeInitialized meta) /\ meta_lockup meta = lockup_default /\
    authorized meta = mkAuthorized authority authority /\
    minimum_reserve_lamports meta <= lamports_of reserve w /\
    n = lamports_of reserve w - minimum_reserve_lamports meta.

Lemma check_init_reserve_spec i k w n w' :
  check_init_reserve i k w = Ok (n, w') -> w' = w /\ reserve_ready i k w n.
Proof.
  intros Hx. unfold check_init_reserve in Hx. inv_run Hx. destruct v0; inv_run Hx; try done.
  apply calc_Ok, checked_sub_Some in Hx as [-> Hle]. bool_props. split; [done|]. eexists.
  split; [eassumption|]. split; [eassumption|]. split; [by eapply bool_decide_eq_true|].
  split; [|done]. destruct (authorized _); simpl in *; congruence.
Qed.

#[export] Instance emits_init_accounts i1 i2 n : Emits (init_accounts program_id i1 i2 n) [].
Proof. apply emits_nothing. by intros w [p vl] w' [-> _]%init_accounts_spec. Qed.

(** The deposit authorities of a new pool: the account passed for both kinds of
    deposits, or the derived one for stake and none for SOL. *)
Definition init_deposit_authorities (pool : Pubkey) (rest : list AccountInfo) : Pubkey * option Pubkey :=
  match rest with
  | i :: _ => (key i, Some (key i))
  | [] => (fst (find_deposit_authority_program_address program_id pool), None)
  end.

(** The pool that [Initialize] makes is well formed. *)
Lemma init_pool_typed p m s sd b l r mf n e so f wf df rf :
  pool_typed p -> is_uint 8 b -> is_uint 64 n -> is_uint 64 e -> fee_ok f -> fee_ok wf -> fee_ok df ->
  is_uint 8 rf -> pool_typed (init_pool p m s sd b l r mf n e so f wf df rf).
Proof. intros [] **. constructor; simpl; try done; unfold is_uint; lia. Qed.

Lemma init_pool_fees_valid p m s sd b l r mf n e so f wf df rf :
  init_fees_valid f wf df rf -> pool_fees_valid (init_pool p m s sd b l r mf n e so f wf df rf).
Proof. intros (? & ? & ? & ?). constructor; done. Qed.

(** C3: creating a pool.  If it succeeds, the manager signed, the two accounts
    were distinct, unused accounts of the program, the list sized for the number
    of validators asked for, no fee exceeds 100%, the withdraw authority is the
    derived one, the mint was empty and is controlled by it alone, and the reserve
    is an undelegated stake account under its control.  The pool account then
    holds the pool described by [init_pool], a valid pool with well-formed fields
    and fees, whose lamports are those of the reserve above its minimum and whose
    token supply equals them, which is what is minted to the fee account; the list
    is empty. *)
Theorem initialize_correct `{!RuntimeLaws R program_id} pool manager_info staker_info authority list reserve
    mint manager_fee token rest fee wfee dfee rfee max w u w' :
  fee_ok fee -> fee_ok wfee -> fee_ok dfee -> is_uint 8 rfee -> is_uint 32 max ->
  lamports_typed (accounts w) ->
  process_initialize program_id
    (pool :: manager_info :: staker_info :: authority :: list :: reserve :: mint :: manager_fee :: token :: rest)
    fee wfee dfee rfee max w = Ok (u, w') ->
  exists p clock total q,
    clock_get = Ok clock /\ is_signer manager_info = true /\ fresh_accounts pool list max p w /\
    init_fees_valid fee wfee dfee rfee /\
    key authority = fst (find_withdraw_authority_program_address program_id (key pool)) /\
    mint_ready mint (key authority) w /\ owner_of mint w = key token /\
    reserve_ready reserve (key authority) w total /\
    q = init_pool (p <| token_program_id := key token |> <| pool_mint := key mint |>)
          (key manager_info) (key staker_info)
          (fst (init_deposit_authorities (key pool) rest))
          (snd (find_withdraw_authority_program_address program_id (key pool)))
          (key list) (key reserve) (key manager_fee) total (epoch clock)
          (snd (init_deposit_authorities (key pool) rest)) fee wfee dfee rfee /\
    pool_at w' (key pool) = Ok q /\ pool_is_valid q = true /\ pool_typed q /\ pool_fees_valid q /\
    try_from_slice_unchecked (acc_data (account w' (key list))) =
      Ok (mkValidatorList (mkHeader ValidatorListType max) []) /\
    cpi_log w' = cpi_log w ++
      (if 0 <? total
       then [pool_call (key pool) AUTHORITY_WITHDRAW
               (snd (find_withdraw_authority_program_address program_id (key pool)))
               (TokenMintTo (key token) (key mint) (key manager_fee) (key authority) total)]
       else []).
Proof.
  intros Hf Hwf Hdf Hrf Hmax Hty Hx. unfold process_initialize in Hx. inv_run Hx. inv_accounts.
  rename select (init_accounts _ _ _ _ _ = _) into Hia. apply init_accounts_spec in Hia as (-> & -> & Hfresh).
  rename select (init_rent_and_fees _ _ _ _ _ _ _ _ = _) into Hrf'.
  apply init_rent_and_fees_spec in Hrf' as [-> Hfees].
  rename select (check_init_mint _ _ _ = _) into Hm. apply check_init_mint_spec in Hm as [-> Hm].
  rename select (check_init_reserve _ _ _ = _) into Hres. apply check_init_reserve_spec in Hres as [-> Hres].
  rename select (find_withdraw_authority_program_address _ _ = _) into Ewa. rewrite Ewa. bool_props. subst.
  track_log. rename select (store pool _ _ = _) into Hsp. rename select (store list _ _ = _) into Hsl.
  rename select (clock_get = _) into Hclk.
  assert (init_deposit_authorities (key pool) rest = (b, o)) as -> by (by destruct rest).
  assert (is_uint 64 v8) as Htot.
  { destruct Hres as (meta & _ & Hst%load_stake_state_typed & _ & _ & Hle & ->). simpl in Hst.
    pose proof (typed_lamports _ reserve Hty). unfold meta_typed, minimum_reserve_lamports, saturating_add,
      MINIMUM_RESERVE_LAMPORTS in *. unfold is_uint in *. lia. }
  pose proof (pool_at_typed _ _ _ (fa_pool _ _ _ _ _ Hfresh)) as Hpt.
  match type of Hsp with store _ ?q _ = _ => assert (pool_typed q) as Hq end.
  { apply init_pool_typed; try done; [by destruct Hpt| |by eapply clock_typed].
    change z with (snd (key authority, z)). rewrite <- Ewa. apply bump_typed. }
  eexists _, _, _, _. split_and!; try eassumption; try done.
  - by eapply store_pool_at.
  - by apply init_pool_fees_valid.
  - rewrite (store_data_ne _ _ _ _ _ _ (fa_distinct _ _ _ _ _ Hfresh) Hsp).
    eapply store_read, Hsl. split; [done|]. done.
  - solve_log.
Qed.
End InitCorrect.

(** ** Witness *)
Section InitWitness.
Import Demo Scenario.

(** Two empty accounts of the program, an unused mint and a funded reserve. *)
Definition empty_world : World :=
  world <| accounts :=
    <[pool_key := mkAccount RENT (replicate 611 x00) program]>
      (<[list_key := mkAccount RENT (replicate 301 x00) program]>
         (<[mint_key := mkAccount RENT (encode_mint (mkMint 0 9 (Some withdraw_authority) None (Ok []))) token_id]>
            (accounts world))) |>.
Definition init_run : presult (unit * World) :=
  process_initialize (H:=demo) program
    [w_info pool_key; s_info manager_key; r_info staker_key; r_info withdraw_authority; w_info list_key;
     r_info reserve_key; w_info mint_key; w_info fee_key; r_info token_id]
    (mkFee 100 10) (mkFee 1000 3) (mkFee 100 1) 50 4 empty_world.

Lemma initialize_correct_witness :
  exists q, pool_at (H:=demo) (world_after empty_world init_run) pool_key = Ok q /\ pool_is_valid q = true /\
    pool_typed q /\ pool_fees_valid q /\ total_lamports q = pool_token_supply q.
Proof.
  assert (Hx : init_run = Ok (tt, world_after empty_world init_run))
    by (apply world_after_Ok; vm_compute; reflexivity).
  unfold init_run in Hx.
  assert (Hl : lamports_typed (accounts empty_world)) by (apply lamports_typed_check; vm_compute; reflexivity).
  assert (Hf : fee_ok (mkFee 100 10) /\ fee_ok (mkFee 1000 3) /\ fee_ok (mkFee 100 1) /\ is_uint 8 50 /\ is_uint 32 4)
    by (unfold fee_ok, is_uint; simpl; lia).
  destruct Hf as (Hf1 & Hf2 & Hf3 & Hf4 & Hf5).
  destruct (initialize_correct (R:=demo) program _ _ _ _ _ _ _ _ _ _ _ _ _ _ _ _ _ _ Hf1 Hf2 Hf3 Hf4 Hf5 Hl Hx)
    as (p & clock & total & q & _ & _ & _ & _ & _ & _ & _ & _ & Hq & Hp & Hv & Ht & Hfv & _).
  exists q. split; [exact Hp|]. split; [exact Hv|]. split; [exact Ht|]. split; [exact Hfv|].
  rewrite Hq. reflexivity.
Defined.
End InitWitness.
