(* ===== verification/Rejects.v ===== *)
(** * What the program refuses

    Malformed instructions, missing accounts, and everything but maintenance on
    a pool that is out of date. *)

From S2P Require Import Prelude Errors Fees Pool BigVec Borsh ValidatorList Runtime Platform Checks.
From S2P Require Import Scenario Admin Tracking Deposit Withdraw Validators Update Init Instruction.
From S2P Require Import Process Trace Spec UserSteps StakerSteps Contracts DepositCorrect WithdrawCorrect.
From S2P Require Import StakerCorrect.

Section Rejects.
Context {R : Runtime}.
Variable program_id : Pubkey.

(** malformed requests.  Bytes that are no instruction are refused as such,
    the retired instruction [Redelegate] is refused as invalid data whatever its
    accounts, and every other instruction without accounts is refused for the
    missing keys. *)
Theorem malformed_rejected accts input w :
  match try_from_slice input with
  | Ok (Redelegate _ _ _ _) => process program_id accts input w = Err InvalidInstructionData
  | Ok _ => process program_id [] input w = Err NotEnoughAccountKeys
  | _ => process program_id accts input w = Err BorshIoError
  end.
Proof.
  unfold process. destruct (try_from_slice input) as [i|e|] eqn:E.
  - destruct i; reflexivity.
  - unfold try_from_slice in E. destruct (borsh_de input) as [[x [|]]|]; by simplify_eq.
  - unfold try_from_slice in E. by destruct (borsh_de input) as [[x [|]]|].
Qed.

(** ** Pools that are out of date *)

(** The instructions that use the exchange rate or move stake. *)
Definition needs_update (i : StakePoolInstruction) : bool :=
  is_deposit i || is_withdrawal i ||
  match i with
  | AddValidatorToPool _ | RemoveValidatorFromPool
  | IncreaseValidatorStake _ _ | IncreaseAdditionalValidatorStake _ _ _
  | DecreaseValidatorStake _ _ | DecreaseValidatorStakeWithReserve _ _
  | DecreaseAdditionalValidatorStake _ _ _ => true
  | _ => false
  end.

(** The first account is a pool that is up to date with some clock the handler
    reads. *)
Definition seen_current (accts : list AccountInfo) (w : World) : Prop :=
  exists info p clock, head accts = Some info /\ pool_at w (key info) = Ok p /\
    (clock_get = Ok clock \/ exists i, clock_from i w = Ok clock) /\ epoch clock <= last_update_epoch p.

Lemma current_seen info p clock accts w :
  current_pool program_id info p clock w ->
  clock_get = Ok clock \/ (exists i, clock_from i w = Ok clock) -> seen_current (info :: accts) w.
Proof. intros [] Hc. by exists info, p, clock. Qed.

Lemma deposit_sol_current accts d m b w r :
  process_deposit_sol program_id accts d m b w = Ok r -> seen_current accts w.
Proof.
  destruct r. intros Hx. unfold process_deposit_sol in Hx. inv_handler Hx.
  rename select (deposit_sol_checks _ _ _ _ _ _ _ _ _ _ = _) into Hck.
  apply deposit_sol_checks_spec in Hck as (-> & _ & clock & Hc & Hcur). eauto using current_seen.
Qed.
Lemma withdraw_sol_current accts t m b w r :
  process_withdraw_sol program_id accts t m b w = Ok r -> seen_current accts w.
Proof.
  destruct r. intros Hx. unfold process_withdraw_sol in Hx. inv_handler Hx.
  rename select (withdraw_sol_checks _ _ _ _ _ _ _ _ _ _ = _) into Hck.
  apply withdraw_sol_checks_spec in Hck as (-> & _ & _ & clock & Hc & Hcur). eauto using current_seen.
Qed.
Lemma deposit_stake_current accts m w r :
  process_deposit_stake program_id accts m w = Ok r -> seen_current accts w.
Proof.
  destruct r. intros Hx. unfold process_deposit_stake in Hx. inv_handler Hx.
  rename select (deposit_stake_checks _ _ _ _ _ _ _ _ _ _ _ _ = _) into Hck.
  apply deposit_stake_checks_spec in Hck as (-> & _ & Hcur & _). eauto using current_seen.
Qed.
Lemma withdraw_stake_current accts t m w r :
  process_withdraw_stake program_id accts t m w = Ok r -> seen_current accts w.
Proof.
  destruct r. intros Hx. unfold process_withdraw_stake in Hx. inv_handler Hx.
  rename select (withdraw_stake_checks _ _ _ _ _ _ _ _ _ _ = _) into Hck.
  apply withdraw_stake_checks_spec in Hck as (-> & _ & _ & Hcur). eauto using current_seen.
Qed.

(** The staker's handlers share their prologue. *)
Ltac staker_current :=
  let Hacc := fresh "Hacc" in
  match goal with H : staker_checks _ _ _ _ _ = Ok _ |- _ =>
    eapply staker_checks_spec in H as (-> & Hacc); [|eassumption..] end;
  eapply current_seen; [exact (sa_pool _ _ _ _ _ _ _ _ Hacc)|eauto].

Lemma add_validator_current accts s w r :
  process_add_validator_to_pool program_id accts s w = Ok r -> seen_current accts w.
Proof.
  destruct r. intros Hx. unfold process_add_validator_to_pool in Hx. inv_handler Hx. staker_current.
Qed.
Lemma remove_validator_current accts w r :
  process_remove_validator_from_pool program_id accts w = Ok r -> seen_current accts w.
Proof.
  destruct r. intros Hx. unfold process_remove_validator_from_pool in Hx. inv_handler Hx. staker_current.
Qed.
Lemma increase_current accts n s e w r :
  process_increase_validator_stake program_id accts n s e w = Ok r -> seen_current accts w.
Proof.
  destruct r. intros Hx. unfold process_increase_validator_stake in Hx. inv_handler Hx; staker_current.
Qed.
Lemma decrease_current accts n s e b w r :
  process_decrease_validator_stake program_id accts n s e b w = Ok r -> seen_current accts w.
Proof.
  destruct r. intros Hx. unfold process_decrease_validator_stake in Hx. inv_handler Hx; staker_current.
Qed.

(** On the paths through a session the check comes after the first calls, which
    leave the pool alone. *)
Section Sessions.
Context `{!RuntimeLaws R program_id}.

(** At some point of the run the pool [p] was seen to be current. *)
Definition pool_current (P : AccountInfo) (p : StakePool) : Prop :=
  exists w, seen_current [P] w /\ pool_at w (key P) = Ok p.

Lemma seen_pool_current accts P p w :
  head accts = Some P -> holds_pool program_id (key P) p w -> seen_current accts w -> pool_current P p.
Proof.
  intros HP Hp (info & q & clock & Hi & Hq). exists w. split; [|by eapply holds_pool_at].
  rewrite Hi in HP. injection HP as ->. by exists P, q, clock.
Qed.

Lemma deposit_wsol_current accts d P p w r :
  head accts = Some P -> holds_pool program_id (key P) p w ->
  process_deposit_wsol_with_session program_id accts d w = Ok r -> pool_current P p.
Proof.
  destruct r. intros HP Hp Hx. unfold process_deposit_wsol_with_session in Hx. inv_handler Hx.
  injection HP as ->. track_pool. apply deposit_sol_current in Hx. by eapply seen_pool_current; [| |exact Hx].
Qed.
Lemma withdraw_wsol_current accts t P p w r :
  head accts = Some P -> holds_pool program_id (key P) p w ->
  process_withdraw_wsol_with_session program_id accts t w = Ok r -> pool_current P p.
Proof.
  destruct r. intros HP Hp Hx. unfold process_withdraw_wsol_with_session in Hx. inv_handler Hx.
  injection HP as ->. track_pool. rename select (process_withdraw_sol _ _ _ _ _ _ = _) into Hs.
  apply withdraw_sol_current in Hs. by eapply seen_pool_current; [| |exact Hs].
Qed.

Lemma dispatch_current accts i P p w r :
  needs_update i = true -> head accts = Some P -> holds_pool program_id (key P) p w ->
  dispatch program_id accts i w = Ok r -> pool_current P p.
Proof.
  intros Hn HP Hp Hx. destruct i; try discriminate Hn; cbn [dispatch] in Hx;
    lazymatch type of Hx with
    | process_deposit_wsol_with_session _ _ _ _ = _ => exact (deposit_wsol_current _ _ _ _ _ _ HP Hp Hx)
    | process_withdraw_wsol_with_session _ _ _ _ = _ => exact (withdraw_wsol_current _ _ _ _ _ _ HP Hp Hx)
    | process_deposit_sol _ _ _ _ _ _ = _ => apply deposit_sol_current in Hx
    | process_withdraw_sol _ _ _ _ _ _ = _ => apply withdraw_sol_current in Hx
    | process_deposit_stake _ _ _ _ = _ => apply deposit_stake_current in Hx
    | process_withdraw_stake _ _ _ _ _ = _ => apply withdraw_stake_current in Hx
    | process_add_validator_to_pool _ _ _ _ = _ => apply add_validator_current in Hx
    | process_remove_validator_from_pool _ _ _ = _ => apply remove_validator_current in Hx
    | process_increase_validator_stake _ _ _ _ _ _ = _ => apply increase_current in Hx
    | process_decrease_validator_stake _ _ _ _ _ _ _ = _ => apply decrease_current in Hx
    end; exact (seen_pool_current _ _ _ _ HP Hp Hx).
Qed.

End Sessions.
End Rejects.

(** ** Witness *)
Section RejectWitness.
Import Demo Scenario.

(** The concrete pool, last updated an epoch ago. *)
Definition stale_pool : StakePool := pool <| last_update_epoch := 9 |>.

End RejectWitness.
