(* ===== verification/Builders.v ===== *)
(** * Instruction builders (src/program/src/instruction.rs)

    The functions clients use to make the program's instructions: which
    accounts are passed, in which order, which of them sign and which are
    writable, and the instruction data.  Ids of the sysvars and of the stake
    config account, and the stake program's own builder [authorize], are
    parameters. *)

From S2P Require Import Prelude Errors Fees Pool BigVec Borsh ValidatorList Runtime.
From S2P Require Import Checks Admin Instruction.

(** [solana_program::instruction::Instruction] *)
Record Instruction := mkInstruction {
  ix_program_id : Pubkey;
  ix_accounts : list AccountMeta;
  ix_data : list byte;
}.

(** [AccountMeta::new] and [AccountMeta::new_readonly] *)
Definition meta_new (k : Pubkey) (signer : bool) : AccountMeta := mkAccountMeta k signer true.
Definition meta_readonly (k : Pubkey) (signer : bool) : AccountMeta := mkAccountMeta k signer false.

(** An optional authority signs at the end of the accounts. *)
Definition optional_signer (o : option Pubkey) : list AccountMeta :=
  match o with Some k => [meta_readonly k true] | None => [] end.

(** ** Standard library *)

(** [slice::get] with a range *)
Definition slice_get {A} (l : list A) (i j : Z) : option (list A) :=
  if (i <=? j) && (j <=? Z.of_nat (length l))
  then Some (take (Z.to_nat (j - i)) (drop (Z.to_nat i) l)) else None.

(** [slice::chunks]: runs of [n] elements, the last one possibly shorter. *)
Fixpoint chunks_go {A} (fuel n : nat) (l : list A) : list (list A) :=
  match fuel, l with
  | S fuel, _ :: _ => take n l :: chunks_go fuel n (drop n l)
  | _, _ => []
  end.
Definition chunks {A} (n : nat) (l : list A) : list (list A) := chunks_go (length l) n l.

(** [Iterator::enumerate] *)
Fixpoint enumerate_from {A} (i : Z) (l : list A) : list (Z * A) :=
  match l with [] => [] | x :: l => (i, x) :: enumerate_from (i + 1) l end.
Definition enumerate {A} (l : list A) : list (Z * A) := enumerate_from 0 l.

(** [u32::try_from(usize)] *)
Definition try_u32 (n : Z) : option Z := if n <? 2 ^ 32 then Some n else None.

(** [Result::unwrap] *)
Definition unwrap_result {A} (r : presult A) : presult A :=
  match r with Ok a => Ok a | _ => Panic end.

(** The ids and the builder of other crates that the builders use. *)
Class ClientIds := {
  sysvar_rent_id : Pubkey;
  sysvar_clock_id : Pubkey;
  sysvar_stake_history_id : Pubkey;
  stake_config_id : Pubkey;
  stake_authorize : Pubkey -> Pubkey -> Pubkey -> StakeAuthorize -> option Pubkey -> Instruction;
}.

(** [MAX_VALIDATORS_TO_UPDATE] (lib.rs) *)
Definition MAX_VALIDATORS_TO_UPDATE : Z := 4.

(** [borsh::to_vec] of an instruction with strings, which fails when a length
    does not fit [u32].  The other instructions always encode. *)
Definition metadata_to_vec (i : StakePoolInstruction) (name symbol uri : list byte) : option (list
       byte) :=
  if forallb (fun s : list byte => Z.of_nat (length s) <? 2 ^ 32) [name; symbol; uri]
  then Some (instruction_ser i) else None.

Section Builders.
Context `{Runtime} `{ClientIds}.
Variable program_id : Pubkey.

(** An instruction of the program. *)
Definition build (accounts : list AccountMeta) (i : StakePoolInstruction) : Instruction :=
  mkInstruction program_id accounts (instruction_ser i).

(** ** Pool and validators *)

Definition initialize (stake_pool manager staker stake_pool_withdraw_authority
    validator_list reserve_stake pool_mint manager_pool_account token_program_id : Pubkey)
    (deposit_authority : option Pubkey) (fee withdrawal_fee deposit_fee : Fee) (referral_fee
    max_validators : Z) : Instruction :=
  build
    ([meta_new stake_pool false; meta_readonly manager true; meta_readonly staker false;
      meta_readonly stake_pool_withdraw_authority false; meta_new validator_list false;
      meta_readonly reserve_stake false; meta_new pool_mint false; meta_new manager_pool_account false;
      meta_readonly token_program_id false] ++ optional_signer deposit_authority)
    (Initialize fee withdrawal_fee deposit_fee referral_fee max_validators).

Definition add_validator_to_pool (stake_pool staker reserve stake_pool_withdraw validator_list stake
    validator : Pubkey) (seed : option Z) : Instruction :=
  build
    [meta_new stake_pool false; meta_readonly staker true; meta_new reserve false;
     meta_readonly stake_pool_withdraw false; meta_new validator_list false; meta_new stake false;
     meta_readonly validator false; meta_readonly sysvar_rent_id false;
     meta_readonly sysvar_clock_id false; meta_readonly sysvar_stake_history_id false;
     meta_readonly stake_config_id false; meta_readonly system_program_id false;
     meta_readonly stake_program_id false]
    (AddValidatorToPool (default 0 seed)).

Definition remove_validator_from_pool (stake_pool staker stake_pool_withdraw
    validator_list stake_account transient_stake_account : Pubkey) : Instruction :=
  build
    [meta_new stake_pool false; meta_readonly staker true; meta_readonly stake_pool_withdraw false;
     meta_new validator_list false; meta_new stake_account false;
     meta_new transient_stake_account false; meta_readonly sysvar_clock_id false;
     meta_readonly stake_program_id false]
    RemoveValidatorFromPool.

Definition decrease_validator_stake (stake_pool staker stake_pool_withdraw_authority
    validator_list validator_stake transient_stake : Pubkey) (lamports transient_stake_seed : Z)
    : Instruction :=
  build
    [meta_readonly stake_pool false; meta_readonly staker true;
     meta_readonly stake_pool_withdraw_authority false; meta_new validator_list false;
     meta_new validator_stake false; meta_new transient_stake false;
     meta_readonly sysvar_clock_id false; meta_readonly sysvar_rent_id false;
     meta_readonly system_program_id false; meta_readonly stake_program_id false]
    (DecreaseValidatorStake lamports transient_stake_seed).

Definition decrease_additional_validator_stake (stake_pool staker stake_pool_withdraw_authority
    validator_list reserve_stake validator_stake ephemeral_stake transient_stake : Pubkey) (lamports
    transient_stake_seed ephemeral_stake_seed : Z) : Instruction :=
  build
    [meta_readonly stake_pool false; meta_readonly staker true;
     meta_readonly stake_pool_withdraw_authority false; meta_new validator_list false;
     meta_new reserve_stake false; meta_new validator_stake false; meta_new ephemeral_stake false;
     meta_new transient_stake false; meta_readonly sysvar_clock_id false;
     meta_readonly sysvar_stake_history_id false; meta_readonly system_program_id false;
     meta_readonly stake_program_id false]
    (DecreaseAdditionalValidatorStake lamports transient_stake_seed ephemeral_stake_seed).

Definition decrease_validator_stake_with_reserve (stake_pool staker stake_pool_withdraw_authority
    validator_list reserve_stake validator_stake transient_stake : Pubkey) (lamports
    transient_stake_seed : Z) : Instruction :=
  build
    [meta_readonly stake_pool false; meta_readonly staker true;
     meta_readonly stake_pool_withdraw_authority false; meta_new validator_list false;
     meta_new reserve_stake false; meta_new validator_stake false; meta_new transient_stake false;
     meta_readonly sysvar_clock_id false; meta_readonly sysvar_stake_history_id false;
     meta_readonly system_program_id false; meta_readonly stake_program_id false]
    (DecreaseValidatorStakeWithReserve lamports transient_stake_seed).

Definition increase_validator_stake (stake_pool staker stake_pool_withdraw_authority
    validator_list reserve_stake transient_stake validator_stake validator : Pubkey) (lamports
    transient_stake_seed : Z) : Instruction :=
  build
    [meta_readonly stake_pool false; meta_readonly staker true;
     meta_readonly stake_pool_withdraw_authority false; meta_new validator_list false;
     meta_new reserve_stake false; meta_new transient_stake false; meta_readonly validator_stake false;
     meta_readonly validator false; meta_readonly sysvar_clock_id false;
     meta_readonly sysvar_rent_id false; meta_readonly sysvar_stake_history_id false;
     meta_readonly stake_config_id false; meta_readonly system_program_id false;
     meta_readonly stake_program_id false]
    (IncreaseValidatorStake lamports transient_stake_seed).

Definition increase_additional_validator_stake (stake_pool staker stake_pool_withdraw_authority
    validator_list reserve_stake ephemeral_stake transient_stake validator_stake validator : Pubkey)
    (lamports transient_stake_seed ephemeral_stake_seed : Z) : Instruction :=
  build
    [meta_readonly stake_pool false; meta_readonly staker true;
     meta_readonly stake_pool_withdraw_authority false; meta_new validator_list false;
     meta_new reserve_stake false; meta_new ephemeral_stake false; meta_new transient_stake false;
     meta_readonly validator_stake false; meta_readonly validator false;
     meta_readonly sysvar_clock_id false; meta_readonly sysvar_stake_history_id false;
     meta_readonly stake_config_id false; meta_readonly system_program_id false;
     meta_readonly stake_program_id false]
    (IncreaseAdditionalValidatorStake lamports transient_stake_seed ephemeral_stake_seed).

Definition redelegate (stake_pool staker stake_pool_withdraw_authority validator_list reserve_stake
    source_validator_stake source_transient_stake ephemeral_stake destination_transient_stake
    destination_validator_stake validator : Pubkey) (lamports source_transient_stake_seed
    ephemeral_stake_seed destination_transient_stake_seed : Z) : Instruction :=
  build
    [meta_readonly stake_pool false; meta_readonly staker true;
     meta_readonly stake_pool_withdraw_authority false; meta_new validator_list false;
     meta_new reserve_stake false; meta_new source_validator_stake false;
     meta_new source_transient_stake false; meta_new ephemeral_stake false;
     meta_new destination_transient_stake false; meta_readonly destination_validator_stake false;
     meta_readonly validator false; meta_readonly sysvar_clock_id false;
     meta_readonly sysvar_stake_history_id false; meta_readonly stake_config_id false;
     meta_readonly system_program_id false; meta_readonly stake_program_id false]
    (Redelegate lamports source_transient_stake_seed ephemeral_stake_seed
           destination_transient_stake_seed).

Definition set_preferred_validator (stake_pool_address staker validator_list_address : Pubkey)
    (validator_type : PreferredValidatorType) (validator_vote_address : option Pubkey) : Instruction :=
  build
    [meta_new stake_pool_address false; meta_readonly staker true;
     meta_readonly validator_list_address false]
    (SetPreferredValidator validator_type validator_vote_address).

(** ** With derived addresses *)

Definition add_validator_to_pool_with_vote (stake_pool : StakePool) (stake_pool_address
    vote_account_address : Pubkey) (seed : option Z) : Instruction :=
  let pool_withdraw_authority :=
    fst (find_withdraw_authority_program_address program_id stake_pool_address) in
  let stake_account_address :=
    fst (find_stake_program_address program_id vote_account_address stake_pool_address seed) in
  add_validator_to_pool stake_pool_address (staker stake_pool) (reserve_stake stake_pool)
    pool_withdraw_authority (validator_list stake_pool) stake_account_address vote_account_address seed.

Definition remove_validator_from_pool_with_vote (stake_pool : StakePool) (stake_pool_address
    vote_account_address : Pubkey) (validator_stake_seed : option Z) (transient_stake_seed : Z)
    : Instruction :=
  let pool_withdraw_authority :=
    fst (find_withdraw_authority_program_address program_id stake_pool_address) in
  let stake_account_address :=
    fst (find_stake_program_address program_id vote_account_address stake_pool_address
           validator_stake_seed) in
  let transient_stake_account :=
    fst (find_transient_stake_program_address program_id vote_account_address stake_pool_address
           transient_stake_seed) in
  remove_validator_from_pool stake_pool_address (staker stake_pool) pool_withdraw_authority
    (validator_list stake_pool) stake_account_address transient_stake_account.

Definition increase_validator_stake_with_vote (stake_pool : StakePool) (stake_pool_address
    vote_account_address : Pubkey) (lamports : Z) (validator_stake_seed : option Z)
    (transient_stake_seed : Z) : Instruction :=
  let pool_withdraw_authority :=
    fst (find_withdraw_authority_program_address program_id stake_pool_address) in
  let transient_stake_address :=
    fst (find_transient_stake_program_address program_id vote_account_address stake_pool_address
           transient_stake_seed) in
  let validator_stake_address :=
    fst (find_stake_program_address program_id vote_account_address stake_pool_address
           validator_stake_seed) in
  increase_validator_stake stake_pool_address (staker stake_pool) pool_withdraw_authority
    (validator_list stake_pool) (reserve_stake stake_pool) transient_stake_address
    validator_stake_address vote_account_address lamports transient_stake_seed.

Definition increase_additional_validator_stake_with_vote (stake_pool : StakePool) (stake_pool_address
    vote_account_address : Pubkey) (lamports : Z) (validator_stake_seed : option Z)
    (transient_stake_seed ephemeral_stake_seed : Z) : Instruction :=
  let pool_withdraw_authority :=
    fst (find_withdraw_authority_program_address program_id stake_pool_address) in
  let ephemeral_stake_address :=
    fst (find_ephemeral_stake_program_address program_id stake_pool_address ephemeral_stake_seed) in
  let transient_stake_address :=
    fst (find_transient_stake_program_address program_id vote_account_address stake_pool_address
           transient_stake_seed) in
  let validator_stake_address :=
    fst (find_stake_program_address program_id vote_account_address stake_pool_address
           validator_stake_seed) in
  increase_additional_validator_stake stake_pool_address (staker stake_pool) pool_withdraw_authority
    (validator_list stake_pool) (reserve_stake stake_pool) ephemeral_stake_address
    transient_stake_address validator_stake_address vote_account_address lamports transient_stake_seed
    ephemeral_stake_seed.

Definition decrease_validator_stake_with_vote (stake_pool : StakePool) (stake_pool_address
    vote_account_address : Pubkey) (lamports : Z) (validator_stake_seed : option Z)
    (transient_stake_seed : Z) : Instruction :=
  let pool_withdraw_authority :=
    fst (find_withdraw_authority_program_address program_id stake_pool_address) in
  let validator_stake_address :=
    fst (find_stake_program_address program_id vote_account_address stake_pool_address
           validator_stake_seed) in
  let transient_stake_address :=
    fst (find_transient_stake_program_address program_id vote_account_address stake_pool_address
           transient_stake_seed) in
  decrease_validator_stake_with_reserve stake_pool_address (staker stake_pool) pool_withdraw_authority
    (validator_list stake_pool) (reserve_stake stake_pool) validator_stake_address
    transient_stake_address lamports transient_stake_seed.

Definition decrease_additional_validator_stake_with_vote (stake_pool : StakePool) (stake_pool_address
    vote_account_address : Pubkey) (lamports : Z) (validator_stake_seed : option Z)
    (transient_stake_seed ephemeral_stake_seed : Z) : Instruction :=
  let pool_withdraw_authority :=
    fst (find_withdraw_authority_program_address program_id stake_pool_address) in
  let validator_stake_address :=
    fst (find_stake_program_address program_id vote_account_address stake_pool_address
           validator_stake_seed) in
  let ephemeral_stake_address :=
    fst (find_ephemeral_stake_program_address program_id stake_pool_address ephemeral_stake_seed) in
  let transient_stake_address :=
    fst (find_transient_stake_program_address program_id vote_account_address stake_pool_address
           transient_stake_seed) in
  decrease_additional_validator_stake stake_pool_address (staker stake_pool) pool_withdraw_authority
    (validator_list stake_pool) (reserve_stake stake_pool) validator_stake_address
    ephemeral_stake_address transient_stake_address lamports transient_stake_seed ephemeral_stake_seed.

Definition increase_additional_validator_stake_with_list (stake_pool : StakePool)
    (validator_list : ValidatorList) (stake_pool_address vote_account_address : Pubkey) (lamports
    ephemeral_stake_seed : Z) : presult Instruction :=
  validator_info ← ok_or InvalidInstructionData (vl_find validator_list vote_account_address);
  let transient_stake_seed := uint_of_array (transient_seed_suffix validator_info) in
  let validator_stake_seed := nonzero (uint_of_array (validator_seed_suffix validator_info)) in
  Ok (increase_additional_validator_stake_with_vote stake_pool stake_pool_address vote_account_address
        lamports validator_stake_seed transient_stake_seed ephemeral_stake_seed).

Definition decrease_additional_validator_stake_with_list (stake_pool : StakePool)
    (validator_list : ValidatorList) (stake_pool_address vote_account_address : Pubkey) (lamports
    ephemeral_stake_seed : Z) : presult Instruction :=
  validator_info ← ok_or InvalidInstructionData (vl_find validator_list vote_account_address);
  let transient_stake_seed := uint_of_array (transient_seed_suffix validator_info) in
  let validator_stake_seed := nonzero (uint_of_array (validator_seed_suffix validator_info)) in
  Ok (decrease_additional_validator_stake_with_vote stake_pool stake_pool_address vote_account_address
        lamports validator_stake_seed transient_stake_seed ephemeral_stake_seed).

(** ** Epoch updates *)

(** The validator and the transient stake account of an entry, as the update
    builders derive them. *)
Definition stake_metas (stake_pool vote_account_address : Pubkey) (v : ValidatorStakeInfo)
    : list AccountMeta :=
  let validator_stake_account :=
    fst (find_stake_program_address program_id vote_account_address stake_pool
           (nonzero (uint_of_array (validator_seed_suffix v)))) in
  let transient_stake_account :=
    fst (find_transient_stake_program_address program_id vote_account_address stake_pool
           (uint_of_array (transient_seed_suffix v))) in
  [meta_new validator_stake_account false; meta_new transient_stake_account false].

Definition update_validator_list_balance (stake_pool stake_pool_withdraw_authority
    validator_list_address reserve_stake : Pubkey) (validator_list : ValidatorList)
    (validator_vote_accounts : list Pubkey) (start_index : Z) (no_merge : bool) : Instruction :=
  build
    ([meta_readonly stake_pool false; meta_readonly stake_pool_withdraw_authority false;
      meta_new validator_list_address false; meta_new reserve_stake false;
      meta_readonly sysvar_clock_id false; meta_readonly sysvar_stake_history_id false;
      meta_readonly stake_program_id false] ++
     (vote_account_address ← validator_vote_accounts;
      match vl_find validator_list vote_account_address with
      | Some validator_stake_info => stake_metas stake_pool vote_account_address validator_stake_info
      | None => []
      end))
    (UpdateValidatorListBalance start_index no_merge).

Definition update_validator_list_balance_chunk (stake_pool stake_pool_withdraw_authority
    validator_list_address reserve_stake : Pubkey) (validator_list : ValidatorList) (len
    start_index : Z) (no_merge : bool) : presult Instruction :=
  let accounts :=
    [meta_readonly stake_pool false; meta_readonly stake_pool_withdraw_authority false;
     meta_new validator_list_address false; meta_new reserve_stake false;
     meta_readonly sysvar_clock_id false; meta_readonly sysvar_stake_history_id false;
     meta_readonly stake_program_id false] in
  validator_list_subslice ←
    ok_or InvalidInstructionData
      (slice_get (validators validator_list) start_index (saturating_add 64 start_index len));
  let accounts :=
    accounts ++ (v ← validator_list_subslice; stake_metas stake_pool (vote_account_address v) v) in
  start_index ← unwrap (try_u32 start_index);
  Ok (build accounts (UpdateValidatorListBalance start_index no_merge)).

Definition update_stale_validator_list_balance_chunk (stake_pool stake_pool_withdraw_authority
    validator_list_address reserve_stake : Pubkey) (validator_list : ValidatorList) (len
    start_index : Z) (no_merge : bool) (current_epoch : Z) : presult (option Instruction) :=
  validator_list_subslice ←
    ok_or InvalidInstructionData
      (slice_get (validators validator_list) start_index (saturating_add 64 start_index len));
  if forallb (fun info => current_epoch <=? uint_of_array (vsi_last_update_epoch info))
       validator_list_subslice
  then Ok None
  else
    Some <$> update_validator_list_balance_chunk stake_pool stake_pool_withdraw_authority
               validator_list_address reserve_stake validator_list len start_index no_merge.

Definition update_stake_pool_balance (stake_pool withdraw_authority validator_list_storage reserve_stake
    manager_fee_account stake_pool_mint token_program_id : Pubkey) : Instruction :=
  build
    [meta_new stake_pool false; meta_readonly withdraw_authority false;
     meta_new validator_list_storage false; meta_readonly reserve_stake false;
     meta_new manager_fee_account false; meta_new stake_pool_mint false;
     meta_readonly token_program_id false]
    UpdateStakePoolBalance.

Definition cleanup_removed_validator_entries (stake_pool validator_list_storage : Pubkey)
    : Instruction :=
  build
    [meta_new stake_pool false; meta_new validator_list_storage false]
    CleanupRemovedValidatorEntries.

Definition update_stake_pool (stake_pool : StakePool) (vlist : ValidatorList)
    (stake_pool_address : Pubkey) (no_merge : bool) : presult (list Instruction * list Instruction) :=
  let withdraw_authority :=
    fst (find_withdraw_authority_program_address program_id stake_pool_address) in
  update_list_instructions ←
    mapM (fun '(i, chunk) =>
        unwrap_result
          (update_validator_list_balance_chunk stake_pool_address withdraw_authority
             (validator_list stake_pool) (reserve_stake stake_pool) vlist
             (Z.of_nat (length chunk)) (saturating_mul 64 i MAX_VALIDATORS_TO_UPDATE) no_merge))
      (enumerate (chunks (Z.to_nat MAX_VALIDATORS_TO_UPDATE) (validators vlist)));
  let final_instructions :=
    [update_stake_pool_balance stake_pool_address withdraw_authority (validator_list stake_pool)
       (reserve_stake stake_pool) (manager_fee_account stake_pool) (pool_mint stake_pool)
       (token_program_id stake_pool);
     cleanup_removed_validator_entries stake_pool_address (validator_list stake_pool)] in
  Ok (update_list_instructions, final_instructions).

Definition update_stale_stake_pool (stake_pool : StakePool) (vlist : ValidatorList)
    (stake_pool_address : Pubkey) (no_merge : bool) (current_epoch : Z)
    : presult (list Instruction * list Instruction) :=
  let withdraw_authority :=
    fst (find_withdraw_authority_program_address program_id stake_pool_address) in
  update_list_instructions ←
    mapM (fun '(i, chunk) =>
        unwrap_result
          (update_stale_validator_list_balance_chunk stake_pool_address withdraw_authority
             (validator_list stake_pool) (reserve_stake stake_pool) vlist
             (Z.of_nat (length chunk)) (saturating_mul 64 i MAX_VALIDATORS_TO_UPDATE) no_merge
             current_epoch))
      (enumerate (chunks (Z.to_nat MAX_VALIDATORS_TO_UPDATE) (validators vlist)));
  let update_list_instructions := omap id update_list_instructions in
  let final_instructions :=
    [update_stake_pool_balance stake_pool_address withdraw_authority (validator_list stake_pool)
       (reserve_stake stake_pool) (manager_fee_account stake_pool) (pool_mint stake_pool)
       (token_program_id stake_pool);
     cleanup_removed_validator_entries stake_pool_address (validator_list stake_pool)] in
  Ok (update_list_instructions, final_instructions).

(** ** Deposits *)

Definition deposit_stake_internal (stake_pool validator_list_storage : Pubkey)
    (stake_pool_deposit_authority : option Pubkey) (stake_pool_withdraw_authority deposit_stake_address
    deposit_stake_withdraw_authority validator_stake_account reserve_stake_account pool_tokens_to
    manager_fee_account referrer_pool_tokens_account pool_mint token_program_id : Pubkey)
    (minimum_pool_tokens_out : option Z) : list Instruction :=
  let accounts := [meta_new stake_pool false; meta_new validator_list_storage false] in
  let '(accounts, instructions) :=
    match stake_pool_deposit_authority with
    | Some stake_pool_deposit_authority =>
        (accounts ++ [meta_readonly stake_pool_deposit_authority true],
         [stake_authorize deposit_stake_address deposit_stake_withdraw_authority
            stake_pool_deposit_authority AuthorizeStaker None;
          stake_authorize deposit_stake_address deposit_stake_withdraw_authority
            stake_pool_deposit_authority AuthorizeWithdrawer None])
    | None =>
        let stake_pool_deposit_authority :=
          fst (find_deposit_authority_program_address program_id stake_pool) in
        (accounts ++ [meta_readonly stake_pool_deposit_authority false],
         [stake_authorize deposit_stake_address deposit_stake_withdraw_authority
            stake_pool_deposit_authority AuthorizeStaker None;
          stake_authorize deposit_stake_address deposit_stake_withdraw_authority
            stake_pool_deposit_authority AuthorizeWithdrawer None])
    end in
  let accounts := accounts ++
    [meta_readonly stake_pool_withdraw_authority false; meta_new deposit_stake_address false;
     meta_new validator_stake_account false; meta_new reserve_stake_account false;
     meta_new pool_tokens_to false; meta_new manager_fee_account false;
     meta_new referrer_pool_tokens_account false; meta_new pool_mint false;
     meta_readonly sysvar_clock_id false; meta_readonly sysvar_stake_history_id false;
     meta_readonly token_program_id false; meta_readonly stake_program_id false] in
  instructions ++
    [match minimum_pool_tokens_out with
     | Some minimum_pool_tokens_out => build accounts (DepositStakeWithSlippage minimum_pool_tokens_out)
     | None => build accounts DepositStake
     end].

Definition deposit_stake (stake_pool validator_list_storage stake_pool_withdraw_authority
    deposit_stake_address deposit_stake_withdraw_authority validator_stake_account reserve_stake_account
    pool_tokens_to manager_fee_account referrer_pool_tokens_account pool_mint token_program_id : Pubkey)
    : list Instruction :=
  deposit_stake_internal stake_pool validator_list_storage None stake_pool_withdraw_authority
    deposit_stake_address deposit_stake_withdraw_authority validator_stake_account reserve_stake_account
    pool_tokens_to manager_fee_account referrer_pool_tokens_account pool_mint token_program_id None.

Definition deposit_stake_with_slippage (stake_pool validator_list_storage stake_pool_withdraw_authority
    deposit_stake_address deposit_stake_withdraw_authority validator_stake_account reserve_stake_account
    pool_tokens_to manager_fee_account referrer_pool_tokens_account pool_mint token_program_id : Pubkey)
    (minimum_pool_tokens_out : Z) : list Instruction :=
  deposit_stake_internal stake_pool validator_list_storage None stake_pool_withdraw_authority
    deposit_stake_address deposit_stake_withdraw_authority validator_stake_account reserve_stake_account
    pool_tokens_to manager_fee_account referrer_pool_tokens_account pool_mint token_program_id
    (Some minimum_pool_tokens_out).

Definition deposit_stake_with_authority (stake_pool validator_list_storage stake_pool_deposit_authority
    stake_pool_withdraw_authority deposit_stake_address deposit_stake_withdraw_authority
    validator_stake_account reserve_stake_account pool_tokens_to manager_fee_account
    referrer_pool_tokens_account pool_mint token_program_id : Pubkey) : list Instruction :=
  deposit_stake_internal stake_pool validator_list_storage (Some stake_pool_deposit_authority)
    stake_pool_withdraw_authority deposit_stake_address deposit_stake_withdraw_authority
    validator_stake_account reserve_stake_account pool_tokens_to manager_fee_account
    referrer_pool_tokens_account pool_mint token_program_id None.

Definition deposit_stake_with_authority_and_slippage (stake_pool validator_list_storage
    stake_pool_deposit_authority stake_pool_withdraw_authority deposit_stake_address
    deposit_stake_withdraw_authority validator_stake_account reserve_stake_account pool_tokens_to
    manager_fee_account referrer_pool_tokens_account pool_mint token_program_id : Pubkey)
    (minimum_pool_tokens_out : Z) : list Instruction :=
  deposit_stake_internal stake_pool validator_list_storage (Some stake_pool_deposit_authority)
    stake_pool_withdraw_authority deposit_stake_address deposit_stake_withdraw_authority
    validator_stake_account reserve_stake_account pool_tokens_to manager_fee_account
    referrer_pool_tokens_account pool_mint token_program_id (Some minimum_pool_tokens_out).

Definition deposit_sol_internal (stake_pool stake_pool_withdraw_authority reserve_stake_account
    lamports_from pool_tokens_to manager_fee_account referrer_pool_tokens_account pool_mint
    token_program_id : Pubkey) (sol_deposit_authority : option Pubkey) (lamports_in : Z)
    (minimum_pool_tokens_out : option Z) : Instruction :=
  let accounts :=
    [meta_new stake_pool false; meta_readonly stake_pool_withdraw_authority false;
     meta_new reserve_stake_account false; meta_new lamports_from true; meta_new pool_tokens_to false;
     meta_new manager_fee_account false; meta_new referrer_pool_tokens_account false;
     meta_new pool_mint false; meta_readonly system_program_id false;
     meta_readonly token_program_id false] ++ optional_signer sol_deposit_authority in
  match minimum_pool_tokens_out with
  | Some minimum_pool_tokens_out =>
      build accounts (DepositSolWithSlippage lamports_in minimum_pool_tokens_out)
  | None => build accounts (DepositSol lamports_in)
  end.

Definition deposit_sol (stake_pool stake_pool_withdraw_authority reserve_stake_account lamports_from
    pool_tokens_to manager_fee_account referrer_pool_tokens_account pool_mint token_program_id : Pubkey)
    (lamports_in : Z) : Instruction :=
  deposit_sol_internal stake_pool stake_pool_withdraw_authority reserve_stake_account lamports_from
    pool_tokens_to manager_fee_account referrer_pool_tokens_account pool_mint token_program_id None
    lamports_in None.

Definition deposit_sol_with_slippage (stake_pool stake_pool_withdraw_authority reserve_stake_account
    lamports_from pool_tokens_to manager_fee_account referrer_pool_tokens_account pool_mint
    token_program_id : Pubkey) (lamports_in minimum_pool_tokens_out : Z) : Instruction :=
  deposit_sol_internal stake_pool stake_pool_withdraw_authority reserve_stake_account lamports_from
    pool_tokens_to manager_fee_account referrer_pool_tokens_account pool_mint token_program_id None
    lamports_in (Some minimum_pool_tokens_out).

Definition deposit_sol_with_authority (stake_pool sol_deposit_authority stake_pool_withdraw_authority
    reserve_stake_account lamports_from pool_tokens_to manager_fee_account referrer_pool_tokens_account
    pool_mint token_program_id : Pubkey) (lamports_in : Z) : Instruction :=
  deposit_sol_internal stake_pool stake_pool_withdraw_authority reserve_stake_account lamports_from
    pool_tokens_to manager_fee_account referrer_pool_tokens_account pool_mint token_program_id
    (Some sol_deposit_authority) lamports_in None.

Definition deposit_sol_with_authority_and_slippage (stake_pool sol_deposit_authority
    stake_pool_withdraw_authority reserve_stake_account lamports_from pool_tokens_to manager_fee_account
    referrer_pool_tokens_account pool_mint token_program_id : Pubkey) (lamports_in
    minimum_pool_tokens_out : Z) : Instruction :=
  deposit_sol_internal stake_pool stake_pool_withdraw_authority reserve_stake_account lamports_from
    pool_tokens_to manager_fee_account referrer_pool_tokens_account pool_mint token_program_id
    (Some sol_deposit_authority) lamports_in (Some minimum_pool_tokens_out).

Definition deposit_wsol_with_session (signer_or_session fee_payer program_signer user_wsol_account
    transient_wsol_account wsol_mint stake_pool stake_pool_withdraw_authority : Pubkey)
    (sol_deposit_authority : option Pubkey) (reserve_stake_account pool_tokens_to manager_fee_account
    referrer_pool_tokens_account pool_mint token_program_id system_program_id : Pubkey)
    (lamports_in : Z) : Instruction :=
  build
    ([meta_new stake_pool false; meta_readonly stake_pool_withdraw_authority false;
      meta_new reserve_stake_account false; meta_new pool_tokens_to false;
      meta_new manager_fee_account false; meta_new referrer_pool_tokens_account false;
      meta_new pool_mint false; meta_readonly system_program_id false;
      meta_readonly token_program_id false; meta_new signer_or_session true;
      meta_readonly wsol_mint false; meta_new fee_payer true; meta_new user_wsol_account false;
      meta_new transient_wsol_account false; meta_new program_signer false] ++
     optional_signer sol_deposit_authority)
    (DepositWsolWithSession lamports_in).

(** ** Withdrawals *)

Definition withdraw_stake_internal (stake_pool validator_list_storage stake_pool_withdraw stake_to_split
    stake_to_receive user_stake_authority user_transfer_authority user_pool_token_account
    manager_fee_account pool_mint token_program_id : Pubkey) (pool_tokens_in : Z)
    (minimum_lamports_out : option Z) : Instruction :=
  let accounts :=
    [meta_new stake_pool false; meta_new validator_list_storage false;
     meta_readonly stake_pool_withdraw false; meta_new stake_to_split false;
     meta_new stake_to_receive false; meta_readonly user_stake_authority false;
     meta_readonly user_transfer_authority true; meta_new user_pool_token_account false;
     meta_new manager_fee_account false; meta_new pool_mint false; meta_readonly sysvar_clock_id false;
     meta_readonly token_program_id false; meta_readonly stake_program_id false] in
  match minimum_lamports_out with
  | Some minimum_lamports_out =>
      build accounts (WithdrawStakeWithSlippage pool_tokens_in minimum_lamports_out)
  | None => build accounts (WithdrawStake pool_tokens_in)
  end.

Definition withdraw_stake (stake_pool validator_list_storage stake_pool_withdraw stake_to_split
    stake_to_receive user_stake_authority user_transfer_authority user_pool_token_account
    manager_fee_account pool_mint token_program_id : Pubkey) (pool_tokens_in : Z) : Instruction :=
  withdraw_stake_internal stake_pool validator_list_storage stake_pool_withdraw stake_to_split
    stake_to_receive user_stake_authority user_transfer_authority user_pool_token_account
    manager_fee_account pool_mint token_program_id pool_tokens_in None.

Definition withdraw_stake_with_slippage (stake_pool validator_list_storage stake_pool_withdraw
    stake_to_split stake_to_receive user_stake_authority user_transfer_authority user_pool_token_account
    manager_fee_account pool_mint token_program_id : Pubkey) (pool_tokens_in minimum_lamports_out : Z)
    : Instruction :=
  withdraw_stake_internal stake_pool validator_list_storage stake_pool_withdraw stake_to_split
    stake_to_receive user_stake_authority user_transfer_authority user_pool_token_account
    manager_fee_account pool_mint token_program_id pool_tokens_in (Some minimum_lamports_out).

Definition withdraw_sol_internal (stake_pool stake_pool_withdraw_authority user_transfer_authority
    pool_tokens_from reserve_stake_account lamports_to manager_fee_account pool_mint
    token_program_id : Pubkey) (sol_withdraw_authority : option Pubkey) (pool_tokens_in : Z)
    (minimum_lamports_out : option Z) : Instruction :=
  let accounts :=
    [meta_new stake_pool false; meta_readonly stake_pool_withdraw_authority false;
     meta_readonly user_transfer_authority true; meta_new pool_tokens_from false;
     meta_new reserve_stake_account false; meta_new lamports_to false;
     meta_new manager_fee_account false; meta_new pool_mint false; meta_readonly sysvar_clock_id false;
     meta_readonly sysvar_stake_history_id false; meta_readonly stake_program_id false;
     meta_readonly token_program_id false] ++ optional_signer sol_withdraw_authority in
  match minimum_lamports_out with
  | Some minimum_lamports_out =>
      build accounts (WithdrawSolWithSlippage pool_tokens_in minimum_lamports_out)
  | None => build accounts (WithdrawSol pool_tokens_in)
  end.

Definition withdraw_sol (stake_pool stake_pool_withdraw_authority user_transfer_authority
    pool_tokens_from reserve_stake_account lamports_to manager_fee_account pool_mint
    token_program_id : Pubkey) (pool_tokens_in : Z) : Instruction :=
  withdraw_sol_internal stake_pool stake_pool_withdraw_authority user_transfer_authority
    pool_tokens_from reserve_stake_account lamports_to manager_fee_account pool_mint token_program_id
    None pool_tokens_in None.

Definition withdraw_wsol_with_session (stake_pool stake_pool_withdraw_authority user_transfer_authority
    pool_tokens_from reserve_stake_account user_wsol_account manager_fee_account pool_mint
    token_program_id : Pubkey) (sol_withdraw_authority : option Pubkey) (wsol_mint fee_payer user_owner
    system_program_id program_signer associated_token_program_id : Pubkey) (pool_tokens_in : Z)
    : Instruction :=
  build
    ([meta_new stake_pool false; meta_readonly stake_pool_withdraw_authority false;
      meta_readonly user_transfer_authority true; meta_new pool_tokens_from false;
      meta_new reserve_stake_account false; meta_new user_wsol_account false;
      meta_new manager_fee_account false; meta_new pool_mint false;
      meta_readonly sysvar_clock_id false; meta_readonly sysvar_stake_history_id false;
      meta_readonly stake_program_id false; meta_readonly token_program_id false;
      meta_readonly wsol_mint false; meta_new fee_payer true; meta_readonly user_owner false;
      meta_readonly system_program_id false; meta_new program_signer false;
      meta_readonly associated_token_program_id false] ++ optional_signer sol_withdraw_authority)
    (WithdrawWsolWithSession pool_tokens_in).

Definition withdraw_sol_with_slippage (stake_pool stake_pool_withdraw_authority user_transfer_authority
    pool_tokens_from reserve_stake_account lamports_to manager_fee_account pool_mint
    token_program_id : Pubkey) (pool_tokens_in minimum_lamports_out : Z) : Instruction :=
  withdraw_sol_internal stake_pool stake_pool_withdraw_authority user_transfer_authority
    pool_tokens_from reserve_stake_account lamports_to manager_fee_account pool_mint token_program_id
    None pool_tokens_in (Some minimum_lamports_out).

Definition withdraw_sol_with_authority (stake_pool sol_withdraw_authority stake_pool_withdraw_authority
    user_transfer_authority pool_tokens_from reserve_stake_account lamports_to manager_fee_account
    pool_mint token_program_id : Pubkey) (pool_tokens_in : Z) : Instruction :=
  withdraw_sol_internal stake_pool stake_pool_withdraw_authority user_transfer_authority
    pool_tokens_from reserve_stake_account lamports_to manager_fee_account pool_mint token_program_id
    (Some sol_withdraw_authority) pool_tokens_in None.

Definition withdraw_sol_with_authority_and_slippage (stake_pool sol_withdraw_authority
    stake_pool_withdraw_authority user_transfer_authority pool_tokens_from reserve_stake_account
    lamports_to manager_fee_account pool_mint token_program_id : Pubkey) (pool_tokens_in
    minimum_lamports_out : Z) : Instruction :=
  withdraw_sol_internal stake_pool stake_pool_withdraw_authority user_transfer_authority
    pool_tokens_from reserve_stake_account lamports_to manager_fee_account pool_mint token_program_id
    (Some sol_withdraw_authority) pool_tokens_in (Some minimum_lamports_out).

(** ** Administration *)

Definition set_manager (stake_pool manager new_manager new_fee_receiver : Pubkey) : Instruction :=
  build
    [meta_new stake_pool false; meta_readonly manager true; meta_readonly new_manager true;
     meta_readonly new_fee_receiver false]
    SetManager.

Definition set_fee (stake_pool manager : Pubkey) (fee : FeeType) : Instruction :=
  build
    [meta_new stake_pool false; meta_readonly manager true]
    (SetFee fee).

Definition set_staker (stake_pool set_staker_authority new_staker : Pubkey) : Instruction :=
  build
    [meta_new stake_pool false; meta_readonly set_staker_authority true; meta_readonly new_staker false]
    SetStaker.

Definition set_funding_authority (stake_pool manager : Pubkey)
    (new_sol_deposit_authority : option Pubkey) (funding_type : FundingType) : Instruction :=
  build
    ([meta_new stake_pool false; meta_readonly manager true] ++
     match new_sol_deposit_authority with
     | Some auth => [meta_readonly auth false]
     | None => []
     end)
    (SetFundingAuthority funding_type).

Definition update_token_metadata (stake_pool manager pool_mint : Pubkey) (name symbol uri : list byte)
    : presult Instruction :=
  let stake_pool_withdraw_authority :=
    fst (find_withdraw_authority_program_address program_id stake_pool) in
  let token_metadata := fst (find_metadata_account pool_mint) in
  let accounts :=
    [meta_readonly stake_pool false; meta_readonly manager true;
     meta_readonly stake_pool_withdraw_authority false; meta_new token_metadata false;
     meta_readonly mpl_token_metadata_id false] in
  data ← unwrap (metadata_to_vec (UpdateTokenMetadata name symbol uri) name symbol uri);
  Ok (mkInstruction program_id accounts data).

Definition create_token_metadata (stake_pool manager pool_mint payer : Pubkey) (name symbol
    uri : list byte) : presult Instruction :=
  let stake_pool_withdraw_authority :=
    fst (find_withdraw_authority_program_address program_id stake_pool) in
  let token_metadata := fst (find_metadata_account pool_mint) in
  let accounts :=
    [meta_readonly stake_pool false; meta_readonly manager true;
     meta_readonly stake_pool_withdraw_authority false; meta_readonly pool_mint false;
     meta_new payer true; meta_new token_metadata false; meta_readonly mpl_token_metadata_id false;
     meta_readonly system_program_id false] in
  data ← unwrap (metadata_to_vec (CreateTokenMetadata name symbol uri) name symbol uri);
  Ok (mkInstruction program_id accounts data).
End Builders.
