(* ===== verification/BuildersCorrect.v ===== *)
(** * Correctness of the instruction builders

    The builders of the epoch update: the calls of [unwrap] in them are safe,
    the chunks they make cover the validator list, and running what they make
    brings the whole list and the pool into the current epoch. *)

From S2P Require Import Prelude Errors Fees Pool BigVec Borsh ValidatorList Runtime Platform Checks.
From S2P Require Import Scenario Admin Tracking Deposit Withdraw Validators Update Init Instruction.
From S2P Require Import Process Trace Spec StakerSteps Contracts Refinement UpdateCorrect Builders.

(** ** Chunks *)
Section Chunks.
Context {A : Type}.
Implicit Types l c : list A.

Lemma chunks_go_enough fuel n l :
  (0 < n)%nat -> (length l <= fuel)%nat -> chunks_go fuel n l = chunks n l.
Proof.
  intros Hn. unfold chunks. remember (length l) as m eqn:Em. revert fuel l Em.
  induction m as [m IH] using lt_wf_ind. intros fuel l -> Hf.
  destruct l as [|x l]; [by destruct fuel|]. destruct fuel as [|fuel]; [simpl in Hf; lia|].
  cbn [length chunks_go]. f_equal. simpl in Hf.
  assert (length (drop n (x :: l)) <= length l)%nat by (rewrite length_drop; simpl; lia).
  rewrite (IH (length (drop n (x :: l)))) by (simpl; lia || done).
  symmetry. apply IH; simpl; (lia || done).
Qed.

Lemma chunks_step n l : (0 < n)%nat -> l <> [] -> chunks n l = take n l :: chunks n (drop n l).
Proof.
  intros Hn Hl. destruct l as [|x l]; [done|]. unfold chunks at 1. cbn [length chunks_go]. f_equal.
  apply chunks_go_enough; [done|]. rewrite length_drop. simpl. lia.
Qed.

(** Induction along the chunks of a list. *)
Lemma chunks_ind n (P : list A -> list (list A) -> Prop) :
  (0 < n)%nat -> P [] [] ->
  (forall c l, (0 < length c <= n)%nat -> (l <> [] -> length c = n) -> P l (chunks n l) ->
     P (c ++ l) (c :: chunks n l)) ->
  forall l, P l (chunks n l).
Proof.
  intros Hn H0 HS l. remember (length l) as m eqn:Em. revert l Em.
  induction m as [m IH] using lt_wf_ind. intros l ->. destruct l as [|x l]; [done|].
  rewrite chunks_step by done. rewrite <- (take_drop n (x :: l)) at 1. apply HS.
  - rewrite length_take. simpl. lia.
  - intros Hd. rewrite length_take. apply Nat.min_l.
    destruct (decide (n <= length (x :: l)))%nat; [done|]. contradict Hd. apply drop_ge. lia.
  - eapply IH; [|done]. rewrite length_drop. simpl. lia.
Qed.

Lemma concat_chunks n l : (0 < n)%nat -> concat (chunks n l) = l.
Proof. intros Hn. pattern l, (chunks n l). apply chunks_ind; [done|done|]. simpl. by intros ???? ->. Qed.

Lemma chunks_sizes n l : (0 < n)%nat -> Forall (fun c => (0 < length c <= n)%nat) (chunks n l).
Proof. intros Hn. pattern l, (chunks n l). apply chunks_ind; [done|done|]. by constructor. Qed.

(** Where a chunk lies. *)
Lemma chunks_at n l : (0 < n)%nat -> forall i,
  Forall (fun '(j, c) => exists pre post, l = pre ++ c ++ post /\ (0 < length c)%nat /\
            Z.of_nat (length pre) = (j - i) * Z.of_nat n)
    (enumerate_from i (chunks n l)).
Proof.
  intros Hn. pattern l, (chunks n l). apply chunks_ind; [done|constructor|].
  intros c l' Hc Hfull IH i. cbn [enumerate_from]. constructor.
  - exists [], l'. split_and!; [done|lia|simpl; lia].
  - destruct (decide (l' = [])) as [->|Hne]; [constructor|].
    eapply Forall_impl; [apply (IH (i + 1))|]. intros [j d] (pre & post & -> & Hd & Hp).
    exists (c ++ pre), post. rewrite length_app, Hfull by done. rewrite <- app_assoc.
    split_and!; [done|done|nia].
Qed.
End Chunks.

(** [mapM] over steps that all succeed. *)
Lemma mapM_all_Ok {E A B} (f : A -> result E B) (g : A -> B) l :
  Forall (fun x => f x = Ok (g x)) l -> mapM f l = Ok (g <$> l).
Proof. induction 1 as [|x l Hx _ IH]; [done|]. cbn. rewrite Hx. cbn. by rewrite IH. Qed.

(** How an account the client names reaches the program: signing and write
    access are granted at least as asked. *)
Definition passed (m : AccountMeta) (i : AccountInfo) : Prop :=
  key i = am_key m /\ (am_signer m = true -> is_signer i = true) /\
  (am_writable m = true -> is_writable i = true).

(** Names the accounts passed to an instruction. *)
Ltac inv_passed :=
  repeat match goal with
  | H : Forall2 passed ((_ :: _) ++ _) _ |- _ => cbn [app] in H
  | H : Forall2 passed (_ :: _) _ |- _ =>
      let i := fresh "i" in apply Forall2_cons_inv_l in H as (i & ? & [? [_ ?]] & H & ->)
  | H : Forall2 passed [] _ |- _ => apply Forall2_nil_inv_l in H
  end; cbn [app am_key am_writable meta_readonly meta_new] in *.

Section BuildersCorrect.
Context {R : Runtime} {C : ClientIds}.
Variable program_id : Pubkey.

(** ** What the builders of the epoch update make *)

(** The instruction for the chunk [c] that starts at the entry [start]. *)
Definition chunk_instruction (p : StakePool) (pool_address : Pubkey) (no_merge : bool)
    (start : Z) (c : list ValidatorStakeInfo) : Instruction :=
  build program_id
    ([meta_readonly pool_address false;
      meta_readonly (fst (find_withdraw_authority_program_address program_id pool_address)) false;
      meta_new (validator_list p) false; meta_new (reserve_stake p) false;
      meta_readonly sysvar_clock_id false; meta_readonly sysvar_stake_history_id false;
      meta_readonly stake_program_id false] ++
     (v ← c; stake_metas program_id pool_address (vote_account_address v) v))
    (UpdateValidatorListBalance start no_merge).

(** The chunks of at most four entries that [needed] selects, each with the
    index of its first entry. *)
Definition chunk_instructions (needed : list ValidatorStakeInfo -> bool) (p : StakePool)
    (pool_address : Pubkey) (no_merge : bool) (cs : list (Z * list ValidatorStakeInfo))
    : list Instruction :=
  omap (fun '(i, c) =>
      if needed c then Some (chunk_instruction p pool_address no_merge (4 * i) c) else None) cs.

(** The last two instructions of the update. *)
Definition final_instructions (p : StakePool) (pool_address : Pubkey) : list Instruction :=
  [update_stake_pool_balance program_id pool_address
     (fst (find_withdraw_authority_program_address program_id pool_address)) (validator_list p)
     (reserve_stake p) (manager_fee_account p) (pool_mint p) (token_program_id p);
   cleanup_removed_validator_entries program_id pool_address (validator_list p)].

(** Some entry of the chunk was not updated in the epoch [e]. *)
Definition stale_chunk (e : Z) (c : list ValidatorStakeInfo) : bool :=
  negb (forallb (fun v => e <=? uint_of_array (vsi_last_update_epoch v)) c).

Lemma slice_get_middle {A} (pre c post : list A) :
  Z.of_nat (length (pre ++ c ++ post)) < 2 ^ 64 ->
  slice_get (pre ++ c ++ post) (Z.of_nat (length pre))
    (saturating_add 64 (Z.of_nat (length pre)) (Z.of_nat (length c))) = Some c.
Proof.
  rewrite !length_app. intros Hl. unfold slice_get, saturating_add. rewrite Z.min_l by lia.
  rewrite (proj2 (Z.leb_le _ _)), (proj2 (Z.leb_le _ _)) by (rewrite ?length_app; lia). cbn [andb].
  replace (Z.to_nat (_ - _)) with (length c) by lia. rewrite Nat2Z.id, drop_app_length. by rewrite take_app_length.
Qed.

(** A chunk of the list, with its own place and length. *)
Lemma chunk_built p pool_address no_merge vl pre c post :
  validators vl = pre ++ c ++ post -> (0 < length c)%nat -> Z.of_nat (length (validators vl)) <= 2 ^ 32 ->
  update_validator_list_balance_chunk program_id pool_address
    (fst (find_withdraw_authority_program_address program_id pool_address)) (validator_list p)
    (reserve_stake p) vl (Z.of_nat (length c)) (Z.of_nat (length pre)) no_merge
  = Ok (chunk_instruction p pool_address no_merge (Z.of_nat (length pre)) c).
Proof.
  intros E Hc Hl. unfold update_validator_list_balance_chunk. rewrite E in *.
  rewrite slice_get_middle by lia. cbn [ok_or mbind result_bind]. rewrite !length_app in Hl.
  unfold try_u32. by rewrite (proj2 (Z.ltb_lt _ _)) by lia.
Qed.

Lemma stale_chunk_built p pool_address no_merge vl e pre c post :
  validators vl = pre ++ c ++ post -> (0 < length c)%nat -> Z.of_nat (length (validators vl)) <= 2 ^ 32 ->
  update_stale_validator_list_balance_chunk program_id pool_address
    (fst (find_withdraw_authority_program_address program_id pool_address)) (validator_list p)
    (reserve_stake p) vl (Z.of_nat (length c)) (Z.of_nat (length pre)) no_merge e
  = Ok (if stale_chunk e c
        then Some (chunk_instruction p pool_address no_merge (Z.of_nat (length pre)) c) else None).
Proof.
  intros E Hc Hl. unfold update_stale_validator_list_balance_chunk, stale_chunk. rewrite E.
  rewrite slice_get_middle by (rewrite <- E; lia). cbn [ok_or mbind result_bind].
  destruct (forallb _ c); [done|]. by rewrite (chunk_built _ _ _ _ pre c post).
Qed.

(** The chunks of a whole list, at their places. *)
Lemma list_chunks_at vl :
  Z.of_nat (length (validators vl)) <= 2 ^ 32 ->
  Forall (fun '(i, c) => exists pre post, validators vl = pre ++ c ++ post /\ (0 < length c)%nat /\
            saturating_mul 64 i MAX_VALIDATORS_TO_UPDATE = Z.of_nat (length pre) /\
            4 * i = Z.of_nat (length pre))
    (enumerate (chunks (Z.to_nat MAX_VALIDATORS_TO_UPDATE) (validators vl))).
Proof.
  intros Hl. eapply Forall_impl; [apply chunks_at; unfold MAX_VALIDATORS_TO_UPDATE; lia|].
  intros [i c] (pre & post & E & Hc & Hp). exists pre, post.
  assert (length (validators vl) = (length pre + (length c + length post))%nat)
    by (by rewrite E, !length_app).
  unfold saturating_mul, MAX_VALIDATORS_TO_UPDATE in *. split_and!; [done|done|lia|lia].
Qed.

Lemma update_instructions p vl pool_address no_merge :
  Z.of_nat (length (validators vl)) <= 2 ^ 32 ->
  update_stake_pool program_id p vl pool_address no_merge =
    Ok (chunk_instructions (fun _ => true) p pool_address no_merge (enumerate (chunks 4 (validators vl))),
        final_instructions p pool_address).
Proof.
  intros Hl. unfold update_stake_pool, chunk_instructions.
  rewrite (mapM_all_Ok _ (fun '(i, c) => chunk_instruction p pool_address no_merge (4 * i) c)).
  - cbn [mbind result_bind]. do 2 f_equal. change (Z.to_nat MAX_VALIDATORS_TO_UPDATE) with 4%nat.
    induction (enumerate _) as [|[i c] l IH]; [done|]. csimpl. by rewrite IH.
  - eapply Forall_impl; [by apply list_chunks_at|]. intros [i c] (pre & post & E & Hc & Hs & Hi).
    rewrite Hs, Hi. by rewrite (chunk_built _ _ _ _ pre c post).
Qed.

Lemma stale_update_instructions p vl pool_address no_merge e :
  Z.of_nat (length (validators vl)) <= 2 ^ 32 ->
  update_stale_stake_pool program_id p vl pool_address no_merge e =
    Ok (chunk_instructions (stale_chunk e) p pool_address no_merge (enumerate (chunks 4 (validators vl))),
        final_instructions p pool_address).
Proof.
  intros Hl. unfold update_stale_stake_pool, chunk_instructions.
  rewrite (mapM_all_Ok _ (fun '(i, c) =>
    if stale_chunk e c then Some (chunk_instruction p pool_address no_merge (4 * i) c) else None)).
  - cbn [mbind result_bind]. do 2 f_equal. change (Z.to_nat MAX_VALIDATORS_TO_UPDATE) with 4%nat.
    induction (enumerate _) as [|[i c] l IH]; [done|]. csimpl. rewrite IH. by destruct (stale_chunk e c).
  - eapply Forall_impl; [by apply list_chunks_at|]. intros [i c] (pre & post & E & Hc & Hs & Hi).
    rewrite Hs, Hi. by rewrite (stale_chunk_built _ _ _ _ _ pre c post).
Qed.

(** the builders of the epoch update never panic.  For a list of at most
    2^32 entries every [unwrap] in [update_stake_pool] and in
    [update_stale_stake_pool] succeeds.  The first makes one instruction for
    each chunk of one to four entries, starting at the chunk's own index, with
    the derived accounts of exactly its entries; the chunks are the list.  The
    second makes those of the chunks in which some entry is not yet updated.
    Both end with the balance update and the cleanup. *)
Theorem update_builders_total p vl pool_address no_merge e :
  Z.of_nat (length (validators vl)) <= 2 ^ 32 ->
  update_stake_pool program_id p vl pool_address no_merge =
    Ok (chunk_instructions (fun _ => true) p pool_address no_merge (enumerate (chunks 4 (validators vl))),
        final_instructions p pool_address) /\
  update_stale_stake_pool program_id p vl pool_address no_merge e =
    Ok (chunk_instructions (stale_chunk e) p pool_address no_merge (enumerate (chunks 4 (validators vl))),
        final_instructions p pool_address) /\
  concat (chunks 4 (validators vl)) = validators vl /\
  Forall (fun c => (0 < length c <= 4)%nat) (chunks 4 (validators vl)).
Proof.
  intros Hl. split; [by apply update_instructions|]. split; [by apply stale_update_instructions|].
  split; [apply concat_chunks|apply chunks_sizes]; lia.
Qed.

(** ** Running what was built *)

(** The instructions succeed one after the other; transactions of other programs
    may come before, between and after them. *)
Inductive executes : list Instruction -> World -> World -> Prop :=
| executes_done w : executes [] w w
| executes_next ix ixs infos w u w1 w2 :
    ix_program_id ix = program_id -> Forall2 passed (ix_accounts ix) infos ->
    process program_id infos (ix_data ix) (fresh_instruction w) = Ok (u, w1) ->
    executes ixs w1 w2 -> executes (ix :: ixs) w w2
| executes_foreign ixs w w1 w2 :
    foreign program_id w w1 -> executes ixs w1 w2 -> executes ixs w w2.

(** The instructions one after the other with nothing in between. *)
Definition info_of (m : AccountMeta) : AccountInfo := mkInfo (am_key m) (am_signer m) (am_writable m).
Fixpoint run_all (ixs : list Instruction) (w : World) : presult (unit * World) :=
  match ixs with
  | [] => Ok (tt, w)
  | ix :: ixs =>
      '(_, w) ← process program_id (info_of <$> ix_accounts ix) (ix_data ix) (fresh_instruction w);
      run_all ixs w
  end.

Lemma run_all_executes ixs w u w' :
  Forall (fun ix => ix_program_id ix = program_id) ixs -> run_all ixs w = Ok (u, w') -> executes ixs w w'.
Proof.
  intros Hf. revert w. induction Hf as [|ix ixs Hix _ IH]; intros w Hx.
  - injection Hx as _ <-. constructor.
  - apply bind_Ok in Hx as ([u1 w1] & H1 & Hx). eapply executes_next; [done| |exact H1|by apply IH].
    clear. induction (ix_accounts ix); constructor; [by split_and!|done].
Qed.

Lemma foreign_preserved w w' : foreign program_id w w' -> preserved program_id w w'.
Proof.
  intros (Hr & Ht & Hf) k d ([Hr1 Ht1] & a & Ha & Ho & Hd).
  destruct (Hf _ _ Ha Ho) as (a' & Ha' & Hd' & Ho').
  split; [split; [congruence|auto]|]. exists a'. split_and!; [done|done|congruence].
Qed.

Lemma preserved_pool P p w w' :
  preserved program_id w w' -> holds_pool program_id P p w -> holds_pool program_id P p w'.
Proof. intros Hw (d & Hd & Hp)%holds_pool_data. apply holds_pool_data. eauto. Qed.

Lemma preserved_list k vl w w' :
  preserved program_id w w' -> holds_list program_id k vl w -> holds_list program_id k vl w'.
Proof. intros Hw (d & Hd & Hr). exists d. auto. Qed.

(** The first instruction runs on the accounts as they were left to it. *)
Lemma executes_cons ix ixs w w' :
  executes (ix :: ixs) w w' ->
  exists infos w0 u w1, preserved program_id w w0 /\ Forall2 passed (ix_accounts ix) infos /\
    process program_id infos (ix_data ix) w0 = Ok (u, w1) /\ executes ixs w1 w'.
Proof.
  intros Hx. remember (ix :: ixs) as l eqn:El. induction Hx as [| |ixs' w w1 w2 Hf Hx IH]; [done| |].
  - injection El as -> ->. eexists _, (fresh_instruction w), _, _.
    split; [intros k d Hd; exact Hd|]. by split_and!.
  - destruct (IH El) as (infos & w0 & u & w3 & Hw & Hi & Hp & Hn). exists infos, w0, u, w3.
    split; [|done]. intros k d Hd. apply Hw. by eapply foreign_preserved.
Qed.

Lemma executes_nil w w' : executes [] w w' -> preserved program_id w w'.
Proof.
  intros Hx. remember [] as l eqn:El. induction Hx as [w| |ixs' w w1 w2 Hf Hx IH]; [by intros k d Hd|done|].
  intros k d Hd. apply (IH El). by eapply foreign_preserved.
Qed.

Lemma executes_app l l' w w' :
  executes (l ++ l') w w' -> exists w1, executes l w w1 /\ executes l' w1 w'.
Proof.
  intros Hx. remember (l ++ l') as k eqn:Ek. revert l Ek.
  induction Hx as [w|ix ixs infos w u w1 w2 Hi Ha Hp Hx IH|ixs w w1 w2 Hf Hx IH]; intros l Ek.
  - symmetry in Ek. apply app_nil in Ek as [-> ->]. exists w. split; constructor.
  - destruct l as [|ix' l]; [|injection Ek as -> ->].
    + exists w. split; [constructor|]. cbn in Ek. subst l'. by eapply executes_next.
    + destruct (IH l eq_refl) as (w3 & H1 & H2). exists w3. split; [by eapply executes_next|done].
  - destruct (IH l Ek) as (w3 & H1 & H2). exists w3. split; [by eapply executes_foreign|done].
Qed.

(** Instructions that are executed are a run of the program. *)
Lemma executes_runs l w w' : executes l w w' -> runs program_id (fun _ _ => True) w w'.
Proof.
  induction 1 as [w|ix ixs infos w u w1 w2 Hi Ha Hp Hx IH|ixs w w1 w2 Hf Hx IH]; [constructor| |].
  - pose proof Hp as (i & Hd & _)%process_dispatch. by eapply runs_process.
  - by eapply runs_foreign.
Qed.

Lemma length_stake_metas P vs :
  length (v ← vs; stake_metas program_id P (vote_account_address v) v) = (2 * length vs)%nat.
Proof. induction vs as [|v vs IH]; [done|]. cbn. rewrite IH. lia. Qed.

(** The program decodes what was built. *)
Lemma process_built infos i w :
  instruction_typed i -> process program_id infos (instruction_ser i) w = dispatch program_id infos i w.
Proof.
  intros Hi. unfold process. replace (try_from_slice (instruction_ser i)) with (@Ok ProgramError _ i); [done|].
  unfold try_from_slice. cbn [borsh_de instruction_codec].
  by rewrite <- (app_nil_r (instruction_ser i)), instruction_de_ser.
Qed.

(** The instruction of a chunk refreshes exactly the entries of the chunk. *)
Section Executed.
Context {L : RuntimeLaws R program_id}.

(** The clock account holds what [Clock::get] returns. *)
Hypothesis clock_account : forall i a c,
  key i = sysvar_clock_id -> clock_from_account_info i a = Ok c -> clock_get = Ok c.
Variable clock : Clock.
Hypothesis now : clock_get = Ok clock.

Lemma entries_derived c vs stakes vs' :
  entries_updated program_id c vs stakes vs' ->
  Forall2 passed
    (v ← vs; stake_metas program_id (key (uc_stake_pool_info c)) (vote_account_address v) v) stakes ->
  Forall2 (entry_refreshed (epoch (uc_clock c))) vs vs'.
Proof.
  induction 1 as [|v vs stake transient stakes v' vs' Hv _ IH]; intros Hp; [constructor|].
  cbn in Hp. apply Forall2_cons in Hp as [[H1 _] Hp]. apply Forall2_cons in Hp as [[H2 _] Hp].
  constructor; [|by apply IH]. destruct Hv as [[Hn _]|[_ Hv]]; [|done]. contradict Hn. by split.
Qed.

Lemma chunk_executed p P no_merge h pre c post infos w u w' :
  Z.of_nat (length pre) < 2 ^ 32 -> (length c <= 4)%nat ->
  holds_pool program_id P p w ->
  holds_list program_id (validator_list p) (mkValidatorList h (pre ++ c ++ post)) w ->
  Forall2 passed (ix_accounts (chunk_instruction p P no_merge (Z.of_nat (length pre)) c)) infos ->
  process program_id infos (ix_data (chunk_instruction p P no_merge (Z.of_nat (length pre)) c)) w = Ok (u, w') ->
  exists c', Forall2 (entry_refreshed (epoch clock)) c c' /\ holds_pool program_id P p w' /\
    holds_list program_id (validator_list p) (mkValidatorList h (pre ++ c' ++ post)) w'.
Proof.
  intros Hs Hc Hp Hl Hi Hx. cbn [ix_data ix_accounts chunk_instruction build] in Hx, Hi.
  assert (Hst : is_uint 32 (Z.of_nat (length pre))) by (unfold is_uint; lia).
  rewrite process_built in Hx by exact Hst. cbn [dispatch] in Hx.
  inv_passed. subst. apply Forall2_length in Hi as Hx1. rewrite length_stake_metas in Hx1.
  assert (Hn : Z.of_nat (length x) < 2 ^ 64) by lia.
  rename select (key _ = validator_list p) into Hk.
  rewrite <- Hk in Hl. eapply update_list_run in Hx; [|exact L|exact Hst|exact Hn|exact Hl|exact Hp].
  destruct Hx as (c0 & pre0 & vs & post0 & vs' & Hc0 & _ & _ & _ & _ & _ & E & Hpre & Hlen & Hup & Hl' & Hp').
  cbn [validators header] in E, Hl'.
  apply app_inj_1 in E as [<- E]; [|lia]. apply app_inj_1 in E as [<- <-]; [|lia].
  apply clock_account in Hc0; [|done]. rewrite now in Hc0. injection Hc0 as <-.
  apply entries_derived in Hup; [|done]. exists vs'. split_and!; [done|done|by rewrite <- Hk].
Qed.

(** An entry after the update: refreshed, or left alone because it was current. *)
Definition entry_brought (v v' : ValidatorStakeInfo) : Prop :=
  (v' = v \/ entry_refreshed (epoch clock) v v') /\ entry_current (epoch clock) v'.

Lemma refreshed_brought v v' : entry_refreshed (epoch clock) v v' -> entry_brought v v'.
Proof.
  intros Hv. split; [by right|]. unfold entry_current. rewrite (er_epoch _ _ _ Hv).
  pose proof (clock_typed _ now) as Ht. unfold is_uint in Ht.
  rewrite uint_of_array_of_uint; [lia|]. change (256 ^ Z.of_nat 8) with (2 ^ 64). lia.
Qed.

Lemma current_brought c : Forall (entry_current (epoch clock)) c -> Forall2 entry_brought c c.
Proof. induction 1; constructor; [|done]. split; [by left|done]. Qed.

(** The instructions of the chunks from the entry [length done] on, followed by
    [ixs]. *)
Lemma chunks_executed needed p P no_merge h ixs w' :
  (forall c, needed c = false -> Forall (entry_current (epoch clock)) c) ->
  forall rest i done w,
  (rest <> [] -> Z.of_nat (length done) = 4 * i) -> Z.of_nat (length (done ++ rest)) <= 2 ^ 32 ->
  holds_pool program_id P p w ->
  holds_list program_id (validator_list p) (mkValidatorList h (done ++ rest)) w ->
  executes (chunk_instructions needed p P no_merge (enumerate_from i (chunks 4 rest)) ++ ixs) w w' ->
  exists w1 rest', Forall2 entry_brought rest rest' /\ holds_pool program_id P p w1 /\
    holds_list program_id (validator_list p) (mkValidatorList h (done ++ rest')) w1 /\
    executes ixs w1 w'.
Proof.
  intros Hneed rest. pattern rest, (chunks 4 rest). apply chunks_ind; [lia| |].
  { intros i done w _ _ Hp Hl Hx. exists w, []. by split_and!. }
  intros c l Hc Hfull IH i done w Hi Hlen Hp Hl Hx.
  assert (Hd : Z.of_nat (length done) = 4 * i) by (apply Hi; destruct c; [simpl in Hc; lia|done]).
  assert (exists c' w1, Forall2 entry_brought c c' /\ holds_pool program_id P p w1 /\
    holds_list program_id (validator_list p) (mkValidatorList h ((done ++ c') ++ l)) w1 /\
    executes (chunk_instructions needed p P no_merge (enumerate_from (i + 1) (chunks 4 l)) ++ ixs) w1 w')
    as (c' & w1 & Hc' & Hp1 & Hl1 & Hx1).
  { cbn [enumerate_from] in Hx. unfold chunk_instructions in Hx. cbn [omap list_omap] in Hx.
    fold (chunk_instructions needed p P no_merge (enumerate_from (i + 1) (chunks 4 l))) in Hx.
    destruct (needed c) eqn:En.
    - cbn [app] in Hx. apply executes_cons in Hx as (infos & w0 & u & w1 & Hw & Hpass & Hproc & Hx).
      rewrite <- Hd in Hpass, Hproc. rewrite !length_app in Hlen.
      eapply chunk_executed in Hproc as (c' & Hc' & Hp1 & Hl1);
        [|lia|lia|by eapply preserved_pool|by eapply preserved_list|exact Hpass].
      exists c', w1. rewrite <- app_assoc. split_and!; [|done..].
      eapply Forall2_impl; [exact Hc'|apply refreshed_brought].
    - exists c, w. rewrite <- app_assoc. split_and!; [by apply current_brought, Hneed|done..]. }
  eapply (IH (i + 1) (done ++ c')) in Hx1 as (w2 & l' & Hl' & Hp2 & Hl2 & Hx2); [|..|exact Hp1|exact Hl1].
  - exists w2, (c' ++ l'). rewrite app_assoc. split_and!; [by apply Forall2_app|done..].
  - intros Hne. rewrite length_app, <- (Forall2_length _ _ _ Hc'), Hfull by done. lia.
  - rewrite !length_app in *. rewrite <- (Forall2_length _ _ _ Hc'). lia.
Qed.

(** The balance update of a pool. *)
Lemma balance_executed p P vl infos w u w' :
  holds_pool program_id P p w -> holds_list program_id (validator_list p) vl w ->
  Forall2 passed (ix_accounts (update_stake_pool_balance program_id P
    (fst (find_withdraw_authority_program_address program_id P)) (validator_list p) (reserve_stake p)
    (manager_fee_account p) (pool_mint p) (token_program_id p))) infos ->
  process program_id infos (instruction_ser UpdateStakePoolBalance) w = Ok (u, w') ->
  exists q w1 reserve, holds_pool program_id P q w' /\ holds_list program_id (validator_list p) vl w' /\
    epoch clock <= last_update_epoch q /\ accounts w1 = accounts w /\ key reserve = reserve_stake p /\
    pool_worth reserve vl w1 (total_lamports q).
Proof.
  intros Hp Hl Hi Hx. cbn [ix_accounts update_stake_pool_balance build] in Hi.
  rewrite process_built in Hx by done. cbn [dispatch] in Hx. inv_passed. subst.
  rename select (key _ = validator_list p) into Hk. rewrite <- Hk in Hl.
  eapply update_pool_run in Hx as Hu; [|exact L|exact Hl].
  destruct Hu as (p0 & c & total & fee & w1 & w2 & m & Hc & Hp0 & _ & Hv & _ & _ & Ha & Hw & _ & _ & _ & _ & _
    & Hq & Hl').
  rewrite (holds_pool_at _ _ _ Hp) in Hp0. injection Hp0 as <-.
  apply (update_pool_step _ _ _ _ _ _ Hp Hv) in Hx as (q & Hq' & _).
  rewrite (holds_pool_at _ _ _ Hq') in Hq. injection Hq as ->. rewrite now in Hc. injection Hc as <-.
  eexists _, w1, _. split; [exact Hq'|]. split; [by rewrite <- Hk|].
  split_and!; [|done|eassumption|exact Hw].
  unfold advance_epoch. destruct (Z.ltb_spec (last_update_epoch p) (epoch clock)); simpl; lia.
Qed.

(** The cleanup of a pool. *)
Lemma cleanup_executed q P k vl infos w u w' :
  holds_pool program_id P q w -> holds_list program_id k vl w ->
  Forall2 passed (ix_accounts (cleanup_removed_validator_entries program_id P k)) infos ->
  process program_id infos (instruction_ser CleanupRemovedValidatorEntries) w = Ok (u, w') ->
  exists q', holds_pool program_id P q' w' /\ holds_list program_id k (cleaned vl) w' /\
    last_update_epoch q' = last_update_epoch q /\ total_lamports q' = total_lamports q.
Proof.
  intros Hp Hl Hi Hx. cbn [ix_accounts cleanup_removed_validator_entries build] in Hi.
  rewrite process_built in Hx by done. cbn [dispatch] in Hx. inv_passed. subst.
  eapply cleanup_runs in Hx as Hu; [|exact Hl]. destruct Hu as (p0 & Hp0 & _ & Hv & _ & Hl' & _ & Hq).
  rewrite (holds_pool_at _ _ _ Hp) in Hp0. injection Hp0 as <-.
  apply (cleanup_step _ _ _ _ _ _ Hp Hv) in Hx as (q' & Hq' & _).
  rewrite (holds_pool_at _ _ _ Hq') in Hq. injection Hq as ->.
  eexists. split; [exact Hq'|]. split; [done|]. by destruct (is_writable _).
Qed.

Lemma holds_list_length k vl w :
  holds_list program_id k vl w -> Z.of_nat (length (validators vl)) < 2 ^ 32.
Proof. by intros (d & _ & v & _ & _ & _ & _ & Hn & _). Qed.

Lemma stale_chunk_false e c : stale_chunk e c = false -> Forall (entry_current e) c.
Proof.
  intros Hc%negb_false_iff. rewrite forallb_forall in Hc. apply Forall_forall.
  intros v Hv%list_elem_of_In. apply Z.leb_le. by apply Hc.
Qed.

(** What an epoch update achieves: at the balance update every entry is up to
    date, the total is the worth of the reserve and the entries, and removed
    entries are gone. *)
Definition epoch_updated (p : StakePool) (vl : ValidatorList) (P : Pubkey) (w' : World) : Prop :=
  exists vl' w1 w2 reserve q,
    header vl' = header vl /\ Forall2 entry_brought (validators vl) (validators vl') /\
    holds_list program_id (validator_list p) vl' w1 /\ accounts w2 = accounts w1 /\
    key reserve = reserve_stake p /\ pool_worth reserve vl' w2 (total_lamports q) /\
    holds_pool program_id P q w' /\ epoch clock <= last_update_epoch q /\
    holds_list program_id (validator_list p) (cleaned vl') w'.

(** The instructions of an update, over the chunks that need one, do it. *)
Lemma updates_executed needed p vl P no_merge w w' :
  (forall c, needed c = false -> Forall (entry_current (epoch clock)) c) ->
  holds_pool program_id P p w -> holds_list program_id (validator_list p) vl w ->
  executes (chunk_instructions needed p P no_merge (enumerate (chunks 4 (validators vl))) ++
            final_instructions p P) w w' ->
  epoch_updated p vl P w'.
Proof.
  intros Hneed Hp Hl Hx. pose proof (holds_list_length _ _ _ Hl) as Hn. unfold epoch_updated.
  destruct vl as [h vs]. cbn [validators header] in *.
  eapply (chunks_executed needed p P no_merge h _ _ Hneed vs 0 []) in Hx as (w1 & vs' & Hvs & Hp1 & Hl1 & Hx);
    [|done|simpl; lia|done|done]. cbn [app] in Hl1.
  apply executes_cons in Hx as (infos & w2 & u & w3 & Hw & Hi & Hb1 & Hx).
  pose proof (preserved_list _ _ _ _ Hw Hl1) as Hl2.
  eapply balance_executed in Hb1 as (q & w4 & reserve & Hq & Hl3 & He & Ha & Hr & Hworth);
    [|by eapply preserved_pool|exact Hl2|exact Hi].
  apply executes_cons in Hx as (infos' & w5 & u' & w6 & Hw5 & Hi' & Hb2 & Hx%executes_nil).
  eapply cleanup_executed in Hb2 as (q' & Hq' & Hl6 & He' & Ht');
    [|by eapply preserved_pool|by eapply preserved_list|exact Hi'].
  exists (mkValidatorList h vs'), w2, w4, reserve, q'. rewrite He', Ht'.
  split_and!; [done|done|done|done|done|done|by eapply preserved_pool|done|by eapply preserved_list].
Qed.

(** The builders' instructions are of this form. *)
Lemma updates_built p vl P no_merge updates finals :
  Z.of_nat (length (validators vl)) <= 2 ^ 32 ->
  update_stake_pool program_id p vl P no_merge = Ok (updates, finals) \/
  update_stale_stake_pool program_id p vl P no_merge (epoch clock) = Ok (updates, finals) ->
  exists needed, (forall c, needed c = false -> Forall (entry_current (epoch clock)) c) /\
    updates = chunk_instructions needed p P no_merge (enumerate (chunks 4 (validators vl))) /\
    finals = final_instructions p P.
Proof.
  intros Hn Hb. rewrite update_instructions, stale_update_instructions in Hb by lia.
  destruct Hb as [[=<- <-]|[=<- <-]]; [by exists (fun _ => true)|].
  exists (stale_chunk (epoch clock)). split; [apply stale_chunk_false|done].
Qed.

(** C14: an epoch update made by the builders does its job.  Take the
    instructions that [update_stake_pool], or [update_stale_stake_pool] for the
    current epoch, makes for a pool and its list, and run them in order, with any
    transactions of other programs in between.  If they succeed, then when the
    balance update comes every entry of the list was updated in the current epoch
    (the entries the second builder skips were so already) and kept its identity;
    the pool ends up marked as updated in the current epoch, its total lamports
    are the reserve above its minimum plus the stake of all those entries, and
    the list has lost exactly the entries that were ready for removal. *)
Theorem epoch_update_completes p vl P no_merge w w' updates finals :
  holds_pool program_id P p w -> holds_list program_id (validator_list p) vl w ->
  update_stake_pool program_id p vl P no_merge = Ok (updates, finals) \/
  update_stale_stake_pool program_id p vl P no_merge (epoch clock) = Ok (updates, finals) ->
  executes (updates ++ finals) w w' ->
  epoch_updated p vl P w'.
Proof.
  intros Hp Hl Hb Hx. pose proof (holds_list_length _ _ _ Hl) as Hn.
  apply updates_built in Hb as (needed & Hneed & -> & ->); [|lia]. by eapply updates_executed.
Qed.
End Executed.
End BuildersCorrect.

(** ** Witnesses *)
Section BuildersWitnesses.
Import Demo Scenario.

Definition demo_ids : ClientIds := {|
  sysvar_rent_id := sysvar_key; sysvar_clock_id := sysvar_key; sysvar_stake_history_id := sysvar_key;
  stake_config_id := sysvar_key;
  stake_authorize stake authority _ _ _ :=
    mkInstruction stake_id [meta_new stake false; meta_readonly sysvar_key false; meta_readonly authority true] [];
|}.

(** The pool one epoch behind. *)
Definition old_pool : StakePool := pool <| last_update_epoch := EPOCH - 1 |>.
Definition old_list : ValidatorList :=
  mkValidatorList (header vlist)
    [entry vote1 10000000 0 0 (EPOCH - 1) Active; entry vote2 5002000 1002000 7 (EPOCH - 1) Active].
Definition old_world : World := world_of old_pool old_list.

Definition built : list Instruction * list Instruction :=
  match update_stale_stake_pool (H:=demo) (H0:=demo_ids) program old_pool old_list pool_key false EPOCH with
  | Ok b => b
  | _ => ([], [])
  end.
Definition update_run := run_all (R:=demo) program (fst built ++ snd built) old_world.

Lemma old_world_holds_pool : holds_pool program pool_key old_pool old_world.
Proof.
  apply holds_pool_data. eexists. split; [apply holds_data_intro; vm_compute; reflexivity|].
  vm_compute. reflexivity.
Qed.
Lemma old_world_holds_list : holds_list program list_key old_list old_world.
Proof.
  eapply holds_list_intro; [apply holds_data_intro; vm_compute; reflexivity|vm_compute; reflexivity..].
Qed.

Lemma update_builders_total_witness :
  update_stake_pool (H:=demo) (H0:=demo_ids) program pool vlist pool_key false =
    Ok (chunk_instructions (R:=demo) (C:=demo_ids) program (fun _ => true) pool pool_key false [(0, validators vlist)],
        final_instructions (R:=demo) program pool pool_key) /\
  update_stale_stake_pool (H:=demo) (H0:=demo_ids) program pool vlist pool_key false EPOCH =
    Ok ([], final_instructions (R:=demo) program pool pool_key).
Proof.
  destruct (update_builders_total (R:=demo) (C:=demo_ids) program pool vlist pool_key false EPOCH) as (H1 & H2 & _);
    [vm_compute; discriminate|].
  split; [exact H1|exact H2].
Defined.

Lemma epoch_update_completes_witness :
  exists q, holds_pool program pool_key q (world_after old_world update_run) /\ EPOCH <= last_update_epoch q.
Proof.
  assert (Hx : update_run = Ok (tt, world_after old_world update_run))
    by (apply world_after_Ok; vm_compute; reflexivity).
  apply run_all_executes in Hx; [|vm_compute; repeat constructor].
  destruct ((fun Hc Hn Hp Hl Hb => epoch_update_completes (R:=demo) (C:=demo_ids) program Hc (mkClock EPOCH) Hn
      old_pool old_list pool_key false _ _ _ _ Hp Hl Hb Hx))
    as (vl' & w1 & w2 & reserve & q & _ & _ & _ & _ & _ & _ & Hq & He & _);
    [by intros i a c _ [=<-]|reflexivity|exact old_world_holds_pool|exact old_world_holds_list|
     right; vm_compute; reflexivity|].
  exists q. exact (conj Hq He).
Defined.
End BuildersWitnesses.
