(* ===== verification/Docs.v ===== *)
(** * The documented accounts of the instructions (src/program/src/instruction.rs)

    The comments on the variants of [StakePoolInstruction] list the accounts of each
    instruction, their order and whether they sign and are writable.  They are what
    clients in other languages are written from.  Here they are compared with the
    accounts that the builders of the same file pass. *)

From S2P Require Import Prelude Errors Fees Pool BigVec Borsh ValidatorList Runtime Platform Checks.
From S2P Require Import Scenario Admin Instruction Builders BuildersCorrect.

#[local] Open Scope Z_scope.

(** A documented account: [[w]], [[s]], both or none; [[s]/[]] may sign. *)
Inductive DocSigner := NoSigner | Signs | MaySign.
Record DocAccount := mkDoc {
  doc_signer : DocSigner; doc_writable : bool; doc_optional : bool; doc_text : string;
}.
Definition ro (t : string) : DocAccount := mkDoc NoSigner false false t.
Definition rw (t : string) : DocAccount := mkDoc NoSigner true false t.
Definition sg (t : string) : DocAccount := mkDoc Signs false false t.
Definition sw (t : string) : DocAccount := mkDoc Signs true false t.
Definition may_sign (t : string) : DocAccount := mkDoc MaySign false false t.
Definition opt_ro (t : string) : DocAccount := mkDoc NoSigner false true t.
Definition opt_sg (t : string) : DocAccount := mkDoc Signs false true t.

(** The accounts in order, and what accounts behind them are, if there may be any. *)
Record Doc := mkDocs { doc_accounts : list DocAccount; doc_rest : option DocAccount }.

Section Documentation.
#[local] Open Scope string_scope.

(** [Initialize] *)
Definition doc_initialize : Doc := mkDocs
  [rw "New StakePool to create"; sg "Manager"; ro "Staker"; ro "Stake pool withdraw authority";
   rw "Uninitialized validator stake list storage account";
   ro "Reserve stake account must be initialized"; ro "Pool token mint";
   ro "Pool account to deposit the generated fee for manager"; ro "Token program id";
   opt_ro "Deposit authority that must sign all deposits"] None.
(** [AddValidatorToPool] *)
Definition doc_add_validator_to_pool : Doc := mkDocs
  [rw "Stake pool"; sg "Staker"; rw "Reserve stake account"; ro "Stake pool withdraw authority";
   rw "Validator stake list storage account"; rw "Stake account to add to the pool";
   ro "Validator this stake account will be delegated to"; ro "Rent sysvar"; ro "Clock sysvar";
   ro "Stake history sysvar"; ro "Stake config sysvar"; ro "System program"; ro "Stake program"] None.
(** [RemoveValidatorFromPool] *)
Definition doc_remove_validator_from_pool : Doc := mkDocs
  [rw "Stake pool"; sg "Staker"; ro "Stake pool withdraw authority";
   rw "Validator stake list storage account"; rw "Stake account to remove from the pool";
   rw "Transient stake account"; ro "Sysvar clock"; ro "Stake program id"] None.
(** [DecreaseValidatorStake] *)
Definition doc_decrease_validator_stake : Doc := mkDocs
  [ro "Stake pool"; sg "Stake pool staker"; ro "Stake pool withdraw authority";
   rw "Validator list"; rw "Canonical stake account to split from";
   rw "Transient stake account to receive split"; ro "Clock sysvar"; ro "Rent sysvar";
   ro "System program"; ro "Stake program"] None.
(** [IncreaseValidatorStake] *)
Definition doc_increase_validator_stake : Doc := mkDocs
  [ro "Stake pool"; sg "Stake pool staker"; ro "Stake pool withdraw authority";
   rw "Validator list"; rw "Stake pool reserve stake"; rw "Transient stake account";
   ro "Validator stake account"; ro "Validator vote account to delegate to"; ro "Clock sysvar";
   ro "Rent sysvar"; ro "Stake History sysvar"; ro "Stake Config sysvar"; ro "System program";
   ro "Stake program"] None.
(** [SetPreferredValidator] *)
Definition doc_set_preferred_validator : Doc := mkDocs
  [rw "Stake pool"; sg "Stake pool staker"; ro "Validator list"] None.
(** [UpdateValidatorListBalance] *)
Definition doc_update_validator_list_balance : Doc := mkDocs
  [ro "Stake pool"; ro "Stake pool withdraw authority"; rw "Validator stake list storage account";
   rw "Reserve stake account"; ro "Sysvar clock"; ro "Sysvar stake history"; ro "Stake program"]
  (Some (ro "N pairs of validator and transient stake accounts")).
(** [UpdateStakePoolBalance] *)
Definition doc_update_stake_pool_balance : Doc := mkDocs
  [rw "Stake pool"; ro "Stake pool withdraw authority"; rw "Validator stake list storage account";
   ro "Reserve stake account"; rw "Account to receive pool fee tokens"; rw "Pool mint account";
   ro "Pool token program"] None.
(** [CleanupRemovedValidatorEntries] *)
Definition doc_cleanup_removed_validator_entries : Doc := mkDocs
  [ro "Stake pool"; rw "Validator stake list storage account"] None.
(** [DepositStake] *)
Definition doc_deposit_stake : Doc := mkDocs
  [rw "Stake pool"; rw "Validator stake list storage account";
   may_sign "Stake pool deposit authority"; ro "Stake pool withdraw authority";
   rw "Stake account to join the pool";
   rw "Validator stake account for the stake account to be merged with";
   rw "Reserve stake account"; rw "User account to receive pool tokens";
   rw "Account to receive pool fee tokens";
   rw "Account to receive a portion of pool fee tokens as referral fees";
   rw "Pool token mint account"; ro "Sysvar clock account"; ro "Sysvar stake history account";
   ro "Pool token program id"; ro "Stake program id"] None.
(** [WithdrawStake] *)
Definition doc_withdraw_stake : Doc := mkDocs
  [rw "Stake pool"; rw "Validator stake list storage account"; ro "Stake pool withdraw authority";
   rw "Validator or reserve stake account to split";
   rw "Uninitialized stake account to receive withdrawal";
   ro "User account to set as a new withdraw authority"; sg "User transfer authority";
   rw "User account with pool tokens to burn from"; rw "Account to receive pool fee tokens";
   rw "Pool token mint account"; ro "Sysvar clock account"; ro "Pool token program id";
   ro "Stake program id"] None.
(** [SetManager] *)
Definition doc_set_manager : Doc := mkDocs
  [rw "Stake pool"; sg "Manager"; sg "New manager"; ro "New manager fee account"] None.
(** [SetFee] *)
Definition doc_set_fee : Doc := mkDocs
  [rw "Stake pool"; sg "Manager"] None.
(** [SetStaker] *)
Definition doc_set_staker : Doc := mkDocs
  [rw "Stake pool"; sg "Manager or current staker"; ro "New staker pubkey"] None.
(** [DepositSol] *)
Definition doc_deposit_sol : Doc := mkDocs
  [rw "Stake pool"; ro "Stake pool withdraw authority"; rw "Reserve stake account";
   sg "Account providing the lamports to be deposited into the pool";
   rw "User account to receive pool tokens"; rw "Account to receive fee tokens";
   rw "Account to receive a portion of fee as referral fees"; rw "Pool token mint account";
   ro "System program account"; ro "Token program id"; opt_sg "Stake pool sol deposit authority"] None.
(** [SetFundingAuthority] *)
Definition doc_set_funding_authority : Doc := mkDocs
  [rw "Stake pool"; sg "Manager"; opt_ro "New authority pubkey or none"] None.
(** [WithdrawSol] *)
Definition doc_withdraw_sol : Doc := mkDocs
  [rw "Stake pool"; ro "Stake pool withdraw authority"; sg "User transfer authority";
   rw "User account to burn pool tokens"; rw "Reserve stake account";
   rw "Account receiving the lamports from the reserve"; rw "Account to receive pool fee tokens";
   rw "Pool token mint account"; ro "Clock sysvar"; ro "Stake history sysvar";
   ro "Stake program account"; ro "Token program id"; opt_sg "Stake pool sol withdraw authority"] None.
(** [CreateTokenMetadata] *)
Definition doc_create_token_metadata : Doc := mkDocs
  [ro "Stake pool"; sg "Manager"; ro "Stake pool withdraw authority"; ro "Pool token mint account";
   sw "Payer for creation of token metadata account"; rw "Token metadata account";
   ro "Metadata program id"; ro "System program id"] None.
(** [UpdateTokenMetadata] *)
Definition doc_update_token_metadata : Doc := mkDocs
  [ro "Stake pool"; sg "Manager"; ro "Stake pool withdraw authority"; rw "Token metadata account";
   ro "Metadata program id"] None.
(** [IncreaseAdditionalValidatorStake] *)
Definition doc_increase_additional_validator_stake : Doc := mkDocs
  [ro "Stake pool"; sg "Stake pool staker"; ro "Stake pool withdraw authority";
   rw "Validator list"; rw "Stake pool reserve stake";
   rw "Uninitialized ephemeral stake account to receive stake"; rw "Transient stake account";
   ro "Validator stake account"; ro "Validator vote account to delegate to"; ro "Clock sysvar";
   ro "Stake History sysvar"; ro "Stake Config sysvar"; ro "System program"; ro "Stake program"] None.
(** [DecreaseAdditionalValidatorStake] *)
Definition doc_decrease_additional_validator_stake : Doc := mkDocs
  [ro "Stake pool"; sg "Stake pool staker"; ro "Stake pool withdraw authority";
   rw "Validator list"; rw "Reserve stake account"; rw "Canonical stake account to split from";
   rw "Uninitialized ephemeral stake account to receive stake"; rw "Transient stake account";
   ro "Clock sysvar"; ro "Stake history sysvar"; ro "System program"; ro "Stake program"] None.
(** [DecreaseValidatorStakeWithReserve] *)
Definition doc_decrease_validator_stake_with_reserve : Doc := mkDocs
  [ro "Stake pool"; sg "Stake pool staker"; ro "Stake pool withdraw authority";
   rw "Validator list"; rw "Reserve stake account"; rw "Canonical stake account to split from";
   rw "Transient stake account to receive split"; ro "Clock sysvar"; ro "Stake history sysvar";
   ro "System program"; ro "Stake program"] None.
(** [Redelegate] *)
Definition doc_redelegate : Doc := mkDocs
  [ro "Stake pool"; sg "Stake pool staker"; ro "Stake pool withdraw authority";
   rw "Validator list"; rw "Reserve stake account";
   rw "Source canonical stake account to split from";
   rw "Source transient stake account to receive split and be";
   rw "Uninitialized ephemeral stake account to receive redelegation";
   rw "Destination transient stake account to receive ephemeral stake";
   ro "Destination stake account to receive transient stake after";
   ro "Destination validator vote account"; ro "Clock sysvar"; ro "Stake History sysvar";
   ro "Stake Config sysvar"; ro "System program"; ro "Stake program"] None.
(** [DepositStakeWithSlippage] *)
Definition doc_deposit_stake_with_slippage : Doc := mkDocs
  [rw "Stake pool"; rw "Validator stake list storage account";
   may_sign "Stake pool deposit authority"; ro "Stake pool withdraw authority";
   rw "Stake account to join the pool";
   rw "Validator stake account for the stake account to be merged with";
   rw "Reserve stake account"; rw "User account to receive pool tokens";
   rw "Account to receive pool fee tokens";
   rw "Account to receive a portion of pool fee tokens as referral fees";
   rw "Pool token mint account"; ro "Sysvar clock account"; ro "Sysvar stake history account";
   ro "Pool token program id"; ro "Stake program id"] None.
(** [WithdrawStakeWithSlippage] *)
Definition doc_withdraw_stake_with_slippage : Doc := mkDocs
  [rw "Stake pool"; rw "Validator stake list storage account"; ro "Stake pool withdraw authority";
   rw "Validator or reserve stake account to split";
   rw "Uninitialized stake account to receive withdrawal";
   ro "User account to set as a new withdraw authority"; sg "User transfer authority";
   rw "User account with pool tokens to burn from"; rw "Account to receive pool fee tokens";
   rw "Pool token mint account"; ro "Sysvar clock account"; ro "Pool token program id";
   ro "Stake program id"] None.
(** [DepositSolWithSlippage] *)
Definition doc_deposit_sol_with_slippage : Doc := mkDocs
  [rw "Stake pool"; ro "Stake pool withdraw authority"; rw "Reserve stake account";
   sg "Account providing the lamports to be deposited into the pool";
   rw "User account to receive pool tokens"; rw "Account to receive fee tokens";
   rw "Account to receive a portion of fee as referral fees"; rw "Pool token mint account";
   ro "System program account"; ro "Token program id"; opt_sg "Stake pool sol deposit authority"] None.
(** [WithdrawSolWithSlippage] *)
Definition doc_withdraw_sol_with_slippage : Doc := mkDocs
  [rw "Stake pool"; ro "Stake pool withdraw authority"; sg "User transfer authority";
   rw "User account to burn pool tokens"; rw "Reserve stake account";
   rw "Account receiving the lamports from the reserve"; rw "Account to receive pool fee tokens";
   rw "Pool token mint account"; ro "Clock sysvar"; ro "Stake history sysvar";
   ro "Stake program account"; ro "Token program id"; opt_sg "Stake pool sol withdraw authority"] None.
(** [DepositWsolWithSession] *)
Definition doc_deposit_wsol_with_session : Doc := mkDocs
  [rw "Stake pool"; ro "Stake pool withdraw authority"; rw "Reserve stake account";
   rw "User's destination pool token account"; rw "Manager fee account"; rw "Referrer fee account";
   rw "Pool token mint"; ro "System Program"; ro "Token Program"; sg "Signer or Session";
   ro "Wrapped SOL mint"; sg "Fee payer"; rw "User's WSOL token account";
   rw "Temporary WSOL token account"; rw "Program signer PDA";
   opt_sg "Stake pool SOL deposit authority"] None.
(** [WithdrawWsolWithSession] *)
Definition doc_withdraw_wsol_with_session : Doc := mkDocs
  [rw "Stake pool"; ro "Stake pool withdraw authority"; sg "User transfer authority";
   rw "User account to burn pool tokens"; rw "Reserve stake account"; rw "User WSOL token account";
   rw "Account to receive pool fee tokens"; rw "Pool token mint account"; ro "Clock sysvar";
   ro "Stake history sysvar"; ro "Stake program account"; ro "Token program id"; ro "WSOL mint";
   sg "Fee payer"; ro "User owner"; ro "System Program"; rw "Program signer PDA";
   ro "Associated token program id"; opt_sg "Stake pool SOL withdraw authority"] None.
End Documentation.

(** ** Comparison *)

(** An account is passed with the documented rights. *)
Definition as_documented (d : DocAccount) (m : AccountMeta) : bool :=
  match doc_signer d with NoSigner => negb (am_signer m) | Signs => am_signer m | MaySign => true end &&
  Bool.eqb (doc_writable d) (am_writable m).

(** The positions that are not passed as documented: behind the listed accounts, and
    from the start. *)
Fixpoint rest_differences (i : nat) (rest : option DocAccount) (metas : list AccountMeta) : list nat :=
  match metas with
  | [] => []
  | m :: metas =>
      (if match rest with Some d => as_documented d m | None => false end then [] else [i]) ++
      rest_differences (S i) rest metas
  end.
Fixpoint differences_from (i : nat) (docs : list DocAccount) (rest : option DocAccount)
    (metas : list AccountMeta) : list nat :=
  match docs, metas with
  | [], _ => rest_differences i rest metas
  | d :: docs, [] => (if doc_optional d then [] else [i]) ++ differences_from (S i) docs rest []
  | d :: docs, m :: metas =>
      (if as_documented d m then [] else [i]) ++ differences_from (S i) docs rest metas
  end.
Definition differences (doc : Doc) (ix : Instruction) : list nat :=
  differences_from 0 (doc_accounts doc) (doc_rest doc) (ix_accounts ix).

Section Compare.
Context `{Runtime} `{ClientIds}.
Variable program_id : Pubkey.

(** Writable accounts where read-only ones are documented. *)
Lemma rest_writable i d (metas : list AccountMeta) :
  doc_writable d = false -> Forall (fun m => am_writable m = true) metas ->
  rest_differences i (Some d) metas = seq i (length metas).
Proof.
  intros Hd Hm. revert i. induction Hm as [|m metas Hw _ IH]; intros i; [done|].
  cbn [rest_differences length seq]. unfold as_documented. rewrite Hd, Hw, andb_false_r, IH. done.
Qed.
Lemma update_chunk_differences P W V R vl n i b ix :
  update_validator_list_balance_chunk program_id P W V R vl n i b = Ok ix ->
  differences doc_update_validator_list_balance ix = seq 7 (length (ix_accounts ix) - 7).
Proof.
  unfold update_validator_list_balance_chunk. cbv zeta. intros Hx.
  apply bind_Ok in Hx as (vs & _ & Hx). apply bind_Ok in Hx as (j & _ & [=<-]).
  unfold differences, doc_update_validator_list_balance.
  cbn [build ix_accounts doc_accounts doc_rest differences_from app as_documented length].
  rewrite rest_writable; [|done|].
  - cbn. f_equal. lia.
  - induction vs as [|v vs IH]; [done|]. by do 2 (constructor; [done|]).
Qed.

End Compare.
