(* ===== verification/Idl.v ===== *)
(** * The interface description (src/stake-pool-idl)

    The crate stake-pool-idl repeats the program's interface for clients that are
    generated from it: the accounts of each instruction with their order, whether
    they sign and whether they are writable, the arguments, and the types of the
    accounts' data.  Its handlers do nothing.  Here the description is compared
    with the program: with the accounts the program's own builders pass and with
    the bytes the program reads. *)

From S2P Require Import Prelude Errors Fees Pool BigVec Borsh ValidatorList Runtime Platform Checks.
From S2P Require Import Scenario Admin Instruction Builders BuildersCorrect.

#[local] Open Scope Z_scope.

(** ** Accounts *)

(** A field of an [Accounts] struct: [#[account(mut)]], [Signer], [Option]. *)
Record IdlAccount := mkIdlAccount {
  ia_name : string; ia_mut : bool; ia_signer : bool; ia_optional : bool;
}.
Definition idl_ro (n : string) : IdlAccount := mkIdlAccount n false false false.
Definition idl_mut (n : string) : IdlAccount := mkIdlAccount n true false false.
Definition idl_signer (n : string) : IdlAccount := mkIdlAccount n false true false.
Definition idl_optional (n : string) : IdlAccount := mkIdlAccount n false false true.

Section AccountStructs.
#[local] Open Scope string_scope.

(** [struct Initialize] *)
Definition idl_initialize : list IdlAccount :=
  [idl_mut "stake_pool"; idl_signer "manager"; idl_ro "staker";
   idl_ro "stake_pool_withdraw_authority"; idl_mut "validator_list"; idl_ro "reserve_stake";
   idl_ro "pool_mint"; idl_mut "manager_fee_account"; idl_ro "token_program";
   idl_optional "deposit_authority"].
(** [struct DepositSol] *)
Definition idl_deposit_sol : list IdlAccount :=
  [idl_mut "stake_pool"; idl_ro "stake_pool_withdraw_authority"; idl_ro "reserve_stake";
   idl_signer "funding_account"; idl_mut "destination"; idl_mut "manager_fee_account";
   idl_mut "referrer_pool_tokens_account"; idl_mut "pool_mint"; idl_ro "system_program";
   idl_ro "token_program"; idl_optional "sol_deposit_authority"].
(** [struct WithdrawSol] *)
Definition idl_withdraw_sol : list IdlAccount :=
  [idl_mut "stake_pool"; idl_ro "stake_pool_withdraw_authority"; idl_mut "source";
   idl_mut "reserve_stake"; idl_mut "destination"; idl_mut "manager_fee_account";
   idl_mut "pool_mint"; idl_ro "clock"; idl_ro "stake_history"; idl_ro "stake_program";
   idl_ro "token_program"; idl_optional "sol_withdraw_authority"].
(** [struct DepositWsol] *)
Definition idl_deposit_wsol : list IdlAccount :=
  [idl_mut "stake_pool"; idl_ro "stake_pool_withdraw_authority"; idl_mut "reserve_stake";
   idl_mut "wsol_account"; idl_signer "wsol_authority"; idl_mut "lamports_destination";
   idl_mut "destination"; idl_mut "manager_fee_account"; idl_mut "referrer_pool_tokens_account";
   idl_mut "pool_mint"; idl_ro "system_program"; idl_ro "token_program"; idl_ro "wsol_mint";
   idl_optional "sol_deposit_authority"].
(** [struct DepositWsolWithSession] *)
Definition idl_deposit_wsol_with_session : list IdlAccount :=
  [idl_signer "signer_or_session"; idl_ro "program_signer"; idl_mut "user_wsol_account";
   idl_mut "transient_wsol_account"; idl_ro "wsol_mint"; idl_mut "stake_pool";
   idl_ro "stake_pool_withdraw_authority"; idl_optional "sol_deposit_authority";
   idl_mut "reserve_stake_account"; idl_mut "destination_pool_account";
   idl_mut "manager_fee_account"; idl_mut "referrer_pool_tokens_account"; idl_mut "pool_mint";
   idl_ro "system_program"; idl_ro "token_program"; idl_ro "sessions_program";
   idl_ro "session_token"; idl_ro "session_authority"].
(** [struct DepositStake] *)
Definition idl_deposit_stake : list IdlAccount :=
  [idl_mut "stake_pool"; idl_mut "validator_list"; idl_ro "deposit_authority";
   idl_ro "stake_pool_withdraw_authority"; idl_mut "deposit_stake"; idl_mut "validator_stake";
   idl_mut "reserve_stake"; idl_mut "destination_pool_account"; idl_mut "manager_fee_account";
   idl_mut "referrer_pool_tokens_account"; idl_mut "pool_mint"; idl_ro "clock";
   idl_ro "stake_history"; idl_ro "token_program"; idl_ro "stake_program"].
(** [struct WithdrawStake] *)
Definition idl_withdraw_stake : list IdlAccount :=
  [idl_mut "stake_pool"; idl_mut "validator_list"; idl_ro "stake_pool_withdraw_authority";
   idl_mut "validator_stake"; idl_mut "destination_stake"; idl_mut "destination_stake_authority";
   idl_mut "source_pool_account"; idl_mut "manager_fee_account"; idl_mut "pool_mint";
   idl_ro "clock"; idl_ro "token_program"; idl_ro "stake_program"].
(** [struct AddValidatorToPool] *)
Definition idl_add_validator_to_pool : list IdlAccount :=
  [idl_mut "stake_pool"; idl_signer "staker"; idl_mut "reserve_stake"; idl_ro "withdraw_authority";
   idl_mut "validator_list"; idl_mut "validator_stake"; idl_ro "validator_vote"; idl_ro "rent";
   idl_ro "clock"; idl_ro "stake_history"; idl_ro "stake_config"; idl_ro "system_program";
   idl_ro "stake_program"].
(** [struct RemoveValidatorFromPool] *)
Definition idl_remove_validator_from_pool : list IdlAccount :=
  [idl_mut "stake_pool"; idl_signer "staker"; idl_ro "withdraw_authority";
   idl_mut "validator_list"; idl_mut "validator_stake"; idl_mut "transient_stake"; idl_ro "clock";
   idl_ro "stake_program"].
(** [struct UpdateValidatorListBalance] *)
Definition idl_update_validator_list_balance : list IdlAccount :=
  [idl_mut "stake_pool"; idl_ro "withdraw_authority"; idl_mut "validator_list";
   idl_mut "reserve_stake"; idl_ro "clock"; idl_ro "stake_history"; idl_ro "stake_program"].
(** [struct SetManager] *)
Definition idl_set_manager : list IdlAccount :=
  [idl_mut "stake_pool"; idl_signer "manager"; idl_ro "new_manager";
   idl_ro "new_manager_fee_account"].
(** [struct SetStaker] *)
Definition idl_set_staker : list IdlAccount :=
  [idl_mut "stake_pool"; idl_signer "manager"; idl_ro "new_staker"].
(** [struct SetFee] *)
Definition idl_set_fee : list IdlAccount :=
  [idl_mut "stake_pool"; idl_signer "manager"; idl_ro "clock"].
(** [struct DecreaseValidatorStake] *)
Definition idl_decrease_validator_stake : list IdlAccount :=
  [idl_mut "stake_pool"; idl_signer "staker"; idl_ro "withdraw_authority";
   idl_mut "validator_list"; idl_mut "validator_stake"; idl_mut "transient_stake"; idl_ro "clock";
   idl_ro "rent"; idl_ro "system_program"; idl_ro "stake_program"].
(** [struct IncreaseValidatorStake] *)
Definition idl_increase_validator_stake : list IdlAccount :=
  [idl_mut "stake_pool"; idl_signer "staker"; idl_ro "withdraw_authority";
   idl_mut "validator_list"; idl_mut "reserve_stake"; idl_mut "transient_stake";
   idl_ro "validator_stake"; idl_ro "validator_vote"; idl_ro "clock"; idl_ro "rent";
   idl_ro "stake_history"; idl_ro "stake_config"; idl_ro "system_program"; idl_ro "stake_program"].
(** [struct SetPreferredValidator] *)
Definition idl_set_preferred_validator : list IdlAccount :=
  [idl_mut "stake_pool"; idl_signer "staker"; idl_mut "validator_list"].
(** [struct UpdateStakePoolBalance] *)
Definition idl_update_stake_pool_balance : list IdlAccount :=
  [idl_mut "stake_pool"; idl_ro "withdraw_authority"; idl_mut "validator_list";
   idl_mut "reserve_stake"; idl_mut "manager_fee_account"; idl_mut "pool_mint";
   idl_ro "token_program"; idl_ro "clock"].
(** [struct CleanupRemovedValidatorEntries] *)
Definition idl_cleanup_removed_validator_entries : list IdlAccount :=
  [idl_mut "stake_pool"; idl_mut "validator_list"].
(** [struct SetFundingAuthority] *)
Definition idl_set_funding_authority : list IdlAccount :=
  [idl_mut "stake_pool"; idl_signer "manager"; idl_optional "new_authority"].
(** [struct CreateTokenMetadata] *)
Definition idl_create_token_metadata : list IdlAccount :=
  [idl_mut "stake_pool"; idl_signer "manager"; idl_mut "pool_mint"; idl_mut "pool_token_metadata";
   idl_ro "token_metadata_program"; idl_ro "system_program"; idl_ro "rent"].
(** [struct UpdateTokenMetadata] *)
Definition idl_update_token_metadata : list IdlAccount :=
  [idl_mut "stake_pool"; idl_signer "manager"; idl_mut "pool_token_metadata";
   idl_ro "token_metadata_program"].
(** [struct IncreaseAdditionalValidatorStake] *)
Definition idl_increase_additional_validator_stake : list IdlAccount :=
  [idl_mut "stake_pool"; idl_signer "staker"; idl_ro "withdraw_authority";
   idl_mut "validator_list"; idl_mut "reserve_stake"; idl_mut "transient_stake";
   idl_mut "ephemeral_stake"; idl_ro "validator_stake"; idl_ro "validator_vote"; idl_ro "clock";
   idl_ro "rent"; idl_ro "stake_history"; idl_ro "stake_config"; idl_ro "system_program";
   idl_ro "stake_program"].
(** [struct DecreaseAdditionalValidatorStake] *)
Definition idl_decrease_additional_validator_stake : list IdlAccount :=
  [idl_mut "stake_pool"; idl_signer "staker"; idl_ro "withdraw_authority";
   idl_mut "validator_list"; idl_mut "validator_stake"; idl_mut "transient_stake";
   idl_mut "ephemeral_stake"; idl_ro "clock"; idl_ro "rent"; idl_ro "stake_history";
   idl_ro "stake_config"; idl_ro "system_program"; idl_ro "stake_program"].
(** [struct DecreaseValidatorStakeWithReserve] *)
Definition idl_decrease_validator_stake_with_reserve : list IdlAccount :=
  [idl_mut "stake_pool"; idl_signer "staker"; idl_ro "withdraw_authority";
   idl_mut "validator_list"; idl_mut "reserve_stake"; idl_mut "validator_stake";
   idl_mut "transient_stake"; idl_ro "clock"; idl_ro "rent"; idl_ro "stake_history";
   idl_ro "stake_config"; idl_ro "system_program"; idl_ro "stake_program"].
(** [struct Redelegate] *)
Definition idl_redelegate : list IdlAccount :=
  [idl_mut "stake_pool"; idl_signer "staker"; idl_ro "withdraw_authority";
   idl_mut "validator_list"; idl_mut "reserve_stake"; idl_mut "source_validator_stake";
   idl_mut "source_transient_stake"; idl_mut "ephemeral_stake";
   idl_mut "destination_transient_stake"; idl_ro "destination_validator_stake";
   idl_ro "destination_validator_vote"; idl_ro "clock"; idl_ro "rent"; idl_ro "stake_history";
   idl_ro "stake_config"; idl_ro "system_program"; idl_ro "stake_program"].
(** [struct DepositStakeWithSlippage] *)
Definition idl_deposit_stake_with_slippage : list IdlAccount :=
  [idl_mut "stake_pool"; idl_mut "validator_list"; idl_ro "deposit_authority";
   idl_ro "stake_pool_withdraw_authority"; idl_mut "deposit_stake"; idl_mut "validator_stake";
   idl_mut "reserve_stake"; idl_mut "destination_pool_account"; idl_mut "manager_fee_account";
   idl_mut "referrer_pool_tokens_account"; idl_mut "pool_mint"; idl_ro "clock";
   idl_ro "stake_history"; idl_ro "token_program"; idl_ro "stake_program"].
(** [struct WithdrawStakeWithSlippage] *)
Definition idl_withdraw_stake_with_slippage : list IdlAccount :=
  [idl_mut "stake_pool"; idl_mut "validator_list"; idl_ro "stake_pool_withdraw_authority";
   idl_mut "validator_stake"; idl_mut "destination_stake"; idl_mut "destination_stake_authority";
   idl_mut "source_pool_account"; idl_mut "manager_fee_account"; idl_mut "pool_mint";
   idl_ro "clock"; idl_ro "token_program"; idl_ro "stake_program"].
(** [struct DepositSolWithSlippage] *)
Definition idl_deposit_sol_with_slippage : list IdlAccount :=
  [idl_mut "stake_pool"; idl_ro "stake_pool_withdraw_authority"; idl_ro "reserve_stake";
   idl_signer "funding_account"; idl_mut "destination"; idl_mut "manager_fee_account";
   idl_mut "referrer_pool_tokens_account"; idl_mut "pool_mint"; idl_ro "system_program";
   idl_ro "token_program"; idl_optional "sol_deposit_authority"].
(** [struct WithdrawSolWithSlippage] *)
Definition idl_withdraw_sol_with_slippage : list IdlAccount :=
  [idl_mut "stake_pool"; idl_ro "stake_pool_withdraw_authority"; idl_mut "source";
   idl_mut "reserve_stake"; idl_mut "destination"; idl_mut "manager_fee_account";
   idl_mut "pool_mint"; idl_ro "clock"; idl_ro "stake_history"; idl_ro "stake_program";
   idl_ro "token_program"; idl_optional "sol_withdraw_authority"].
End AccountStructs.

(** The accounts a generated client passes, for the keys [k] of the names. *)
Definition idl_metas (k : string -> Pubkey) (l : list IdlAccount) : list AccountMeta :=
  (fun a => mkAccountMeta (k (ia_name a)) (ia_signer a) (ia_mut a)) <$> l.

(** ** Arguments and data, in Borsh *)

Definition idl_u8 (z : Z) : list byte := le_encode 1 z.
Definition idl_u32 (z : Z) : list byte := le_encode 4 z.
Definition idl_u64 (z : Z) : list byte := le_encode 8 z.
Definition idl_i64 (z : Z) : list byte := le_encode 8 (z mod 2 ^ 64).
Definition idl_key (k : Pubkey) : list byte := pk_bytes k.
Definition idl_bool (b : bool) : list byte := [if b then x01 else x00].
Definition idl_string (s : list byte) : list byte := idl_u32 (Z.of_nat (length s)) ++ s.
Definition idl_option {T} (f : T -> list byte) (o : option T) : list byte :=
  match o with None => [x00] | Some x => x01 :: f x end.

(** [struct Fee], [struct Lockup] *)
Definition idl_fee (f : Fee) : list byte := idl_u64 (denominator f) ++ idl_u64 (numerator f).
Definition idl_lockup (l : Lockup) : list byte :=
  idl_i64 (unix_timestamp l) ++ idl_u64 (lockup_epoch l) ++ idl_key (custodian l).

(** [enum FeeType], in the order of the description *)
Definition idl_fee_type (t : FeeType) : list byte :=
  match t with
  | SolReferral n => x00 :: idl_u8 n
  | StakeReferral n => x01 :: idl_u8 n
  | EpochFee f => x02 :: idl_fee f
  | StakeWithdrawalFee f => x03 :: idl_fee f
  | SolWithdrawalFee f => x04 :: idl_fee f
  | StakeDepositFee f => x05 :: idl_fee f
  | SolDepositFee f => x06 :: idl_fee f
  end.

(** [enum AccountType], [enum FutureEpoch], [enum StakeStatus],
    [enum PreferredValidatorType], [enum FundingType] *)
Definition idl_account_type (t : AccountType) : list byte :=
  match t with Uninitialized => [x00] | StakePoolType => [x01] | ValidatorListType => [x02] end.
Definition idl_future_epoch {T} (f : T -> list byte) (e : FutureEpoch T) : list byte :=
  match e with FENone => [x00] | FEOne x => x01 :: f x | FETwo x => x02 :: f x end.
Definition idl_stake_status (s : StakeStatus) : list byte :=
  match s with
  | Active => [x00] | DeactivatingTransient => [x01] | ReadyForRemoval => [x02]
  | DeactivatingValidator => [x03] | DeactivatingAll => [x04]
  end.
Definition idl_preferred_validator_type (t : PreferredValidatorType) : list byte :=
  match t with PreferredDeposit => [x00] | PreferredWithdraw => [x01] end.
Definition idl_funding_type (t : FundingType) : list byte :=
  match t with FundingStakeDeposit => [x00] | FundingSolDeposit => [x01] | FundingSolWithdraw => [x02] end.

(** [struct StakePool] *)
Definition idl_stake_pool (p : StakePool) : list byte :=
  idl_account_type (account_type p) ++ idl_key (manager p) ++ idl_key (staker p) ++
  idl_key (stake_deposit_authority p) ++ idl_u8 (stake_withdraw_bump_seed p) ++
  idl_key (validator_list p) ++ idl_key (reserve_stake p) ++ idl_key (pool_mint p) ++
  idl_key (manager_fee_account p) ++ idl_key (token_program_id p) ++ idl_u64 (total_lamports p) ++
  idl_u64 (pool_token_supply p) ++ idl_u64 (last_update_epoch p) ++ idl_lockup (lockup p) ++
  idl_fee (epoch_fee p) ++ idl_future_epoch idl_fee (next_epoch_fee p) ++
  idl_option idl_key (preferred_deposit_validator_vote_address p) ++
  idl_option idl_key (preferred_withdraw_validator_vote_address p) ++
  idl_fee (stake_deposit_fee p) ++ idl_fee (stake_withdrawal_fee p) ++
  idl_future_epoch idl_fee (next_stake_withdrawal_fee p) ++ idl_u8 (stake_referral_fee p) ++
  idl_option idl_key (sol_deposit_authority p) ++ idl_fee (sol_deposit_fee p) ++
  idl_u8 (sol_referral_fee p) ++ idl_option idl_key (sol_withdraw_authority p) ++
  idl_fee (sol_withdrawal_fee p) ++ idl_future_epoch idl_fee (next_sol_withdrawal_fee p) ++
  idl_u64 (last_epoch_pool_token_supply p) ++ idl_u64 (last_epoch_total_lamports p).

(** [struct ValidatorStakeInfo], in the order of the description *)
Record IdlValidatorStakeInfo := mkIdlValidator {
  iv_status : StakeStatus;
  iv_vote_account_address : Pubkey;
  iv_active_stake_lamports : Z;
  iv_transient_stake_lamports : Z;
  iv_last_update_epoch : Z;
  iv_transient_seed_suffix : Z;
  iv_unused : Z;
  iv_validator_seed_suffix : Z;
}.
Definition idl_validator_stake_info (v : IdlValidatorStakeInfo) : list byte :=
  idl_stake_status (iv_status v) ++ idl_key (iv_vote_account_address v) ++
  idl_u64 (iv_active_stake_lamports v) ++ idl_u64 (iv_transient_stake_lamports v) ++
  idl_u64 (iv_last_update_epoch v) ++ idl_u64 (iv_transient_seed_suffix v) ++
  idl_u32 (iv_unused v) ++ idl_u32 (iv_validator_seed_suffix v).

(** [struct ValidatorListHeader], [struct ValidatorList] *)
Definition idl_validator_list_header (h : ValidatorListHeader) : list byte :=
  idl_account_type (vl_account_type h) ++ idl_u32 (max_validators h).
Definition idl_validator_list (h : ValidatorListHeader) (vs : list IdlValidatorStakeInfo) : list byte :=
  idl_validator_list_header h ++ idl_u32 (Z.of_nat (length vs)) ++
  concat (idl_validator_stake_info <$> vs).

(** The arguments of the handlers of [mod stake_pool_idl]; [WithdrawWsolWithSession]
    has none. *)
Definition idl_args (i : StakePoolInstruction) : option (list byte) :=
  match i with
  | Initialize fee withdrawal_fee deposit_fee referral_fee max_validators =>
      Some (idl_fee fee ++ idl_fee withdrawal_fee ++ idl_fee deposit_fee ++ idl_u8 referral_fee ++
            idl_u32 max_validators)
  | AddValidatorToPool seed => Some (idl_u32 seed)
  | RemoveValidatorFromPool | UpdateStakePoolBalance | CleanupRemovedValidatorEntries | DepositStake
  | SetManager | SetStaker => Some []
  | DecreaseValidatorStake lamports seed | IncreaseValidatorStake lamports seed
  | DecreaseValidatorStakeWithReserve lamports seed => Some (idl_u64 lamports ++ idl_u64 seed)
  | SetPreferredValidator validator_type vote =>
      Some (idl_preferred_validator_type validator_type ++ idl_option idl_key vote)
  | UpdateValidatorListBalance start_index no_merge => Some (idl_u32 start_index ++ idl_bool no_merge)
  | WithdrawStake pool_tokens | WithdrawSol pool_tokens => Some (idl_u64 pool_tokens)
  | SetFee fee_type => Some (idl_fee_type fee_type)
  | DepositSol lamports | DepositWsolWithSession lamports => Some (idl_u64 lamports)
  | SetFundingAuthority funding_type => Some (idl_funding_type funding_type)
  | CreateTokenMetadata name symbol uri | UpdateTokenMetadata name symbol uri =>
      Some (idl_string name ++ idl_string symbol ++ idl_string uri)
  | IncreaseAdditionalValidatorStake lamports transient ephemeral
  | DecreaseAdditionalValidatorStake lamports transient ephemeral =>
      Some (idl_u64 lamports ++ idl_u64 transient ++ idl_u64 ephemeral)
  | Redelegate lamports source ephemeral destination =>
      Some (idl_u64 lamports ++ idl_u64 source ++ idl_u64 ephemeral ++ idl_u64 destination)
  | DepositStakeWithSlippage minimum => Some (idl_u64 minimum)
  | WithdrawStakeWithSlippage n minimum | DepositSolWithSlippage n minimum
  | WithdrawSolWithSlippage n minimum => Some (idl_u64 n ++ idl_u64 minimum)
  | WithdrawWsolWithSession _ => None
  end.

(** ** Comparison of the data *)

(** C38: what a client generated from the description encodes is what the program
    reads, for the state of the pool and, behind the instruction's tag, for the
    arguments of every instruction it describes, [SetFee] with one of the two SOL
    fees excepted: there what the client encodes as one is read as the other. *)
Theorem idl_data_agrees :
  (forall p : StakePool, idl_stake_pool p = borsh_ser p) /\
  (forall h : ValidatorListHeader, idl_validator_list_header h = borsh_ser h) /\
  (forall i, match i with
             | SetFee (SolWithdrawalFee _) | SetFee (SolDepositFee _) | WithdrawWsolWithSession _ => True
             | _ => exists tag args, idl_args i = Some args /\ instruction_ser i = tag :: args
             end) /\
  (forall f, exists tag args args',
     idl_args (SetFee (SolWithdrawalFee f)) = Some args /\ idl_args (SetFee (SolDepositFee f)) = Some args' /\
     instruction_ser (SetFee (SolDepositFee f)) = tag :: args /\
     instruction_ser (SetFee (SolWithdrawalFee f)) = tag :: args').
Proof.
  split_and!; [done|done| |by intros f; eexists _, _, _]. intros i.
  destruct i as [| | | | | | | | | | | |[]| | | | | | | | | | | | | | | |]; try done;
    try (by eexists _, _).
  - eexists _, _. split; [done|]. by destruct validator_type.
  - eexists _, _. split; [done|]. by destruct no_merge.
Qed.

(** The same entry of the list, as the description and as the program lay it out. *)
Definition entry_of (v : IdlValidatorStakeInfo) : ValidatorStakeInfo :=
  mkVSI (array_of_uint 8 (iv_active_stake_lamports v)) (array_of_uint 8 (iv_transient_stake_lamports v))
    (array_of_uint 8 (iv_last_update_epoch v)) (array_of_uint 8 (iv_transient_seed_suffix v))
    (array_of_uint 4 (iv_unused v)) (array_of_uint 4 (iv_validator_seed_suffix v))
    (status_into_pod (iv_status v)) (iv_vote_account_address v).
(** The description puts the status and the vote account first: its entries have
    the same size but are not the program's. *)
Theorem idl_entry_differs :
  let v := mkIdlValidator Active (pubkey_repeat x21) 1 2 3 4 5 6 in
  length (idl_validator_stake_info v) = length (borsh_ser (entry_of v)) /\
  idl_validator_stake_info v <> borsh_ser (entry_of v).
Proof. split; [reflexivity|vm_compute; discriminate]. Qed.

(** ** Comparison of the accounts *)
Section IdlAccounts.
#[local] Open Scope string_scope.
Context `{Runtime} `{ClientIds}.
Variable program_id : Pubkey.

(** The account that is passed is the one asked for, with at least its rights. *)
Definition grants (asked given : AccountMeta) : Prop :=
  am_key given = am_key asked /\ (am_signer asked = true -> am_signer given = true) /\
  (am_writable asked = true -> am_writable given = true).
(** The accounts [given] begin with the ones asked for. *)
Definition covers (asked given : list AccountMeta) : Prop :=
  Forall2 grants asked (take (length asked) given).

(** The names of sysvars and programs stand for them. *)
Record well_known (k : string -> Pubkey) : Prop := {
  known_rent : k "rent" = sysvar_rent_id;
  known_clock : k "clock" = sysvar_clock_id;
  known_history : k "stake_history" = sysvar_stake_history_id;
  known_config : k "stake_config" = stake_config_id;
  known_system : k "system_program" = system_program_id;
  known_stake : k "stake_program" = stake_program_id;
}.

(** for these instructions the description's accounts, in their order, give
    the program every account its own builder passes, with at least the same right
    to sign and to write.  [SetFee] and [UpdateStakePoolBalance] have an account
    more at the end. *)
Theorem idl_accounts_agree k :
  well_known k ->
  let c asked given := covers (ix_accounts asked) (idl_metas k given) in
  (forall seed, c (add_validator_to_pool program_id (k "stake_pool") (k "staker") (k "reserve_stake")
      (k "withdraw_authority") (k "validator_list") (k "validator_stake") (k "validator_vote") seed)
    idl_add_validator_to_pool) /\
  c (remove_validator_from_pool program_id (k "stake_pool") (k "staker") (k "withdraw_authority")
      (k "validator_list") (k "validator_stake") (k "transient_stake")) idl_remove_validator_from_pool /\
  (forall l t, c (decrease_validator_stake program_id (k "stake_pool") (k "staker") (k "withdraw_authority")
      (k "validator_list") (k "validator_stake") (k "transient_stake") l t) idl_decrease_validator_stake) /\
  (forall l t, c (increase_validator_stake program_id (k "stake_pool") (k "staker") (k "withdraw_authority")
      (k "validator_list") (k "reserve_stake") (k "transient_stake") (k "validator_stake")
      (k "validator_vote") l t) idl_increase_validator_stake) /\
  (forall t v, c (set_preferred_validator program_id (k "stake_pool") (k "staker") (k "validator_list") t v)
    idl_set_preferred_validator) /\
  (forall vl i m, c (update_validator_list_balance program_id (k "stake_pool") (k "withdraw_authority")
      (k "validator_list") (k "reserve_stake") vl [] i m) idl_update_validator_list_balance) /\
  c (update_stake_pool_balance program_id (k "stake_pool") (k "withdraw_authority") (k "validator_list")
      (k "reserve_stake") (k "manager_fee_account") (k "pool_mint") (k "token_program"))
    idl_update_stake_pool_balance /\
  c (cleanup_removed_validator_entries program_id (k "stake_pool") (k "validator_list"))
    idl_cleanup_removed_validator_entries /\
  (forall f, c (set_fee program_id (k "stake_pool") (k "manager") f) idl_set_fee) /\
  c (set_staker program_id (k "stake_pool") (k "manager") (k "new_staker")) idl_set_staker /\
  (k "deposit_authority" = fst (find_deposit_authority_program_address program_id (k "stake_pool")) ->
   forall dw ix, last (deposit_stake program_id (k "stake_pool") (k "validator_list")
      (k "stake_pool_withdraw_authority") (k "deposit_stake") dw (k "validator_stake") (k "reserve_stake")
      (k "destination_pool_account") (k "manager_fee_account") (k "referrer_pool_tokens_account")
      (k "pool_mint") (k "token_program")) = Some ix -> c ix idl_deposit_stake) /\
  (forall t, c (set_funding_authority program_id (k "stake_pool") (k "manager") (Some (k "new_authority")) t)
    idl_set_funding_authority).
Proof.
  intros [Hr Hc Hh Hg Hy Hs] c.
  split_and!; try intros Hda ? ? [=<-]; intros; unfold c, covers; cbn; rewrite ?Hr, ?Hc, ?Hh, ?Hg, ?Hy, ?Hs, ?Hda;
    repeat (constructor; [by split_and!|]); constructor.
Qed.

(** For these the description falls short of what the builders pass: the new
    manager does not sign; the pool's mint is not writable when a pool is set up;
    the reserve and the paying account are not writable for a deposit of SOL; the
    authority over the withdrawn tokens is missing altogether. *)
Theorem idl_accounts_fall_short k :
  let c asked given := covers (ix_accounts asked) (idl_metas k given) in
  ~ c (set_manager program_id (k "stake_pool") (k "manager") (k "new_manager") (k "new_manager_fee_account"))
      idl_set_manager /\
  (forall f w d r m, ~ c (initialize program_id (k "stake_pool") (k "manager") (k "staker")
      (k "stake_pool_withdraw_authority") (k "validator_list") (k "reserve_stake") (k "pool_mint")
      (k "manager_fee_account") (k "token_program") None f w d r m) idl_initialize) /\
  (forall n, ~ c (deposit_sol program_id (k "stake_pool") (k "stake_pool_withdraw_authority")
      (k "reserve_stake") (k "funding_account") (k "destination") (k "manager_fee_account")
      (k "referrer_pool_tokens_account") (k "pool_mint") (k "token_program") n) idl_deposit_sol) /\
  (forall u n, ~ c (withdraw_sol program_id (k "stake_pool") (k "stake_pool_withdraw_authority") u
      (k "source") (k "reserve_stake") (k "destination") (k "manager_fee_account") (k "pool_mint")
      (k "token_program") n) idl_withdraw_sol) /\
  (forall u n, ~ c (withdraw_stake program_id (k "stake_pool") (k "validator_list")
      (k "stake_pool_withdraw_authority") (k "validator_stake") (k "destination_stake")
      (k "destination_stake_authority") u (k "source_pool_account") (k "manager_fee_account")
      (k "pool_mint") (k "token_program") n) idl_withdraw_stake).
Proof.
  intros c. split_and!; intros; unfold c, covers; cbn; intros Hc;
    repeat (apply Forall2_cons_1 in Hc as [(_ & Hs & Hw) Hc]; cbn in Hs, Hw;
      first [by specialize (Hs eq_refl)|by specialize (Hw eq_refl)|clear Hs Hw]).
Qed.
End IdlAccounts.

(** ** Witness *)
Section IdlWitness.
Import Demo Scenario.

(** The key of each name. *)
Definition demo_names (n : string) : Pubkey :=
  if bool_decide (n = "system_program"%string) then system_id
  else if bool_decide (n = "stake_program"%string) then stake_id else sysvar_key.
Lemma demo_well_known : well_known (H:=demo) (H0:=demo_ids) demo_names.
Proof. by constructor. Qed.

Lemma idl_accounts_agree_witness :
  covers (ix_accounts (cleanup_removed_validator_entries program sysvar_key sysvar_key))
    (idl_metas demo_names idl_cleanup_removed_validator_entries).
Proof.
  exact (proj1 (proj2 (proj2 (proj2 (proj2 (proj2 (proj2 (proj2
    (idl_accounts_agree (H:=demo) (H0:=demo_ids) program demo_names demo_well_known))))))))).
Defined.
End IdlWitness.
