(* ===== verification/Client.v ===== *)
(** * The command line client's view of the network (src/clients/cli/src/client.rs, main.rs)

    The client talks to a node: it reads accounts, asks for balances and sends
    transactions.  A node is a field of [Node], its answers functions of the
    history of everything this run of the client asked and sent before, so
    nothing is assumed about what other clients do in between.  Commands run in
    the monad [CLI], which has the history and fails with an error or a panic;
    what was sent stays sent.  Messages printed to the terminal are left out. *)

From stdpp Require Import sorting.
From S2P Require Import Prelude Errors Fees Pool BigVec Borsh ValidatorList Runtime Checks.
From S2P Require Import Admin Instruction Builders.

#[local] Open Scope Z_scope.

(** ** Transactions *)

(** [Message] *)
Record Message := mkMessage {
  msg_instructions : list Instruction;
  msg_payer : Pubkey;
  msg_blockhash : Z;
}.
(** [Transaction], with the keys that signed it. *)
Record Transaction := mkTransaction { tx_signers : list Pubkey; tx_message : Message }.

(** The keys of an instruction that have to sign. *)
Definition ix_signers (ix : Instruction) : list Pubkey :=
  am_key <$> List.filter am_signer (ix_accounts ix).
Definition required_signers (m : Message) : list Pubkey :=
  msg_payer m :: (ix ← msg_instructions m; ix_signers ix).

(** What the client did so far. *)
Inductive Event :=
| Queried
| Simulated (tx : Transaction)
| Submitted (wait : bool) (tx : Transaction).

(** ** Errors *)
Inductive CliError :=
| RpcError | ProgramFailure (e : ProgramError)
| InvalidStakePool | InvalidValidatorList | InvalidTokenAccount | InvalidTokenMint
| WrongTokenMint | InvalidStakeState | NoUnitsConsumed | UnitsOutOfRange
| InsufficientFeePayerBalance | EpochFeeZero | WithdrawalAndDepositFeeZero
| WrongMintAuthority | NotAMint | TokenInstruction
| VoteAccountNotInList | StakeNotDelegated | InvalidDepositAuthority | NoSolDepositAuthority
| NotEnoughSol | InvalidSolAmount | NotEnoughTokens | NoSolWithdrawAuthority
| InvalidWithdrawAuthority | WithdrawVoteMismatch | NotEnoughLamportsAvailable
| NoStakeAccountsWithBalance | FeeReceiverMint.

(** ** The client's surroundings *)

(** Crates the client calls: instructions of other programs, decoders, sizes,
    amounts given as floating-point numbers, and key generation. *)
Class Crates := {
  create_account : Pubkey -> Pubkey -> Z -> Z -> Pubkey -> Instruction;
  transfer : Pubkey -> Pubkey -> Z -> Instruction;
  stake_initialize : Pubkey -> Pubkey -> Pubkey -> Instruction;
  stake_merge : Pubkey -> Pubkey -> Pubkey -> list Instruction;
  initialize_mint : Pubkey -> Pubkey -> Pubkey -> Z -> option Instruction;
  token_approve : Pubkey -> Pubkey -> Pubkey -> Pubkey -> Z -> option Instruction;
  create_associated_token_account : Pubkey -> Pubkey -> Pubkey -> Pubkey -> Instruction;
  set_compute_unit_price : Z -> Instruction;
  set_compute_unit_limit : Z -> Instruction;
  get_associated_token_address_with_program_id : Pubkey -> Pubkey -> Pubkey -> Pubkey;
  spl_token_id : Pubkey;
  mint_len : Z;
  native_mint_decimals : Z;
  unpack_token_account_slice : list byte -> option TokenAccount;
  unpack_mint_slice : list byte -> option Mint;
  bincode_stake_state : list byte -> option StakeStateV2;
  f64 : Type;
  ui_amount_to_amount : f64 -> Z -> Z;
  sol_to_lamports : f64 -> option Z;
  sol_str_to_lamports : string -> option Z;
  hash_set_iter : list Pubkey -> list Pubkey;
  keypair_new : nat -> Pubkey;
  (** the build profile: whether the unchecked operators panic on overflow *)
  overflow_checks : bool;
}.

(** [RpcClient] *)
Class Node := {
  rpc_get_account : list Event -> Pubkey -> option Account;
  rpc_get_account_with_commitment : list Event -> Pubkey -> option (option Account);
  rpc_get_balance : list Event -> Pubkey -> option Z;
  rpc_get_minimum_balance_for_rent_exemption : list Event -> Z -> option Z;
  rpc_get_latest_blockhash : list Event -> option Z;
  rpc_get_fee_for_message : list Event -> Message -> option Z;
  rpc_get_epoch_info : list Event -> option Z;
  rpc_get_stake_minimum_delegation : list Event -> option Z;
  rpc_get_token_account_balance : list Event -> Pubkey -> option (option Z);
  rpc_get_program_accounts : list Event -> Pubkey -> nat -> list byte -> option (list (Pubkey * Account));
  rpc_simulate_transaction : list Event -> Transaction -> option (option Z);
  rpc_send_transaction : list Event -> bool -> Transaction -> bool;
}.

(** [Config]: signers by their keys. *)
Inductive ComputeUnitLimit := LimitDefault | LimitStatic (units : Z) | LimitSimulated.
Record Config := mkConfig {
  stake_pool_program_id : Pubkey;
  config_manager : Pubkey;
  config_staker : Pubkey;
  funding_authority : option Pubkey;
  token_owner : Pubkey;
  fee_payer : Pubkey;
  dry_run : bool;
  no_update : bool;
  compute_unit_price : option Z;
  compute_unit_limit : ComputeUnitLimit;
}.

(** ** The monad of commands *)

Record CliState := mkCli { history : list Event; keypairs : nat }.
Definition CLI (A : Type) : Type := CliState -> result CliError A * CliState.

#[export] Instance CLI_ret : MRet CLI := fun A a s => (Ok a, s).
#[export] Instance CLI_bind : MBind CLI := fun A B f m s =>
  match m s with
  | (Ok a, s) => f a s
  | (Err e, s) => (Err e, s)
  | (Panic, s) => (Panic, s)
  end.

Definition fail {A} (e : CliError) : CLI A := fun s => (Err e, s).
Definition of_result {A} (r : result CliError A) : CLI A := fun s => (r, s).
Definition or_fail {A} (e : CliError) (o : option A) : CLI A := of_result (ok_or e o).
Definition unwrap_or_panic {A} (o : option A) : CLI A := of_result (unwrap o).
Definition of_program {A} (r : presult A) : CLI A := of_result (map_err ProgramFailure r).
Definition cfail_if (c : bool) (e : CliError) : CLI unit := of_result (err_if c e).
Definition cwhen (c : bool) (m : CLI unit) : CLI unit := if c then m else mret tt.

(** A question to the node, and one whose failure is a value. *)
Definition ask {A} (q : list Event -> option A) : CLI A := fun s =>
  (ok_or RpcError (q (history s)), mkCli (history s ++ [Queried]) (keypairs s)).
Definition try_ask {A} (q : list Event -> option A) : CLI (option A) := fun s =>
  (Ok (q (history s)), mkCli (history s ++ [Queried]) (keypairs s)).

Section Client.
Context `{Runtime} `{ClientIds} `{Crates} `{Node}.

(** [Keypair::new] *)
Definition new_keypair : CLI Pubkey := fun s =>
  (Ok (keypair_new (keypairs s)), mkCli (history s) (S (keypairs s))).

(** The unchecked operators on [u64]. *)
Definition unchecked (x : Z) : result CliError Z :=
  if (0 <=? x) && (x <? 2 ^ 64) then Ok x
  else if overflow_checks then Panic else Ok (x mod 2 ^ 64).
Definition u64_add (x y : Z) : CLI Z := of_result (unchecked (x + y)).
Definition u64_sub (x y : Z) : CLI Z := of_result (unchecked (x - y)).
Definition u64_mul (x y : Z) : result CliError Z := unchecked (x * y).
Definition u64_div (x y : Z) : result CliError Z := if y =? 0 then Panic else Ok (x / y).

(** ** client.rs *)

Definition get_account_data (k : Pubkey) : CLI (list byte) :=
  a ← ask (fun h => rpc_get_account h k); mret (acc_data a).

(** [get_stake_pool] *)
Definition get_stake_pool (stake_pool_address : Pubkey) : CLI StakePool :=
  account_data ← get_account_data stake_pool_address;
  or_fail InvalidStakePool (result_ok (try_from_slice_unchecked account_data)).

(** [get_validator_list] *)
Definition get_validator_list (validator_list_address : Pubkey) : CLI ValidatorList :=
  account_data ← get_account_data validator_list_address;
  or_fail InvalidValidatorList (result_ok (try_from_slice_unchecked account_data)).

(** [get_token_account] *)
Definition get_token_account (token_account_address expected_token_mint : Pubkey) : CLI TokenAccount :=
  account_data ← get_account_data token_account_address;
  token_account ← or_fail InvalidTokenAccount (unpack_token_account_slice account_data);
  if negb (token_mint token_account =?ₖ expected_token_mint)
  then fail WrongTokenMint else mret token_account.

(** [get_token_mint] *)
Definition get_token_mint (token_mint_address : Pubkey) : CLI Mint :=
  account_data ← get_account_data token_mint_address;
  or_fail InvalidTokenMint (unpack_mint_slice account_data).

(** [get_stake_state] *)
Definition get_stake_state_of (stake_address : Pubkey) : CLI StakeStateV2 :=
  account_data ← get_account_data stake_address;
  or_fail InvalidStakeState (bincode_stake_state account_data).

(** [Result::ok]: an error becomes [None]. *)
Definition ok {A} (m : CLI A) : CLI (option A) := fun s =>
  match m s with
  | (Ok a, s) => (Ok (Some a), s)
  | (Err _, s) => (Ok None, s)
  | (Panic, s) => (Panic, s)
  end.

(** [get_stake_pools]: the accounts of the program that start with the type of
    pools (the byte 1, which is 2 in base 58) and decode, with their lists. *)
Fixpoint pools_of (program_id : Pubkey) (accounts : list (Pubkey * Account))
    : CLI (list (Pubkey * StakePool * ValidatorList * Pubkey)) :=
  match accounts with
  | [] => mret []
  | (address, account) :: accounts =>
      let pool_withdraw_authority :=
        fst (find_withdraw_authority_program_address program_id address) in
      pool ←
        match result_ok (try_from_slice_unchecked (acc_data account)) with
        | Some stake_pool =>
            vl ← ok (get_validator_list (validator_list stake_pool));
            mret ((fun vl => (address, stake_pool, vl, pool_withdraw_authority)) <$> vl)
        | None => mret None
        end;
      pools ← pools_of program_id accounts;
      mret (option_list pool ++ pools)
  end.
Definition get_stake_pools (stake_pool_program_id : Pubkey)
    : CLI (list (Pubkey * StakePool * ValidatorList * Pubkey)) :=
  accounts ← ask (fun h => rpc_get_program_accounts h stake_pool_program_id 0 [x01]);
  pools_of stake_pool_program_id accounts.

(** [get_all_stake] *)
Definition get_all_stake (authorized_staker : Pubkey) : CLI (list Pubkey) :=
  all_stake_accounts ←
    ask (fun h => rpc_get_program_accounts h stake_program_id 12 (pk_bytes authorized_staker));
  mret (hash_set_iter (remove_dups (fst <$> all_stake_accounts))).

(** [add_compute_unit_limit_from_simulation] *)
Definition MAX_COMPUTE_UNIT_LIMIT : Z := 1400000.
Definition add_compute_unit_limit_from_simulation (instructions : list Instruction) (payer : Pubkey)
    (blockhash : Z) : CLI (list Instruction) :=
  let limit := set_compute_unit_limit MAX_COMPUTE_UNIT_LIMIT in
  let transaction := mkTransaction [] (mkMessage (instructions ++ [limit]) payer blockhash) in
  units_consumed ← ask (fun h => rpc_simulate_transaction h transaction);
  units_consumed ← or_fail NoUnitsConsumed units_consumed;
  compute_unit_limit ← or_fail UnitsOutOfRange (try_u32 units_consumed);
  mret (instructions ++
    [mkInstruction (ix_program_id limit) (ix_accounts limit)
       (ix_data (set_compute_unit_limit compute_unit_limit))]).

(** ** Sending (main.rs) *)
Section Config.
Variable config : Config.

(** [check_fee_payer_balance] *)
Definition check_fee_payer_balance (required_balance : Z) : CLI unit :=
  balance ← ask (fun h => rpc_get_balance h (fee_payer config));
  cfail_if (balance <? required_balance) InsufficientFeePayerBalance.

(** [send_transaction_no_wait], [send_transaction] *)
Definition send (wait : bool) (transaction : Transaction) : CLI unit :=
  if dry_run config then fun s =>
    (ok_or RpcError ((fun _ => tt) <$> rpc_simulate_transaction (history s) transaction),
     mkCli (history s ++ [Simulated transaction]) (keypairs s))
  else fun s =>
    (if rpc_send_transaction (history s) wait transaction then Ok tt else Err RpcError,
     mkCli (history s ++ [Submitted wait transaction]) (keypairs s)).
Definition send_transaction_no_wait : Transaction -> CLI unit := send false.
Definition send_transaction : Transaction -> CLI unit := send true.

(** [Transaction::new] signs with all keys and panics when a key is missing or
    does not belong to the message. *)
Definition transaction_new (signers : list Pubkey) (message : Message) : CLI Transaction :=
  if bool_decide (Forall (.∈ required_signers message) signers) &&
     bool_decide (Forall (.∈ signers) (required_signers message))
  then mret (mkTransaction signers message) else of_result Panic.

(** [checked_transaction_with_signers_and_additional_fee] *)
Definition checked_transaction_with_signers_and_additional_fee (instructions : list Instruction)
    (signers : list Pubkey) (additional_fee : Z) : CLI Transaction :=
  recent_blockhash ← ask rpc_get_latest_blockhash;
  let instructions :=
    match compute_unit_price config with
    | Some compute_unit_price => instructions ++ [set_compute_unit_price compute_unit_price]
    | None => instructions
    end in
  instructions ←
    match compute_unit_limit config with
    | LimitDefault => mret instructions
    | LimitStatic compute_unit_limit =>
        mret (instructions ++ [set_compute_unit_limit compute_unit_limit])
    | LimitSimulated =>
        add_compute_unit_limit_from_simulation instructions (fee_payer config) recent_blockhash
    end;
  let message := mkMessage instructions (fee_payer config) recent_blockhash in
  fee ← ask (fun h => rpc_get_fee_for_message h message);
  check_fee_payer_balance (saturating_add 64 additional_fee fee);;
  transaction_new signers message.

(** [checked_transaction_with_signers] *)
Definition checked_transaction_with_signers (instructions : list Instruction) (signers : list Pubkey)
    : CLI Transaction :=
  checked_transaction_with_signers_and_additional_fee instructions signers 0.
End Config.
End Client.

(** ** [unique_signers!]: sorted by key, without repetitions *)

Fixpoint bytes_leb (a b : list byte) : bool :=
  match a, b with
  | [], _ => true
  | _ :: _, [] => false
  | x :: a, y :: b =>
      (Z_of_byte x <? Z_of_byte y) || ((Z_of_byte x =? Z_of_byte y) && bytes_leb a b)
  end.
Definition pubkey_le (j k : Pubkey) : Prop := bytes_leb (pk_bytes j) (pk_bytes k) = true.
#[export] Instance pubkey_le_dec : RelDecision pubkey_le.
Proof. intros j k. unfold pubkey_le. apply _. Defined.

(** [Vec::dedup] *)
Fixpoint dedup (l : list Pubkey) : list Pubkey :=
  match l with
  | [] => []
  | k :: r =>
      match dedup r with
      | j :: r => if k =?ₖ j then j :: r else k :: j :: r
      | [] => [k]
      end
  end.
Definition unique_signers (l : list Pubkey) : list Pubkey := dedup (merge_sort pubkey_le l).
