(* ===== verification/Commands.v ===== *)
(** * The commands of the client (src/clients/cli/src/main.rs)

    One definition per command: what it reads, which transactions it makes and
    with which signers it sends them. *)

From S2P Require Import Prelude Errors Fees Pool BigVec Borsh ValidatorList Runtime Checks.
From S2P Require Import Admin Deposit Instruction Builders Client.

#[local] Open Scope Z_scope.

(** [STAKE_STATE_LEN] and the packed length of [StakePool] *)
Definition STAKE_STATE_LEN : Z := 200.
Definition STAKE_POOL_LEN : Z := 611.

(** [check_stake_pool_fees] *)
Definition fee_is_zero (fee : Fee) : bool := (numerator fee =? 0) || (denominator fee =? 0).
Definition check_stake_pool_fees (epoch_fee withdrawal_fee deposit_fee : Fee) : CLI unit :=
  cfail_if (fee_is_zero epoch_fee) EpochFeeZero;;
  let is_withdrawal_fee_zero := fee_is_zero withdrawal_fee in
  let is_deposit_fee_zero := fee_is_zero deposit_fee in
  cfail_if (is_withdrawal_fee_zero && is_deposit_fee_zero) WithdrawalAndDepositFeeZero.

(** [WithdrawAccount] *)
Record WithdrawAccount := mkWithdraw {
  wa_stake_address : Pubkey;
  wa_vote_address : option Pubkey;
  wa_pool_amount : Z;
}.
(** A candidate for a withdrawal: the account, its lamports and its validator. *)
Definition Candidate : Type := Pubkey * Z * option Pubkey.

(** The comparison of [sorted_accounts] says that [l] comes before [r]. *)
Definition account_less (preferred : option Pubkey) (l r : Candidate) : bool :=
  if bool_decide (l.2 = preferred) then true
  else if bool_decide (r.2 = preferred) then false
  else r.1.2 <? l.1.2.

(** [slice::sort_by], a stable sort *)
Fixpoint insert_by {A} (less : A -> A -> bool) (x : A) (l : list A) : list A :=
  match l with
  | [] => [x]
  | y :: r => if less y x then y :: insert_by less x r else x :: l
  end.
Definition sort_by {A} (less : A -> A -> bool) (l : list A) : list A := foldr (insert_by less) [] l.

(** [sorted_accounts] *)
Definition sorted_accounts (validator_list : ValidatorList) (stake_pool : StakePool)
    (get_info : ValidatorStakeInfo -> Candidate) : list Candidate :=
  sort_by (account_less (preferred_withdraw_validator_vote_address stake_pool))
    (get_info <$> validators validator_list).

Section Commands.
Context `{Runtime} `{ClientIds} `{Crates} `{Node}.
Variable config : Config.
#[local] Notation program := (stake_pool_program_id config).

Definition minimum_balance_for (len : Z) : CLI Z :=
  ask (fun h => rpc_get_minimum_balance_for_rent_exemption h len).

(** Signs, sends and waits. *)
Definition sign_and_send (instructions : list Instruction) (signers : list Pubkey) (additional_fee : Z)
    : CLI unit :=
  transaction ← checked_transaction_with_signers_and_additional_fee config instructions signers additional_fee;
  send_transaction config transaction.

(** ** Updates *)

(** The first instructions of an update, sent without waiting. *)
Fixpoint send_each (instructions : list Instruction) : CLI unit :=
  match instructions with
  | [] => mret tt
  | instruction :: instructions =>
      transaction ← checked_transaction_with_signers config [instruction] [fee_payer config];
      send_transaction_no_wait config transaction;;
      send_each instructions
  end.

(** [command_update] *)
Definition command_update (stake_pool_address : Pubkey) (force no_merge stale_only : bool) : CLI unit :=
  if no_update config then mret tt
  else
    stake_pool ← get_stake_pool stake_pool_address;
    epoch ← ask rpc_get_epoch_info;
    if (last_update_epoch stake_pool =? epoch) && negb force then mret tt
    else
      vlist ← get_validator_list (validator_list stake_pool);
      '(update_list_instructions, final_instructions) ←
        of_program
          (if stale_only
           then update_stale_stake_pool program stake_pool vlist stake_pool_address no_merge epoch
           else update_stake_pool program stake_pool vlist stake_pool_address no_merge);
      cwhen (0 <? Z.of_nat (length update_list_instructions))
        (let n := (length update_list_instructions - 1)%nat in
         let last_instruction := drop n update_list_instructions in
         send_each (take n update_list_instructions);;
         sign_and_send last_instruction [fee_payer config] 0);;
      sign_and_send final_instructions [fee_payer config] 0.

(** The update most commands start with. *)
Definition update_first (stake_pool_address : Pubkey) : CLI unit :=
  cwhen (negb (no_update config)) (command_update stake_pool_address false false false).

(** ** Creating a pool *)

Definition all_zero (l : list byte) : bool := forallb (fun x => Z_of_byte x =? 0) l.

(** [setup_reserve_stake_account] *)
Definition setup_reserve_stake_account (reserve_keypair : Pubkey) (reserve_stake_balance : Z)
    (withdraw_authority : Pubkey) : CLI unit :=
  let initialize := stake_initialize reserve_keypair withdraw_authority withdraw_authority in
  let create :=
    sign_and_send
      [create_account (fee_payer config) reserve_keypair reserve_stake_balance STAKE_STATE_LEN
         stake_program_id; initialize]
      [fee_payer config; reserve_keypair] 0 in
  reserve_account_info ← try_ask (fun h => rpc_get_account h reserve_keypair);
  match reserve_account_info with
  | Some account =>
      if acc_owner account =?ₖ stake_program_id then
        if negb (all_zero (acc_data account)) then mret tt
        else sign_and_send [initialize] [fee_payer config] 0
      else create
  | None => create
  end.

(** [setup_mint_account] *)
Definition setup_mint_account (mint_keypair : Pubkey) (mint_account_balance : Z)
    (withdraw_authority : Pubkey) (default_decimals : Z) : CLI Pubkey :=
  let create :=
    initialize ← or_fail TokenInstruction
      (initialize_mint spl_token_id mint_keypair withdraw_authority default_decimals);
    sign_and_send
      [create_account (fee_payer config) mint_keypair mint_account_balance mint_len spl_token_id;
       initialize]
      [fee_payer config; mint_keypair] 0;;
    mret spl_token_id in
  mint_account_info ← try_ask (fun h => rpc_get_account h mint_keypair);
  match mint_account_info with
  | Some account =>
      if is_Ok (check_spl_token_program_account (acc_owner account)) then
        (if negb (all_zero (acc_data account)) then
           match unpack_mint (acc_data account) with
           | Ok mint =>
               cfail_if (negb (bool_decide (mint_authority mint = Some withdraw_authority)))
                 WrongMintAuthority
           | Err _ => fail NotAMint
           | Panic => of_result Panic
           end
         else
           initialize ← or_fail TokenInstruction
             (initialize_mint (acc_owner account) mint_keypair withdraw_authority default_decimals);
           sign_and_send [initialize] [fee_payer config] 0);;
        mret (acc_owner account)
      else create
  | None => create
  end.

(** [add_associated_token_account]: the address, the instructions and the
    balances afterwards. *)
Definition add_associated_token_account (mint token_program_id owner : Pubkey)
    (instructions : list Instruction) (rent_free_balances : Z) : CLI (Pubkey * list Instruction * Z) :=
  let account := get_associated_token_address_with_program_id owner mint token_program_id in
  existing ← ok (get_token_account account mint);
  match existing with
  | None =>
      min_account_balance ←
        try_ask (fun h => rpc_get_minimum_balance_for_rent_exemption h token_account_len);
      min_account_balance ← unwrap_or_panic min_account_balance;
      let instructions := instructions ++
        [create_associated_token_account (fee_payer config) owner mint token_program_id] in
      rent_free_balances ← u64_add rent_free_balances min_account_balance;
      mret (account, instructions, rent_free_balances)
  | Some _ => mret (account, instructions, rent_free_balances)
  end.

(** [setup_pool_fee_account] *)
Definition setup_pool_fee_account (mint_pubkey token_program_id : Pubkey) (total_rent_free_balances : Z)
    : CLI Z :=
  let pool_fee_account :=
    get_associated_token_address_with_program_id (config_manager config) mint_pubkey token_program_id in
  let create :=
    '(_, instructions, total_rent_free_balances) ←
      add_associated_token_account mint_pubkey token_program_id (config_manager config) []
        total_rent_free_balances;
    sign_and_send instructions [fee_payer config] 0;;
    mret total_rent_free_balances in
  pool_fee_account_info ← try_ask (fun h => rpc_get_account h pool_fee_account);
  match pool_fee_account_info with
  | Some account =>
      if is_Ok (check_spl_token_program_account (acc_owner account))
      then mret total_rent_free_balances else create
  | None => create
  end.

(** What is known of an account before it is set up. *)
Inductive Setup := SetupReady | SetupDone | SetupForeign | SetupMissing.
Definition setup_of (o : option Account) : Setup :=
  match o with
  | Some account =>
      if acc_owner account =?ₖ program
      then if all_zero (acc_data account) then SetupReady else SetupDone
      else SetupForeign
  | None => SetupMissing
  end.

(** [setup_and_initialize_validator_list_with_stake_pool] *)
Definition setup_and_initialize_validator_list_with_stake_pool (stake_pool_keypair
    validator_list_keypair reserve_keypair mint_keypair token_program_id pool_fee_account : Pubkey)
    (deposit_authority : option Pubkey) (epoch_fee withdrawal_fee deposit_fee : Fee)
    (referral_fee max_validators : Z) (withdraw_authority : Pubkey)
    (validator_list_balance validator_list_size : Z) : CLI unit :=
  stake_pool_account_info ← try_ask (fun h => rpc_get_account h stake_pool_keypair);
  validator_list_account_info ← try_ask (fun h => rpc_get_account h validator_list_keypair);
  stake_pool_account_lamports ← minimum_balance_for STAKE_POOL_LEN;
  let signers := [fee_payer config; config_manager config] in
  match setup_of validator_list_account_info, setup_of stake_pool_account_info with
  | SetupDone, _ => mret tt
  | _, SetupDone => mret tt
  | list_setup, pool_setup =>
      let '(instructions, signers) :=
        match list_setup with
        | SetupMissing =>
            ([create_account (fee_payer config) validator_list_keypair validator_list_balance
                validator_list_size program], signers ++ [validator_list_keypair])
        | _ => ([], signers)
        end in
      let instructions :=
        match pool_setup with
        | SetupMissing =>
            instructions ++ [create_account (fee_payer config) stake_pool_keypair
                               stake_pool_account_lamports STAKE_POOL_LEN program]
        | _ => instructions
        end in
      let instructions := instructions ++
        [initialize program stake_pool_keypair (config_manager config) (config_staker config)
           withdraw_authority validator_list_keypair reserve_keypair mint_keypair pool_fee_account
           token_program_id deposit_authority epoch_fee withdrawal_fee deposit_fee referral_fee
           max_validators] in
      let signers := signers ++ [stake_pool_keypair] ++ option_list deposit_authority in
      sign_and_send instructions (unique_signers signers) 0
  end.

Definition keypair_or_new (o : option Pubkey) : CLI Pubkey :=
  match o with Some k => mret k | None => new_keypair end.

(** [command_create_pool] *)
Definition command_create_pool (deposit_authority : option Pubkey)
    (epoch_fee withdrawal_fee deposit_fee : Fee) (referral_fee max_validators : Z)
    (stake_pool_keypair validator_list_keypair mint_keypair reserve_keypair : option Pubkey)
    (unsafe_fees : bool) : CLI unit :=
  cwhen (negb unsafe_fees) (check_stake_pool_fees epoch_fee withdrawal_fee deposit_fee);;
  reserve_keypair ← keypair_or_new reserve_keypair;
  mint_keypair ← keypair_or_new mint_keypair;
  stake_pool_keypair ← keypair_or_new stake_pool_keypair;
  validator_list_keypair ← keypair_or_new validator_list_keypair;
  b ← minimum_balance_for STAKE_STATE_LEN;
  reserve_stake_balance ← u64_add b MINIMUM_RESERVE_LAMPORTS;
  mint_account_balance ← minimum_balance_for mint_len;
  pool_fee_account_balance ← minimum_balance_for token_account_len;
  stake_pool_account_lamports ← minimum_balance_for STAKE_POOL_LEN;
  let validator_list_size := Z.of_nat (packed_len (validator_list_new max_validators)) in
  validator_list_balance ← minimum_balance_for validator_list_size;
  b ← u64_add reserve_stake_balance mint_account_balance;
  b ← u64_add b pool_fee_account_balance;
  b ← u64_add b stake_pool_account_lamports;
  total_rent_free_balances ← u64_add b validator_list_balance;
  let withdraw_authority :=
    fst (find_withdraw_authority_program_address program stake_pool_keypair) in
  setup_reserve_stake_account reserve_keypair reserve_stake_balance withdraw_authority;;
  token_program_id ←
    setup_mint_account mint_keypair mint_account_balance withdraw_authority native_mint_decimals;
  setup_pool_fee_account mint_keypair token_program_id total_rent_free_balances;;
  let pool_fee_account :=
    get_associated_token_address_with_program_id (config_manager config) mint_keypair token_program_id in
  setup_and_initialize_validator_list_with_stake_pool stake_pool_keypair validator_list_keypair
    reserve_keypair mint_keypair token_program_id pool_fee_account deposit_authority epoch_fee
    withdrawal_fee deposit_fee referral_fee max_validators withdraw_authority validator_list_balance
    validator_list_size.

(** [create_token_metadata], [update_token_metadata] *)
Definition command_create_token_metadata (stake_pool_address : Pubkey) (name symbol uri : list byte)
    : CLI unit :=
  stake_pool ← get_stake_pool stake_pool_address;
  let signers := [fee_payer config; config_manager config] in
  instruction ← of_program
    (create_token_metadata program stake_pool_address (manager stake_pool) (pool_mint stake_pool)
       (fee_payer config) name symbol uri);
  sign_and_send [instruction] (unique_signers signers) 0.

Definition command_update_token_metadata (stake_pool_address : Pubkey) (name symbol uri : list byte)
    : CLI unit :=
  stake_pool ← get_stake_pool stake_pool_address;
  let signers := [fee_payer config; config_manager config] in
  instruction ← of_program
    (update_token_metadata program stake_pool_address (manager stake_pool) (pool_mint stake_pool)
       name symbol uri);
  sign_and_send [instruction] (unique_signers signers) 0.

(** ** Validators *)

(** The search for a seed in [command_vsa_add]: it goes on while the reserve
    account does not exist.  [None] when it is not over after [fuel] rounds. *)
Fixpoint find_free_seed (fuel : nat) (stake_pool : StakePool) (stake_pool_address vote_account : Pubkey)
    (i : Z) : CLI (option (Pubkey * option Z)) :=
  match fuel with
  | O => mret None
  | S fuel =>
      let seed := nonzero i in
      let address := fst (find_stake_program_address program vote_account stake_pool_address seed) in
      maybe_account ← ask (fun h => rpc_get_account_with_commitment h (reserve_stake stake_pool));
      match maybe_account with
      | Some _ => mret (Some (address, seed))
      | None =>
          i ← if i + 1 <? 2 ^ 32 then mret (i + 1)
              else if overflow_checks then of_result Panic else mret 0;
          find_free_seed fuel stake_pool stake_pool_address vote_account i
      end
  end.

(** [command_vsa_add], with a bound on the rounds of its search *)
Definition command_vsa_add (fuel : nat) (stake_pool_address vote_account : Pubkey) : CLI (option unit) :=
  stake_pool ← get_stake_pool stake_pool_address;
  vlist ← get_validator_list (validator_list stake_pool);
  if vl_contains vlist vote_account then mret (Some tt)
  else
    update_first stake_pool_address;;
    found ← find_free_seed fuel stake_pool stake_pool_address vote_account 0;
    match found with
    | None => mret None
    | Some (stake_account_address, validator_seed) =>
        let signers := [fee_payer config; config_staker config] in
        sign_and_send
          [add_validator_to_pool_with_vote program stake_pool stake_pool_address vote_account
             validator_seed]
          (unique_signers signers) 0;;
        mret (Some tt)
    end.

(** The entry of a validator and the seed of its stake account. *)
Definition find_validator (stake_pool : StakePool) (vote_account : Pubkey) (e : CliError)
    : CLI (ValidatorStakeInfo * option Z) :=
  vlist ← get_validator_list (validator_list stake_pool);
  validator_stake_info ← or_fail e (vl_find vlist vote_account);
  mret (validator_stake_info, nonzero (uint_of_array (validator_seed_suffix validator_stake_info))).

(** [command_vsa_remove] *)
Definition command_vsa_remove (stake_pool_address vote_account : Pubkey) : CLI unit :=
  update_first stake_pool_address;;
  stake_pool ← get_stake_pool stake_pool_address;
  '(validator_stake_info, validator_seed) ← find_validator stake_pool vote_account VoteAccountNotInList;
  let signers := [fee_payer config; config_staker config] in
  sign_and_send
    [remove_validator_from_pool_with_vote program stake_pool stake_pool_address vote_account
       validator_seed (uint_of_array (transient_seed_suffix validator_stake_info))]
    (unique_signers signers) 0.

(** [command_increase_validator_stake] *)
Definition command_increase_validator_stake (stake_pool_address vote_account : Pubkey) (lamports : Z)
    : CLI unit :=
  update_first stake_pool_address;;
  stake_pool ← get_stake_pool stake_pool_address;
  '(validator_stake_info, validator_seed) ← find_validator stake_pool vote_account VoteAccountNotInList;
  let signers := [fee_payer config; config_staker config] in
  sign_and_send
    [increase_validator_stake_with_vote program stake_pool stake_pool_address vote_account lamports
       validator_seed (uint_of_array (transient_seed_suffix validator_stake_info))]
    (unique_signers signers) 0.

(** [command_decrease_validator_stake] *)
Definition command_decrease_validator_stake (stake_pool_address vote_account : Pubkey) (lamports : Z)
    : CLI unit :=
  update_first stake_pool_address;;
  stake_pool ← get_stake_pool stake_pool_address;
  '(validator_stake_info, validator_seed) ← find_validator stake_pool vote_account VoteAccountNotInList;
  let signers := [fee_payer config; config_staker config] in
  sign_and_send
    [decrease_validator_stake_with_vote program stake_pool stake_pool_address vote_account lamports
       validator_seed (uint_of_array (transient_seed_suffix validator_stake_info))]
    (unique_signers signers) 0.

(** [command_set_preferred_validator] *)
Definition command_set_preferred_validator (stake_pool_address : Pubkey)
    (preferred_type : PreferredValidatorType) (vote_address : option Pubkey) : CLI unit :=
  stake_pool ← get_stake_pool stake_pool_address;
  let signers := [fee_payer config; config_staker config] in
  sign_and_send
    [set_preferred_validator program stake_pool_address (config_staker config)
       (validator_list stake_pool) preferred_type vote_address]
    (unique_signers signers) 0.

(** ** Deposits *)

(** The validator a stake account is delegated to. *)
Definition delegated_to (stake_state : StakeStateV2) : CLI Pubkey :=
  match stake_state with
  | StakeStake _ stake => mret (voter_pubkey (delegation stake))
  | _ => fail StakeNotDelegated
  end.

(** [command_deposit_stake] *)
Definition command_deposit_stake (stake_pool_address stake withdraw_authority : Pubkey)
    (pool_token_receiver_account referrer_token_account : option Pubkey) : CLI unit :=
  update_first stake_pool_address;;
  stake_pool ← get_stake_pool stake_pool_address;
  stake_state ← get_stake_state_of stake;
  vote_account ← delegated_to stake_state;
  '(validator_stake_info, validator_seed) ← find_validator stake_pool vote_account VoteAccountNotInList;
  let validator_stake_account :=
    fst (find_stake_program_address program vote_account stake_pool_address validator_seed) in
  get_stake_state_of validator_stake_account;;
  let signers := [fee_payer config; withdraw_authority] in
  '(associated, instructions, total_rent_free_balances) ←
    add_associated_token_account (pool_mint stake_pool) (token_program_id stake_pool)
      (token_owner config) [] 0;
  let pool_token_receiver_account := default associated pool_token_receiver_account in
  let referrer_token_account := default pool_token_receiver_account referrer_token_account in
  let pool_withdraw_authority :=
    fst (find_withdraw_authority_program_address program stake_pool_address) in
  '(deposit_instructions, signers) ←
    match funding_authority config with
    | Some authority =>
        cfail_if (negb (authority =?ₖ stake_deposit_authority stake_pool)) InvalidDepositAuthority;;
        mret (deposit_stake_with_authority program stake_pool_address (validator_list stake_pool)
                authority pool_withdraw_authority stake withdraw_authority validator_stake_account
                (reserve_stake stake_pool) pool_token_receiver_account (manager_fee_account stake_pool)
                referrer_token_account (pool_mint stake_pool) (token_program_id stake_pool),
              signers ++ [authority])
    | None =>
        mret (deposit_stake program stake_pool_address (validator_list stake_pool)
                pool_withdraw_authority stake withdraw_authority validator_stake_account
                (reserve_stake stake_pool) pool_token_receiver_account (manager_fee_account stake_pool)
                referrer_token_account (pool_mint stake_pool) (token_program_id stake_pool), signers)
    end;
  sign_and_send (instructions ++ deposit_instructions) (unique_signers signers) total_rent_free_balances.

(** The loop of [command_deposit_all_stake] over the user's stake accounts. *)
Fixpoint deposit_each (stake_pool : StakePool) (stake_pool_address withdraw_authority
    pool_token_receiver_account referrer_token_account : Pubkey) (vlist : ValidatorList)
    (signers : list Pubkey) (stake_addresses : list Pubkey) : CLI unit :=
  match stake_addresses with
  | [] => mret tt
  | stake_address :: stake_addresses =>
      let pool_withdraw_authority :=
        fst (find_withdraw_authority_program_address program stake_pool_address) in
      stake_state ← get_stake_state_of stake_address;
      vote_account ← delegated_to stake_state;
      validator_stake_info ← or_fail VoteAccountNotInList (vl_find vlist vote_account);
      let validator_seed := nonzero (uint_of_array (validator_seed_suffix validator_stake_info)) in
      let validator_stake_account :=
        fst (find_stake_program_address program vote_account stake_pool_address validator_seed) in
      get_stake_state_of validator_stake_account;;
      let instructions :=
        match funding_authority config with
        | Some authority =>
            deposit_stake_with_authority program stake_pool_address (validator_list stake_pool)
              authority pool_withdraw_authority stake_address withdraw_authority
              validator_stake_account (reserve_stake stake_pool) pool_token_receiver_account
              (manager_fee_account stake_pool) referrer_token_account (pool_mint stake_pool)
              (token_program_id stake_pool)
        | None =>
            deposit_stake program stake_pool_address (validator_list stake_pool)
              pool_withdraw_authority stake_address withdraw_authority validator_stake_account
              (reserve_stake stake_pool) pool_token_receiver_account
              (manager_fee_account stake_pool) referrer_token_account (pool_mint stake_pool)
              (token_program_id stake_pool)
        end in
      sign_and_send instructions signers 0;;
      deposit_each stake_pool stake_pool_address withdraw_authority pool_token_receiver_account
        referrer_token_account vlist signers stake_addresses
  end.

(** [command_deposit_all_stake] *)
Definition command_deposit_all_stake (stake_pool_address stake_authority withdraw_authority : Pubkey)
    (pool_token_receiver_account referrer_token_account : option Pubkey) : CLI unit :=
  update_first stake_pool_address;;
  stake_addresses ← get_all_stake stake_authority;
  stake_pool ← get_stake_pool stake_pool_address;
  '(associated, create_token_account_instructions, total_rent_free_balances) ←
    add_associated_token_account (pool_mint stake_pool) (token_program_id stake_pool)
      (token_owner config) [] 0;
  let pool_token_receiver_account := default associated pool_token_receiver_account in
  cwhen (0 <? Z.of_nat (length create_token_account_instructions))
    (sign_and_send create_token_account_instructions [fee_payer config] total_rent_free_balances);;
  let referrer_token_account := default pool_token_receiver_account referrer_token_account in
  vlist ← get_validator_list (validator_list stake_pool);
  signers ←
    match funding_authority config with
    | Some authority =>
        cfail_if (negb (authority =?ₖ stake_deposit_authority stake_pool)) InvalidDepositAuthority;;
        mret [fee_payer config; withdraw_authority; authority]
    | None => mret [fee_payer config; withdraw_authority]
    end;
  deposit_each stake_pool stake_pool_address withdraw_authority pool_token_receiver_account
    referrer_token_account vlist (unique_signers signers) stake_addresses.

(** The authority of a private pool for SOL: the configured one has to be it. *)
Definition check_funding (expected : option Pubkey) (authority : Pubkey) (none wrong : CliError)
    : CLI unit :=
  expected ← or_fail none expected;
  cfail_if (negb (authority =?ₖ expected)) wrong.

(** [command_deposit_sol] *)
Definition command_deposit_sol (stake_pool_address : Pubkey)
    (from pool_token_receiver_account referrer_token_account : option Pubkey) (lamports : Z) : CLI unit :=
  update_first stake_pool_address;;
  let from_pubkey := default (fee_payer config) from in
  from_balance ← ask (fun h => rpc_get_balance h from_pubkey);
  cfail_if (from_balance <? lamports) NotEnoughSol;;
  stake_pool ← get_stake_pool stake_pool_address;
  user_sol_transfer ← new_keypair;
  let signers := [fee_payer config; user_sol_transfer] ++ option_list from in
  let instructions := [transfer from_pubkey user_sol_transfer lamports] in
  '(associated, instructions, total_rent_free_balances) ←
    add_associated_token_account (pool_mint stake_pool) (token_program_id stake_pool)
      (token_owner config) instructions 0;
  let pool_token_receiver_account := default associated pool_token_receiver_account in
  let referrer_token_account := default pool_token_receiver_account referrer_token_account in
  let pool_withdraw_authority :=
    fst (find_withdraw_authority_program_address program stake_pool_address) in
  '(deposit_instruction, signers) ←
    match funding_authority config with
    | Some deposit_authority =>
        check_funding (sol_deposit_authority stake_pool) deposit_authority NoSolDepositAuthority
          InvalidDepositAuthority;;
        mret (deposit_sol_with_authority program stake_pool_address deposit_authority
                pool_withdraw_authority (reserve_stake stake_pool) user_sol_transfer
                pool_token_receiver_account (manager_fee_account stake_pool) referrer_token_account
                (pool_mint stake_pool) (token_program_id stake_pool) lamports,
              signers ++ [deposit_authority])
    | None =>
        mret (deposit_sol program stake_pool_address pool_withdraw_authority (reserve_stake stake_pool)
                user_sol_transfer pool_token_receiver_account (manager_fee_account stake_pool)
                referrer_token_account (pool_mint stake_pool) (token_program_id stake_pool) lamports,
              signers)
    end;
  sign_and_send (instructions ++ [deposit_instruction]) (unique_signers signers)
    total_rent_free_balances.

(** [command_deposit_wsol_with_session] *)
Definition command_deposit_wsol_with_session (stake_pool_address : Pubkey)
    (from pool_token_receiver_account referrer_token_account : option Pubkey) (amount : f64) : CLI unit :=
  update_first stake_pool_address;;
  amount ← or_fail InvalidSolAmount (sol_to_lamports amount);
  let user_pubkey := default (fee_payer config) from in
  stake_pool ← get_stake_pool stake_pool_address;
  let user_wsol_account := get_associated_token_address user_pubkey native_mint_id in
  wsol_balance ← try_ask (fun h => rpc_get_token_account_balance h user_wsol_account);
  let wsol_balance := default 0 (default (Some 0) wsol_balance) in
  cfail_if (wsol_balance <? amount) NotEnoughSol;;
  let signers := [fee_payer config] ++ option_list from in
  let program_signer := fst (find_program_address [program_signer_seed] program) in
  let transient_wsol_pda :=
    fst (find_program_address [TRANSIENT_WSOL_SEED; pk_bytes user_pubkey] program) in
  '(associated, instructions, total_rent_free_balances) ←
    add_associated_token_account (pool_mint stake_pool) (token_program_id stake_pool) user_pubkey [] 0;
  let pool_token_receiver_account := default associated pool_token_receiver_account in
  let referrer_token_account := default pool_token_receiver_account referrer_token_account in
  let pool_withdraw_authority :=
    fst (find_withdraw_authority_program_address program stake_pool_address) in
  '(sol_deposit_authority, signers) ←
    match funding_authority config with
    | Some deposit_authority =>
        check_funding (sol_deposit_authority stake_pool) deposit_authority NoSolDepositAuthority
          InvalidDepositAuthority;;
        mret (Some deposit_authority, signers ++ [deposit_authority])
    | None => mret (None, signers)
    end;
  let deposit_instruction :=
    deposit_wsol_with_session program user_pubkey user_pubkey program_signer user_wsol_account
      transient_wsol_pda native_mint_id stake_pool_address pool_withdraw_authority
      sol_deposit_authority (reserve_stake stake_pool) pool_token_receiver_account
      (manager_fee_account stake_pool) referrer_token_account (pool_mint stake_pool)
      (token_program_id stake_pool) system_program_id amount in
  sign_and_send (instructions ++ [deposit_instruction]) (unique_signers signers)
    total_rent_free_balances.

(** ** Withdrawals *)

(** [command_withdraw_wsol_with_session] *)
Definition command_withdraw_wsol_with_session (stake_pool_address : Pubkey)
    (from pool_token_account : option Pubkey) (pool_amount : f64) : CLI unit :=
  update_first stake_pool_address;;
  stake_pool ← get_stake_pool stake_pool_address;
  mint ← get_token_mint (pool_mint stake_pool);
  let pool_amount_tokens := ui_amount_to_amount pool_amount (mint_decimals mint) in
  let user_pubkey := default (fee_payer config) from in
  let pool_token_account :=
    default (get_associated_token_address_with_program_id user_pubkey (pool_mint stake_pool)
               (token_program_id stake_pool)) pool_token_account in
  token_account ← get_token_account pool_token_account (pool_mint stake_pool);
  cfail_if (token_amount token_account <? pool_amount_tokens) NotEnoughTokens;;
  let user_wsol_account := get_associated_token_address user_pubkey native_mint_id in
  let signers := [fee_payer config] ++ option_list from in
  '(_, instructions, total_rent_free_balances) ←
    add_associated_token_account native_mint_id spl_token_id user_pubkey [] 0;
  let pool_withdraw_authority :=
    fst (find_withdraw_authority_program_address program stake_pool_address) in
  let program_signer := fst (find_program_address [program_signer_seed] program) in
  '(sol_withdraw_authority, payer, signers) ←
    match funding_authority config with
    | Some withdraw_authority =>
        check_funding (sol_withdraw_authority stake_pool) withdraw_authority NoSolWithdrawAuthority
          InvalidWithdrawAuthority;;
        mret (Some withdraw_authority, user_pubkey, signers ++ [withdraw_authority])
    | None => mret (None, fee_payer config, signers)
    end;
  let withdraw_instruction :=
    withdraw_wsol_with_session program stake_pool_address pool_withdraw_authority user_pubkey
      pool_token_account (reserve_stake stake_pool) user_wsol_account (manager_fee_account stake_pool)
      (pool_mint stake_pool) (token_program_id stake_pool) sol_withdraw_authority native_mint_id
      payer user_pubkey system_program_id program_signer associated_token_program_id
      pool_amount_tokens in
  sign_and_send (instructions ++ [withdraw_instruction]) (unique_signers signers)
    total_rent_free_balances.

(** A validator's stake account and its transient one, as candidates. *)
Definition active_candidate (stake_pool_address : Pubkey) (v : ValidatorStakeInfo) : Candidate :=
  (fst (find_stake_program_address program (vote_account_address v) stake_pool_address
          (nonzero (uint_of_array (validator_seed_suffix v)))),
   uint_of_array (active_stake_lamports v), Some (vote_account_address v)).
Definition transient_candidate (stake_pool_address : Pubkey) (min_balance : Z) (v : ValidatorStakeInfo)
    : Candidate :=
  (fst (find_transient_stake_program_address program (vote_account_address v) stake_pool_address
          (uint_of_array (transient_seed_suffix v))),
   saturating_sub (uint_of_array (transient_stake_lamports v)) min_balance,
   Some (vote_account_address v)).

(** The candidates of [prepare_withdraw_accounts]: the validators' stake
    accounts, the transient ones, the reserve. *)
Definition withdraw_candidates (stake_pool : StakePool) (stake_pool_address : Pubkey) (min_balance : Z)
    (vlist : ValidatorList) : CLI (list Candidate) :=
  let active := sorted_accounts vlist stake_pool (active_candidate stake_pool_address) in
  let transient := sorted_accounts vlist stake_pool (transient_candidate stake_pool_address min_balance) in
  reserve ← ask (fun h => rpc_get_account h (reserve_stake stake_pool));
  rent ← minimum_balance_for STAKE_STATE_LEN;
  available ← u64_sub (acc_lamports reserve) rent;
  available ← u64_sub available MINIMUM_RESERVE_LAMPORTS;
  mret (active ++ transient ++ [(reserve_stake stake_pool, available, None)]).

(** The pool tokens an account with [lamports] can be withdrawn for. *)
Definition available_for_withdrawal (stake_pool : StakePool) (skip_fee : bool) (inverse_fee : Fee)
    (lamports : Z) : result CliError Z :=
  available_wo_fee ← unwrap (calc_pool_tokens_for_deposit stake_pool lamports);
  if skip_fee then Ok available_wo_fee
  else (m ← u64_mul available_wo_fee (denominator inverse_fee); u64_div m (numerator inverse_fee)).

(** The loop of [prepare_withdraw_accounts]: what is taken from each account and
    what remains. *)
Fixpoint withdraw_from (stake_pool : StakePool) (min_balance : Z) (skip_fee : bool) (inverse_fee : Fee)
    (accounts : list Candidate) (remaining_amount : Z) : CLI (list WithdrawAccount * Z) :=
  match accounts with
  | [] => mret ([], remaining_amount)
  | (stake_address, lamports, vote_address_opt) :: accounts =>
      if lamports <=? min_balance
      then withdraw_from stake_pool min_balance skip_fee inverse_fee accounts remaining_amount
      else
        available ← of_result (available_for_withdrawal stake_pool skip_fee inverse_fee lamports);
        let pool_amount := Z.min available remaining_amount in
        let account := mkWithdraw stake_address vote_address_opt pool_amount in
        remaining_amount ← u64_sub remaining_amount pool_amount;
        if remaining_amount =? 0 then mret ([account], remaining_amount)
        else
          '(rest, remaining_amount) ←
            withdraw_from stake_pool min_balance skip_fee inverse_fee accounts remaining_amount;
          mret (account :: rest, remaining_amount)
  end.

(** [prepare_withdraw_accounts] *)
Definition prepare_withdraw_accounts (stake_pool : StakePool) (pool_amount : Z)
    (stake_pool_address : Pubkey) (skip_fee : bool) : CLI (list WithdrawAccount) :=
  stake_minimum_delegation ← ask rpc_get_stake_minimum_delegation;
  let stake_pool_minimum_delegation := minimum_delegation stake_minimum_delegation in
  rent ← minimum_balance_for STAKE_STATE_LEN;
  let min_balance := saturating_add 64 rent stake_pool_minimum_delegation in
  get_token_mint (pool_mint stake_pool);;
  vlist ← get_validator_list (validator_list stake_pool);
  accounts ← withdraw_candidates stake_pool stake_pool_address min_balance vlist;
  let fee := stake_withdrawal_fee stake_pool in
  inverse_numerator ← u64_sub (denominator fee) (numerator fee);
  let inverse_fee := mkFee (denominator fee) inverse_numerator in
  '(accounts, remaining_amount) ←
    withdraw_from stake_pool min_balance skip_fee inverse_fee accounts pool_amount;
  cfail_if (0 <? remaining_amount) NoStakeAccountsWithBalance;;
  mret accounts.

(** The delegated stake account the user wants to receive into, if it is one. *)
Definition stake_receiver_state (stake_receiver_param : option Pubkey) : CLI (option Pubkey) :=
  match stake_receiver_param with
  | None => mret None
  | Some stake_receiver_pubkey =>
      stake_account ← try_ask (fun h => rpc_get_account h stake_receiver_pubkey);
      mret (a ← stake_account;
            stake_state ← bincode_stake_state (acc_data a);
            match stake_state with
            | StakeStake _ stake =>
                if acc_owner a =?ₖ stake_program_id then Some (voter_pubkey (delegation stake)) else None
            | _ => None
            end)
  end.

(** One validator's stake account, with the client's check of what it holds. *)
Definition withdraw_from_validator (stake_pool : StakePool) (stake_pool_address vote_account : Pubkey)
    (pool_amount stake_pool_minimum_delegation stake_account_rent_exemption : Z)
    : CLI (list WithdrawAccount) :=
  '(_, validator_seed) ← find_validator stake_pool vote_account VoteAccountNotInList;
  let stake_account_address :=
    fst (find_stake_program_address program vote_account stake_pool_address validator_seed) in
  stake_account ← ask (fun h => rpc_get_account h stake_account_address);
  available_for_withdrawal ← unwrap_or_panic
    (calc_lamports_withdraw_amount stake_pool
       (saturating_sub (saturating_sub (acc_lamports stake_account) stake_pool_minimum_delegation)
          stake_account_rent_exemption));
  cfail_if (available_for_withdrawal <? pool_amount) NotEnoughLamportsAvailable;;
  mret [mkWithdraw stake_account_address (Some vote_account) pool_amount].

(** [new_stake_account] *)
Definition new_stake_account (instructions : list Instruction) (lamports : Z)
    : CLI (Pubkey * list Instruction) :=
  stake_receiver ← new_keypair;
  mret (stake_receiver, instructions ++
    [create_account (fee_payer config) stake_receiver lamports STAKE_STATE_LEN stake_program_id]).

(** The loop of [command_withdraw_stake] over the prepared accounts: the
    instructions, the new stake accounts and the balances. *)
Fixpoint withdraw_each (stake_pool : StakePool) (stake_pool_address pool_token_account
    user_transfer_authority : Pubkey) (stake_receiver_param maybe_stake_receiver_state : option Pubkey)
    (stake_account_rent_exemption : Z) (accounts : list WithdrawAccount)
    (instructions : list Instruction) (new_stake_keypairs : list Pubkey) (total_rent_free_balances : Z)
    : CLI (list Instruction * list Pubkey * Z) :=
  match accounts with
  | [] => mret (instructions, new_stake_keypairs, total_rent_free_balances)
  | withdraw_account :: accounts =>
      unwrap_or_panic (calc_lamports_withdraw_amount stake_pool (wa_pool_amount withdraw_account));;
      '(stake_receiver, instructions, new_stake_keypairs, total_rent_free_balances) ←
        match stake_receiver_param, maybe_stake_receiver_state with
        | Some receiver, None => mret (receiver, instructions, new_stake_keypairs, total_rent_free_balances)
        | _, _ =>
            '(stake_keypair, instructions) ← new_stake_account instructions stake_account_rent_exemption;
            total_rent_free_balances ← u64_add total_rent_free_balances stake_account_rent_exemption;
            mret (stake_keypair, instructions, new_stake_keypairs ++ [stake_keypair],
                  total_rent_free_balances)
        end;
      let instructions := instructions ++
        [withdraw_stake program stake_pool_address (validator_list stake_pool)
           (fst (find_withdraw_authority_program_address program stake_pool_address))
           (wa_stake_address withdraw_account) stake_receiver (config_staker config)
           user_transfer_authority pool_token_account (manager_fee_account stake_pool)
           (pool_mint stake_pool) (token_program_id stake_pool) (wa_pool_amount withdraw_account)] in
      withdraw_each stake_pool stake_pool_address pool_token_account user_transfer_authority
        stake_receiver_param maybe_stake_receiver_state stake_account_rent_exemption accounts
        instructions new_stake_keypairs total_rent_free_balances
  end.

(** Where [command_withdraw_stake] takes the stake from. *)
Definition choose_withdraw_accounts (stake_pool : StakePool) (stake_pool_address : Pubkey)
    (use_reserve : bool) (vote_account_address maybe_stake_receiver_state : option Pubkey)
    (pool_token_account : Pubkey) (pool_amount stake_account_rent_exemption : Z)
    : CLI (list WithdrawAccount) :=
  stake_minimum_delegation ← ask rpc_get_stake_minimum_delegation;
  let stake_pool_minimum_delegation := minimum_delegation stake_minimum_delegation in
  if use_reserve then mret [mkWithdraw (reserve_stake stake_pool) None pool_amount]
  else
    match maybe_stake_receiver_state, vote_account_address with
    | Some vote_account, _ =>
        cfail_if match vote_account_address with
                 | Some vote_account_address => negb (vote_account_address =?ₖ vote_account)
                 | None => false
                 end WithdrawVoteMismatch;;
        withdraw_from_validator stake_pool stake_pool_address vote_account pool_amount
          stake_pool_minimum_delegation stake_account_rent_exemption
    | None, Some vote_account =>
        withdraw_from_validator stake_pool stake_pool_address vote_account pool_amount
          stake_pool_minimum_delegation stake_account_rent_exemption
    | None, None =>
        prepare_withdraw_accounts stake_pool pool_amount stake_pool_address
          (manager_fee_account stake_pool =?ₖ pool_token_account)
    end.

(** [command_withdraw_stake] *)
Definition command_withdraw_stake (stake_pool_address : Pubkey) (use_reserve : bool)
    (vote_account_address stake_receiver_param pool_token_account : option Pubkey) (pool_amount : f64)
    : CLI unit :=
  update_first stake_pool_address;;
  stake_pool ← get_stake_pool stake_pool_address;
  mint ← get_token_mint (pool_mint stake_pool);
  let pool_amount := ui_amount_to_amount pool_amount (mint_decimals mint) in
  let pool_token_account :=
    default (get_associated_token_address_with_program_id (token_owner config) (pool_mint stake_pool)
               (token_program_id stake_pool)) pool_token_account in
  token_account ← get_token_account pool_token_account (pool_mint stake_pool);
  stake_account_rent_exemption ← minimum_balance_for STAKE_STATE_LEN;
  cfail_if (token_amount token_account <? pool_amount) NotEnoughTokens;;
  maybe_stake_receiver_state ← stake_receiver_state stake_receiver_param;
  withdraw_accounts ← choose_withdraw_accounts stake_pool stake_pool_address use_reserve
    vote_account_address maybe_stake_receiver_state pool_token_account pool_amount
    stake_account_rent_exemption;
  user_transfer_authority ← new_keypair;
  let signers := [fee_payer config; token_owner config; user_transfer_authority] in
  approve ← or_fail TokenInstruction
    (token_approve (token_program_id stake_pool) pool_token_account user_transfer_authority
       (token_owner config) pool_amount);
  '(instructions, new_stake_keypairs, total_rent_free_balances) ←
    withdraw_each stake_pool stake_pool_address pool_token_account user_transfer_authority
      stake_receiver_param maybe_stake_receiver_state stake_account_rent_exemption withdraw_accounts
      [approve] [] 0;
  let instructions := instructions ++
    match stake_receiver_param, maybe_stake_receiver_state with
    | Some receiver, Some _ => k ← new_stake_keypairs; stake_merge receiver k (fee_payer config)
    | _, _ => []
    end in
  let signers := signers ++ new_stake_keypairs in
  sign_and_send instructions (unique_signers signers) total_rent_free_balances.

(** [command_withdraw_sol] *)
Definition command_withdraw_sol (stake_pool_address : Pubkey) (pool_token_account : option Pubkey)
    (sol_receiver : Pubkey) (pool_amount : f64) : CLI unit :=
  update_first stake_pool_address;;
  stake_pool ← get_stake_pool stake_pool_address;
  mint ← get_token_mint (pool_mint stake_pool);
  let pool_amount := ui_amount_to_amount pool_amount (mint_decimals mint) in
  let pool_token_account :=
    default (get_associated_token_address_with_program_id (token_owner config) (pool_mint stake_pool)
               (token_program_id stake_pool)) pool_token_account in
  token_account ← get_token_account pool_token_account (pool_mint stake_pool);
  cfail_if (token_amount token_account <? pool_amount) NotEnoughTokens;;
  user_transfer_authority ← new_keypair;
  let signers := [fee_payer config; token_owner config; user_transfer_authority] in
  approve ← or_fail TokenInstruction
    (token_approve (token_program_id stake_pool) pool_token_account user_transfer_authority
       (token_owner config) pool_amount);
  let pool_withdraw_authority :=
    fst (find_withdraw_authority_program_address program stake_pool_address) in
  '(withdraw_instruction, signers) ←
    match funding_authority config with
    | Some withdraw_authority =>
        check_funding (sol_withdraw_authority stake_pool) withdraw_authority NoSolWithdrawAuthority
          InvalidWithdrawAuthority;;
        mret (withdraw_sol_with_authority program stake_pool_address withdraw_authority
                pool_withdraw_authority user_transfer_authority pool_token_account
                (reserve_stake stake_pool) sol_receiver (manager_fee_account stake_pool)
                (pool_mint stake_pool) (token_program_id stake_pool) pool_amount,
              signers ++ [withdraw_authority])
    | None =>
        mret (withdraw_sol program stake_pool_address pool_withdraw_authority user_transfer_authority
                pool_token_account (reserve_stake stake_pool) sol_receiver
                (manager_fee_account stake_pool) (pool_mint stake_pool)
                (token_program_id stake_pool) pool_amount, signers)
    end;
  sign_and_send [approve; withdraw_instruction] (unique_signers signers) 0.

(** ** Administration *)

(** [command_set_manager] *)
Definition command_set_manager (stake_pool_address : Pubkey) (new_manager new_fee_receiver : option Pubkey)
    : CLI unit :=
  update_first stake_pool_address;;
  stake_pool ← get_stake_pool stake_pool_address;
  let new_manager_pubkey := default (manager stake_pool) new_manager in
  new_fee_receiver ←
    match new_fee_receiver with
    | None => mret (manager_fee_account stake_pool)
    | Some value =>
        token_account ← get_token_account value (pool_mint stake_pool);
        cfail_if (negb (token_mint token_account =?ₖ pool_mint stake_pool)) FeeReceiverMint;;
        mret value
    end;
  let signers := option_list new_manager ++ [fee_payer config; config_manager config] in
  sign_and_send
    [set_manager program stake_pool_address (config_manager config) new_manager_pubkey new_fee_receiver]
    (unique_signers signers) 0.

(** [command_set_staker] *)
Definition command_set_staker (stake_pool_address new_staker : Pubkey) : CLI unit :=
  update_first stake_pool_address;;
  let signers := [fee_payer config; config_manager config] in
  sign_and_send [set_staker program stake_pool_address (config_manager config) new_staker]
    (unique_signers signers) 0.

(** [command_set_funding_authority] *)
Definition command_set_funding_authority (stake_pool_address : Pubkey) (new_authority : option Pubkey)
    (funding_type : FundingType) : CLI unit :=
  update_first stake_pool_address;;
  let signers := [fee_payer config; config_manager config] in
  sign_and_send
    [set_funding_authority program stake_pool_address (config_manager config) new_authority funding_type]
    (unique_signers signers) 0.

(** [command_set_fee] *)
Definition command_set_fee (stake_pool_address : Pubkey) (new_fee : FeeType) : CLI unit :=
  update_first stake_pool_address;;
  let signers := [fee_payer config; config_manager config] in
  sign_and_send [set_fee program stake_pool_address (config_manager config) new_fee]
    (unique_signers signers) 0.
End Commands.
