(* ===== verification/Output.v ===== *)
(** * What the client prints (src/clients/cli/src/output.rs)

    The records the listing commands build from the decoded accounts, and the
    plain and verbose texts they print.  The texts of keys, of amounts of SOL and
    of floating-point numbers come from other crates. *)

From stdpp Require Import pretty.
From S2P Require Import Prelude Errors Fees Pool BigVec Borsh ValidatorList Runtime Checks.
From S2P Require Import Admin Deposit Instruction Builders Client Commands.

#[local] Open Scope Z_scope.

(** ** Data *)

(** [CliStakePoolValidatorStakeStatus] *)
Inductive CliStakePoolValidatorStakeStatus :=
| CliActive | CliDeactivatingTransient | CliReadyForRemoval | CliDeactivatingValidator
| CliDeactivatingAll.

(** [CliStakePoolValidator] *)
Record CliStakePoolValidator := mkCliValidator {
  cv_active_stake_lamports : Z;
  cv_transient_stake_lamports : Z;
  cv_last_update_epoch : Z;
  cv_transient_seed_suffix : Z;
  cv_unused : Z;
  cv_validator_seed_suffix : Z;
  cv_status : CliStakePoolValidatorStakeStatus;
  cv_vote_account_address : string;
}.

(** [CliStakePoolLockup], [CliStakePoolFee] *)
Record CliStakePoolLockup := mkCliLockup {
  cl_unix_timestamp : Z; cl_epoch : Z; cl_custodian : string;
}.
Record CliStakePoolFee := mkCliFee { cf_denominator : Z; cf_numerator : Z }.

(** [CliStakePoolStakeAccountInfo] *)
Record CliStakePoolStakeAccountInfo := mkCliStakeAccount {
  ca_vote_account_address : string;
  ca_stake_account_address : string;
  ca_validator_active_stake_lamports : Z;
  ca_validator_last_update_epoch : Z;
  ca_validator_lamports : Z;
  ca_validator_transient_stake_account_address : string;
  ca_validator_transient_stake_lamports : Z;
  ca_update_required : bool;
}.

(** The floating-point numbers and the texts of other crates' types. *)
Class Texts `{Crates} := {
  pubkey_to_string : Pubkey -> string;
  sol_to_string : Z -> string;
  f64_to_string : f64 -> string;
  amount_to_ui_amount : Z -> Z -> f64;
}.

(** [CliStakePoolDetails] *)
Record CliStakePoolDetails `{Crates} := mkCliDetails {
  cd_reserve_stake_account_address : string;
  cd_reserve_stake_lamports : Z;
  cd_minimum_reserve_stake_balance : Z;
  cd_stake_accounts : list CliStakePoolStakeAccountInfo;
  cd_total_lamports : Z;
  cd_total_pool_tokens : f64;
  cd_current_number_of_validators : Z;
  cd_max_number_of_validators : Z;
  cd_update_required : bool;
}.

(** [CliStakePool] *)
Record CliStakePool `{Crates} := mkCliPool {
  cp_address : string;
  cp_pool_withdraw_authority : string;
  cp_manager : string;
  cp_staker : string;
  cp_stake_deposit_authority : string;
  cp_stake_withdraw_bump_seed : Z;
  cp_max_validators : Z;
  cp_validator_list : list CliStakePoolValidator;
  cp_validator_list_storage_account : string;
  cp_reserve_stake : string;
  cp_pool_mint : string;
  cp_manager_fee_account : string;
  cp_token_program_id : string;
  cp_total_lamports : Z;
  cp_pool_token_supply : Z;
  cp_last_update_epoch : Z;
  cp_lockup : CliStakePoolLockup;
  cp_epoch_fee : CliStakePoolFee;
  cp_next_epoch_fee : option CliStakePoolFee;
  cp_preferred_deposit_validator_vote_address : option string;
  cp_preferred_withdraw_validator_vote_address : option string;
  cp_stake_deposit_fee : CliStakePoolFee;
  cp_stake_withdrawal_fee : CliStakePoolFee;
  cp_next_stake_withdrawal_fee : option CliStakePoolFee;
  cp_stake_referral_fee : Z;
  cp_sol_deposit_authority : option string;
  cp_sol_deposit_fee : CliStakePoolFee;
  cp_sol_referral_fee : Z;
  cp_sol_withdraw_authority : option string;
  cp_sol_withdrawal_fee : CliStakePoolFee;
  cp_next_sol_withdrawal_fee : option CliStakePoolFee;
  cp_last_epoch_pool_token_supply : Z;
  cp_last_epoch_total_lamports : Z;
  cp_details : option CliStakePoolDetails;
}.

(** A listed pool with its details. *)
Definition with_details `{Crates} (p : CliStakePool) (d : CliStakePoolDetails) : CliStakePool := {|
  cp_address := cp_address p;
  cp_pool_withdraw_authority := cp_pool_withdraw_authority p;
  cp_manager := cp_manager p;
  cp_staker := cp_staker p;
  cp_stake_deposit_authority := cp_stake_deposit_authority p;
  cp_stake_withdraw_bump_seed := cp_stake_withdraw_bump_seed p;
  cp_max_validators := cp_max_validators p;
  cp_validator_list := cp_validator_list p;
  cp_validator_list_storage_account := cp_validator_list_storage_account p;
  cp_reserve_stake := cp_reserve_stake p;
  cp_pool_mint := cp_pool_mint p;
  cp_manager_fee_account := cp_manager_fee_account p;
  cp_token_program_id := cp_token_program_id p;
  cp_total_lamports := cp_total_lamports p;
  cp_pool_token_supply := cp_pool_token_supply p;
  cp_last_update_epoch := cp_last_update_epoch p;
  cp_lockup := cp_lockup p;
  cp_epoch_fee := cp_epoch_fee p;
  cp_next_epoch_fee := cp_next_epoch_fee p;
  cp_preferred_deposit_validator_vote_address := cp_preferred_deposit_validator_vote_address p;
  cp_preferred_withdraw_validator_vote_address := cp_preferred_withdraw_validator_vote_address p;
  cp_stake_deposit_fee := cp_stake_deposit_fee p;
  cp_stake_withdrawal_fee := cp_stake_withdrawal_fee p;
  cp_next_stake_withdrawal_fee := cp_next_stake_withdrawal_fee p;
  cp_stake_referral_fee := cp_stake_referral_fee p;
  cp_sol_deposit_authority := cp_sol_deposit_authority p;
  cp_sol_deposit_fee := cp_sol_deposit_fee p;
  cp_sol_referral_fee := cp_sol_referral_fee p;
  cp_sol_withdraw_authority := cp_sol_withdraw_authority p;
  cp_sol_withdrawal_fee := cp_sol_withdrawal_fee p;
  cp_next_sol_withdrawal_fee := cp_next_sol_withdrawal_fee p;
  cp_last_epoch_pool_token_supply := cp_last_epoch_pool_token_supply p;
  cp_last_epoch_total_lamports := cp_last_epoch_total_lamports p;
  cp_details := Some d;
|}.

#[local] Open Scope string_scope.

Section Output.
Context `{Runtime} `{ClientIds} `{Crates} `{Node} `{!Texts}.

(** ** Conversions *)

(** [impl From<PodStakeStatus> for CliStakePoolValidatorStakeStatus] *)
Definition cli_status_from (s : byte) : result CliError CliStakePoolValidatorStakeStatus :=
  s ← unwrap (result_ok (status_try_from s));
  Ok match s with
     | Active => CliActive
     | DeactivatingTransient => CliDeactivatingTransient
     | ReadyForRemoval => CliReadyForRemoval
     | DeactivatingValidator => CliDeactivatingValidator
     | DeactivatingAll => CliDeactivatingAll
     end.

(** [impl From<ValidatorStakeInfo> for CliStakePoolValidator] *)
Definition cli_validator_from (v : ValidatorStakeInfo) : result CliError CliStakePoolValidator :=
  s ← cli_status_from (status v);
  Ok {| cv_active_stake_lamports := uint_of_array (active_stake_lamports v);
        cv_transient_stake_lamports := uint_of_array (transient_stake_lamports v);
        cv_last_update_epoch := uint_of_array (vsi_last_update_epoch v);
        cv_transient_seed_suffix := uint_of_array (transient_seed_suffix v);
        cv_unused := uint_of_array (unused v);
        cv_validator_seed_suffix := uint_of_array (validator_seed_suffix v);
        cv_status := s;
        cv_vote_account_address := pubkey_to_string (vote_account_address v) |}.

(** [impl From<Lockup> for CliStakePoolLockup], [impl From<Fee> for CliStakePoolFee] *)
Definition cli_lockup_from (l : Lockup) : CliStakePoolLockup :=
  mkCliLockup (unix_timestamp l) (lockup_epoch l) (pubkey_to_string (custodian l)).
Definition cli_fee_from (f : Fee) : CliStakePoolFee := mkCliFee (denominator f) (numerator f).

(** [impl From<(Pubkey, StakePool, ValidatorList, Pubkey)> for CliStakePool] *)
Definition cli_pool_from (address : Pubkey) (stake_pool : StakePool) (vlist : ValidatorList)
    (pool_withdraw_authority : Pubkey) : result CliError CliStakePool :=
  vs ← mapM cli_validator_from (validators vlist);
  Ok {| cp_address := pubkey_to_string address;
        cp_pool_withdraw_authority := pubkey_to_string pool_withdraw_authority;
        cp_manager := pubkey_to_string (manager stake_pool);
        cp_staker := pubkey_to_string (staker stake_pool);
        cp_stake_deposit_authority := pubkey_to_string (stake_deposit_authority stake_pool);
        cp_stake_withdraw_bump_seed := stake_withdraw_bump_seed stake_pool;
        cp_max_validators := max_validators (header vlist);
        cp_validator_list := vs;
        cp_validator_list_storage_account := pubkey_to_string (validator_list stake_pool);
        cp_reserve_stake := pubkey_to_string (reserve_stake stake_pool);
        cp_pool_mint := pubkey_to_string (pool_mint stake_pool);
        cp_manager_fee_account := pubkey_to_string (manager_fee_account stake_pool);
        cp_token_program_id := pubkey_to_string (token_program_id stake_pool);
        cp_total_lamports := total_lamports stake_pool;
        cp_pool_token_supply := pool_token_supply stake_pool;
        cp_last_update_epoch := last_update_epoch stake_pool;
        cp_lockup := cli_lockup_from (lockup stake_pool);
        cp_epoch_fee := cli_fee_from (epoch_fee stake_pool);
        cp_next_epoch_fee := cli_fee_from <$> future_into_option (next_epoch_fee stake_pool);
        cp_preferred_deposit_validator_vote_address :=
          pubkey_to_string <$> preferred_deposit_validator_vote_address stake_pool;
        cp_preferred_withdraw_validator_vote_address :=
          pubkey_to_string <$> preferred_withdraw_validator_vote_address stake_pool;
        cp_stake_deposit_fee := cli_fee_from (stake_deposit_fee stake_pool);
        cp_stake_withdrawal_fee := cli_fee_from (stake_withdrawal_fee stake_pool);
        cp_next_stake_withdrawal_fee :=
          cli_fee_from <$> future_into_option (next_stake_withdrawal_fee stake_pool);
        cp_stake_referral_fee := stake_referral_fee stake_pool;
        cp_sol_deposit_authority := pubkey_to_string <$> sol_deposit_authority stake_pool;
        cp_sol_deposit_fee := cli_fee_from (sol_deposit_fee stake_pool);
        cp_sol_referral_fee := sol_referral_fee stake_pool;
        cp_sol_withdraw_authority := pubkey_to_string <$> sol_withdraw_authority stake_pool;
        cp_sol_withdrawal_fee := cli_fee_from (sol_withdrawal_fee stake_pool);
        cp_next_sol_withdrawal_fee :=
          cli_fee_from <$> future_into_option (next_sol_withdrawal_fee stake_pool);
        cp_last_epoch_pool_token_supply := last_epoch_pool_token_supply stake_pool;
        cp_last_epoch_total_lamports := last_epoch_total_lamports stake_pool;
        cp_details := None |}.

(** ** Texts *)

Definition tab : string := String (Ascii.ascii_of_nat 9) EmptyString.
Definition newline : string := String (Ascii.ascii_of_nat 10) EmptyString.
Definition text (parts : list string) : string := foldr String.append EmptyString parts.
(** [writeln!] *)
Definition writeln (parts : list string) : string := text (parts ++ [newline]).

(** [impl Display for CliStakePoolFee] *)
Definition display_fee (f : CliStakePoolFee) : string :=
  text [pretty (cf_numerator f); "/"; pretty (cf_denominator f)].

Definition display_preferred (p : CliStakePool) : string :=
  text [match cp_preferred_deposit_validator_vote_address p with
        | None => ""
        | Some s => writeln ["Preferred Deposit Validator: "; s]
        end;
        match cp_preferred_withdraw_validator_vote_address p with
        | None => ""
        | Some s => writeln ["Preferred Withdraw Validator: "; s]
        end].
Definition display_deposit_fees (p : CliStakePool) : string :=
  text [writeln ["Stake Deposit Fee: "; display_fee (cp_stake_deposit_fee p); " of deposit amount"];
        writeln ["SOL Deposit Fee: "; display_fee (cp_sol_deposit_fee p); " of deposit amount"];
        writeln ["Stake Deposit Referral Fee: "; pretty (cp_stake_referral_fee p);
                 "% of Stake Deposit Fee"];
        writeln ["SOL Deposit Referral Fee: "; pretty (cp_sol_referral_fee p);
                 "% of SOL Deposit Fee"]].

(** [impl Display for CliStakePool] *)
Definition display_pool (p : CliStakePool) : string :=
  text [writeln ["Stake Pool: "; cp_address p];
        writeln ["Validator List: "; cp_validator_list_storage_account p];
        writeln ["Pool Token Mint: "; cp_pool_mint p];
        display_preferred p;
        writeln ["Epoch Fee: "; display_fee (cp_epoch_fee p); " of epoch rewards"];
        writeln ["Stake Withdrawal Fee: "; display_fee (cp_stake_withdrawal_fee p);
                 " of withdrawal amount"];
        writeln ["SOL Withdrawal Fee: "; display_fee (cp_sol_withdrawal_fee p);
                 " of withdrawal amount"];
        display_deposit_fees p].

(** [impl Display for CliStakePools] *)
Definition display_pools (ps : list CliStakePool) : string :=
  text (((fun p =>
     writeln ["Address: "; cp_address p; tab; "Manager: "; cp_manager p; tab;
              "Lamports: "; pretty (cp_total_lamports p); tab;
              "Pool tokens: "; pretty (cp_pool_token_supply p); tab;
              "Validators: "; pretty (Z.of_nat (length (cp_validator_list p)))]) <$> ps) ++
   [writeln ["Total number of pools: "; pretty (Z.of_nat (length ps))]]).

(** The parts both texts of [CliStakePoolDetails] have. *)
Definition update_mark (update_required : bool) : string :=
  if update_required then " [UPDATE REQUIRED]" else "".
Definition display_reserve (d : CliStakePoolDetails) : result CliError string :=
  available ← unchecked (cd_reserve_stake_lamports d - cd_minimum_reserve_stake_balance d);
  Ok (writeln ["Reserve Account: "; cd_reserve_stake_account_address d; tab;
               "Available Balance: "; sol_to_string available]).
Definition display_totals (d : CliStakePoolDetails) : string :=
  text [writeln ["Total Pool Stake: "; sol_to_string (cd_total_lamports d); " ";
                 update_mark (cd_update_required d)];
        writeln ["Total Pool Tokens: "; f64_to_string (cd_total_pool_tokens d)];
        writeln ["Current Number of Validators: "; pretty (cd_current_number_of_validators d)];
        writeln ["Max Number of Validators: "; pretty (cd_max_number_of_validators d)]].

(** [impl Display for CliStakePoolDetails] *)
Definition display_details (d : CliStakePoolDetails) : result CliError string :=
  reserve ← display_reserve d;
  Ok (text [reserve;
    text ((fun a =>
      writeln ["Vote Account: "; ca_vote_account_address a; tab;
               "Balance: "; sol_to_string (ca_validator_lamports a); tab;
               "Last Update Epoch: "; pretty (ca_validator_last_update_epoch a)])
      <$> cd_stake_accounts d);
    display_totals d]).

(** [impl VerboseDisplay for CliStakePoolDetails] *)
Definition verbose_details (d : CliStakePoolDetails) : result CliError string :=
  reserve ← display_reserve d;
  Ok (text [writeln ["Stake Accounts"]; writeln ["--------------"]; reserve;
    text ((fun a =>
      writeln ["Vote Account: "; ca_vote_account_address a; tab;
               "Stake Account: "; ca_stake_account_address a; tab;
               "Active Balance: "; sol_to_string (ca_validator_active_stake_lamports a); tab;
               "Transient Stake Account: "; ca_validator_transient_stake_account_address a; tab;
               "Transient Balance: "; sol_to_string (ca_validator_transient_stake_lamports a); tab;
               "Last Update Epoch: "; pretty (ca_validator_last_update_epoch a);
               update_mark (ca_update_required a)])
      <$> cd_stake_accounts d);
    display_totals d]).

(** [impl VerboseDisplay for CliStakePool] *)
Definition verbose_next (label : string) (fee : option CliStakePoolFee) (base : string) : string :=
  match fee with None => "" | Some fee => writeln [label; display_fee fee; base] end.
Definition verbose_pool (p : CliStakePool) : result CliError string :=
  details ← match cp_details p with None => Ok "" | Some details => verbose_details details end;
  Ok (text [writeln ["Stake Pool Info"]; writeln ["==============="];
        writeln ["Stake Pool: "; cp_address p];
        writeln ["Validator List: "; cp_validator_list_storage_account p];
        writeln ["Manager: "; cp_manager p];
        writeln ["Staker: "; cp_staker p];
        writeln ["Depositor: "; cp_stake_deposit_authority p];
        writeln ["SOL Deposit Authority: "; default "None" (cp_sol_deposit_authority p)];
        writeln ["SOL Withdraw Authority: "; default "None" (cp_sol_withdraw_authority p)];
        writeln ["Withdraw Authority: "; cp_pool_withdraw_authority p];
        writeln ["Pool Token Mint: "; cp_pool_mint p];
        writeln ["Fee Account: "; cp_manager_fee_account p];
        display_preferred p;
        writeln ["Epoch Fee: "; display_fee (cp_epoch_fee p); " of epoch rewards"];
        verbose_next "Next Epoch Fee: " (cp_next_epoch_fee p) " of epoch rewards";
        writeln ["Stake Withdrawal Fee: "; display_fee (cp_stake_withdrawal_fee p);
                 " of withdrawal amount"];
        verbose_next "Next Stake Withdrawal Fee: " (cp_next_stake_withdrawal_fee p)
          " of withdrawal amount";
        writeln ["SOL Withdrawal Fee: "; display_fee (cp_sol_withdrawal_fee p);
                 " of withdrawal amount"];
        verbose_next "Next SOL Withdrawal Fee: " (cp_next_sol_withdrawal_fee p)
          " of withdrawal amount";
        display_deposit_fees p;
        writeln [];
        details]).

(** ** The listing commands (main.rs) *)
#[local] Open Scope Z_scope.
Section Config.
Variable config : Config.
#[local] Notation program := (stake_pool_program_id config).

(** The entry of a validator in the details. *)
Definition cli_stake_account (stake_pool_address : Pubkey) (epoch : Z) (validator : ValidatorStakeInfo)
    : result CliError CliStakePoolStakeAccountInfo :=
  lamports ← unwrap (result_ok (stake_lamports validator));
  Ok {| ca_vote_account_address := pubkey_to_string (vote_account_address validator);
        ca_stake_account_address := pubkey_to_string
          (fst (find_stake_program_address program (vote_account_address validator) stake_pool_address
                  (nonzero (uint_of_array (validator_seed_suffix validator)))));
        ca_validator_active_stake_lamports := uint_of_array (active_stake_lamports validator);
        ca_validator_last_update_epoch := uint_of_array (vsi_last_update_epoch validator);
        ca_validator_lamports := lamports;
        ca_validator_transient_stake_account_address := pubkey_to_string
          (fst (find_transient_stake_program_address program (vote_account_address validator)
                  stake_pool_address (uint_of_array (transient_seed_suffix validator))));
        ca_validator_transient_stake_lamports := uint_of_array (transient_stake_lamports validator);
        ca_update_required := negb (uint_of_array (vsi_last_update_epoch validator) =? epoch) |}.

(** [command_list]: the record that is printed. *)
Definition command_list (stake_pool_address : Pubkey) : CLI CliStakePool :=
  stake_pool ← get_stake_pool stake_pool_address;
  vlist ← get_validator_list (validator_list stake_pool);
  mint ← get_token_mint (pool_mint stake_pool);
  epoch ← ask rpc_get_epoch_info;
  reserve ← ask (fun h => rpc_get_account h (reserve_stake stake_pool));
  rent ← minimum_balance_for STAKE_STATE_LEN;
  minimum_reserve_stake_balance ← u64_add rent MINIMUM_RESERVE_LAMPORTS;
  stake_accounts ← of_result (mapM (cli_stake_account stake_pool_address epoch) (validators vlist));
  cli_stake_pool ← of_result
    (cli_pool_from stake_pool_address stake_pool vlist
       (fst (find_withdraw_authority_program_address program stake_pool_address)));
  let details := {|
    cd_reserve_stake_account_address := pubkey_to_string (reserve_stake stake_pool);
    cd_reserve_stake_lamports := acc_lamports reserve;
    cd_minimum_reserve_stake_balance := minimum_reserve_stake_balance;
    cd_stake_accounts := stake_accounts;
    cd_total_lamports := total_lamports stake_pool;
    cd_total_pool_tokens := amount_to_ui_amount (pool_token_supply stake_pool) (mint_decimals mint);
    cd_current_number_of_validators := Z.of_nat (length (validators vlist)) mod 2 ^ 32;
    cd_max_number_of_validators := max_validators (header vlist);
    cd_update_required := negb (last_update_epoch stake_pool =? epoch) |} in
  mret (with_details cli_stake_pool details).

(** [command_list_all_pools]: the records that are printed. *)
Definition command_list_all_pools : CLI (list CliStakePool) :=
  all_pools ← get_stake_pools program;
  of_result (mapM (fun '(address, stake_pool, vlist, pool_withdraw_authority) =>
    cli_pool_from address stake_pool vlist pool_withdraw_authority) all_pools).
End Config.
End Output.
