(* ===== verification/Main.v ===== *)
(** * The client's entry (main.rs)

    The limit on compute units, as it is given on the command line, and the
    dispatch of [main] to the commands.  A [Command] holds the arguments after
    clap has checked and converted them. *)

From S2P Require Import Prelude Errors Fees Pool BigVec Borsh ValidatorList Runtime Checks.
From S2P Require Import Admin Deposit Instruction Builders Client Commands Output.

#[local] Open Scope Z_scope.

(** ** [str::parse] for unsigned integers of [w] bits *)
Definition digit_of (c : Ascii.ascii) : option Z :=
  let n := Z.of_nat (Ascii.nat_of_ascii c) - 48 in
  if (0 <=? n) && (n <=? 9) then Some n else None.
Fixpoint parse_digits (w : Z) (acc : Z) (s : string) : option Z :=
  match s with
  | EmptyString => Some acc
  | String c s =>
      d ← digit_of c;
      acc ← checked_mul w acc 10;
      acc ← checked_add w acc d;
      parse_digits w acc s
  end.
Definition parse_uint (w : Z) (s : string) : option Z :=
  match s with
  | EmptyString => None
  | String c r =>
      if bool_decide (c = Ascii.ascii_of_nat 43) then
        match r with EmptyString => None | String _ _ => parse_digits w 0 r end
      else parse_digits w 0 s
  end.
Definition parse_u32 : string -> option Z := parse_uint 32.

(** ** The limit on compute units *)

(** [is_compute_unit_limit_or_simulated], the check of the argument *)
Definition is_compute_unit_limit_or_simulated (s : string) : bool :=
  bool_decide (is_Some (parse_u32 s)) || bool_decide (s = "DEFAULT"%string).

(** [parse_compute_unit_limit] *)
Definition parse_compute_unit_limit (s : string) : option ComputeUnitLimit :=
  match parse_u32 s with
  | Some compute_unit_limit => Some (LimitStatic compute_unit_limit)
  | None => if bool_decide (s = "DEFAULT"%string) then Some LimitDefault else None
  end.

(** The field [compute_unit_limit] of the configuration. *)
Definition configured_limit (arg : option string) (compute_unit_price : option Z)
    : result CliError ComputeUnitLimit :=
  match arg with
  | Some x => unwrap (parse_compute_unit_limit x)
  | None => Ok (if compute_unit_price then LimitSimulated else LimitDefault)
  end.

(** The check accepts exactly what can be parsed. *)
Lemma checked_limit s price :
  is_compute_unit_limit_or_simulated s = true <-> configured_limit (Some s) price <> Panic.
Proof.
  unfold is_compute_unit_limit_or_simulated, configured_limit, parse_compute_unit_limit.
  destruct (parse_u32 s) as [n|]; [by rewrite bool_decide_eq_true_2|].
  rewrite bool_decide_eq_false_2 by (by intros [? ?]). simpl. by case_bool_decide.
Qed.

(** ** The commands *)
Section Main.
Context `{Runtime} `{ClientIds} `{Crates} `{Node} `{!Texts}.

Inductive Command :=
| CreatePool (deposit_authority : option Pubkey) (e_numerator e_denominator : Z)
    (w_numerator w_denominator d_numerator d_denominator referral_fee : option Z)
    (max_validators : Z)
    (pool_keypair validator_list_keypair mint_keypair reserve_keypair : option Pubkey)
    (unsafe_fees : bool)
| CreateTokenMetadata (pool : Pubkey) (name symbol uri : list byte)
| UpdateTokenMetadata (pool : Pubkey) (name symbol uri : list byte)
| AddValidator (pool vote_account : Pubkey)
| RemoveValidator (pool vote_account : Pubkey)
| IncreaseValidatorStake (pool vote_account : Pubkey) (amount : string)
| DecreaseValidatorStake (pool vote_account : Pubkey) (amount : string)
| SetPreferredValidator (pool : Pubkey) (preferred_type : string) (vote_account : option Pubkey)
| DepositStake (pool stake_account withdraw_authority : Pubkey) (token_receiver referrer : option Pubkey)
| DepositSol (pool : Pubkey) (from token_receiver referrer : option Pubkey) (amount : string)
| DepositWsolWithSession (pool : Pubkey) (from : option Pubkey) (amount : f64)
| WithdrawWsolWithSession (pool : Pubkey) (from pool_account : option Pubkey) (amount : f64)
| List (pool : Pubkey)
| Update (pool : Pubkey) (no_merge force stale_only : bool)
| WithdrawStake (pool : Pubkey) (vote_account pool_account : option Pubkey) (amount : f64)
    (stake_receiver : option Pubkey) (use_reserve : bool)
| WithdrawSol (pool : Pubkey) (pool_account : option Pubkey) (amount : f64) (sol_receiver : Pubkey)
| SetManager (pool : Pubkey) (new_manager new_fee_receiver : option Pubkey)
| SetStaker (pool new_staker : Pubkey)
| SetFundingAuthority (pool : Pubkey) (new_authority : option Pubkey) (funding_type : string)
| SetFee (pool : Pubkey) (fee_numerator fee_denominator : Z) (fee_type : string)
| SetReferralFee (pool : Pubkey) (fee : Z) (fee_type : string)
| ListAll
| DepositAllStake (pool stake_authority withdraw_authority : Pubkey)
    (token_receiver referrer : option Pubkey).

(** The text of an amount of SOL, in lamports. *)
Definition lamports_of (amount : string) : CLI Z := unwrap_or_panic (sol_str_to_lamports amount).
(** A [match] on the text of an argument; other texts are unreachable. *)
Definition choose {A} (s : string) (choices : list (string * A)) : CLI A :=
  unwrap_or_panic (snd <$> List.find (fun c => bool_decide (s = fst c)) choices).
Definition done {A} (m : CLI A) : CLI unit := m;; mret tt.

#[local] Open Scope string_scope.

(** [main], from the configuration and the subcommand on; [fuel] bounds the
    search of [add-validator], and [None] says that it is not over. *)
Definition main (fuel : nat) (config : Config) (c : Command) : CLI (option unit) :=
  let run (m : CLI unit) : CLI (option unit) := m;; mret (Some tt) in
  match c with
  | CreatePool deposit_authority e_numerator e_denominator w_numerator w_denominator d_numerator
      d_denominator referral_fee max_validators pool_keypair validator_list_keypair mint_keypair
      reserve_keypair unsafe_fees =>
      run (command_create_pool config deposit_authority (mkFee e_denominator e_numerator)
             (mkFee (default 0%Z w_denominator) (default 0%Z w_numerator))
             (mkFee (default 0%Z d_denominator) (default 0%Z d_numerator))
             (default 0%Z referral_fee) max_validators pool_keypair validator_list_keypair mint_keypair
             reserve_keypair unsafe_fees)
  | CreateTokenMetadata pool name symbol uri =>
      run (command_create_token_metadata config pool name symbol uri)
  | UpdateTokenMetadata pool name symbol uri =>
      run (command_update_token_metadata config pool name symbol uri)
  | AddValidator pool vote_account => command_vsa_add config fuel pool vote_account
  | RemoveValidator pool vote_account => run (command_vsa_remove config pool vote_account)
  | IncreaseValidatorStake pool vote_account amount =>
      run (lamports ← lamports_of amount;
           command_increase_validator_stake config pool vote_account lamports)
  | DecreaseValidatorStake pool vote_account amount =>
      run (lamports ← lamports_of amount;
           command_decrease_validator_stake config pool vote_account lamports)
  | SetPreferredValidator pool preferred_type vote_account =>
      run (preferred_type ← choose preferred_type
             [("deposit", PreferredDeposit); ("withdraw", PreferredWithdraw)];
           command_set_preferred_validator config pool preferred_type vote_account)
  | DepositStake pool stake_account withdraw_authority token_receiver referrer =>
      run (command_deposit_stake config pool stake_account withdraw_authority token_receiver referrer)
  | DepositSol pool from token_receiver referrer amount =>
      run (lamports ← lamports_of amount;
           command_deposit_sol config pool from token_receiver referrer lamports)
  | DepositWsolWithSession pool from amount =>
      run (command_deposit_wsol_with_session config pool from None None amount)
  | WithdrawWsolWithSession pool from pool_account amount =>
      run (command_withdraw_wsol_with_session config pool from pool_account amount)
  | List pool => run (done (command_list config pool))
  | Update pool no_merge force stale_only => run (command_update config pool force no_merge stale_only)
  | WithdrawStake pool vote_account pool_account amount stake_receiver use_reserve =>
      run (command_withdraw_stake config pool use_reserve vote_account stake_receiver pool_account amount)
  | WithdrawSol pool pool_account amount sol_receiver =>
      run (command_withdraw_sol config pool pool_account sol_receiver amount)
  | SetManager pool new_manager new_fee_receiver =>
      run (command_set_manager config pool new_manager new_fee_receiver)
  | SetStaker pool new_staker => run (command_set_staker config pool new_staker)
  | SetFundingAuthority pool new_authority funding_type =>
      run (funding_type ← choose funding_type
             [("sol-deposit", FundingSolDeposit); ("stake-deposit", FundingStakeDeposit);
              ("sol-withdraw", FundingSolWithdraw)];
           command_set_funding_authority config pool new_authority funding_type)
  | SetFee pool fee_numerator fee_denominator fee_type =>
      run (fee_type ← choose fee_type
             [("epoch", EpochFee); ("stake-deposit", StakeDepositFee); ("sol-deposit", SolDepositFee);
              ("stake-withdrawal", StakeWithdrawalFee); ("sol-withdrawal", SolWithdrawalFee)];
           command_set_fee config pool (fee_type (mkFee fee_denominator fee_numerator)))
  | SetReferralFee pool fee fee_type =>
      run (unwrap_or_panic (if (fee <=? 100)%Z then Some tt else None);;
           fee_type ← choose fee_type [("sol", SolReferral); ("stake", StakeReferral)];
           command_set_fee config pool (fee_type fee))
  | ListAll => run (done (command_list_all_pools config))
  | DepositAllStake pool stake_authority withdraw_authority token_receiver referrer =>
      run (command_deposit_all_stake config pool stake_authority withdraw_authority token_receiver referrer)
  end.
End Main.
