(* ===== verification/ClientDemo.v ===== *)
(** * A concrete network for the client

    Concrete crates and a node over the demonstration platform.  The node keeps a
    ledger: it runs the instructions for the program of every transaction that
    was submitted, rejects the ones that fail, and answers from the accounts that
    result. *)

From S2P Require Import Prelude Errors Fees Pool BigVec Borsh ValidatorList Runtime Platform Checks.
From S2P Require Import Scenario Admin Deposit Instruction Builders BuildersCorrect Client Commands Output.

#[local] Open Scope Z_scope.

Section ClientDemo.
Import Demo Scenario.

Definition payer_key : Pubkey := pubkey_repeat x31.
Definition budget_id : Pubkey := pubkey_repeat x32.
Definition foreign_instruction (id : Pubkey) (signers : list Pubkey) : Instruction :=
  mkInstruction id ((fun k => meta_new k true) <$> signers) [].

Definition demo_crates : Crates := {|
  create_account payer k _ _ _ := foreign_instruction system_id [payer; k];
  transfer from _ _ := foreign_instruction system_id [from];
  stake_initialize _ _ _ := foreign_instruction stake_id [];
  stake_merge _ _ authority := [foreign_instruction stake_id [authority]];
  initialize_mint token _ _ _ := Some (foreign_instruction token []);
  token_approve token _ _ owner _ := Some (foreign_instruction token [owner]);
  create_associated_token_account payer _ _ _ := foreign_instruction system_id [payer];
  set_compute_unit_price _ := foreign_instruction budget_id [];
  set_compute_unit_limit _ := foreign_instruction budget_id [];
  get_associated_token_address_with_program_id owner _ _ := owner;
  spl_token_id := pubkey_repeat x33;
  mint_len := 82;
  native_mint_decimals := 9;
  unpack_token_account_slice d := result_ok (decode_token d);
  unpack_mint_slice d := result_ok (decode_mint d);
  bincode_stake_state d := result_ok (decode_stake d);
  f64 := Z;
  ui_amount_to_amount x _ := x;
  sol_to_lamports x := Some x;
  sol_str_to_lamports _ := Some 1000;
  hash_set_iter l := l;
  keypair_new n := pubkey_repeat (byte_of_Z (64 + Z.of_nat n));
  overflow_checks := true;
|}.

(** The ledger after what was submitted. *)
Definition ledger_step (w : World) (e : Event) : World :=
  match e with
  | Submitted _ tx =>
      match run_all (R:=demo) program
              (List.filter (fun ix => ix_program_id ix =?ₖ program) (msg_instructions (tx_message tx))) w with
      | Ok (_, w) => w
      | _ => w
      end
  | _ => w
  end.
Definition ledger (w : World) (h : list Event) : World := fold_left ledger_step h w.

(** A node that sees the world [view h] after the events [h]. *)
Definition node_of (view : list Event -> World) : Node := {|
  rpc_get_account h k := accounts (view h) !! k;
  rpc_get_account_with_commitment h k := Some (accounts (view h) !! k);
  rpc_get_balance h k := Some 1000000000;
  rpc_get_minimum_balance_for_rent_exemption _ _ := Some RENT;
  rpc_get_latest_blockhash h := Some (Z.of_nat (length h));
  rpc_get_fee_for_message _ _ := Some 5000;
  rpc_get_epoch_info _ := Some EPOCH;
  rpc_get_stake_minimum_delegation _ := Some 1;
  rpc_get_token_account_balance _ _ := Some None;
  rpc_get_program_accounts _ _ _ _ := Some [];
  rpc_simulate_transaction _ _ := Some (Some 200000);
  rpc_send_transaction h _ tx :=
    is_Ok (run_all (R:=demo) program
      (List.filter (fun ix => ix_program_id ix =?ₖ program) (msg_instructions (tx_message tx))) (view h));
|}.
Definition demo_node (w : World) : Node := node_of (ledger w).
(** A node that always shows the same accounts. *)
Definition static_node (w : World) : Node := node_of (fun _ => w).

Definition demo_texts : Texts (H:=demo_crates) := {|
  pubkey_to_string k := String.string_of_list_byte (pk_bytes k);
  sol_to_string _ := EmptyString;
  f64_to_string _ := EmptyString;
  amount_to_ui_amount n _ := (n : f64 (Crates:=demo_crates));
|}.

Definition demo_config : Config := {|
  stake_pool_program_id := program;
  config_manager := manager_key; config_staker := staker_key; funding_authority := None;
  token_owner := user_key; fee_payer := payer_key; dry_run := false; no_update := false;
  compute_unit_price := Some 1; compute_unit_limit := LimitSimulated;
|}.
Definition start : CliState := mkCli [] 0.
End ClientDemo.
