(* ===== verification/ClientCorrect.v ===== *)
(** * Reasoning about the client's commands

    Inversion of successful and of failed runs, and what a run adds to the
    history: a small program logic for the monad [CLI]. *)

From S2P Require Import Prelude Errors Fees Pool BigVec Borsh ValidatorList Runtime Checks.
From S2P Require Import Admin Deposit Instruction Builders Client Commands Output Main.

#[local] Open Scope Z_scope.

(** ** The monad of commands *)

Lemma cli_bind_Ok {A B} (m : CLI A) (f : A -> CLI B) s b s' :
  (m ≫= f) s = (Ok b, s') <-> exists a s1, m s = (Ok a, s1) /\ f a s1 = (Ok b, s').
Proof.
  unfold mbind, CLI_bind. destruct (m s) as [[a|e|] s1]; naive_solver.
Qed.
Lemma of_result_Ok {A} (r : result CliError A) s a s' : of_result r s = (Ok a, s') <-> r = Ok a /\ s' = s.
Proof. unfold of_result. naive_solver. Qed.
Lemma cret_Ok {A} (a b : A) s s' : (mret a : CLI A) s = (Ok b, s') <-> a = b /\ s' = s.
Proof. unfold mret, CLI_ret. naive_solver. Qed.

(** Takes a successful run of a command apart. *)
Ltac inv_cli_step H :=
  lazymatch type of H with
  | (mbind _ _) _ = (Ok _, _) =>
      let a := fresh "v" in let s := fresh "s" in let H1 := fresh "Hr" in
      apply cli_bind_Ok in H as (a & s & H1 & H); inv_cli_step H1
  | of_result _ _ = (Ok _, _) => apply of_result_Ok in H as [H ->]
  | u64_add _ _ _ = (Ok _, _) => apply of_result_Ok in H as [H ->]
  | u64_sub _ _ _ = (Ok _, _) => apply of_result_Ok in H as [H ->]
  | or_fail _ _ _ = (Ok _, _) => apply of_result_Ok in H as [H%ok_or_Ok ->]
  | unwrap_or_panic _ _ = (Ok _, _) => apply of_result_Ok in H as [H%unwrap_Ok ->]
  | mret _ _ = (Ok _, _) => apply cret_Ok in H as [H ->]
  | cfail_if _ _ _ = (Ok _, _) => apply of_result_Ok in H as [H%err_if_Ok ->]
  | _ => idtac
  end.
Ltac inv_cli H :=
  repeat (first
    [ progress inv_cli_step H
    | match type of H with
      | (let '(_, _) := ?x in _) _ = (Ok _, _) => destruct x
      end ]).

Lemma cli_bind_Err {A B} (m : CLI A) (f : A -> CLI B) s e s' :
  (m ≫= f) s = (Err e, s') ->
  m s = (Err e, s') \/ exists a s1, m s = (Ok a, s1) /\ f a s1 = (Err e, s').
Proof. unfold mbind, CLI_bind. destruct (m s) as [[a|e'|] s1]; naive_solver. Qed.

Lemma ask_run {A} (q : list Event -> option A) s a s' :
  ask q s = (Ok a, s') -> q (history s) = Some a /\ history s' = history s ++ [Queried].
Proof. unfold ask. intros Hx. destruct (q (history s)); naive_solver. Qed.
Lemma result_ok_Some {E A} (r : result E A) a : result_ok r = Some a <-> r = Ok a.
Proof. destruct r; naive_solver. Qed.

Lemma mapM_Forall2 {E A B} (f : A -> result E B) l l' :
  mapM f l = Ok l' -> Forall2 (fun x y => f x = Ok y) l l'.
Proof.
  revert l'. induction l as [|x l IH]; intros l' Hx; cbn in Hx.
  - injection Hx as <-. constructor.
  - apply bind_Ok in Hx as (y & Hy & Hx). apply bind_Ok in Hx as (ys & Hys & [=<-]).
    constructor; [done|by apply IH].
Qed.

(** Runs that never fail with [e]. *)
Definition never {A} (e : CliError) (m : CLI A) : Prop := forall s s', m s <> (Err e, s').

Lemma skip_bind {A B} e (m : CLI A) (f : A -> CLI B) s s' :
  (m ≫= f) s = (Err e, s') -> never e m -> exists a s1, m s = (Ok a, s1) /\ f a s1 = (Err e, s').
Proof. intros [Hx|Hx]%cli_bind_Err Hn; [by apply Hn in Hx|done]. Qed.
Lemma never_bind {A B} e (m : CLI A) (f : A -> CLI B) :
  never e m -> (forall a, never e (f a)) -> never e (m ≫= f).
Proof. intros Hm Hf s s' Hx. eapply skip_bind in Hx as (a & s1 & _ & Hx); [by eapply Hf|done]. Qed.
Lemma never_ret {A} e (a : A) : never e (mret a).
Proof. by intros s s' ?. Qed.
Lemma never_of_result {A} e (r : result CliError A) : r <> Err e -> never e (of_result r).
Proof. unfold of_result. intros Hr s s' [= Hx]. done. Qed.
Lemma never_or_fail {A} e e' (o : option A) : e <> e' -> never e (or_fail e' o).
Proof. intros He. apply never_of_result. destruct o; simpl; congruence. Qed.
Lemma never_ask {A} e (q : list Event -> option A) : e <> RpcError -> never e (ask q).
Proof. unfold ask. intros He s s' Hx. destruct (q (history s)); simpl in Hx; congruence. Qed.
Lemma never_unchecked `{Crates} e x : unchecked x <> Err e.
Proof. unfold unchecked. by repeat case_match. Qed.

(** ** What a run adds to the history *)

(** Whatever the outcome, the run only adds events with [P], and a result has [Q]. *)
Definition adds (P : Event -> Prop) {A} (Q : A -> Prop) (m : CLI A) : Prop := forall s,
  exists new, history (m s).2 = history s ++ new /\ Forall P new /\
    match (m s).1 with Ok a => Q a | _ => True end.
Definition emits (P : Event -> Prop) {A} (m : CLI A) : Prop := adds P (fun _ => True) m.

Create HintDb adds.
Section Runs.
Variable P : Event -> Prop.

Lemma adds_bind {A B} (Q : A -> Prop) (R : B -> Prop) (m : CLI A) (f : A -> CLI B) :
  adds P Q m -> (forall a, Q a -> adds P R (f a)) -> adds P R (m ≫= f).
Proof.
  intros Hm Hf s. destruct (Hm s) as (new & Hh & Hn & Hq). unfold mbind, CLI_bind.
  destruct (m s) as [[a|e|] s1]; simpl in *; [|by exists new..].
  destruct (Hf a Hq s1) as (new' & Hh' & Hn' & Hr). exists (new ++ new').
  rewrite Hh', Hh, app_assoc. split_and!; [done|by apply Forall_app|done].
Qed.
Lemma emits_bind {A B} (m : CLI A) (f : A -> CLI B) :
  emits P m -> (forall a, emits P (f a)) -> emits P (m ≫= f).
Proof. intros Hm Hf. eapply adds_bind; [exact Hm|]. intros a _. apply Hf. Qed.
Lemma adds_stay {A} (Q : A -> Prop) (m : CLI A) :
  (forall s, history (m s).2 = history s /\ match (m s).1 with Ok a => Q a | _ => True end) -> adds P Q m.
Proof. intros Hm s. destruct (Hm s) as [Hh Hq]. exists []. by rewrite app_nil_r. Qed.
Lemma emits_of_result {A} (r : result CliError A) : emits P (of_result r).
Proof. apply adds_stay. intros s. by destruct r. Qed.
Lemma adds_of_result {A} (Q : A -> Prop) (r : result CliError A) :
  (forall a, r = Ok a -> Q a) -> adds P Q (of_result r).
Proof. intros Hr. apply adds_stay. intros s. split; [done|]. destruct r; simpl; auto. Qed.
Lemma emits_ret {A} (a : A) : emits P (mret a).
Proof. by apply adds_stay. Qed.
Lemma emits_fail {A} e : emits P (fail e : CLI A).
Proof. by apply adds_stay. Qed.
Lemma emits_new_keypair `{Crates} : emits P new_keypair.
Proof. by apply adds_stay. Qed.
Lemma emits_ask {A} (q : list Event -> option A) : P Queried -> emits P (ask q).
Proof.
  intros Hp s. exists [Queried]. split_and!; [done|by repeat constructor|].
  simpl; by destruct (q (history s)).
Qed.
Lemma emits_try_ask {A} (q : list Event -> option A) : P Queried -> emits P (try_ask q).
Proof. intros Hp s. exists [Queried]. split_and!; [done|by repeat constructor|done]. Qed.
Lemma emits_ok {A} (m : CLI A) : emits P m -> emits P (ok m).
Proof.
  intros Hm s. destruct (Hm s) as (new & Hh & Hn & _). exists new. unfold ok.
  by destruct (m s) as [[a|e|] s1].
Qed.
Lemma emits_cwhen c m : emits P m -> emits P (cwhen c m).
Proof. intros Hm. destruct c; [done|apply emits_ret]. Qed.
End Runs.
#[export] Hint Resolve emits_of_result emits_ret emits_fail emits_new_keypair emits_ask emits_try_ask
  emits_ok emits_cwhen : adds.

(** Follows the structure of a command; calls are proved by the hints. *)
Ltac emits_step :=
  lazymatch goal with
  | |- emits _ (mbind _ _) => apply emits_bind; [|intros ?]
  | |- emits _ (cwhen _ _) => apply emits_cwhen
  | |- emits _ (ok _) => apply emits_ok
  | |- emits _ (match ?x with _ => _ end) => destruct x
  | |- emits _ (of_result _) => apply emits_of_result
  | |- emits _ (or_fail _ _) => apply emits_of_result
  | |- emits _ (unwrap_or_panic _) => apply emits_of_result
  | |- emits _ (of_program _) => apply emits_of_result
  | |- emits _ (cfail_if _ _) => apply emits_of_result
  | |- emits _ (u64_add _ _) => apply emits_of_result
  | |- emits _ (u64_sub _ _) => apply emits_of_result
  | |- emits _ (choose _ _) => apply emits_of_result
  | |- emits _ (lamports_of _) => apply emits_of_result
  | |- emits _ (let _ := _ in _) => cbv zeta
  | |- emits _ _ => first [ solve [eauto 3 with adds] | assumption ]
  end.
Ltac emits_auto := repeat emits_step.

(** ** Every transaction the client makes *)
Section Safe.
Context `{Runtime} `{ClientIds} `{Crates} `{Node} `{!Texts}.
Variable config : Config.

(** The fee payer pays, and exactly the keys the message needs have signed. *)
Definition authorized (tx : Transaction) : Prop :=
  msg_payer (tx_message tx) = fee_payer config /\
  forall k, k ∈ tx_signers tx <-> k ∈ required_signers (tx_message tx).
(** A dry run only simulates. *)
Definition event_ok (e : Event) : Prop :=
  match e with
  | Queried => True
  | Simulated tx => dry_run config = true /\ authorized tx
  | Submitted _ tx => dry_run config = false /\ authorized tx
  end.
#[local] Notation safe := (emits event_ok).

Lemma safe_ask {A} (q : list Event -> option A) : safe (ask q).
Proof. by apply emits_ask. Qed.
Lemma safe_try_ask {A} (q : list Event -> option A) : safe (try_ask q).
Proof. by apply emits_try_ask. Qed.
#[local] Hint Resolve safe_ask safe_try_ask : adds.

Lemma checked_transaction_authorized instructions signers fee :
  adds event_ok authorized
    (checked_transaction_with_signers_and_additional_fee config instructions signers fee).
Proof.
  unfold checked_transaction_with_signers_and_additional_fee. cbv zeta.
  eapply adds_bind; [apply safe_ask|intros blockhash _]. eapply (adds_bind _ (fun _ => True)).
  { lazymatch goal with |- adds ?P _ ?m => change (emits P m) end.
    unfold add_compute_unit_limit_from_simulation. emits_auto. }
  intros ixs _. eapply adds_bind; [apply safe_ask|intros f _]. eapply (adds_bind _ (fun _ => True)).
  { apply emits_bind; [apply safe_ask|intros; apply emits_of_result]. }
  intros _ _. apply adds_stay. intros s. unfold transaction_new.
  destruct (bool_decide _ && bool_decide _) eqn:E; [|done]. split; [done|].
  apply andb_true_iff in E as [E1%bool_decide_eq_true E2%bool_decide_eq_true].
  split; [done|]. intros k. rewrite Forall_forall in E1, E2. simpl. split; auto.
Qed.
Lemma send_safe wait tx : authorized tx -> safe (send config wait tx).
Proof.
  intros Ha s. unfold send. destruct (dry_run config) eqn:E; simpl.
  - exists [Simulated tx]. split_and!; [done|by apply Forall_singleton|by repeat case_match].
  - exists [Submitted wait tx]. split_and!; [done|by apply Forall_singleton|by repeat case_match].
Qed.
Lemma sign_and_send_safe instructions signers fee : safe (sign_and_send config instructions signers fee).
Proof. eapply adds_bind; [apply checked_transaction_authorized|]. intros tx. apply send_safe. Qed.
#[local] Hint Resolve sign_and_send_safe : adds.

Lemma send_each_safe instructions : safe (send_each config instructions).
Proof.
  induction instructions as [|i ixs IH]; [apply emits_ret|]. cbn [send_each].
  eapply adds_bind; [apply checked_transaction_authorized|]. intros tx Ha.
  apply emits_bind; [by apply send_safe|done].
Qed.
Lemma command_update_safe P force no_merge stale_only : safe (command_update config P force no_merge stale_only).
Proof.
  pose proof send_each_safe. unfold command_update, get_stake_pool, get_validator_list, get_account_data.
  emits_auto.
Qed.
#[local] Hint Resolve command_update_safe : adds.

Lemma find_free_seed_safe fuel p P v : forall i, safe (find_free_seed config fuel p P v i).
Proof. induction fuel as [|fuel IH]; intros i; cbn [find_free_seed]; emits_auto; apply IH. Qed.
Lemma deposit_each_safe p P w r f vl signers stakes :
  safe (deposit_each config p P w r f vl signers stakes).
Proof.
  induction stakes as [|k stakes IH]; cbn [deposit_each]; [apply emits_ret|].
  unfold get_stake_state_of, get_account_data, delegated_to. emits_auto.
Qed.
Lemma withdraw_from_safe p m skip_fee inverse cs : forall r, safe (withdraw_from p m skip_fee inverse cs r).
Proof. induction cs as [|[[k l] v] cs IH]; intros r; cbn [withdraw_from]; emits_auto; apply IH. Qed.
Lemma withdraw_each_safe p P t u sr st rent ws :
  forall ixs ks b, safe (withdraw_each config p P t u sr st rent ws ixs ks b).
Proof.
  induction ws as [|w ws IH]; intros ixs ks b; cbn [withdraw_each]; [apply emits_ret|].
  unfold new_stake_account. emits_auto; apply IH.
Qed.
Lemma pools_of_safe program accounts : safe (pools_of program accounts).
Proof.
  induction accounts as [|[k a] accounts IH]; cbn [pools_of]; [apply emits_ret|].
  unfold get_validator_list, get_account_data. emits_auto.
Qed.
#[local] Hint Resolve find_free_seed_safe deposit_each_safe withdraw_from_safe withdraw_each_safe
  pools_of_safe : adds.

(** The reads and the steps the commands share. *)
Lemma get_stake_pool_safe k : safe (get_stake_pool k).
Proof. unfold get_stake_pool, get_account_data. emits_auto. Qed.
Lemma get_validator_list_safe k : safe (get_validator_list k).
Proof. unfold get_validator_list, get_account_data. emits_auto. Qed.
Lemma get_token_account_safe k mint : safe (get_token_account k mint).
Proof. unfold get_token_account, get_account_data. emits_auto. Qed.
Lemma get_token_mint_safe k : safe (get_token_mint k).
Proof. unfold get_token_mint, get_account_data. emits_auto. Qed.
Lemma get_stake_state_safe k : safe (get_stake_state_of k).
Proof. unfold get_stake_state_of, get_account_data. emits_auto. Qed.
Lemma minimum_balance_safe n : safe (minimum_balance_for n).
Proof. apply safe_ask. Qed.
#[local] Hint Resolve get_stake_pool_safe get_validator_list_safe get_token_account_safe
  get_token_mint_safe get_stake_state_safe minimum_balance_safe : adds.
Lemma update_first_safe P : safe (update_first config P).
Proof. unfold update_first. emits_auto. Qed.
Lemma add_associated_safe mint t owner ixs b :
  safe (add_associated_token_account config mint t owner ixs b).
Proof. unfold add_associated_token_account. emits_auto. Qed.
Lemma find_validator_safe p v e : safe (find_validator p v e).
Proof. unfold find_validator. emits_auto. Qed.
Lemma delegated_to_safe st : safe (delegated_to st).
Proof. unfold delegated_to. emits_auto. Qed.
Lemma check_funding_safe o k e e' : safe (check_funding o k e e').
Proof. unfold check_funding. emits_auto. Qed.
#[local] Hint Resolve update_first_safe add_associated_safe find_validator_safe delegated_to_safe
  check_funding_safe : adds.

(** The two long commands. *)
Lemma command_create_pool_safe da ef wf df rf n sk vk mk rk u :
  safe (command_create_pool config da ef wf df rf n sk vk mk rk u).
Proof.
  unfold command_create_pool, check_stake_pool_fees, keypair_or_new, setup_reserve_stake_account,
    setup_mint_account, setup_pool_fee_account, setup_and_initialize_validator_list_with_stake_pool.
  emits_auto.
Qed.
Lemma command_withdraw_stake_safe P r v k t a : safe (command_withdraw_stake config P r v k t a).
Proof.
  unfold command_withdraw_stake, stake_receiver_state, choose_withdraw_accounts, withdraw_from_validator,
    prepare_withdraw_accounts, withdraw_candidates.
  emits_auto.
Qed.
#[local] Hint Resolve command_create_pool_safe command_withdraw_stake_safe : adds.

Lemma main_emits fuel c : safe (main fuel config c).
Proof.
  destruct c; cbn [main];
    unfold command_create_token_metadata, command_update_token_metadata, command_vsa_add,
      command_vsa_remove, command_increase_validator_stake, command_decrease_validator_stake,
      command_set_preferred_validator, command_deposit_stake, command_deposit_sol,
      command_deposit_wsol_with_session, command_withdraw_wsol_with_session, done, command_list,
      command_withdraw_sol, command_set_manager, command_set_staker, command_set_funding_authority,
      command_set_fee, command_list_all_pools, get_stake_pools, command_deposit_all_stake, get_all_stake;
    emits_auto.
Qed.

End Safe.
