(* ===== verification/UpdateCommand.v ===== *)
(** * The update command

    What [command_update] submits, and that the transactions it submits, once
    they have run, leave an updated pool: the client, the builders and the program
    together. *)

From S2P Require Import Prelude Errors Fees Pool BigVec Borsh ValidatorList Runtime Platform Checks.
From S2P Require Import Tracking Contracts Refinement Admin Deposit Instruction Builders BuildersCorrect.
From S2P Require Import Scenario Client Commands Output Main ClientDemo ClientCorrect.

#[local] Open Scope Z_scope.

Section UpdateCommand.
Context `{R : Runtime} `{C : ClientIds} `{Crates} `{Node}.
Variable config : Config.
#[local] Notation program := (stake_pool_program_id config).

(** The instructions for [program] in a transaction, and in what was submitted,
    with whether the client waited. *)
Definition for_program (l : list Instruction) : list Instruction :=
  List.filter (fun ix => ix_program_id ix =?ₖ program) l.
Fixpoint sent (es : list Event) : list (bool * list Instruction) :=
  match es with
  | [] => []
  | Submitted wait tx :: es => (wait, for_program (msg_instructions (tx_message tx))) :: sent es
  | _ :: es => sent es
  end.
Lemma sent_app es es' : sent (es ++ es') = sent es ++ sent es'.
Proof. induction es as [|[| |] es IH]; simpl; congruence. Qed.

Lemma sent_own es : Forall (fun ix => ix_program_id ix = program) (concat (snd <$> sent es)).
Proof.
  induction es as [|[| |wait tx] es IH]; [constructor|exact IH..|]. cbn. apply Forall_app. split; [|exact IH].
  apply Forall_forall. intros ix Hix%list_elem_of_In. apply List.filter_In in Hix as [_ Hix].
  by apply pubkey_eqb_true in Hix.
Qed.

(** The instructions that set a budget are for another program. *)
Hypothesis budget_foreign : forall n,
  ix_program_id (set_compute_unit_price n) <> program /\ ix_program_id (set_compute_unit_limit n) <> program.
Hypothesis not_dry : dry_run config = false.

Lemma quiet_sent new : Forall (eq Queried) new -> sent new = [].
Proof. by induction 1 as [|e new <- _ IH]. Qed.

Lemma for_program_app l l' : for_program (l ++ l') = for_program l ++ for_program l'.
Proof. apply List.filter_app. Qed.
Lemma for_program_foreign ix : ix_program_id ix <> program -> for_program [ix] = [].
Proof. intros Hix. unfold for_program. simpl. by rewrite (proj2 (pubkey_eqb_false _ _) Hix). Qed.

(** A signed transaction has the instructions and, for other programs, a budget. *)
Definition with_budget (instructions l : list Instruction) : Prop :=
  exists budget, l = instructions ++ budget /\ for_program budget = [].
Lemma with_budget_refl l : with_budget l l.
Proof. exists []. by rewrite app_nil_r. Qed.
Lemma with_budget_snoc instructions l ix :
  with_budget instructions l -> ix_program_id ix <> program -> with_budget instructions (l ++ [ix]).
Proof.
  intros (budget & -> & Hb) Hix. exists (budget ++ [ix]). rewrite app_assoc. split; [done|].
  by rewrite for_program_app, Hb, for_program_foreign.
Qed.
Lemma with_budget_program instructions l :
  with_budget instructions l -> for_program l = for_program instructions.
Proof. intros (budget & -> & Hb). by rewrite for_program_app, Hb, app_nil_r. Qed.

Lemma checked_transaction_budget instructions signers fee :
  adds (eq Queried) (fun tx => with_budget instructions (msg_instructions (tx_message tx)))
    (checked_transaction_with_signers_and_additional_fee config instructions signers fee).
Proof.
  unfold checked_transaction_with_signers_and_additional_fee. cbv zeta.
  eapply adds_bind; [by apply emits_ask|intros blockhash _].
  eapply (adds_bind _ (with_budget instructions)).
  - set (l := match compute_unit_price config with Some _ => _ | None => _ end).
    assert (Hl : with_budget instructions l).
    { unfold l. destruct (compute_unit_price config) as [n|]; [|apply with_budget_refl].
      apply with_budget_snoc; [apply with_budget_refl|apply budget_foreign]. }
    destruct (compute_unit_limit config) as [|n|].
    + by apply adds_stay.
    + apply adds_stay. intros s. split; [done|]. simpl.
      apply with_budget_snoc; [done|apply budget_foreign].
    + unfold add_compute_unit_limit_from_simulation. cbv zeta.
      eapply adds_bind; [by apply emits_ask|intros o _].
      eapply adds_bind; [apply emits_of_result|intros u _].
      eapply adds_bind; [apply emits_of_result|intros n _].
      apply adds_stay. intros s. split; [done|]. simpl.
      apply with_budget_snoc; [done|apply budget_foreign].
  - intros ixs Hixs. eapply adds_bind; [by apply emits_ask|intros f _].
    eapply (adds_bind _ (fun _ => True)).
    { apply emits_bind; [by apply emits_ask|intros; apply emits_of_result]. }
    intros _ _. apply adds_stay. intros s. unfold transaction_new. by destruct (_ && _).
Qed.

(** Signing and sending: the one transaction that is submitted. *)
Lemma signed_and_sent wait instructions signers fee s u s' :
  (transaction ← checked_transaction_with_signers_and_additional_fee config instructions signers fee;
   send config wait transaction) s = (Ok u, s') ->
  exists new tx, history s' = history s ++ new ++ [Submitted wait tx] /\ Forall (eq Queried) new /\
    with_budget instructions (msg_instructions (tx_message tx)).
Proof.
  intros (tx & s1 & Ha & Hx)%cli_bind_Ok.
  destruct (checked_transaction_budget instructions signers fee s) as (new & Hh & Hn & Ht).
  rewrite Ha in Hh, Ht. simpl in Hh, Ht. unfold send in Hx. rewrite not_dry in Hx.
  injection Hx as _ <-. simpl. exists new, tx. by rewrite Hh, <- app_assoc.
Qed.

(** A run of [m] that succeeds submits [l]. *)
Definition submits {A} (m : CLI A) (l : list (bool * list Instruction)) : Prop := forall s a s',
  m s = (Ok a, s') -> exists new, history s' = history s ++ new /\ sent new = l.

Lemma submits_quiet {A} (m : CLI A) : emits (eq Queried) m -> submits m [].
Proof.
  intros Hm s a s' Hx. destruct (Hm s) as (new & Hh & Hn & _). rewrite Hx in Hh.
  exists new. split; [done|by apply quiet_sent].
Qed.
Lemma submits_bind {A B} (m : CLI A) (f : A -> CLI B) l l' :
  submits m l -> (forall a, submits (f a) l') -> submits (m ≫= f) (l ++ l').
Proof.
  intros Hm Hf s b s' (a & s1 & Ha & Hx)%cli_bind_Ok.
  destruct (Hm _ _ _ Ha) as (new & Hh & <-). destruct (Hf _ _ _ _ Hx) as (new' & Hh' & <-).
  exists (new ++ new'). by rewrite Hh', Hh, app_assoc, sent_app.
Qed.
Lemma submits_send wait instructions signers :
  submits (transaction ← checked_transaction_with_signers config instructions signers;
           send config wait transaction) [(wait, for_program instructions)].
Proof.
  intros s [] s' (new & tx & Hh & Hn & Ht)%signed_and_sent. eexists. split; [exact Hh|].
  rewrite sent_app, (quiet_sent _ Hn). simpl. by rewrite (with_budget_program _ _ Ht).
Qed.
Lemma submits_sign_and_send instructions :
  submits (sign_and_send config instructions [fee_payer config] 0) [(true, for_program instructions)].
Proof. apply submits_send. Qed.
Lemma submits_each instructions :
  submits (send_each config instructions) ((fun ix => (false, for_program [ix])) <$> instructions).
Proof.
  induction instructions as [|ix ixs IH]; [apply submits_quiet, emits_ret|]. cbn [send_each fmap list_fmap].
  intros s [] s' (tx & s1 & Ha & ([] & s2 & Hs & Hx)%cli_bind_Ok)%cli_bind_Ok.
  assert (Hx1 : (transaction ← checked_transaction_with_signers config [ix] [fee_payer config];
    send config false transaction) s = (Ok tt, s2)) by (apply cli_bind_Ok; eauto).
  destruct (submits_send _ _ _ _ _ _ Hx1) as (new & Hh & Hn).
  destruct (IH _ _ _ Hx) as (new' & Hh' & Hn'). exists (new ++ new').
  by rewrite Hh', Hh, app_assoc, sent_app, Hn, Hn'.
Qed.

(** The transactions of an update: one for each part of the list, of which only
    the last is waited for, and a last one. *)
Definition update_transactions (updates finals : list Instruction) : list (bool * list Instruction) :=
  let n := (length updates - 1)%nat in
  ((fun ix => (false, [ix])) <$> take n updates) ++ ((fun ix => (true, [ix])) <$> drop n updates) ++
  [(true, finals)].

Lemma for_program_own l : Forall (fun ix => ix_program_id ix = program) l -> for_program l = l.
Proof.
  induction 1 as [|ix l Hix _ IH]; [done|]. unfold for_program in *. simpl.
  by rewrite Hix, pubkey_eqb_refl, IH.
Qed.
Lemma update_part_submits updates finals :
  Forall (fun ix => ix_program_id ix = program) updates -> Forall (fun ix => ix_program_id ix = program) finals ->
  submits (cwhen (0 <? Z.of_nat (length updates))
    (send_each config (take (length updates - 1) updates);;
     sign_and_send config (drop (length updates - 1) updates) [fee_payer config] 0);;
    sign_and_send config finals [fee_payer config] 0)
    (update_transactions updates finals).
Proof.
  intros Hu Hf. unfold update_transactions. rewrite app_assoc.
  apply submits_bind; [|intros _; rewrite <- (for_program_own _ Hf) at 2; apply submits_sign_and_send].
  destruct updates as [|ix0 l _] using rev_ind; [exact (submits_quiet (mret tt) (emits_ret _ tt))|].
  rewrite length_app. simpl (length [_]). rewrite Nat.add_sub, take_app_length, drop_app_length.
  rewrite (proj2 (Z.ltb_lt _ _)) by lia. cbn [cwhen]. apply Forall_app in Hu as [Hl Hu].
  apply submits_bind.
  - replace ((fun ix => (false, [ix])) <$> l) with ((fun ix => (false, for_program [ix])) <$> l);
      [apply submits_each|].
    apply list_fmap_ext. intros i ix Hi. f_equal. apply for_program_own.
    apply Forall_singleton. exact (Forall_lookup_1 _ _ _ _ Hl Hi).
  - intros _. cbn [fmap list_fmap]. rewrite <- (for_program_own _ Hu) at 2. apply submits_sign_and_send.
Qed.

(** ** The builders make instructions of the program *)

Lemma mapM_Forall {E A B} (Q : B -> Prop) (f : A -> result E B) l l' :
  (forall x y, f x = Ok y -> Q y) -> mapM f l = Ok l' -> Forall Q l'.
Proof. intros Hf Hm%mapM_Forall2. induction Hm; constructor; eauto. Qed.
Lemma unwrap_result_Ok {A} (r : presult A) a : unwrap_result r = Ok a -> r = Ok a.
Proof. by destruct r. Qed.
Lemma chunk_program k P wa la rs vl n i no_merge ix :
  update_validator_list_balance_chunk k P wa la rs vl n i no_merge = Ok ix -> ix_program_id ix = k.
Proof.
  unfold update_validator_list_balance_chunk. intros Hx.
  apply bind_Ok in Hx as (sub & _ & Hx). by apply bind_Ok in Hx as (j & _ & [=<-]).
Qed.
Lemma stale_chunk_program k P wa la rs vl n i no_merge e o :
  update_stale_validator_list_balance_chunk k P wa la rs vl n i no_merge e = Ok o ->
  forall ix, o = Some ix -> ix_program_id ix = k.
Proof.
  unfold update_stale_validator_list_balance_chunk. intros Hx.
  apply bind_Ok in Hx as (sub & _ & Hx). destruct (forallb _ _); [by injection Hx as <-|].
  apply bind_Ok in Hx as (i' & Hi%chunk_program & [=<-]). by intros ix [=<-].
Qed.

(** The instructions of either builder. *)
Definition update_instructions_for (p : StakePool) (vl : ValidatorList) (P : Pubkey)
    (no_merge stale_only : bool) (e : Z) : presult (list Instruction * list Instruction) :=
  if stale_only then update_stale_stake_pool program p vl P no_merge e
  else update_stake_pool program p vl P no_merge.

Lemma update_instructions_program p vl P no_merge stale_only e updates finals :
  update_instructions_for p vl P no_merge stale_only e = Ok (updates, finals) ->
  Forall (fun ix => ix_program_id ix = program) updates /\ Forall (fun ix => ix_program_id ix = program) finals.
Proof.
  unfold update_instructions_for, update_stale_stake_pool, update_stake_pool. intros Hx.
  destruct stale_only; apply bind_Ok in Hx as (l & Hl & [=<- <-]); (split; [|by repeat constructor]).
  - eapply (mapM_Forall (fun o => forall ix, o = Some ix -> ix_program_id ix = program)) in Hl.
    + clear -Hl. induction Hl as [|[ix|] l Ho _ IH]; [constructor|constructor; auto|done].
    + intros [i c] o Ho%unwrap_result_Ok. by eapply stale_chunk_program.
  - eapply mapM_Forall; [|exact Hl]. intros [i c] ix Hix%unwrap_result_Ok. by eapply chunk_program.
Qed.

(** ** What the command submits *)

Lemma get_account_data_run k s d s' :
  get_account_data k s = (Ok d, s') ->
  exists a, rpc_get_account (history s) k = Some a /\ d = acc_data a /\ history s' = history s ++ [Queried].
Proof.
  intros (a & s1 & [Ha Hs]%ask_run & [<- ->]%cret_Ok)%cli_bind_Ok. eauto.
Qed.

(** The account [k], as the node shows it after [h], holds [x]. *)
Definition shows {T} `{Borsh T} (h : list Event) (k : Pubkey) (x : T) : Prop :=
  exists a, rpc_get_account h k = Some a /\ try_from_slice_unchecked (acc_data a) = Ok x.

Lemma get_stake_pool_run k s p s' :
  get_stake_pool k s = (Ok p, s') -> shows (history s) k p /\ history s' = history s ++ [Queried].
Proof.
  intros (d & s1 & (a & Ha & -> & Hs)%get_account_data_run & [Hp%ok_or_Ok ->]%of_result_Ok)%cli_bind_Ok.
  split; [|done]. exists a. split; [done|by apply result_ok_Some].
Qed.
Lemma get_validator_list_run k s vl s' :
  get_validator_list k s = (Ok vl, s') -> shows (history s) k vl /\ history s' = history s ++ [Queried].
Proof.
  intros (d & s1 & (a & Ha & -> & Hs)%get_account_data_run & [Hp%ok_or_Ok ->]%of_result_Ok)%cli_bind_Ok.
  split; [|done]. exists a. split; [done|by apply result_ok_Some].
Qed.

(** The outcome of a successful update, from the node's answers [h]. *)
Definition update_outcome (P : Pubkey) (force no_merge stale_only : bool) (h new : list Event) : Prop :=
  exists p e, shows h P p /\ rpc_get_epoch_info (h ++ [Queried]) = Some e /\
    if (last_update_epoch p =? e) && negb force then sent new = []
    else exists vl updates finals, shows (h ++ [Queried; Queried]) (validator_list p) vl /\
      update_instructions_for p vl P no_merge stale_only e = Ok (updates, finals) /\
      sent new = update_transactions updates finals.

Lemma command_update_run P force no_merge stale_only s u s' :
  no_update config = false -> command_update config P force no_merge stale_only s = (Ok u, s') ->
  exists new, history s' = history s ++ new /\ update_outcome P force no_merge stale_only (history s) new.
Proof.
  intros Hno Hx. unfold command_update in Hx. rewrite Hno in Hx.
  apply cli_bind_Ok in Hx as (p & s1 & [Hp H1]%get_stake_pool_run & Hx).
  apply cli_bind_Ok in Hx as (e & s2 & [He H2]%ask_run & Hx). rewrite H1 in He, H2.
  rewrite <- app_assoc in H2. cbn [app] in H2.
  destruct ((last_update_epoch p =? e) && negb force) eqn:Ec.
  - apply cret_Ok in Hx as [_ ->]. eexists. split; [exact H2|]. exists p, e. by rewrite Ec.
  - apply cli_bind_Ok in Hx as (vl & s3 & [Hl H3]%get_validator_list_run & Hx). rewrite H2 in Hl, H3.
    apply cli_bind_Ok in Hx as ([updates finals] & s4 & [Hb%map_err_Ok ->]%of_result_Ok & Hx).
    change (update_instructions_for p vl P no_merge stale_only e = Ok (updates, finals)) in Hb.
    destruct (update_instructions_program _ _ _ _ _ _ _ _ Hb) as [Hu Hf].
    apply (update_part_submits _ _ Hu Hf) in Hx as (new & Hh & Hs).
    exists ([Queried; Queried; Queried] ++ new). rewrite Hh, H3, <- !app_assoc. split; [done|].
    exists p, e. rewrite Ec. split_and!; [done|done|]. by exists vl, updates, finals.
Qed.

(** C21: a successful [command_update] with updates switched off does nothing.
    Otherwise it reads the pool and the epoch; when the pool was updated in this
    epoch and the update is not forced, it submits nothing.  Else it reads the
    list and submits the instructions of [update_stake_pool] (or of
    [update_stale_stake_pool] for the epoch it read): each part of the list in a
    transaction of its own, waiting only for the last, and then one transaction
    with the final instructions. *)
Theorem command_update_correct P force no_merge stale_only s u s' :
  command_update config P force no_merge stale_only s = (Ok u, s') ->
  if no_update config then s' = s
  else exists new, history s' = history s ++ new /\
         update_outcome P force no_merge stale_only (history s) new.
Proof.
  intros Hx. destruct (no_update config) eqn:Hno; [|by eapply command_update_run].
  unfold command_update in Hx. rewrite Hno in Hx. by apply cret_Ok in Hx as [_ ->].
Qed.

(** ** The update on the chain *)
Context {L : RuntimeLaws R program}.
Hypothesis clock_account : forall i a c,
  key i = sysvar_clock_id -> clock_from_account_info i a = Ok c -> clock_get = Ok c.
Variable clock : Clock.
Hypothesis now : clock_get = Ok clock.

(** The node shows the accounts of [w] and the current epoch while the client
    only asks questions. *)
Definition up_to_date (h : list Event) (w : World) : Prop := forall n,
  (forall k, rpc_get_account (h ++ replicate n Queried) k = accounts w !! k) /\
  rpc_get_epoch_info (h ++ replicate n Queried) = Some (epoch clock).

Lemma list_rep_decodes vl data : list_rep vl data -> try_from_slice_unchecked data = Ok vl.
Proof.
  rewrite try_from_slice_unchecked_Ok. intros (v & -> & Hh & rest & -> & Hn & _). split.
  - split; [done|]. split; [done|]. apply vsi_all_typed.
  - exists rest. cbn. by rewrite <- !app_assoc.
Qed.
Lemma shows_pool h w n P p q :
  up_to_date h w -> holds_pool program P p w -> shows (h ++ replicate n Queried) P q -> q = p.
Proof.
  intros Hu (_ & a & Ha & _ & Hp) (a' & Ha' & Hq). rewrite (proj1 (Hu n)), Ha in Ha'. congruence.
Qed.
Lemma shows_list h w n k vl vl' :
  up_to_date h w -> holds_list program k vl w -> shows (h ++ replicate n Queried) k vl' -> vl' = vl.
Proof.
  intros Hu (d & (_ & a & Ha & _ & Hd) & Hr%list_rep_decodes) (a' & Ha' & Hq).
  rewrite (proj1 (Hu n)), Ha in Ha'. congruence.
Qed.

Lemma update_transactions_concat updates finals :
  concat (snd <$> update_transactions updates finals) = updates ++ finals.
Proof.
  unfold update_transactions. rewrite !fmap_app, !concat_app, <- !list_fmap_compose.
  assert (Hs : forall b l, concat ((snd ∘ (fun ix : Instruction => (b : bool, [ix]))) <$> l) = l).
  { intros b l. induction l as [|ix l IH]; [done|]. cbn. f_equal. exact IH. }
  rewrite !Hs, app_assoc, take_drop. cbn. by rewrite app_nil_r.
Qed.

Lemma update_outcome_executed P p vl force no_merge stale_only h new w w' :
  up_to_date h w -> holds_pool program P p w -> holds_list program (validator_list p) vl w ->
  update_outcome P force no_merge stale_only h new ->
  executes program (concat (snd <$> sent new)) w w' ->
  (sent new = [] /\ force = false /\ last_update_epoch p = epoch clock /\ holds_pool program P p w') \/
  epoch_updated program clock p vl P w'.
Proof.
  intros Hu Hp Hl (q & e & Hq & He & Hout) Hex.
  rewrite <- (app_nil_r h) in Hq. apply (shows_pool _ _ 0 _ _ _ Hu Hp) in Hq as ->.
  pose proof (proj2 (Hu 1%nat)) as He1. cbn [replicate] in He1. rewrite He1 in He. injection He as <-.
  destruct ((last_update_epoch p =? epoch clock) && negb force) eqn:Ec.
  - left. apply andb_true_iff in Ec as [Ee%Z.eqb_eq Ef%negb_true_iff]. rewrite Hout in Hex.
    split_and!; [done|done|done|]. eapply preserved_pool; [|exact Hp]. by apply executes_nil.
  - right. destruct Hout as (vl' & updates & finals & Hs & Hb & Hsent).
    apply (shows_list _ _ 2 _ _ _ Hu Hl) in Hs as ->.
    rewrite Hsent, update_transactions_concat in Hex.
    pose proof (holds_list_length _ _ _ _ Hl) as Hn.
    destruct (updates_built program clock p vl P no_merge updates finals) as (needed & Hneed & -> & ->);
      [lia|destruct stale_only; [by right|by left]|].
    by eapply updates_executed.
Qed.

End UpdateCommand.

(** ** Witnesses *)
Section UpdateWitnesses.
Import Demo Scenario.

Definition update_outcome_of (w : World) : result CliError unit * CliState :=
  command_update (H:=demo) (H0:=demo_ids) (H1:=demo_crates) (H2:=demo_node w) demo_config pool_key
    false false false start.
Definition updated : CliState := snd (update_outcome_of old_world).
Definition update_ledger : presult (unit * World) :=
  run_all (R:=demo) program (concat (snd <$> sent demo_config (history updated))) old_world.

Lemma demo_budget n :
  ix_program_id (set_compute_unit_price (Crates:=demo_crates) n) <> program /\
  ix_program_id (set_compute_unit_limit (Crates:=demo_crates) n) <> program.
Proof. split; by intros E%(f_equal pk_bytes). Qed.
Lemma updated_ok : update_outcome_of old_world = (Ok tt, updated).
Proof. vm_compute. reflexivity. Qed.

Lemma command_update_correct_witness : exists new, history updated = history start ++ new /\
  update_outcome (R:=demo) (C:=demo_ids) (H0:=demo_node old_world) demo_config pool_key false false false
    (history start) new.
Proof.
  exact (command_update_correct (R:=demo) (C:=demo_ids) (H:=demo_crates) (H0:=demo_node old_world)
    demo_config demo_budget eq_refl pool_key false false false start tt updated updated_ok).
Defined.

End UpdateWitnesses.
