(* ===== verification/DepositCommand.v ===== *)
(** * The deposit command

    [command_deposit_sol] from the command to the chain: the update it sends
    first, the deposit it builds from what the node shows, and what the program does
    with both. *)

From S2P Require Import Prelude Errors Fees Pool BigVec Borsh ValidatorList Runtime Platform Checks.
From S2P Require Import Tracking Trace Contracts Spec UserSteps Refinement Admin Deposit Instruction Process.
From S2P Require Import DepositCorrect Builders BuildersCorrect Scenario Client Commands Output Main.
From S2P Require Import ClientDemo ClientCorrect UpdateCommand.

#[local] Open Scope Z_scope.

Section DepositCommand.
Context `{R : Runtime} `{C : ClientIds} `{Crates} `{Node}.
Variable config : Config.
#[local] Notation program := (stake_pool_program_id config).

Hypothesis budget_foreign : forall n,
  ix_program_id (set_compute_unit_price n) <> program /\ ix_program_id (set_compute_unit_limit n) <> program.
(** So are transfers and the creation of token accounts. *)
Hypothesis funding_foreign :
  (forall from to n, ix_program_id (transfer from to n) <> program) /\
  (forall payer owner mint token,
     ix_program_id (create_associated_token_account payer owner mint token) <> program).
Hypothesis not_dry : dry_run config = false.

(** ** What the command submits *)

(** The account the tokens go to. *)
Definition token_receiver (p : StakePool) (receiver : option Pubkey) : Pubkey :=
  default (get_associated_token_address_with_program_id (token_owner config) (pool_mint p) (token_program_id p))
    receiver.

(** The deposit of [d] lamports from the account [k], for the pool [p] at [P]. *)
Definition deposit_for (P : Pubkey) (p : StakePool) (k : Pubkey) (receiver referrer : option Pubkey) (d : Z)
    : Instruction :=
  let to := token_receiver p receiver in
  deposit_sol_internal program P (fst (find_withdraw_authority_program_address program P)) (reserve_stake p)
    k to (manager_fee_account p) (default to referrer) (pool_mint p) (token_program_id p)
    (funding_authority config) d None.

(** The transaction: the lamports are moved to a new account [k], the associated
    token account is created if need be, and the deposit is made from [k]. *)
Definition deposit_transaction (P : Pubkey) (p : StakePool) (from : option Pubkey) (k : Pubkey)
    (receiver referrer : option Pubkey) (d : Z) (tx : Transaction) : Prop :=
  exists create,
    (create = [] \/
     create = [create_associated_token_account (fee_payer config) (token_owner config) (pool_mint p)
                 (token_program_id p)]) /\
    with_budget config ([transfer (default (fee_payer config) from) k d] ++ create ++
                        [deposit_for P p k receiver referrer d])
      (msg_instructions (tx_message tx)).

Lemma add_associated_run mint token instructions n s a ixs m s' :
  add_associated_token_account config mint token (token_owner config) instructions n s = (Ok (a, ixs, m), s') ->
  a = get_associated_token_address_with_program_id (token_owner config) mint token /\
  (exists create, ixs = instructions ++ create /\
     (create = [] \/
      create = [create_associated_token_account (fee_payer config) (token_owner config) mint token])) /\
  exists new, history s' = history s ++ new /\ Forall (eq Queried) new.
Proof.
  unfold add_associated_token_account. cbv zeta. intros Hx.
  assert (Hq : emits (eq Queried) (add_associated_token_account config mint token (token_owner config)
    instructions n))
    by (unfold add_associated_token_account, get_token_account, get_account_data; emits_auto).
  destruct (Hq s) as (new & Hh & Hn & _). unfold add_associated_token_account in Hh. cbv zeta in Hh.
  rewrite Hx in Hh. simpl in Hh.
  apply cli_bind_Ok in Hx as (existing & s1 & _ & Hx). destruct existing as [t|]; inv_cli Hx.
  - injection Hx as <- <- <-. split; [done|]. split; [|by exists new].
    exists []. rewrite app_nil_r. auto.
  - injection Hx as <- <- <-. split; [done|]. split; [|by exists new]. eexists. split; [reflexivity|]. auto.
Qed.

Lemma command_deposit_run P from receiver referrer d s u s' :
  command_deposit_sol config P from receiver referrer d s = (Ok u, s') ->
  exists up asked new p k tx,
    history s' = (history s ++ up) ++ [Queried; Queried] ++ asked ++ [Submitted true tx] /\
    (if no_update config then up = [] else update_outcome config P false false false (history s) up) /\
    shows (history s ++ up ++ [Queried]) P p /\
    (forall a, funding_authority config = Some a -> sol_deposit_authority p = Some a) /\
    k = keypair_new new /\
    Forall (eq Queried) asked /\
    deposit_transaction P p from k receiver referrer d tx.
Proof.
  intros Hx. unfold command_deposit_sol in Hx. cbv zeta in Hx.
  apply cli_bind_Ok in Hx as (v & s1 & Hup & Hx).
  assert (exists up, history s1 = history s ++ up /\
    if no_update config then up = [] else update_outcome config P false false false (history s) up)
    as (up & H1 & Hout).
  { unfold update_first in Hup. destruct (no_update config) eqn:Hno; cbn [negb cwhen] in Hup.
    - exists []. apply cret_Ok in Hup as [_ ->]. by rewrite app_nil_r.
    - by eapply command_update_run. }
  apply cli_bind_Ok in Hx as (b & s2 & [_ H2]%ask_run & Hx).
  apply cli_bind_Ok in Hx as (v1 & s3 & [_ ->]%of_result_Ok & Hx).
  apply cli_bind_Ok in Hx as (p & s4 & [Hp H4]%get_stake_pool_run & Hx).
  apply cli_bind_Ok in Hx as (k & s5 & Hk & Hx). unfold new_keypair in Hk. injection Hk as <- <-.
  apply cli_bind_Ok in Hx as ([[a ixs] m] & s6 & Ha & Hx).
  apply add_associated_run in Ha as (-> & (create & -> & Hc) & asked & H6 & Hq).
  cbn [history] in H6.
  apply cli_bind_Ok in Hx as ([ix signers] & s7 & Hf & Hx).
  assert (s7 = s6 /\ ix = deposit_for P p (keypair_new (keypairs s4)) receiver referrer d /\
    forall a, funding_authority config = Some a -> sol_deposit_authority p = Some a) as (-> & -> & Hauth).
  { unfold deposit_for. destruct (funding_authority config) as [auth|].
    - unfold check_funding in Hf. inv_cli Hf. injection Hf as <- _.
      apply of_result_Ok in Hr as [Hr%err_if_Ok ->]. bool_props. subst.
      split_and!; [done|done|]. by intros a [=<-].
    - apply cret_Ok in Hf as [[=<- _] ->]. by split_and!. }
  apply signed_and_sent in Hx as (asked' & tx & Hh & Hq' & Htx); [|done..].
  exists up, (asked ++ asked'), (keypairs s4), p, (keypair_new (keypairs s4)), tx.
  rewrite Hh, H6, H4, H2, H1, <- !app_assoc. split_and!; try done.
  - by rewrite H2, H1, <- app_assoc in Hp.
  - by apply Forall_app.
  - exists create. split; [done|]. by rewrite <- app_assoc in Htx.
Qed.

(** ** The deposit on the chain *)
Context {L : RuntimeLaws R program}.
Hypothesis clock_account : forall i a c,
  key i = sysvar_clock_id -> clock_from_account_info i a = Ok c -> clock_get = Ok c.
Variable clock : Clock.
Hypothesis now : clock_get = Ok clock.

(** The accounts of [p] that a deposit names are those of [q]. *)
Definition same_accounts (p q : StakePool) : Prop :=
  reserve_stake p = reserve_stake q /\ manager_fee_account p = manager_fee_account q /\
  pool_mint p = pool_mint q /\ token_program_id p = token_program_id q.

(** A deposit that runs: the tokens [split] it mints at the rate of the pool [q], the
    pool afterwards, and the calls of the program. *)
Record deposit_done (P : Pubkey) (q : StakePool) (k to referrer : Pubkey) (d : Z) (split : DepositSplit)
    (w w' : World) : Prop := {
  dd_current : epoch clock <= last_update_epoch q;
  dd_authority : sol_deposit_authority q = None \/ sol_deposit_authority q = funding_authority config;
  dd_tokens : calc_pool_tokens_for_deposit q d = Some (new_pool_tokens split);
  dd_split : split_ok split None;
  dd_fee : calc_pool_tokens_sol_deposit_fee q (new_pool_tokens split) =
    Some (pool_tokens_manager_deposit_fee split + pool_tokens_referral_fee split);
  dd_pool : holds_pool program P (after_deposit q d (new_pool_tokens split)) w';
  dd_calls : cpi_log w' = cpi_log w ++ [user_call (SystemTransfer k (reserve_stake q) d)] ++
    (let mint_to account n := pool_call P AUTHORITY_WITHDRAW (stake_withdraw_bump_seed q)
       (TokenMintTo (token_program_id q) (pool_mint q) account
          (fst (find_withdraw_authority_program_address program P)) n) in
     [mint_to to (pool_tokens_user split)] ++
     (if 0 <? pool_tokens_manager_deposit_fee split
      then [mint_to (manager_fee_account q) (pool_tokens_manager_deposit_fee split)] else []) ++
     (if 0 <? pool_tokens_referral_fee split
      then [mint_to referrer (pool_tokens_referral_fee split)] else []));
}.

Lemma deposit_processed P p q k receiver referrer d infos w u w' :
  is_uint 64 d -> holds_pool program P q w -> pool_fees_valid q ->
  Forall2 passed (ix_accounts (deposit_for P p k receiver referrer d)) infos ->
  process program infos (ix_data (deposit_for P p k receiver referrer d)) w = Ok (u, w') ->
  same_accounts p q /\
  exists split, deposit_done P q k (token_receiver p receiver)
    (default (token_receiver p receiver) referrer) d split w w'.
Proof.
  intros Hd Hq Hfees Hi Hp. pose proof Hp as Hx.
  unfold deposit_for, deposit_sol_internal in Hx, Hi. cbn [ix_data ix_accounts build] in Hx, Hi.
  rewrite process_built in Hx by exact Hd. cbn [dispatch] in Hx. inv_passed.
  apply deposit_sol_spec in Hx as (q' & clock' & split & mints & Hclock & Hcur & Hacc & Hdone & Hlog);
    [|done|intros q'; subst; rewrite (holds_pool_at _ _ _ Hq); by intros [=<-]].
  rewrite now in Hclock. injection Hclock as <-. pose proof (cp_pool _ _ _ _ _ Hcur) as Hat.
  subst P. rewrite (holds_pool_at _ _ _ Hq) in Hat. injection Hat as <-.
  destruct Hacc as [_ Hr Hm Hmint Ht Hauth]. destruct Hdone as [Htok Hsplit Hfee Hpool ->].
  pose proof Hp as (ix & Hix & _)%process_dispatch.
  eapply process_step in Hix as (q' & Hq' & _); [|done|exact (cp_valid _ _ _ _ _ Hcur)|exact Hp].
  rewrite (holds_pool_at _ _ _ Hq') in Hpool. injection Hpool as ->.
  split; [split_and!; congruence|]. exists split. constructor; try done.
  - exact (cp_epoch _ _ _ _ _ Hcur).
  - destruct (sol_deposit_authority q) as [a|]; [right|by left].
    destruct (Hauth a eq_refl) as (info & rest & -> & <- & _).
    destruct (funding_authority config) as [f|]; inversion Hi as [|? ? ? ? [Hk _]]; subst. by rewrite Hk.
  - rewrite Hlog. unfold deposit_mints. cbv zeta beta. rewrite Hr, Hm, Hmint, Ht.
    repeat match goal with E : key ?i = _ |- context [key ?i] => rewrite E end. done.
Qed.

(** The deposit among transactions of other programs. *)
Lemma deposit_executed P p q k receiver referrer d w w' :
  is_uint 64 d -> holds_pool program P q w -> pool_fees_valid q ->
  executes program [deposit_for P p k receiver referrer d] w w' ->
  same_accounts p q /\
  exists split w1 w2, preserved program w w1 /\ preserved program w2 w' /\
    deposit_done P q k (token_receiver p receiver) (default (token_receiver p receiver) referrer) d split w1 w2.
Proof.
  intros Hd Hq Hfees (infos & w1 & u & w2 & Hw & Hi & Hp & Hx%executes_nil)%executes_cons.
  eapply deposit_processed in Hp as (Hs & split & Hdone); [|done|by eapply preserved_pool|done|exact Hi].
  split; [done|]. by exists split, w1, w2.
Qed.

(** A deposit only depends on these accounts. *)
Lemma token_receiver_same p q receiver :
  same_accounts p q -> token_receiver p receiver = token_receiver q receiver.
Proof. intros (_ & _ & Hm & Ht). unfold token_receiver. by rewrite Hm, Ht. Qed.
Lemma deposit_transaction_same P p q from k receiver referrer d tx :
  same_accounts p q ->
  deposit_transaction P p from k receiver referrer d tx -> deposit_transaction P q from k receiver referrer d tx.
Proof.
  intros Hs. pose proof Hs as (Hr & Hf & Hm & Ht). unfold deposit_transaction, deposit_for.
  by rewrite (token_receiver_same _ _ receiver Hs), Hr, Hf, Hm, Ht.
Qed.

(** What the update before a deposit leaves: nothing changed if updates are off or
    none is due, else the epoch update is complete. *)
Definition updated_first (P : Pubkey) (p : StakePool) (vl : ValidatorList) (up : list Event) (w : World)
    : Prop :=
  if no_update config then up = []
  else (sent config up = [] /\ last_update_epoch p = epoch clock /\ holds_pool program P p w) \/
       epoch_updated program clock p vl P w.

Lemma sent_deposit asked P p from k receiver referrer d tx :
  Forall (eq Queried) asked -> deposit_transaction P p from k receiver referrer d tx ->
  sent config ([Queried; Queried] ++ asked ++ [Submitted true tx]) = [(true, [deposit_for P p k receiver referrer d])].
Proof.
  intros Hq (create & Hc & Htx). rewrite !sent_app, (quiet_sent _ asked) by done. cbn [sent app].
  rewrite (with_budget_program _ _ _ Htx), !for_program_app.
  rewrite for_program_foreign by apply funding_foreign.
  replace (for_program config create) with (@nil Instruction);
    [|by destruct Hc as [->| ->]; [|rewrite for_program_foreign by apply funding_foreign]].
  cbn [app]. by rewrite for_program_own by (by repeat constructor).
Qed.

(** C16: from the deposit command to the chain.  Let the node show the accounts of the
    world [w], where the pool [p] and its list [vl] are.  If [command_deposit_sol]
    succeeds and the instructions it submitted for the program run successfully, in
    order and with any transactions of other programs in between, then first the pool
    was brought up to date, unless that was not due or updates are off; then one
    transaction moved the lamports to a new account and deposited them from there: the
    program transferred exactly the amount to the reserve and minted, at the exchange
    rate of the updated pool, tokens to the receiver (by default the associated account
    of the token owner), the manager and the referrer, which add up to the whole, and
    the totals of the pool have grown by the lamports and the tokens. *)
Theorem deposit_command_completes P p vl from receiver referrer d s u s' w w' new :
  is_uint 64 d -> up_to_date clock (history s) w ->
  holds_pool program P p w -> pool_is_valid p = true -> pool_fees_valid p ->
  holds_list program (validator_list p) vl w ->
  command_deposit_sol config P from receiver referrer d s = (Ok u, s') -> history s' = history s ++ new ->
  executes program (concat (snd <$> sent config new)) w w' ->
  exists up asked tx k q split w0 w1 w2,
    new = up ++ [Queried; Queried] ++ asked ++ [Submitted true tx] /\
    executes program (concat (snd <$> sent config up)) w w0 /\ updated_first P p vl up w0 /\
    holds_pool program P q w0 /\ same_config p q /\
    deposit_transaction P q from k receiver referrer d tx /\
    preserved program w0 w1 /\
    deposit_done P q k (token_receiver q receiver) (default (token_receiver q receiver) referrer) d split w1 w2 /\
    holds_pool program P (after_deposit q d (new_pool_tokens split)) w'.
Proof.
  intros Hd Hu Hp Hv Hf Hl Hx Hh Hex.
  apply command_deposit_run in Hx as (up & asked & n & shown & k & tx & Hnew & Hup & _ & _ & _ & Hq & Htx).
  rewrite Hh, <- app_assoc in Hnew. apply app_inv_head in Hnew as ->.
  rewrite sent_app, (sent_deposit _ _ _ _ _ _ _ _ _ Hq Htx), fmap_app, concat_app in Hex.
  apply executes_app in Hex as (w0 & Hex0 & Hex). cbn [fmap list_fmap snd concat app] in Hex.
  destruct (runs_pool w w0 P p Hp Hv Hf) as (q & Hq0 & _ & _ & Hfq & Hc); [by eapply executes_runs|].
  eapply deposit_executed in Hex as (Hs & split & w1 & w2 & Hw1 & Hw2 & Hdone); [|done..].
  rewrite (token_receiver_same _ _ receiver Hs) in Hdone. apply (deposit_transaction_same _ _ _ _ _ _ _ _ _ Hs) in Htx.
  exists up, asked, tx, k, q, split, w0, w1, w2. split_and!; try done.
  - unfold updated_first. destruct (no_update config); [done|].
    eapply update_outcome_executed in Hup as [(Hu1 & _ & Hu2 & Hu3)|Hup]; [left| |done..]; [done|by right].
  - eapply preserved_pool; [exact Hw2|]. by destruct Hdone.
Qed.
End DepositCommand.

(** ** Witness *)
Section DepositWitness.
Import Demo Scenario.

(** A pool that was not updated in this epoch yet, and a deposit into it; the account
    the lamports are moved to has them already. *)
Definition funded_world : World :=
  old_world <| accounts :=
    <[keypair_new (Crates:=demo_crates) 0 := mkAccount 1000 [] system_id]> (accounts old_world) |>.
Definition deposit_outcome : result CliError unit * CliState :=
  command_deposit_sol (H:=demo) (H0:=demo_ids) (H1:=demo_crates) (H2:=demo_node funded_world) demo_config
    pool_key None (Some user_tokens_key) (Some referrer_key) 1000 start.
Definition deposited : CliState := snd deposit_outcome.
Definition deposit_ledger : presult (unit * World) :=
  run_all (R:=demo) program (concat (snd <$> sent demo_config (history deposited))) funded_world.
Lemma deposited_ok : deposit_outcome = (Ok tt, deposited).
Proof. vm_compute. reflexivity. Qed.
Lemma funded_world_holds_pool : holds_pool program pool_key old_pool funded_world.
Proof.
  apply holds_pool_data. eexists. split; [apply holds_data_intro; vm_compute; reflexivity|].
  vm_compute. reflexivity.
Qed.
Lemma funded_world_holds_list : holds_list program list_key old_list funded_world.
Proof.
  eapply holds_list_intro; [apply holds_data_intro; vm_compute; reflexivity|vm_compute; reflexivity..].
Qed.
Lemma old_pool_fees_valid : pool_fees_valid old_pool.
Proof. constructor; unfold fee_at_most_one; simpl; auto; lia. Qed.

Lemma deposit_command_completes_witness :
  exists q t, holds_pool program pool_key (after_deposit q 1000 t) (world_after funded_world deposit_ledger).
Proof.
  assert (Hx : deposit_ledger = Ok (tt, world_after funded_world deposit_ledger))
    by (apply world_after_Ok; vm_compute; reflexivity).
  apply run_all_executes in Hx; [|exact (sent_own demo_config _)].
  assert (Hn : is_uint 64 1000) by (split; lia).
  destruct ((fun Hg Hc Ht Hu => deposit_command_completes (R:=demo) (C:=demo_ids) (H:=demo_crates)
      (H0:=demo_node funded_world) demo_config demo_budget Hg eq_refl Hc (mkClock EPOCH) Ht pool_key old_pool
      old_list None (Some user_tokens_key) (Some referrer_key) 1000 start tt deposited funded_world _ (history deposited) Hn Hu
      funded_world_holds_pool eq_refl old_pool_fees_valid funded_world_holds_list deposited_ok eq_refl Hx))
    as (up & asked & tx & k & q & split & w0 & w1 & w2 & _ & _ & _ & _ & _ & _ & _ & _ & Hd).
  - split; intros; by intros E%(f_equal pk_bytes).
  - by intros i a c _ [=<-].
  - reflexivity.
  - intros n. split; [|reflexivity]. intros k. simpl. do 2 f_equal.
    induction n as [|n IH]; [reflexivity|exact IH].
  - by eexists q, _.
Defined.
End DepositWitness.
