(* ===== verification/WithdrawPlan.v ===== *)
(** * How the client plans a withdrawal of stake

    The accounts [prepare_withdraw_accounts] chooses: their order, how much is
    taken from each, that the amounts add up, and when there are none. *)

From Stdlib Require Import Sorted Permutation.
From S2P Require Import Prelude Errors Fees Pool BigVec Borsh ValidatorList Runtime Platform Checks.
From S2P Require Import Tracking Contracts Admin Deposit Instruction Builders Client Commands Scenario ClientDemo ClientCorrect.

#[local] Open Scope Z_scope.

(** ** A stable sort *)
Section Sort.
Context {A : Type} (less : A -> A -> bool).

Lemma insert_by_Permutation x l : insert_by less x l ≡ₚ x :: l.
Proof.
  induction l as [|y l IH]; simpl; [done|]. destruct (less y x); [|done].
  rewrite IH. apply Permutation_swap.
Qed.
Lemma sort_by_Permutation l : sort_by less l ≡ₚ l.
Proof. induction l as [|x l IH]; [done|]. cbn. by rewrite insert_by_Permutation, IH. Qed.

(** Sorted by [R]: an element never comes after one it is less than. *)
Variable R : A -> A -> Prop.
Hypothesis less_R : forall x y, less x y = true -> R x y.
Hypothesis not_less_R : forall x y, less y x = false -> R x y.
Context `{!Transitive R}.

Lemma insert_by_sorted x l : StronglySorted R l -> StronglySorted R (insert_by less x l).
Proof.
  induction 1 as [|y l Hs IH Hy]; simpl; [repeat constructor|].
  destruct (less y x) eqn:E.
  - constructor; [done|]. rewrite insert_by_Permutation. constructor; [by apply less_R|done].
  - apply not_less_R in E. constructor; [by constructor|]. constructor; [done|].
    eapply Forall_impl; [exact Hy|]. intros z Hz. by transitivity y.
Qed.
Lemma sort_by_sorted l : StronglySorted R (sort_by less l).
Proof. induction l as [|x l IH]; [constructor|]. by apply insert_by_sorted. Qed.
End Sort.

(** ** The order of the candidates *)

(** [l] may come before [r]: the preferred validator first, then by lamports. *)
Definition before (preferred : option Pubkey) (l r : Candidate) : Prop :=
  l.2 = preferred \/ (r.2 <> preferred /\ r.1.2 <= l.1.2).
#[export] Instance before_trans preferred : Transitive (before preferred).
Proof. unfold before. intros x y z. intuition lia. Qed.

Lemma sorted_accounts_sorted vl p f :
  sorted_accounts vl p f ≡ₚ f <$> validators vl /\
  StronglySorted (before (preferred_withdraw_validator_vote_address p)) (sorted_accounts vl p f).
Proof.
  split; [apply sort_by_Permutation|]. apply sort_by_sorted; [| |apply _];
    unfold account_less, before; intros l r; repeat case_bool_decide; intros; try tauto; try done;
    right; (split; [done|]); lia.
Qed.

(** ** The amounts *)

(** What is taken: everything an account has while more is needed, and from the
    last one what is left to take. *)
Inductive taken (available : Z -> result CliError Z) : list Candidate -> Z -> list WithdrawAccount -> Z -> Prop :=
| TakenEnd r : taken available [] r [] r
| TakenLast k l v cs a r :
    available l = Ok a -> r <= a -> taken available ((k, l, v) :: cs) r [mkWithdraw k v r] 0
| TakenAll k l v cs a r ws r' :
    available l = Ok a -> 0 <= a < r -> taken available cs (r - a) ws r' ->
    taken available ((k, l, v) :: cs) r (mkWithdraw k v a :: ws) r'.

(** The accounts that hold more than the minimum. *)
Definition eligible (min_balance : Z) (cs : list Candidate) : list Candidate :=
  List.filter (fun c => min_balance <? c.1.2) cs.

Definition total_taken (ws : list WithdrawAccount) : Z := foldr (fun w n => wa_pool_amount w + n) 0 ws.

Lemma taken_sum available cs r ws r' : taken available cs r ws r' -> total_taken ws = r - r'.
Proof. induction 1; simpl; lia. Qed.

Lemma taken_nonneg available cs r ws r' : taken available cs r ws r' -> 0 <= r -> 0 <= r'.
Proof. induction 1; lia. Qed.

(** [w] takes part of what the candidate [c] has. *)
Definition takes_part (available : Z -> result CliError Z) (c : Candidate) (w : WithdrawAccount) : Prop :=
  wa_stake_address w = c.1.1 /\ wa_vote_address w = c.2 /\
  exists a, available c.1.2 = Ok a /\ 0 <= wa_pool_amount w <= a.
(** [w] takes all of it. *)
Definition takes_all (available : Z -> result CliError Z) (c : Candidate) (w : WithdrawAccount) : Prop :=
  wa_stake_address w = c.1.1 /\ wa_vote_address w = c.2 /\ available c.1.2 = Ok (wa_pool_amount w).

(** A complete plan drains all accounts it uses but the last. *)
Lemma taken_done available cs r ws :
  taken available cs r ws 0 -> 0 <= r ->
  (r = 0 /\ ws = []) \/
  exists front c rest ws' w, cs = front ++ c :: rest /\ ws = ws' ++ [w] /\
    Forall2 (takes_all available) front ws' /\ takes_part available c w.
Proof.
  intros Ht. remember 0 as z eqn:Ez. assert (Hz : z = 0) by done. clear Ez. revert Hz.
  induction Ht as [r|k l v cs a r Ha Hr|k l v cs a r ws r' Ha Hr Ht IH]; intros Hz Hr0.
  - left. split; [lia|done].
  - right. exists [], (k, l, v), cs, [], (mkWithdraw k v r). split_and!; [done..|constructor|].
    split; [done|]. split; [done|]. exists a. split; [done|]. simpl. lia.
  - destruct (IH Hz) as [[Hr1 ->]|(front & c & rest & ws' & w & -> & -> & Hf & Hw)]; [lia|lia|].
    right. exists ((k, l, v) :: front), c, rest, (mkWithdraw k v a :: ws'), w.
    split_and!; [done|done| |done]. constructor; [by split_and!|done].
Qed.

(** An incomplete plan drains every account. *)
Lemma taken_short available cs r ws r' :
  taken available cs r ws r' -> 0 < r' -> Forall2 (takes_all available) cs ws /\ total_taken ws < r.
Proof.
  intros Ht Hr. pose proof (taken_sum _ _ _ _ _ Ht) as Hs. split; [|lia]. clear Hs.
  induction Ht as [r|k l v cs a r Ha Hle|k l v cs a r ws r' Ha Hle Ht IH]; [constructor|lia|].
  constructor; [by split_and!|by apply IH].
Qed.

Section Plan.
Context `{Runtime} `{ClientIds} `{Crates} `{Node}.

Lemma unchecked_in_range x : is_uint 64 x -> unchecked x = Ok x.
Proof.
  unfold is_uint, unchecked. intros [Hl Hh].
  by rewrite (proj2 (Z.leb_le _ _) Hl), (proj2 (Z.ltb_lt _ _) Hh).
Qed.
Lemma unchecked_typed x y : unchecked x = Ok y -> is_uint 64 y.
Proof.
  unfold unchecked, is_uint. destruct (_ && _) eqn:E; [intros [=<-]; lia|].
  destruct overflow_checks; [done|]. intros [=<-]. apply Z.mod_pos_bound. lia.
Qed.

Lemma available_nonneg p skip_fee inverse l a :
  pool_typed p -> 0 <= l -> 0 <= numerator inverse -> available_for_withdrawal p skip_fee inverse l = Ok a -> 0 <= a.
Proof.
  intros Hp Hl Hn Ha. unfold available_for_withdrawal in Ha. apply bind_Ok in Ha as (t & Ht%unwrap_Ok & Ha).
  destruct skip_fee.
  - injection Ha as <-. unfold calc_pool_tokens_for_deposit in Ht.
    destruct (_ || _); [by injection Ht as <-|].
    apply bind_Some in Ht as (m & Hm & Ht). apply bind_Some in Ht as (d & Hd & Ht).
    apply try_from_Some in Ht as [-> _]. apply checked_mul_Some in Hm as [-> _].
    apply checked_div_Some in Hd as [-> Hd]. pose proof (pt_supply _ Hp) as Hs.
    pose proof (pt_total _ Hp) as Htot. unfold is_uint in *. apply Z.div_pos; nia.
  - apply bind_Ok in Ha as (m & Hm%unchecked_typed & Ha). unfold u64_div in Ha.
    destruct (Z.eqb_spec (numerator inverse) 0); [done|]. injection Ha as <-.
    apply Z.div_pos; [apply Hm|lia].
Qed.

Lemma withdraw_from_taken p min_balance skip_fee inverse cs :
  pool_typed p -> 0 <= min_balance -> 0 <= numerator inverse -> forall r s ws r' s',
  is_uint 64 r ->
  withdraw_from p min_balance skip_fee inverse cs r s = (Ok (ws, r'), s') ->
  s' = s /\ taken (available_for_withdrawal p skip_fee inverse) (eligible min_balance cs) r ws r'.
Proof.
  intros Hp Hm Hn. induction cs as [|[[k l] v] cs IH]; intros r s ws r' s' Hr Hx.
  - cbn [withdraw_from] in Hx. inv_cli Hx. injection Hx as <- <-. split; [done|constructor].
  - cbn [withdraw_from] in Hx. cbn [eligible List.filter fst snd].
    destruct (Z.leb_spec l min_balance) as [Hle|Hgt].
    { rewrite (proj2 (Z.ltb_ge _ _)) by lia. by apply IH. }
    rewrite (proj2 (Z.ltb_lt _ _)) by lia. inv_cli Hx. rename v0 into a. rename Hr0 into Ha.
    pose proof (available_nonneg _ _ _ l a Hp ltac:(lia) Hn Ha) as Ha0.
    rewrite unchecked_in_range in Hr1 by (unfold is_uint in *; lia). injection Hr1 as <-.
    destruct (Z.eqb_spec (r - Z.min a r) 0) as [E|E].
    + inv_cli Hx. injection Hx as <- <-. rewrite E. replace (Z.min a r) with r by lia.
      split; [done|]. eapply TakenLast; [exact Ha|lia].
    + assert (a < r) by lia. inv_cli Hx. injection Hx as <- <-. rewrite Z.min_l in * by lia.
      apply IH in Hr0 as [-> Ht]; [|unfold is_uint in *; lia]. split; [done|].
      eapply TakenAll; [exact Ha|lia|exact Ht].
Qed.

(** ** The plan *)
Variable config : Config.

(** The numbers a node answers with are [u64]. *)
Definition node_typed : Prop :=
  (forall h n b, rpc_get_minimum_balance_for_rent_exemption h n = Some b -> is_uint 64 b) /\
  (forall h b, rpc_get_stake_minimum_delegation h = Some b -> is_uint 64 b).

(** The node answered the question [q] with [a]. *)
Definition answered {A} (q : list Event -> option A) (a : A) : Prop := exists h, q h = Some a.
#[local] Notation rent_of_stake := (fun h => rpc_get_minimum_balance_for_rent_exemption h STAKE_STATE_LEN).

(** The list of the pool [p], as the node has it. *)
Definition list_of (p : StakePool) (vl : ValidatorList) : Prop :=
  exists a, answered (fun h => rpc_get_account h (validator_list p)) a /\
    try_from_slice_unchecked (acc_data a) = Ok vl.
(** What an account needs to keep. *)
Definition keeps (min_balance : Z) : Prop :=
  exists delegation rent, answered rpc_get_stake_minimum_delegation delegation /\
    answered rent_of_stake rent /\ min_balance = saturating_add 64 rent (minimum_delegation delegation).
(** What the reserve can give away. *)
Definition reserve_gives (p : StakePool) (reserve : Z) : Prop :=
  exists a rent x, answered (fun h => rpc_get_account h (reserve_stake p)) a /\
    answered rent_of_stake rent /\ unchecked (acc_lamports a - rent) = Ok x /\
    unchecked (x - MINIMUM_RESERVE_LAMPORTS) = Ok reserve.

(** The accounts a plan may use, best first. *)
Definition plan_accounts (p : StakePool) (P : Pubkey) (cs : list Candidate) : Prop :=
  exists vl min_balance reserve active transient,
    list_of p vl /\ keeps min_balance /\ reserve_gives p reserve /\
    cs = eligible min_balance (active ++ transient ++ [(reserve_stake p, reserve, None)]) /\
    active ≡ₚ active_candidate config P <$> validators vl /\
    transient ≡ₚ transient_candidate config P min_balance <$> validators vl /\
    StronglySorted (before (preferred_withdraw_validator_vote_address p)) active /\
    StronglySorted (before (preferred_withdraw_validator_vote_address p)) transient.

(** The tokens an account is good for, with the fee of the pool on top. *)
Definition plan_available (p : StakePool) (skip_fee : bool) (available : Z -> result CliError Z) : Prop :=
  exists n, unchecked (denominator (stake_withdrawal_fee p) - numerator (stake_withdrawal_fee p)) = Ok n /\
    available = available_for_withdrawal p skip_fee (mkFee (denominator (stake_withdrawal_fee p)) n).

Lemma ask_Ok {A} (q : list Event -> option A) s a s' : ask q s = (Ok a, s') -> answered q a.
Proof. intros [Hq _]%ask_run. by exists (history s). Qed.
Lemma get_validator_list_Ok p s vl s' :
  get_validator_list (validator_list p) s = (Ok vl, s') -> list_of p vl.
Proof.
  unfold get_validator_list, get_account_data.
  intros (data & s1 & (a & s2 & Ha%ask_Ok & Hr)%cli_bind_Ok & Hx)%cli_bind_Ok. inv_cli Hr. inv_cli Hx. subst.
  exists a. split; [done|by apply result_ok_Some].
Qed.

(** The candidates of a run. *)
Lemma candidates_run p P min_balance vl s cs s' :
  keeps min_balance -> list_of p vl -> withdraw_candidates config p P min_balance vl s = (Ok cs, s') ->
  plan_accounts p P (eligible min_balance cs).
Proof.
  intros Hm Hl Hx. unfold withdraw_candidates, minimum_balance_for in Hx. inv_cli Hx. subst cs.
  apply ask_Ok in Hr, Hr0.
  destruct (sorted_accounts_sorted vl p (active_candidate config P)) as [Hap Has].
  destruct (sorted_accounts_sorted vl p (transient_candidate config P min_balance)) as [Htp Hts].
  eexists vl, min_balance, _, _, _. split_and!; [done|done| |done..]. by eexists _, _, _.
Qed.

(** What the loop found out, for any outcome. *)
Lemma plan_loop p amount P skip_fee min_balance vl cs n ws r s s1 s2 s' :
  node_typed -> pool_typed p -> is_uint 64 amount -> keeps min_balance -> list_of p vl ->
  withdraw_candidates config p P min_balance vl s = (Ok cs, s1) ->
  unchecked (denominator (stake_withdrawal_fee p) - numerator (stake_withdrawal_fee p)) = Ok n ->
  withdraw_from p min_balance skip_fee (mkFee (denominator (stake_withdrawal_fee p)) n) cs amount s2
    = (Ok (ws, r), s') ->
  exists accts available, plan_accounts p P accts /\ plan_available p skip_fee available /\
    taken available accts amount ws r.
Proof.
  intros [Hnr Hnd] Hp Ha Hk Hl Hc Hn Hw.
  assert (Hm : 0 <= min_balance).
  { destruct Hk as (delegation & rent & [h Hd%Hnd] & [h' Hr%Hnr] & ->).
    unfold saturating_add, minimum_delegation, is_uint in *. lia. }
  apply withdraw_from_taken in Hw as [_ Ht]; [|done|done| |done].
  - eexists _, _. split; [by eapply candidates_run|]. split; [by exists n|exact Ht].
  - apply unchecked_typed in Hn. unfold is_uint in Hn. simpl. lia.
Qed.

Lemma never_mint k : never NoStakeAccountsWithBalance (get_token_mint k).
Proof.
  unfold get_token_mint, get_account_data. repeat apply never_bind || intros;
    first [by apply never_ask|by apply never_or_fail|apply never_ret].
Qed.
Lemma never_list k : never NoStakeAccountsWithBalance (get_validator_list k).
Proof.
  unfold get_validator_list, get_account_data. repeat apply never_bind || intros;
    first [by apply never_ask|by apply never_or_fail|apply never_ret].
Qed.
Lemma never_candidates p P m vl : never NoStakeAccountsWithBalance (withdraw_candidates config p P m vl).
Proof.
  unfold withdraw_candidates, minimum_balance_for, u64_sub. cbv zeta.
  repeat apply never_bind || intros;
    first [by apply never_ask|apply never_of_result, never_unchecked|apply never_ret].
Qed.
Lemma never_available e p skip_fee inverse l : available_for_withdrawal p skip_fee inverse l <> Err e.
Proof.
  unfold available_for_withdrawal, u64_mul, u64_div. destruct (calc_pool_tokens_for_deposit p l); [|done].
  destruct skip_fee; [done|]. simpl. pose proof (never_unchecked e (z * denominator inverse)).
  destruct (unchecked _); simpl; try congruence. by case_match.
Qed.
Lemma never_withdraw_from e p m skip_fee inverse cs :
  forall r, never e (withdraw_from p m skip_fee inverse cs r).
Proof.
  induction cs as [|[[k l] v] cs IH]; intros r; [apply never_ret|]. cbn [withdraw_from].
  destruct (_ <=? _); [apply IH|]. apply never_bind; [apply never_of_result, never_available|intros a].
  apply never_bind; [apply never_of_result, never_unchecked|intros r'].
  destruct (_ =? _); [apply never_ret|]. apply never_bind; [apply IH|intros [ws r'']; apply never_ret].
Qed.

(** C20: the plan of a withdrawal.  If [prepare_withdraw_accounts] succeeds, the
    amounts add up to what was asked for; it uses the accounts that hold more
    than the minimum in order (validators, the preferred one first, then from the
    largest to the smallest; their transient accounts in the same order; the
    reserve), takes from all but the last everything they are good for, and from
    the last at most that.  If it reports that there is not enough stake, then
    everything all these accounts are good for is less than what was asked for. *)
Theorem prepare_withdraw_correct p amount P skip_fee s r s' :
  node_typed -> pool_typed p -> is_uint 64 amount ->
  prepare_withdraw_accounts config p amount P skip_fee s = (r, s') ->
  match r with
  | Ok ws =>
      total_taken ws = amount /\
      exists cs available, plan_accounts p P cs /\ plan_available p skip_fee available /\
        ((amount = 0 /\ ws = []) \/
         exists front c rest ws' w, cs = front ++ c :: rest /\ ws = ws' ++ [w] /\
           Forall2 (takes_all available) front ws' /\ takes_part available c w)
  | Err NoStakeAccountsWithBalance =>
      exists cs available ws, plan_accounts p P cs /\ plan_available p skip_fee available /\
        Forall2 (takes_all available) cs ws /\ total_taken ws < amount
  | _ => True
  end.
Proof.
  intros Hnode Hp Ha Hx. unfold prepare_withdraw_accounts, minimum_balance_for in Hx.
  destruct r as [ws|e|]; [| |done].
  - inv_cli Hx. subst. apply ask_Ok in Hr, Hr0. apply get_validator_list_Ok in Hr2.
    eapply plan_loop in Hr5 as (cs & available & Hcs & Hav & Ht);
      [|done|done|done|by eexists _, _|done|done|done].
    pose proof (taken_nonneg _ _ _ _ _ Ht (proj1 Ha)) as Hz. assert (z = 0) as -> by lia.
    split; [by rewrite (taken_sum _ _ _ _ _ Ht); lia|]. exists cs, available.
    split_and!; [done|done|]. apply taken_done; [done|apply Ha].
  - destruct e; try done.
    apply skip_bind in Hx as (delegation & s1 & G1%ask_Ok & Hx); [|by apply never_ask].
    apply skip_bind in Hx as (rent & s2 & G2%ask_Ok & Hx); [|by apply never_ask].
    apply skip_bind in Hx as (m & s3 & G3 & Hx); [|apply never_mint].
    apply skip_bind in Hx as (vl & s4 & G4%get_validator_list_Ok & Hx); [|apply never_list].
    apply skip_bind in Hx as (cs & s5 & G5 & Hx); [|apply never_candidates].
    apply skip_bind in Hx as (n & s6 & G6 & Hx); [|apply never_of_result, never_unchecked].
    apply skip_bind in Hx as ([ws r] & s7 & G7 & Hx); [|apply never_withdraw_from].
    apply of_result_Ok in G6 as [G6 ->].
    eapply plan_loop in G7 as (accts & available & Hcs & Hav & Ht);
      [|done|done|done|by eexists _, _|done|done|done].
    apply cli_bind_Err in Hx as [Hx|(u & s8 & _ & Hx)]; [|done].
    unfold cfail_if, of_result, err_if in Hx. destruct (Z.ltb_spec 0 r) as [Hlt|]; [|done].
    destruct (taken_short _ _ _ _ _ Ht Hlt) as [Hall Hsum]. by exists accts, available, ws.
Qed.
End Plan.

(** ** Witnesses *)
Section PlanWitnesses.
Import Demo Scenario.

Definition plan_of (amount : Z) : result CliError (list WithdrawAccount) * CliState :=
  prepare_withdraw_accounts (H:=demo) (H1:=demo_crates) (H2:=demo_node world) demo_config pool amount
    pool_key false start.

Lemma plan_found : exists ws s', plan_of 14000000 = (Ok ws, s') /\ length ws = 3%nat.
Proof. eexists _, _. split; vm_compute; reflexivity. Qed.
Lemma world_pool_typed : pool_typed pool.
Proof. eapply holds_pool_typed, world_holds_pool. Qed.

Lemma prepare_withdraw_correct_witness :
  exists ws, total_taken ws = 14000000 /\ length ws = 3%nat.
Proof.
  destruct plan_found as (ws & s' & Hx & Hl). exists ws. split; [|exact Hl].
  refine (proj1 (prepare_withdraw_correct (H:=demo) (H1:=demo_crates) (H2:=demo_node world)
    demo_config pool 14000000 pool_key false start (Ok ws) s' _ world_pool_typed _ Hx)).
  - split; [intros h n b [=<-]|intros h b [=<-]]; split; vm_compute; congruence.
  - split; vm_compute; congruence.
Defined.
End PlanWitnesses.
