(* ===== verification/Signing.v ===== *)
(** * The client signs with the right keys

    [Transaction::new] panics when the keys that sign are not exactly those the
    message needs.  The commands below never run into this, and never panic
    otherwise. *)

From stdpp Require Import sorting.
From S2P Require Import Prelude Errors Fees Pool BigVec Borsh ValidatorList Runtime Platform Checks.
From S2P Require Import Scenario Admin Deposit Instruction Builders BuildersCorrect Client Commands Output.
From S2P Require Import Main ClientDemo ClientCorrect.

#[local] Open Scope Z_scope.

(** ** Runs without a panic *)

(** [m] never panics, and its result has [Q]. *)
Definition calm {A} (Q : A -> Prop) (m : CLI A) : Prop := forall s,
  match (m s).1 with Ok a => Q a | Err _ => True | Panic => False end.
#[local] Notation quiet := (calm (fun _ => True)).

Create HintDb calm.
Lemma calm_bind {A B} (Q : A -> Prop) (S : B -> Prop) (m : CLI A) (f : A -> CLI B) :
  calm Q m -> (forall a, Q a -> calm S (f a)) -> calm S (m ≫= f).
Proof.
  intros Hm Hf s. specialize (Hm s). unfold mbind, CLI_bind.
  destruct (m s) as [[a|e|] s1]; [by apply Hf|done|done].
Qed.
Lemma calm_weaken {A} (Q S : A -> Prop) (m : CLI A) : calm Q m -> (forall a, Q a -> S a) -> calm S m.
Proof. intros Hm Hw s. specialize (Hm s). destruct (m s).1; auto. Qed.
Lemma calm_ret {A} (Q : A -> Prop) (a : A) : Q a -> calm Q (mret a).
Proof. by intros Ha s. Qed.
Lemma calm_fail {A} (Q : A -> Prop) e : calm Q (fail e : CLI A).
Proof. by intros s. Qed.
Lemma calm_of_result {A} (Q : A -> Prop) (r : result CliError A) :
  match r with Ok a => Q a | Err _ => True | Panic => False end -> calm Q (of_result r).
Proof. by intros Hr s. Qed.
Lemma calm_or_fail {A} (Q : A -> Prop) e (o : option A) :
  (forall a, o = Some a -> Q a) -> calm Q (or_fail e o).
Proof. intros Ho. apply calm_of_result. destruct o; simpl; auto. Qed.
Lemma calm_cfail_if c e : calm (fun _ => c = false) (cfail_if c e).
Proof. apply calm_of_result. by destruct c. Qed.
Lemma calm_ask {A} (q : list Event -> option A) : calm (fun a => exists h, q h = Some a) (ask q).
Proof. intros s. unfold ask. destruct (q (history s)) eqn:E; simpl; eauto. Qed.
Lemma calm_try_ask {A} (q : list Event -> option A) : calm (fun o => exists h, q h = o) (try_ask q).
Proof. intros s. simpl. eauto. Qed.
Lemma calm_new_keypair `{Crates} : quiet new_keypair.
Proof. by intros s. Qed.
Lemma calm_ok {A} (Q : A -> Prop) (m : CLI A) : calm Q m -> quiet (ok m).
Proof. intros Hm s. specialize (Hm s). unfold ok. by destruct (m s) as [[a|e|] s1]. Qed.
Lemma calm_cwhen c m : quiet m -> quiet (cwhen c m).
Proof. intros Hm. destruct c; [done|by apply calm_ret]. Qed.
Lemma quiet_of {A} (Q : A -> Prop) (m : CLI A) : calm Q m -> quiet m.
Proof. intros Hm. by eapply calm_weaken. Qed.
Lemma quiet_ask {A} (q : list Event -> option A) : quiet (ask q).
Proof. eapply quiet_of, calm_ask. Qed.
Lemma quiet_or_fail {A} e (o : option A) : quiet (or_fail e o).
Proof. by apply calm_or_fail. Qed.
Lemma quiet_cfail_if c e : quiet (cfail_if c e).
Proof. eapply quiet_of, calm_cfail_if. Qed.
#[export] Hint Resolve calm_fail calm_new_keypair calm_cwhen quiet_ask quiet_or_fail quiet_cfail_if : calm.

(** One step of a command whose result is not constrained. *)
Ltac skip := eapply (calm_bind (fun _ => True)); [solve [eauto 3 with calm]|intros ? _].

(** ** [unique_signers!] keeps the keys *)

Lemma dedup_elem k l : k ∈ dedup l <-> k ∈ l.
Proof.
  induction l as [|j l IH]; [done|]. cbn [dedup]. rewrite elem_of_cons, <- IH.
  destruct (dedup l) as [|i r]; [by rewrite elem_of_cons|].
  destruct (j =?ₖ i) eqn:E; [apply pubkey_eqb_true in E as ->|]; rewrite !elem_of_cons; tauto.
Qed.
Lemma unique_signers_elem k l : k ∈ unique_signers l <-> k ∈ l.
Proof. unfold unique_signers. by rewrite dedup_elem, merge_sort_Permutation. Qed.

Section Signing.
Context `{R : Runtime} `{C : ClientIds} `{K : Crates} `{N : Node} `{T : !Texts}.

(** The keys that sign the instructions of other programs. *)
Record crates_laws : Prop := {
  transfer_signers a b n : ix_signers (transfer a b n) = [a];
  approve_signers t a d o n ix : token_approve t a d o n = Some ix -> ix_signers ix = [o];
  create_associated_signers p o m t : ix_signers (create_associated_token_account p o m t) = [p];
  authorize_signers s a n t : ix_signers (stake_authorize s a n t None) = [a];
  price_signers n : ix_signers (set_compute_unit_price n) = [];
  limit_signers n : ix_signers (set_compute_unit_limit n) = [];
}.
Hypothesis laws : crates_laws.
(** The node knows the rent of token accounts. *)
Hypothesis rent_known : forall h, exists b,
  rpc_get_minimum_balance_for_rent_exemption h token_account_len = Some b /\ is_uint 64 b.

Variable config : Config.
#[local] Notation program := (stake_pool_program_id config).

Definition all_signers (ixs : list Instruction) : list Pubkey := ix ← ixs; ix_signers ix.
Lemma all_signers_app l l' : all_signers (l ++ l') = all_signers l ++ all_signers l'.
Proof. apply bind_app. Qed.

(** [signers] are the keys a transaction with [ixs] needs. *)
Definition signs (signers : list Pubkey) (ixs : list Instruction) : Prop :=
  forall k, k ∈ signers <-> k = fee_payer config \/ k ∈ all_signers ixs.

Lemma checked_transaction_calm instructions signers fee :
  signs signers instructions ->
  quiet (checked_transaction_with_signers_and_additional_fee config instructions signers fee).
Proof.
  intros Hs. unfold checked_transaction_with_signers_and_additional_fee. cbv zeta.
  eapply calm_bind; [apply calm_ask|intros blockhash _].
  eapply (calm_bind (fun ixs => all_signers ixs = all_signers instructions)).
  - set (l := match compute_unit_price config with Some _ => _ | None => _ end).
    assert (Hl : all_signers l = all_signers instructions).
    { unfold l. destruct (compute_unit_price config) as [n|]; [|done].
      rewrite all_signers_app. unfold all_signers at 2. cbn. by rewrite (price_signers laws), !app_nil_r. }
    assert (Hb : forall ix, ix_signers ix = [] -> all_signers (l ++ [ix]) = all_signers instructions).
    { intros ix Hix. rewrite all_signers_app. unfold all_signers at 2. cbn. by rewrite Hix, !app_nil_r. }
    destruct (compute_unit_limit config) as [|n|].
    + by apply calm_ret.
    + apply calm_ret. apply Hb, (limit_signers laws).
    + unfold add_compute_unit_limit_from_simulation. cbv zeta.
      do 3 skip. apply calm_ret, Hb. exact (limit_signers laws MAX_COMPUTE_UNIT_LIMIT).
  - intros ixs Hixs. eapply calm_bind; [apply calm_ask|intros f _].
    eapply (calm_bind (fun _ => True)); [unfold check_fee_payer_balance; skip; auto with calm|].
    intros _ _. unfold transaction_new, required_signers. cbn [msg_payer msg_instructions].
    fold (all_signers ixs). rewrite Hixs.
    rewrite !bool_decide_eq_true_2; [by apply calm_ret| |]; apply Forall_forall; intros k Hk.
    + apply Hs. by apply elem_of_cons in Hk.
    + apply elem_of_cons. by apply Hs.
Qed.
Lemma send_calm wait tx : quiet (send config wait tx).
Proof.
  intros s. unfold send. destruct (dry_run config); cbn.
  - by destruct (rpc_simulate_transaction _ _).
  - by destruct (rpc_send_transaction _ _ _).
Qed.
Lemma sign_and_send_calm instructions signers fee :
  signs signers instructions -> quiet (sign_and_send config instructions signers fee).
Proof.
  intros Hs. eapply calm_bind; [by apply checked_transaction_calm|intros tx _]. apply send_calm.
Qed.

(** ** Reading *)

(** The node shows [x] in the account [k]. *)
Definition shown {A} `{Borsh A} (k : Pubkey) (x : A) : Prop :=
  exists h a, rpc_get_account h k = Some a /\ try_from_slice_unchecked (acc_data a) = Ok x.

Lemma get_account_data_calm k :
  calm (fun d => exists h a, rpc_get_account h k = Some a /\ d = acc_data a) (get_account_data k).
Proof.
  eapply calm_bind; [apply calm_ask|]. intros a [h Ha]. apply calm_ret. eauto.
Qed.
Lemma get_stake_pool_calm k : calm (shown k) (get_stake_pool k).
Proof.
  eapply calm_bind; [apply get_account_data_calm|]. intros d (h & a & Ha & ->).
  apply calm_or_fail. intros p Hp%result_ok_Some. by exists h, a.
Qed.
Lemma get_validator_list_calm k : calm (shown k) (get_validator_list k).
Proof.
  eapply calm_bind; [apply get_account_data_calm|]. intros d (h & a & Ha & ->).
  apply calm_or_fail. intros p Hp%result_ok_Some. by exists h, a.
Qed.
Lemma quiet_data k : quiet (get_account_data k).
Proof. eapply quiet_of, get_account_data_calm. Qed.
#[local] Hint Resolve quiet_data : calm.
Lemma get_token_account_calm k m : quiet (get_token_account k m).
Proof. unfold get_token_account. do 2 skip. destruct (negb _); [apply calm_fail|by apply calm_ret]. Qed.
Lemma get_token_mint_calm k : quiet (get_token_mint k).
Proof. unfold get_token_mint. skip. auto with calm. Qed.
Lemma get_stake_state_calm k : quiet (get_stake_state_of k).
Proof. unfold get_stake_state_of. skip. auto with calm. Qed.
Lemma delegated_to_calm st : quiet (delegated_to st).
Proof. destruct st; first [by apply calm_fail|by apply calm_ret]. Qed.
Lemma find_validator_calm p v e : quiet (find_validator p v e).
Proof.
  eapply calm_bind; [apply get_validator_list_calm|intros vl _]. skip. by apply calm_ret.
Qed.
Lemma check_funding_calm o k e e' : quiet (check_funding o k e e').
Proof. unfold check_funding. skip. auto with calm. Qed.
#[local] Hint Resolve get_token_account_calm get_token_mint_calm get_stake_state_calm delegated_to_calm
  find_validator_calm check_funding_calm : calm.

(** The list of a node fits the length of a vector. *)
Lemma shown_list_length k (vl : ValidatorList) : shown k vl -> Z.of_nat (length (validators vl)) < 2 ^ 32.
Proof. intros (h & a & _ & [(_ & Hn & _) _]%try_from_slice_unchecked_Ok). exact Hn. Qed.

(** ** Updates *)

(** Instructions nobody has to sign. *)
Definition unsigned (ix : Instruction) : Prop := ix_signers ix = [].
Lemma unsigned_metas ix : Forall (fun m => am_signer m = false) (ix_accounts ix) -> unsigned ix.
Proof.
  unfold unsigned, ix_signers. induction 1 as [|m ms Hm _ IH]; [done|]. cbn. by rewrite Hm.
Qed.
Lemma unsigned_signs ixs : Forall unsigned ixs -> signs [fee_payer config] ixs.
Proof.
  intros Hu k. assert (all_signers ixs = []) as ->.
  { induction Hu as [|ix ixs Hix _ IH]; [done|]. unfold all_signers in *. cbn. by rewrite Hix, IH. }
  rewrite list_elem_of_singleton. set_solver.
Qed.
Lemma chunk_unsigned p P no_merge i c : unsigned (chunk_instruction program p P no_merge i c).
Proof.
  apply unsigned_metas. cbn [ix_accounts chunk_instruction build]. repeat (constructor; [done|]).
  induction c as [|v c IH]; [constructor|]. cbn. by repeat constructor.
Qed.
Lemma chunks_unsigned needed p P no_merge l :
  Forall unsigned (chunk_instructions program needed p P no_merge l).
Proof.
  induction l as [|[i c] l IH]; [constructor|]. unfold chunk_instructions in *. csimpl.
  destruct (needed c); csimpl; [constructor; [apply chunk_unsigned|done]|done].
Qed.
Lemma finals_unsigned p P : Forall unsigned (final_instructions program p P).
Proof. by repeat constructor. Qed.

Lemma update_builders_calm p vl P no_merge (stale_only : bool) e :
  Z.of_nat (length (validators vl)) <= 2 ^ 32 ->
  calm (fun r : list Instruction * list Instruction => Forall unsigned r.1 /\ Forall unsigned r.2)
    (of_program (if stale_only then update_stale_stake_pool program p vl P no_merge e
                 else update_stake_pool program p vl P no_merge)).
Proof.
  intros Hl. apply calm_of_result. rewrite update_instructions, stale_update_instructions by done.
  destruct stale_only; simpl; (split; [apply chunks_unsigned|apply finals_unsigned]).
Qed.
Lemma send_each_calm ixs : Forall unsigned ixs -> quiet (send_each config ixs).
Proof.
  induction 1 as [|ix ixs Hix _ IH]; [by apply calm_ret|]. cbn [send_each].
  eapply calm_bind; [apply checked_transaction_calm, unsigned_signs; by constructor|intros tx _].
  eapply calm_bind; [apply send_calm|by intros _ _].
Qed.
Lemma command_update_calm P force no_merge stale_only : quiet (command_update config P force no_merge stale_only).
Proof.
  unfold command_update. destruct (no_update config); [by apply calm_ret|].
  eapply calm_bind; [apply get_stake_pool_calm|intros p _]. skip.
  destruct (_ && _); [by apply calm_ret|].
  eapply calm_bind; [apply get_validator_list_calm|intros vl Hl%shown_list_length].
  eapply calm_bind; [apply update_builders_calm; lia|]. intros [updates finals] [Hu Hf]. cbn in Hu, Hf.
  eapply (calm_bind (fun _ => True)).
  - apply calm_cwhen. eapply calm_bind; [apply send_each_calm; by apply Forall_take|intros _ _].
    apply sign_and_send_calm, unsigned_signs. by apply Forall_drop.
  - intros _ _. by apply sign_and_send_calm, unsigned_signs.
Qed.
Lemma update_first_calm P : quiet (update_first config P).
Proof. apply calm_cwhen, command_update_calm. Qed.
#[local] Hint Resolve update_first_calm : calm.

(** ** The other commands *)

Lemma signs_unique signers ixs : signs signers ixs -> signs (unique_signers signers) ixs.
Proof. intros Hs k. rewrite unique_signers_elem. apply Hs. Qed.

(** Instructions only the fee payer has to sign. *)
Definition by_payer (ixs : list Instruction) : Prop := forall k, k ∈ all_signers ixs -> k = fee_payer config.
Lemma by_payer_signs ixs : by_payer ixs -> signs [fee_payer config] ixs.
Proof. intros Hb k. rewrite list_elem_of_singleton. specialize (Hb k). tauto. Qed.
Lemma signs_payer signers l ixs : by_payer l -> signs signers ixs -> signs signers (l ++ ixs).
Proof.
  intros Hb Hs k. rewrite all_signers_app, elem_of_app, (Hs k). specialize (Hb k). tauto.
Qed.

Lemma add_associated_calm mint t owner ixs :
  calm (fun r => exists l, r.1.2 = ixs ++ l /\ by_payer l)
    (add_associated_token_account config mint t owner ixs 0).
Proof.
  unfold add_associated_token_account.
  eapply (calm_bind (fun _ => True)); [eapply calm_ok, get_token_account_calm|]. intros [a|] _.
  - apply calm_ret. exists []. rewrite app_nil_r. split; [done|]. intros k []%elem_of_nil.
  - eapply calm_bind; [apply calm_try_ask|]. intros o [h <-]. destruct (rent_known h) as (b & Hb & Hu).
    rewrite Hb. eapply (calm_bind (fun x => x = b)); [by apply calm_of_result|intros ? ->].
    unfold u64_add, unchecked. unfold is_uint in Hu. rewrite Z.add_0_l.
    rewrite (proj2 (Z.leb_le 0 b)), (proj2 (Z.ltb_lt b (2 ^ 64))) by lia.
    eapply (calm_bind (fun _ => True)); [by apply calm_of_result|intros c _]. apply calm_ret.
    eexists. split; [done|]. intros k. unfold all_signers. cbn.
    rewrite (create_associated_signers laws). set_solver.
Qed.

Lemma deposit_stake_signs pool vls o wa ds dw vs rs t mf rf pm tp m signers :
  (forall k, k ∈ signers <-> k = fee_payer config \/ k = dw \/ o = Some k) ->
  signs signers (deposit_stake_internal program pool vls o wa ds dw vs rs t mf rf pm tp m).
Proof.
  intros Hs k. rewrite Hs. unfold deposit_stake_internal, all_signers.
  destruct o as [a|], m as [n|]; cbn; rewrite !(authorize_signers laws); cbn; set_solver.
Qed.
Lemma deposit_each_calm p P w r f vl signers stakes :
  (forall k, k ∈ signers <-> k = fee_payer config \/ k = w \/ funding_authority config = Some k) ->
  quiet (deposit_each config p P w r f vl signers stakes).
Proof.
  intros Hs. induction stakes as [|stake stakes IH]; [by apply calm_ret|]. cbn [deposit_each].
  do 3 skip. skip. eapply (calm_bind (fun _ => True)); [|by intros _ _].
  apply sign_and_send_calm. destruct (funding_authority config); by apply deposit_stake_signs.
Qed.

(** The pool [P] has the configured staker, or the configured manager. *)
Definition has_staker (P : Pubkey) : Prop := forall p : StakePool, shown P p -> staker p = config_staker config.
Definition has_manager (P : Pubkey) : Prop := forall p : StakePool, shown P p -> manager p = config_manager config.

(** Proves [signs] for instructions with known accounts. *)
Ltac solve_signs :=
  let k := fresh in intros k; rewrite ?unique_signers_elem; unfold all_signers; cbn;
  rewrite ?(transfer_signers laws); cbn; set_solver.
Ltac read_pool Hp := eapply calm_bind; [apply get_stake_pool_calm|intros p Hp].

Lemma staker_commands_calm P v n :
  has_staker P ->
  quiet (command_vsa_remove config P v) /\ quiet (command_increase_validator_stake config P v n) /\
  quiet (command_decrease_validator_stake config P v n).
Proof.
  intros Hs. split_and!;
    unfold command_vsa_remove, command_increase_validator_stake, command_decrease_validator_stake;
    skip; read_pool Hp; skip; case_match; apply sign_and_send_calm; rewrite <- (Hs _ Hp); solve_signs.
Qed.
Lemma set_preferred_calm P t v : quiet (command_set_preferred_validator config P t v).
Proof. read_pool Hp. apply sign_and_send_calm. solve_signs. Qed.
Lemma manager_commands_calm P k o ft f :
  quiet (command_set_staker config P k) /\ quiet (command_set_funding_authority config P o ft) /\
  quiet (command_set_fee config P f).
Proof.
  split_and!; unfold command_set_staker, command_set_funding_authority, command_set_fee; skip;
    apply sign_and_send_calm; try destruct o; solve_signs.
Qed.
Lemma set_manager_calm P new_manager receiver :
  (new_manager = None -> has_manager P) -> quiet (command_set_manager config P new_manager receiver).
Proof.
  intros Hm. unfold command_set_manager. skip. read_pool Hp.
  eapply (calm_bind (fun _ => True)).
  - destruct receiver; [do 2 skip|]; by apply calm_ret.
  - intros r _. apply sign_and_send_calm. destruct new_manager as [k'|]; [solve_signs|].
    simpl. rewrite (Hm eq_refl _ Hp). solve_signs.
Qed.

(** A text whose length fits the encoding. *)
Definition short (t : list byte) : Prop := Z.of_nat (length t) < 2 ^ 32.
Lemma metadata_commands_calm P name symbol uri :
  has_manager P -> short name -> short symbol -> short uri ->
  quiet (command_create_token_metadata config P name symbol uri) /\
  quiet (command_update_token_metadata config P name symbol uri).
Proof.
  intros Hm Hn Hs Hu. assert (Hv : forall i, metadata_to_vec i name symbol uri = Some (instruction_ser i)).
  { intros i. unfold metadata_to_vec. cbn [forallb]. unfold short in *.
    by rewrite !(proj2 (Z.ltb_lt _ _)) by done. }
  split; read_pool Hp;
    (eapply (calm_bind (fun ix => signs [fee_payer config; config_manager config] [ix]));
     [|intros ix Hix; by apply sign_and_send_calm, signs_unique]);
    unfold create_token_metadata, update_token_metadata; rewrite Hv; apply calm_of_result;
    cbn [unwrap mbind result_bind map_err]; rewrite <- (Hm _ Hp); solve_signs.
Qed.

Ltac read_associated l Hb :=
  eapply calm_bind; [apply add_associated_calm|];
  let a := fresh in let i := fresh in let b := fresh in
  intros [[a i] b] (l & Hb); cbn [fst snd] in Hb; destruct Hb as [-> Hb].

Lemma deposit_stake_calm P stake w receiver referrer :
  quiet (command_deposit_stake config P stake w receiver referrer).
Proof.
  unfold command_deposit_stake. skip. read_pool Hp. do 3 skip. case_match. skip. read_associated l Hb.
  eapply (calm_bind (fun r => signs r.2 r.1)).
  - destruct (funding_authority config) as [d|].
    + skip. apply calm_ret. apply deposit_stake_signs. set_solver.
    + apply calm_ret. apply deposit_stake_signs. set_solver.
  - intros [ixs signers] Hs. by apply sign_and_send_calm, signs_unique, signs_payer.
Qed.
Lemma deposit_all_stake_calm P k w receiver referrer :
  quiet (command_deposit_all_stake config P k w receiver referrer).
Proof.
  unfold command_deposit_all_stake. skip.
  eapply (calm_bind (fun _ => True)); [unfold get_all_stake; skip; by apply calm_ret|intros stakes _].
  read_pool Hp. read_associated l Hb.
  eapply (calm_bind (fun _ => True)); [by apply calm_cwhen, sign_and_send_calm, by_payer_signs|intros _ _].
  eapply calm_bind; [apply get_validator_list_calm|intros vl _].
  eapply (calm_bind (fun signers => forall k,
    k ∈ signers <-> k = fee_payer config \/ k = w \/ funding_authority config = Some k)).
  - destruct (funding_authority config) as [d|]; [skip|]; apply calm_ret; set_solver.
  - intros signers Hs. apply deposit_each_calm. intros k'. rewrite unique_signers_elem. apply Hs.
Qed.
Lemma signs_transfer signers a b n l ixs :
  by_payer l -> signs signers (transfer a b n :: ixs) -> signs signers (([transfer a b n] ++ l) ++ ixs).
Proof.
  intros Hb Hs k. rewrite (Hs k). unfold by_payer, all_signers in *. specialize (Hb k).
  rewrite !bind_app. cbn. rewrite !elem_of_app. set_solver.
Qed.
Lemma deposit_sol_calm P from receiver referrer n : quiet (command_deposit_sol config P from receiver referrer n).
Proof.
  unfold command_deposit_sol. do 3 skip. read_pool Hp. skip. read_associated l Hb.
  eapply (calm_bind (fun r => signs r.2
    [transfer (default (fee_payer config) from) a2 n; r.1])).
  - destruct (funding_authority config) as [d|]; [skip|]; apply calm_ret; destruct from; solve_signs.
  - intros [ix signers] Hs. by apply sign_and_send_calm, signs_unique, signs_transfer.
Qed.
Lemma deposit_wsol_calm P from receiver referrer x :
  quiet (command_deposit_wsol_with_session config P from receiver referrer x).
Proof.
  unfold command_deposit_wsol_with_session. do 2 skip. read_pool Hp.
  eapply (calm_bind (fun _ => True)); [eapply quiet_of, calm_try_ask|intros balance _]. skip.
  read_associated l Hb.
  eapply (calm_bind (fun r => forall k, k ∈ r.2 <->
    k = fee_payer config \/ k = default (fee_payer config) from \/ r.1 = Some k)).
  - destruct (funding_authority config) as [d|]; [skip|]; apply calm_ret; destruct from; set_solver.
  - intros [o signers] Hs. apply sign_and_send_calm, signs_unique, signs_payer; [done|].
    intros k. rewrite Hs. unfold all_signers. destruct o; cbn; set_solver.
Qed.
Lemma withdraw_wsol_calm P from t x : quiet (command_withdraw_wsol_with_session config P from t x).
Proof.
  unfold command_withdraw_wsol_with_session. skip. read_pool Hp. do 3 skip. read_associated l Hb.
  eapply (calm_bind (fun r => (forall k, k ∈ r.2 <->
    k = fee_payer config \/ k = default (fee_payer config) from \/ r.1.1 = Some k) /\
    (r.1.2 = fee_payer config \/ r.1.2 = default (fee_payer config) from))).
  - destruct (funding_authority config) as [d|]; [skip|]; apply calm_ret; destruct from; set_solver.
  - intros [[o payer] signers] [Hs Hpay]. apply sign_and_send_calm, signs_unique, signs_payer; [done|].
    intros k. rewrite Hs. unfold all_signers. cbn in Hpay. destruct o, Hpay; subst; cbn; set_solver.
Qed.
Lemma withdraw_sol_calm P t k x : quiet (command_withdraw_sol config P t k x).
Proof.
  unfold command_withdraw_sol. skip. read_pool Hp. do 3 skip.
  eapply (calm_bind (fun _ => True)); [auto with calm|intros u _].
  eapply (calm_bind (fun ix => ix_signers ix = [token_owner config])).
  { apply calm_or_fail. intros ix Hix. by eapply (approve_signers laws). }
  intros approve Ha.
  eapply (calm_bind (fun r => forall k, k ∈ r.2 <->
    k = fee_payer config \/ k = token_owner config \/ k ∈ ix_signers r.1)).
  - destruct (funding_authority config) as [d|]; [skip|]; apply calm_ret; cbn; set_solver.
  - intros [ix signers] Hs. apply sign_and_send_calm, signs_unique. intros k'. rewrite Hs.
    unfold all_signers. cbn. rewrite Ha. set_solver.
Qed.

(** ** All of them *)

(** The commands covered, with arguments as [clap] lets them through and, for
    those that use the authority stored in the pool, the right configuration. *)
Definition covered (c : Command) : Prop :=
  match c with
  | CreateTokenMetadata P name symbol uri | UpdateTokenMetadata P name symbol uri =>
      has_manager P /\ short name /\ short symbol /\ short uri
  | RemoveValidator P _ => has_staker P
  | IncreaseValidatorStake P _ amount | DecreaseValidatorStake P _ amount =>
      has_staker P /\ is_Some (sol_str_to_lamports amount)
  | DepositSol _ _ _ _ amount => is_Some (sol_str_to_lamports amount)
  | SetPreferredValidator _ preferred_type _ => preferred_type ∈ ["deposit"; "withdraw"]%string
  | SetManager P None _ => has_manager P
  | SetFundingAuthority _ _ funding_type =>
      funding_type ∈ ["sol-deposit"; "stake-deposit"; "sol-withdraw"]%string
  | SetFee _ _ _ fee_type =>
      fee_type ∈ ["epoch"; "stake-deposit"; "sol-deposit"; "stake-withdrawal"; "sol-withdrawal"]%string
  | SetReferralFee _ fee fee_type => fee <= 100 /\ fee_type ∈ ["sol"; "stake"]%string
  | SetManager _ (Some _) _ | DepositStake _ _ _ _ _ | DepositAllStake _ _ _ _ _
  | DepositWsolWithSession _ _ _ | WithdrawWsolWithSession _ _ _ _ | WithdrawSol _ _ _ _
  | SetStaker _ _ | Update _ _ _ _ => True
  | CreatePool _ _ _ _ _ _ _ _ _ _ _ _ _ _ | AddValidator _ _ | WithdrawStake _ _ _ _ _ _
  | List _ | ListAll => False
  end.

Lemma lamports_calm amount : is_Some (sol_str_to_lamports amount) -> quiet (lamports_of amount).
Proof. intros [n Hn]. unfold lamports_of. rewrite Hn. by apply calm_of_result. Qed.
Lemma choose_calm {A} t (cs : list (string * A)) : t ∈ fst <$> cs -> quiet (choose t cs).
Proof.
  intros Ht. unfold choose, unwrap_or_panic. apply calm_of_result.
  destruct (List.find _ _) as [c|] eqn:E; [done|].
  apply list_elem_of_fmap in Ht as ([t' a] & -> & Hin%list_elem_of_In).
  apply (List.find_none _ _ E) in Hin. by apply bool_decide_eq_false in Hin.
Qed.

(** The proof for one command. *)
Ltac command_calm :=
  lazymatch goal with
  | |- calm _ (lamports_of _ ≫= _) =>
      eapply (calm_bind (fun _ => True)); [by apply lamports_calm|intros ? _]; command_calm
  | |- calm _ (choose _ _ ≫= _) =>
      eapply (calm_bind (fun _ => True)); [by apply choose_calm|intros ? _]; command_calm
  | |- calm _ (unwrap_or_panic _ ≫= _) =>
      eapply (calm_bind (fun _ => True));
        [rewrite (proj2 (Z.leb_le _ _)) by done; by apply calm_of_result|intros ? _]; command_calm
  | |- calm _ (command_create_token_metadata _ _ _ _ _) => by apply metadata_commands_calm
  | |- calm _ (command_update_token_metadata _ _ _ _ _) => by apply metadata_commands_calm
  | |- calm _ (command_vsa_remove _ ?P ?v) => by apply (staker_commands_calm P v 0)
  | |- calm _ (command_increase_validator_stake _ ?P ?v ?n) =>
      refine (proj1 (proj2 (staker_commands_calm P v n _))); assumption
  | |- calm _ (command_decrease_validator_stake _ ?P ?v ?n) =>
      refine (proj2 (proj2 (staker_commands_calm P v n _))); assumption
  | |- calm _ (command_set_preferred_validator _ _ _ _) => apply set_preferred_calm
  | |- calm _ (command_deposit_stake _ _ _ _ _ _) => apply deposit_stake_calm
  | |- calm _ (command_deposit_sol _ _ _ _ _ _) => apply deposit_sol_calm
  | |- calm _ (command_deposit_wsol_with_session _ _ _ _ _ _) => apply deposit_wsol_calm
  | |- calm _ (command_withdraw_wsol_with_session _ _ _ _ _) => apply withdraw_wsol_calm
  | |- calm _ (command_update _ _ _ _ _) => apply command_update_calm
  | |- calm _ (command_withdraw_sol _ _ _ _ _) => apply withdraw_sol_calm
  | |- calm _ (command_set_manager _ _ _ _) => by apply set_manager_calm
  | |- calm _ (command_set_staker _ ?P ?k) =>
      apply (manager_commands_calm P k None FundingSolDeposit (SolReferral 0))
  | |- calm _ (command_set_funding_authority _ ?P ?o ?t) =>
      apply (manager_commands_calm P (fee_payer config) o t (SolReferral 0))
  | |- calm _ (command_set_fee _ ?P ?f) =>
      apply (manager_commands_calm P (fee_payer config) None FundingSolDeposit f)
  | |- calm _ (command_deposit_all_stake _ _ _ _ _ _) => apply deposit_all_stake_calm
  end.

Lemma main_calm fuel c : covered c -> quiet (main fuel config c).
Proof.
  intros Hc.
  destruct c as [| | | | | | | | | | | | | | | |P [m|] r| | | | | |]; cbn [covered] in Hc; try contradiction;
    cbv beta iota zeta delta [main];
    (eapply (calm_bind (fun _ => True)); [|intros _ _; exact (calm_ret _ _ I)]).
  all: repeat match goal with H : _ /\ _ |- _ => destruct H end.
  all: command_calm.
Qed.

(** none of these commands panics, whatever the node answers (as long as it
    knows the rent of a token account): the keys they sign with are exactly those
    their transactions need, instructions of other programs and of the optional
    authorities included, no sum overflows and no unwrap fails.  The commands that
    rely on an authority stored in the pool need the configured one to be it. *)
Theorem commands_never_panic fuel c s : covered c -> (main fuel config c s).1 <> Panic.
Proof. intros Hc Hp. pose proof (main_calm fuel c Hc s) as Hq. by rewrite Hp in Hq. Qed.
End Signing.

(** ** Witness *)
Section SigningWitness.
Import Demo Scenario.

Lemma demo_laws : crates_laws (C:=demo_ids) (K:=demo_crates).
Proof. constructor; try reflexivity. intros t a d o n ix [=<-]. reflexivity. Qed.

Lemma commands_never_panic_witness :
  (main (H:=demo) (H0:=demo_ids) (H1:=demo_crates) (H2:=demo_node world) (H3:=demo_texts) 1 demo_config
     (DepositSol (H1:=demo_crates) pool_key None None None "0.000001") start).1 <> Panic.
Proof.
  refine (commands_never_panic (R:=demo) (C:=demo_ids) (K:=demo_crates) (N:=demo_node world) (T:=demo_texts)
    demo_laws _ demo_config 1 _ start _).
  - intros h. exists RENT. split; [reflexivity|split; vm_compute; congruence].
  - eexists. reflexivity.
Defined.
End SigningWitness.
