(* ===== verification/CommandCases.v ===== *)
(** * Particular commands

    The search for a seed when a validator is added, the limit on compute units,
    and inputs on which commands panic or do more than they say. *)

From stdpp Require Import pretty.
From S2P Require Import Prelude Errors Fees Pool BigVec Borsh ValidatorList Runtime Platform Checks.
From S2P Require Import Scenario Admin Deposit Instruction Builders BuildersCorrect Client Commands Output.
From S2P Require Import Tracking Contracts Main ClientDemo ClientCorrect Signing.

#[local] Open Scope Z_scope.

Section Cases.
Context `{R : Runtime} `{C : ClientIds} `{K : Crates} `{N : Node}.
Variable config : Config.
#[local] Notation program := (stake_pool_program_id config).

(** ** Adding a validator *)

(** The node does not say of the reserve of the pool [P] that it does not exist. *)
Definition reserve_exists (P : Pubkey) : Prop := forall (p : StakePool) h,
  shown P p -> rpc_get_account_with_commitment h (reserve_stake p) <> Some None.

(** One round is enough, and settles for the address without a seed. *)
Lemma find_free_seed_once fuel p P v s :
  (forall h, rpc_get_account_with_commitment h (reserve_stake p) <> Some None) ->
  find_free_seed config (S fuel) p P v 0 s =
    (if rpc_get_account_with_commitment (history s) (reserve_stake p)
     then Ok (Some (fst (find_stake_program_address program v P None), None)) else Err RpcError,
     mkCli (history s ++ [Queried]) (keypairs s)).
Proof.
  intros Hr. cbn [find_free_seed]. unfold mbind, CLI_bind, ask. specialize (Hr (history s)).
  by destruct (rpc_get_account_with_commitment _ _) as [[a|]|].
Qed.

(** The instruction the command is for. *)
Definition added (p : StakePool) (P v : Pubkey) (seed : option Z) (e : Event) : Prop :=
  match e with
  | Submitted true tx | Simulated tx =>
      List.head (msg_instructions (tx_message tx)) =
        Some (add_validator_to_pool_with_vote program p P v seed)
  | _ => False
  end.

(** A transaction starts with the instructions it was made for. *)
Lemma sign_and_send_last ix signers s u s' :
  sign_and_send config [ix] signers 0 s = (Ok u, s') ->
  exists h e, history s' = h ++ [e] /\
    match e with
    | Submitted true tx | Simulated tx => List.head (msg_instructions (tx_message tx)) = Some ix
    | _ => False
    end.
Proof.
  intros (tx & s1 & Ht & Hx)%cli_bind_Ok.
  assert (Hh : List.head (msg_instructions (tx_message tx)) = Some ix).
  { unfold checked_transaction_with_signers_and_additional_fee in Ht. cbv zeta in Ht.
    apply cli_bind_Ok in Ht as (b & s2 & _ & Ht). apply cli_bind_Ok in Ht as (ixs & s3 & Hi & Ht).
    apply cli_bind_Ok in Ht as (f & s4 & _ & Ht). apply cli_bind_Ok in Ht as (x & s5 & _ & Ht).
    unfold transaction_new in Ht. destruct (_ && _); [|done]. apply cret_Ok in Ht as [<- _]. simpl.
    assert (exists l, ixs = ix :: l) as [l ->]; [|done].
    destruct (compute_unit_price config), (compute_unit_limit config);
      try (apply cret_Ok in Hi as [<- _]; simpl; by eexists);
      unfold add_compute_unit_limit_from_simulation in Hi; cbv zeta in Hi;
      apply cli_bind_Ok in Hi as (o & s6 & _ & Hi); apply cli_bind_Ok in Hi as (n & s7 & _ & Hi);
      apply cli_bind_Ok in Hi as (n' & s8 & _ & Hi); apply cret_Ok in Hi as [<- _]; simpl; by eexists. }
  unfold send_transaction, send in Hx. destruct (dry_run config).
  - injection Hx as _ <-. by exists (history s1), (Simulated tx).
  - injection Hx as _ <-. by exists (history s1), (Submitted true tx).
Qed.

Lemma cli_bind_run {A B} (m : CLI A) (f : A -> CLI B) s :
  (m ≫= f) s = match m s with
               | (Ok a, s) => f a s
               | (Err e, s) => (Err e, s)
               | (Panic, s) => (Panic, s)
               end.
Proof. done. Qed.

(** What the command does once the pool and the list are read. *)
Definition add_found (p : StakePool) (P v : Pubkey) (found : option (Pubkey * option Z)) : CLI (option unit) :=
  match found with
  | None => mret None
  | Some (_, seed) =>
      sign_and_send config [add_validator_to_pool_with_vote program p P v seed]
        (unique_signers [fee_payer config; config_staker config]) 0;;
      mret (Some tt)
  end.
Lemma add_after_read fuel p P v s :
  (forall h, rpc_get_account_with_commitment h (reserve_stake p) <> Some None) ->
  (update_first config P;; found ← find_free_seed config (S fuel) p P v 0; add_found p P v found) s =
  (update_first config P;;
   ask (fun h => rpc_get_account_with_commitment h (reserve_stake p));;
   add_found p P v (Some (fst (find_stake_program_address program v P None), None))) s.
Proof.
  intros Hr. rewrite !cli_bind_run. destruct (update_first config P s) as [[u|e|] s1]; [|done..].
  rewrite !cli_bind_run, find_free_seed_once by done. unfold ask.
  by destruct (rpc_get_account_with_commitment _ _) as [a|].
Qed.

(** The command without the search. *)
Definition add_direct (P v : Pubkey) : CLI (option unit) :=
  stake_pool ← get_stake_pool P;
  vlist ← get_validator_list (validator_list stake_pool);
  if vl_contains vlist v then mret (Some tt)
  else
    update_first config P;;
    ask (fun h => rpc_get_account_with_commitment h (reserve_stake stake_pool));;
    add_found stake_pool P v (Some (fst (find_stake_program_address program v P None), None)).

Lemma calm_run {A} (Q : A -> Prop) (m : CLI A) s a s' : calm Q m -> m s = (Ok a, s') -> Q a.
Proof. intros Hm Hx. specialize (Hm s). by rewrite Hx in Hm. Qed.

Lemma add_is_direct fuel P v s :
  reserve_exists P -> command_vsa_add config (S fuel) P v s = add_direct P v s.
Proof.
  intros Hr. unfold command_vsa_add, add_direct. rewrite !cli_bind_run.
  destruct (get_stake_pool P s) as [[p|e|] s1] eqn:Ep; [|done..].
  apply (calm_run _ _ _ _ _ (get_stake_pool_calm P)) in Ep. rewrite !cli_bind_run.
  destruct (get_validator_list _ s1) as [[vl|e|] s2]; [|done..].
  destruct (vl_contains vl v); [done|]. apply add_after_read. intros h. by apply Hr.
Qed.

Lemma add_direct_Ok P v s o s' :
  add_direct P v s = (Ok o, s') -> o = Some tt /\
    ((exists k (vl : ValidatorList), shown k vl /\ vl_contains vl v = true) \/
     exists p h e, shown P p /\ history s' = h ++ [e] /\ added p P v None e).
Proof.
  intros (p & s1 & Hp & (vl & s2 & Hl & Hx)%cli_bind_Ok)%cli_bind_Ok.
  apply (calm_run _ _ _ _ _ (get_stake_pool_calm P)) in Hp.
  apply (calm_run _ _ _ _ _ (get_validator_list_calm _)) in Hl.
  destruct (vl_contains vl v) eqn:Ev.
  - apply cret_Ok in Hx as [<- _]. split; [done|]. left. eauto.
  - apply cli_bind_Ok in Hx as (u & s3 & _ & Hx). apply cli_bind_Ok in Hx as (a & s4 & _ & Hx).
    apply cli_bind_Ok in Hx as (u' & s5 & (h & e & Hh & He)%sign_and_send_last & [<- ->]%cret_Ok).
    split; [done|]. right. by exists p, h, e.
Qed.

End Cases.

(** ** A pool without a withdrawal fee *)
Section ZeroFee.
Context `{R : Runtime} `{C : ClientIds} `{K : Crates} `{N : Node}.
Variable config : Config.

Lemma available_zero_fee p l : available_for_withdrawal p false (mkFee 0 0) l = Panic.
Proof.
  unfold available_for_withdrawal. destruct (calc_pool_tokens_for_deposit p l) as [t|]; [|done].
  cbn [unwrap mbind result_bind]. unfold u64_mul. cbn [denominator numerator]. by rewrite Z.mul_0_r.
Qed.
Lemma withdraw_zero_fee p m cs r s ws r' s' :
  withdraw_from p m false (mkFee 0 0) cs r s = (Ok (ws, r'), s') -> ws = [] /\ r' = r.
Proof.
  induction cs as [|[[k l] v] cs IH]; intros Hx; cbn [withdraw_from] in Hx.
  - by apply cret_Ok in Hx as [[=<- <-] _].
  - destruct (_ <=? _); [by apply IH|]. apply cli_bind_Ok in Hx as (a & s1 & Ha & _).
    by rewrite available_zero_fee in Ha.
Qed.

(** A withdrawal of stake that the client plans itself never works out for a pool
    whose withdrawal fee is 0/0 (a fee of zero): it divides by the fee's
    complement, which is 0 too. *)
Theorem zero_fee_withdrawal_fails p amount P s :
  stake_withdrawal_fee p = mkFee 0 0 -> 0 < amount ->
  forall ws s', prepare_withdraw_accounts config p amount P false s <> (Ok ws, s').
Proof.
  intros Hf Ha ws s' Hx. unfold prepare_withdraw_accounts in Hx. rewrite Hf in Hx. cbv zeta in Hx.
  repeat match type of Hx with
    | (mbind _ _) _ = (Ok _, _) => apply cli_bind_Ok in Hx as (? & ? & ? & Hx)
    | (let '(_, _) := ?x in _) _ = _ => destruct x
    end.
  rename select (u64_sub _ _ _ = _) into Hn. apply of_result_Ok in Hn as [Hn _]. injection Hn as <-.
  rename select (withdraw_from _ _ _ _ _ _ _ = _) into Hw. apply withdraw_zero_fee in Hw as [-> ->].
  rename select (cfail_if _ _ _ = _) into Hc. apply of_result_Ok in Hc as [Hc%err_if_Ok _]. lia.
Qed.
End ZeroFee.

(** ** Listing a pool *)
Section Listing.
Context `{R : Runtime} `{C : ClientIds} `{K : Crates} `{N : Node} `{T : !Texts}.
Variable config : Config.

(** How an entry of the list is shown. *)
Definition listed (epoch : Z) (v : ValidatorStakeInfo) (a : CliStakePoolStakeAccountInfo) : Prop :=
  ca_vote_account_address a = pubkey_to_string (vote_account_address v) /\
  ca_validator_lamports a =
    uint_of_array (active_stake_lamports v) + uint_of_array (transient_stake_lamports v) /\
  (ca_update_required a = true <-> uint_of_array (vsi_last_update_epoch v) <> epoch).

Lemma cli_stake_account_listed P epoch v a :
  cli_stake_account config P epoch v = Ok a -> listed epoch v a.
Proof.
  unfold cli_stake_account. intros (n & Hn%unwrap_Ok%result_ok_Some & [=<-])%bind_Ok.
  unfold stake_lamports in Hn. apply ok_or_Ok, checked_add_Some in Hn as [-> _].
  split_and!; [done|done|]. cbn [ca_update_required]. by rewrite negb_true_iff, Z.eqb_neq.
Qed.
Lemma cli_pool_from_fields P p vl w r :
  cli_pool_from P p vl w = Ok r ->
  cp_total_lamports r = total_lamports p /\ cp_pool_token_supply r = pool_token_supply p /\
  length (cp_validator_list r) = length (validators vl).
Proof.
  unfold cli_pool_from. intros (vs & Hvs & [=<-])%bind_Ok. split_and!; [done|done|].
  symmetry. by eapply Forall2_length, mapM_Forall2.
Qed.

End Listing.

(** ** The limit on compute units *)

Lemma digit_of_char d : (d < 10)%N -> digit_of (pretty_N_char d) = Some (Z.of_N d).
Proof.
  intros Hd. assert (d = 0 \/ d = 1 \/ d = 2 \/ d = 3 \/ d = 4 \/ d = 5 \/ d = 6 \/ d = 7 \/ d = 8 \/ d = 9)%N
    by lia. naive_solver.
Qed.
Lemma parse_digits_step w n d s :
  0 <= n -> (d < 10)%N -> 10 * n + Z.of_N d < 2 ^ w ->
  parse_digits w n (String (pretty_N_char d) s) = parse_digits w (10 * n + Z.of_N d) s.
Proof.
  intros Hn Hd Hr. cbn [parse_digits]. rewrite digit_of_char by done. cbn [mbind option_bind].
  rewrite checked_mul_fits by lia. cbn [mbind option_bind].
  rewrite checked_add_fits by lia. cbn [mbind option_bind]. f_equal. lia.
Qed.
(** Parsing a printed number goes on with the number. *)
Lemma parse_printed w n s :
  Z.of_N n < 2 ^ w -> parse_digits w 0 (pretty_N_go n s) = parse_digits w (Z.of_N n) s.
Proof.
  revert s. induction (N.lt_wf_0 n) as [n _ IH]. intros s Hn.
  destruct (decide (0 < n)%N) as [Hp|]; [|by replace n with 0%N by lia].
  rewrite pretty_N_go_step by done. rewrite IH; [|by apply N.div_lt|].
  - rewrite parse_digits_step; [| |apply N.mod_lt; lia|].
    + f_equal. rewrite (N.div_mod n 10) at 3 by lia. lia.
    + apply N2Z.is_nonneg.
    + pose proof (N.div_mod n 10 ltac:(lia)). lia.
  - eapply Z.le_lt_trans; [|exact Hn]. apply N2Z.inj_le, N.Div0.div_le_upper_bound. lia.
Qed.
Lemma printed_head n s :
  (0 < n)%N -> exists d r, (d < 10)%N /\ pretty_N_go n s = String (pretty_N_char d) r.
Proof.
  revert s. induction (N.lt_wf_0 n) as [n _ IH]. intros s Hn. rewrite pretty_N_go_step by done.
  destruct (decide (0 < n / 10)%N) as [Hp|Hz]; [by apply IH; [apply N.div_lt|]|].
  apply N.nlt_ge, N.le_0_r in Hz. rewrite Hz, pretty_N_go_0. eexists _, _. split; [|done]. by apply N.mod_lt.
Qed.
Lemma parse_uint_pretty w n : 0 <= n < 2 ^ w -> parse_uint w (pretty n) = Some n.
Proof.
  intros Hn. destruct n as [|n|n]; [| |lia].
  { apply (parse_digits_step w 0 0 ""); lia. }
  change (pretty (Zpos n)) with (pretty_N_go (Npos n) "").
  destruct (printed_head (Npos n) "" ltac:(lia)) as (d & r & Hd & E).
  pose proof (parse_printed w (Npos n) "" ltac:(simpl; lia)) as Hp. rewrite E in *. unfold parse_uint.
  rewrite bool_decide_eq_false_2; [exact Hp|].
  intros Hc%(f_equal digit_of). by rewrite digit_of_char in Hc.
Qed.

(** the option for compute units.  The check that clap runs on the argument
    accepts exactly the texts that can be parsed, so that the unwrap of the parsed
    value never panics; a limit that is written out in decimal is read back, and
    DEFAULT leaves the limit alone.  Without the argument the limit comes from a
    simulation when a price is set, and only then. *)
Theorem compute_unit_limit_correct price :
  (forall s, is_compute_unit_limit_or_simulated s = true <-> configured_limit (Some s) price <> Panic) /\
  (forall n, 0 <= n < 2 ^ 32 -> configured_limit (Some (pretty n)) price = Ok (LimitStatic n)) /\
  configured_limit (Some "DEFAULT"%string) price = Ok LimitDefault /\
  configured_limit None price = Ok (if price then LimitSimulated else LimitDefault).
Proof.
  split_and!; [| |done|done].
  - intros s. apply checked_limit.
  - intros n Hn. unfold configured_limit, parse_compute_unit_limit. unfold parse_u32.
    by rewrite parse_uint_pretty.
Qed.

(** ** Cases and witnesses *)
Section CaseWitnesses.
Import Demo Scenario.
#[local] Existing Instance demo_ids.
#[local] Existing Instance demo_crates.

Lemma compute_unit_limit_correct_witness :
  configured_limit (Some (pretty 1400000)) None = Ok (LimitStatic 1400000).
Proof. apply (compute_unit_limit_correct None). split; vm_compute; congruence. Defined.

Lemma world_shown_pool p : shown (N:=static_node world) pool_key p -> p = pool.
Proof.
  intros (h' & a & Ha & Hp). destruct world_holds_pool as (_ & a' & Ha' & _ & Hp').
  change (accounts world !! pool_key = Some a) in Ha. rewrite Ha' in Ha. injection Ha as <-.
  rewrite Hp' in Hp. by injection Hp as <-.
Qed.
Lemma world_reserve_exists : reserve_exists (N:=static_node world) pool_key.
Proof. intros p h Hp. rewrite (world_shown_pool p Hp). vm_compute. discriminate. Qed.

Lemma world_listed : exists r s',
  command_list (H2:=static_node world) (H3:=demo_texts) demo_config pool_key start = (Ok r, s').
Proof.
  assert (E : is_Ok (fst (command_list (H2:=static_node world) (H3:=demo_texts) demo_config pool_key start)) = true)
    by (vm_compute; reflexivity).
  destruct (command_list _ _ _) as [[r|e|] s']; [by exists r, s'|done..].
Qed.

(** A pool account that was created before but not initialized: the client adds
    the key of the pool to the signers although no instruction needs it, and
    [Transaction::new] panics. *)
Definition half_created : World :=
  mkWorld (<[pool_key := mkAccount RENT (replicate 611 x00) program]>
             (delete list_key (accounts world))) [] [] program [].
Theorem resumed_creation_panics :
  (setup_and_initialize_validator_list_with_stake_pool (H2:=static_node half_created) demo_config
     pool_key list_key reserve_key mint_key token_id fee_key None (mkFee 100 1) (mkFee 100 1) (mkFee 100 1)
     0 4 withdraw_authority RENT 301 start).1 = Panic.
Proof. vm_compute. reflexivity. Qed.

(** The instructions of the last transaction. *)
Definition last_instructions (s : CliState) : list Instruction :=
  match last (history s) with
  | Some (Submitted _ tx) => msg_instructions (tx_message tx)
  | _ => []
  end.

(** With a receiver given and no associated account, a deposit of SOL still
    creates the associated account. *)
Theorem deposit_creates_unused_account :
  let s := (command_deposit_sol (H2:=static_node world) demo_config pool_key None
              (Some user_tokens_key) None 1000000 start).2 in
  create_associated_token_account payer_key user_key mint_key token_id ∈ last_instructions s.
Proof. vm_compute. apply list_elem_of_further, list_elem_of_here. Qed.

(** The check of what a validator's account can give away turns its lamports into
    lamports once more, as if they were pool tokens: more than it holds passes. *)
Theorem withdrawal_check_wrong_unit :
  (exists ws, (withdraw_from_validator (H2:=static_node world) demo_config pool pool_key vote1 13000000
     1000000 RENT start).1 = Ok ws) /\
  calc_lamports_withdraw_amount pool 13000000 = Some 19500000 /\
  acc_lamports <$> accounts world !! stake_address vote1 = Some 10000000.
Proof. split_and!; [eexists; vm_compute; reflexivity|reflexivity|vm_compute; reflexivity]. Qed.
End CaseWitnesses.
