(* ===== verification/Clap.v ===== *)
(** * Command lines as clap sees them (src/clients/cli/src/main.rs)

    A declaration of a command line ([App], [SubCommand], [Arg], [ArgGroup]) as
    the client builds it, the matches that parsing returns, and the documented
    contract between the two: [conforms] says what clap guarantees of the matches
    it returns for a declaration.  Parsing itself is clap's; the checks and
    conversions of the other crates are the class [ClapUtils].  Help texts are left
    out. *)

From S2P Require Import Prelude Errors Fees Pool BigVec Borsh ValidatorList Runtime Checks.
From S2P Require Import Admin Deposit Instruction Builders Client Commands Output Main.

#[local] Open Scope Z_scope.

(** ** Declarations *)

(** The checks named in [.validator(..)]. *)
Inductive Check :=
| IsUrl | IsValidSigner | IsPubkey | IsValidPubkey | IsKeypairOrAskKeyword
| IsAmount | IsValidPercentage | IsParsable (w : Z) | IsComputeUnitLimitOrSimulated.

(** [clap::Arg] *)
Record Arg := mkArg {
  arg_name : string;
  arg_short : option string;
  arg_long : option string;
  arg_index : option nat;
  arg_takes_value : bool;
  arg_required : bool;
  arg_global : bool;
  arg_validator : option Check;
  arg_possible_values : list string;
  arg_requires : list string;
  arg_default : option string;
}.

(** The methods of [Arg]. *)
Definition with_name (n : string) : Arg :=
  mkArg n None None None false false false None [] [] None.
Definition short (s : string) (a : Arg) : Arg :=
  mkArg (arg_name a) (Some s) (arg_long a) (arg_index a) (arg_takes_value a) (arg_required a)
    (arg_global a) (arg_validator a) (arg_possible_values a) (arg_requires a) (arg_default a).
Definition long (l : string) (a : Arg) : Arg :=
  mkArg (arg_name a) (arg_short a) (Some l) (arg_index a) (arg_takes_value a) (arg_required a)
    (arg_global a) (arg_validator a) (arg_possible_values a) (arg_requires a) (arg_default a).
Definition index (i : nat) (a : Arg) : Arg :=
  mkArg (arg_name a) (arg_short a) (arg_long a) (Some i) (arg_takes_value a) (arg_required a)
    (arg_global a) (arg_validator a) (arg_possible_values a) (arg_requires a) (arg_default a).
Definition takes_value (b : bool) (a : Arg) : Arg :=
  mkArg (arg_name a) (arg_short a) (arg_long a) (arg_index a) b (arg_required a)
    (arg_global a) (arg_validator a) (arg_possible_values a) (arg_requires a) (arg_default a).
Definition required (b : bool) (a : Arg) : Arg :=
  mkArg (arg_name a) (arg_short a) (arg_long a) (arg_index a) (arg_takes_value a) b
    (arg_global a) (arg_validator a) (arg_possible_values a) (arg_requires a) (arg_default a).
Definition global (b : bool) (a : Arg) : Arg :=
  mkArg (arg_name a) (arg_short a) (arg_long a) (arg_index a) (arg_takes_value a) (arg_required a)
    b (arg_validator a) (arg_possible_values a) (arg_requires a) (arg_default a).
Definition validator (c : Check) (a : Arg) : Arg :=
  mkArg (arg_name a) (arg_short a) (arg_long a) (arg_index a) (arg_takes_value a) (arg_required a)
    (arg_global a) (Some c) (arg_possible_values a) (arg_requires a) (arg_default a).
Definition possible_values (l : list string) (a : Arg) : Arg :=
  mkArg (arg_name a) (arg_short a) (arg_long a) (arg_index a) (arg_takes_value a) (arg_required a)
    (arg_global a) (arg_validator a) l (arg_requires a) (arg_default a).
Definition requires (n : string) (a : Arg) : Arg :=
  mkArg (arg_name a) (arg_short a) (arg_long a) (arg_index a) (arg_takes_value a) (arg_required a)
    (arg_global a) (arg_validator a) (arg_possible_values a) (n :: arg_requires a) (arg_default a).
Definition default_value (v : string) (a : Arg) : Arg :=
  mkArg (arg_name a) (arg_short a) (arg_long a) (arg_index a) (arg_takes_value a) (arg_required a)
    (arg_global a) (arg_validator a) (arg_possible_values a) (arg_requires a) (Some v).

Declare Scope clap_scope.
Delimit Scope clap_scope with clap.
Notation "a |> f" := (f a) (at level 40, left associativity, only parsing) : clap_scope.

(** [clap::ArgGroup] *)
Record ArgGroup := mkGroup {
  group_name : string;
  group_args : list string;
  group_required : bool;
  group_multiple : bool;
}.

(** [clap::SubCommand] *)
Record SubCommand := mkSubCommand {
  sub_name : string;
  sub_args : list Arg;
  sub_groups : list ArgGroup;
}.

(** [clap::App] *)
Record App := mkApp { app_args : list Arg; app_subcommands : list SubCommand }.

(** ** Matches *)

(** [ArgMatches]: the arguments that are present, with the text of those that
    take one. *)
Definition ArgMatches : Type := gmap string (option string).
Definition value_of (m : ArgMatches) (name : string) : option string := mjoin (m !! name).
Definition is_present (m : ArgMatches) (name : string) : bool := bool_decide (is_Some (m !! name)).

(** The other crates: the checks of [solana_clap_utils], its readers and
    [signer_from_path_with_config], and [solana_cli_config]. *)
Record CliConfig := mkCliConfig { json_rpc_url : string; keypair_path : string }.
Class ClapUtils `{Crates} := {
  is_url : string -> bool;
  is_valid_signer : string -> bool;
  is_pubkey : string -> bool;
  is_valid_pubkey : string -> bool;
  is_keypair_or_ask_keyword : string -> bool;
  is_amount : string -> bool;
  is_valid_percentage : string -> bool;
  is_parsable : Z -> string -> bool;
  pubkey_of_text : string -> option Pubkey;
  keypair_of_text : string -> option Pubkey;
  signer_from_path : string -> string -> bool -> option Pubkey;
  parse_f64 : string -> option f64;
  compute_unit_price_arg : Arg;
  config_file_path : option string;
  load_config : string -> option CliConfig;
  default_config : CliConfig;
}.

Section Clap.
Context `{K : Crates} `{!ClapUtils}.

Definition passes (c : Check) : string -> bool :=
  match c with
  | IsUrl => is_url
  | IsValidSigner => is_valid_signer
  | IsPubkey => is_pubkey
  | IsValidPubkey => is_valid_pubkey
  | IsKeypairOrAskKeyword => is_keypair_or_ask_keyword
  | IsAmount => is_amount
  | IsValidPercentage => is_valid_percentage
  | IsParsable w => is_parsable w
  | IsComputeUnitLimitOrSimulated => is_compute_unit_limit_or_simulated
  end.

(** ** What clap guarantees of the matches it returns *)

(** The text of an argument passes its check and is one of its values. *)
Definition text_ok (a : Arg) (text : string) : bool :=
  match arg_validator a with Some c => passes c text | None => true end &&
  match arg_possible_values a with [] => true | l => existsb (String.eqb text) l end.

(** An argument or a group with this name is present. *)
Definition present (groups : list ArgGroup) (m : ArgMatches) (name : string) : bool :=
  is_present m name ||
  existsb (fun g => String.eqb (group_name g) name && existsb (is_present m) (group_args g)) groups.

Definition arg_conforms (groups : list ArgGroup) (m : ArgMatches) (a : Arg) : bool :=
  match m !! arg_name a with
  | None => negb (arg_required a) && negb (bool_decide (is_Some (arg_default a)))
  | Some v =>
      match v with
      | Some text => arg_takes_value a && text_ok a text
      | None => negb (arg_takes_value a)
      end && forallb (present groups m) (arg_requires a)
  end.

Definition group_conforms (m : ArgMatches) (g : ArgGroup) : bool :=
  (negb (group_required g) || existsb (is_present m) (group_args g)) &&
  (group_multiple g || (length (List.filter (is_present m) (group_args g)) <=? 1)%nat).

Definition conforms (args : list Arg) (groups : list ArgGroup) (m : ArgMatches) : bool :=
  forallb (arg_conforms groups m) args && forallb (group_conforms m) groups &&
  forallb (fun n => existsb (String.eqb n) (arg_name <$> args)) (fst <$> map_to_list m).

(** ** What clap asks of a declaration *)

Fixpoint nodupb (l : list string) : bool :=
  match l with [] => true | x :: l => negb (existsb (String.eqb x) l) && nodupb l end.

(** Arguments without a short or long form are positional; without an index they
    take the next position. *)
Definition positional (a : Arg) : bool :=
  match arg_short a, arg_long a with None, None => true | _, _ => false end.
Definition positions (args : list Arg) : list nat :=
  imap (fun i a => default (S i) (arg_index a)) (List.filter positional args).
(** No required position after an optional one. *)
Fixpoint required_first (args : list Arg) : bool :=
  match args with
  | [] => true
  | a :: args => (arg_required a || forallb (fun b => negb (arg_required b)) args) && required_first args
  end.

Definition sub_well_formed (globals : list Arg) (s : SubCommand) : bool :=
  let args := sub_args s ++ globals in
  let names := arg_name <$> args in
  nodupb names && nodupb (omap arg_short args) && nodupb (omap arg_long args) &&
  bool_decide (positions (sub_args s) = seq 1 (length (positions (sub_args s)))) &&
  required_first (List.filter positional (sub_args s)) &&
  forallb (fun g => forallb (fun n => existsb (String.eqb n) names) (group_args g)) (sub_groups s) &&
  forallb (fun a => forallb (fun n => existsb (String.eqb n) (names ++ (group_name <$> sub_groups s)))
                      (arg_requires a)) args &&
  forallb (fun a => implb (negb (arg_takes_value a)) (negb (bool_decide (is_Some (arg_validator a))) &&
                      bool_decide (arg_possible_values a = []))) args.

Definition app_well_formed (app : App) : bool :=
  nodupb (sub_name <$> app_subcommands app) &&
  forallb (sub_well_formed (app_args app)) (app_subcommands app) &&
  forallb arg_global (app_args app).
End Clap.
