(* ===== verification/CliApp.v ===== *)
(** * The declared command line of the client (src/clients/cli/src/main.rs, [main])

    The arguments, groups and subcommands that [main] declares, in its order. *)

From S2P Require Import Prelude Errors Fees Pool BigVec Borsh ValidatorList Runtime Checks.
From S2P Require Import Admin Deposit Instruction Builders Client Commands Output Main Clap.

#[local] Open Scope string_scope.
#[local] Open Scope clap_scope.

(** [ArgConstant], [COMPUTE_UNIT_LIMIT_ARG] *)
Record ArgConstant := mkArgConstant { ac_name : string; ac_long : string }.
Definition COMPUTE_UNIT_LIMIT_ARG : ArgConstant :=
  mkArgConstant "compute_unit_limit" "--with-compute-unit-limit".

(** ** Subcommands *)

(** ["create-pool"] *)
Definition create_pool_args : SubCommand := mkSubCommand "create-pool"
  [with_name "epoch_fee_numerator" |> long "epoch-fee-numerator" |> short "n"
     |> validator (IsParsable 64) |> takes_value true |> required true;
   with_name "epoch_fee_denominator" |> long "epoch-fee-denominator" |> short "d"
     |> validator (IsParsable 64) |> takes_value true |> required true;
   with_name "withdrawal_fee_numerator" |> long "withdrawal-fee-numerator"
     |> validator (IsParsable 64) |> takes_value true |> requires "withdrawal_fee_denominator";
   with_name "withdrawal_fee_denominator" |> long "withdrawal-fee-denominator"
     |> validator (IsParsable 64) |> takes_value true |> requires "withdrawal_fee_numerator";
   with_name "deposit_fee_numerator" |> long "deposit-fee-numerator"
     |> validator (IsParsable 64) |> takes_value true |> requires "deposit_fee_denominator";
   with_name "deposit_fee_denominator" |> long "deposit-fee-denominator"
     |> validator (IsParsable 64) |> takes_value true |> requires "deposit_fee_numerator";
   with_name "referral_fee" |> long "referral-fee" |> validator IsValidPercentage
     |> takes_value true;
   with_name "max_validators" |> long "max-validators" |> short "m" |> validator (IsParsable 32)
     |> takes_value true |> required true;
   with_name "deposit_authority" |> long "deposit-authority" |> short "a"
     |> validator IsValidSigner |> takes_value true;
   with_name "pool_keypair" |> long "pool-keypair" |> short "p"
     |> validator IsKeypairOrAskKeyword |> takes_value true;
   with_name "validator_list_keypair" |> long "validator-list-keypair"
     |> validator IsKeypairOrAskKeyword |> takes_value true;
   with_name "mint_keypair" |> long "mint-keypair" |> validator IsKeypairOrAskKeyword
     |> takes_value true;
   with_name "reserve_keypair" |> long "reserve-keypair" |> validator IsKeypairOrAskKeyword
     |> takes_value true;
   with_name "unsafe_fees" |> long "unsafe-fees" |> takes_value false] [].
(** ["create-token-metadata"] *)
Definition create_token_metadata_args : SubCommand := mkSubCommand "create-token-metadata"
  [with_name "pool" |> index 1 |> validator IsPubkey |> takes_value true |> required true;
   with_name "name" |> index 2 |> takes_value true |> required true;
   with_name "symbol" |> index 3 |> takes_value true |> required true;
   with_name "uri" |> index 4 |> takes_value true |> required true] [].
(** ["update-token-metadata"] *)
Definition update_token_metadata_args : SubCommand := mkSubCommand "update-token-metadata"
  [with_name "pool" |> index 1 |> validator IsPubkey |> takes_value true |> required true;
   with_name "name" |> index 2 |> takes_value true |> required true;
   with_name "symbol" |> index 3 |> takes_value true |> required true;
   with_name "uri" |> index 4 |> takes_value true |> required true] [].
(** ["add-validator"] *)
Definition add_validator_args : SubCommand := mkSubCommand "add-validator"
  [with_name "pool" |> index 1 |> validator IsPubkey |> takes_value true |> required true;
   with_name "vote_account" |> index 2 |> validator IsPubkey |> takes_value true
     |> required true] [].
(** ["remove-validator"] *)
Definition remove_validator_args : SubCommand := mkSubCommand "remove-validator"
  [with_name "pool" |> index 1 |> validator IsPubkey |> takes_value true |> required true;
   with_name "vote_account" |> index 2 |> validator IsPubkey |> takes_value true
     |> required true] [].
(** ["increase-validator-stake"] *)
Definition increase_validator_stake_args : SubCommand := mkSubCommand "increase-validator-stake"
  [with_name "pool" |> index 1 |> validator IsPubkey |> takes_value true |> required true;
   with_name "vote_account" |> index 2 |> validator IsPubkey |> takes_value true
     |> required true;
   with_name "amount" |> index 3 |> validator IsAmount |> takes_value true] [].
(** ["decrease-validator-stake"] *)
Definition decrease_validator_stake_args : SubCommand := mkSubCommand "decrease-validator-stake"
  [with_name "pool" |> index 1 |> validator IsPubkey |> takes_value true |> required true;
   with_name "vote_account" |> index 2 |> validator IsPubkey |> takes_value true
     |> required true;
   with_name "amount" |> index 3 |> validator IsAmount |> takes_value true] [].
(** ["set-preferred-validator"] *)
Definition set_preferred_validator_args : SubCommand := mkSubCommand "set-preferred-validator"
  [with_name "pool" |> index 1 |> validator IsPubkey |> takes_value true |> required true;
   with_name "preferred_type" |> index 2 |> possible_values ["deposit"; "withdraw"]
     |> takes_value true |> required true;
   with_name "vote_account" |> long "vote-account" |> validator IsPubkey |> takes_value true;
   with_name "unset" |> long "unset" |> takes_value false]
  [mkGroup "validator" ["vote_account"; "unset"] true false].
(** ["deposit-stake"] *)
Definition deposit_stake_args : SubCommand := mkSubCommand "deposit-stake"
  [with_name "pool" |> index 1 |> validator IsPubkey |> takes_value true |> required true;
   with_name "stake_account" |> index 2 |> validator IsPubkey |> takes_value true
     |> required true;
   with_name "withdraw_authority" |> long "withdraw-authority" |> validator IsValidSigner
     |> takes_value true;
   with_name "token_receiver" |> long "token-receiver" |> validator IsPubkey |> takes_value true;
   with_name "referrer" |> validator IsPubkey |> takes_value true] [].
(** ["deposit-all-stake"] *)
Definition deposit_all_stake_args : SubCommand := mkSubCommand "deposit-all-stake"
  [with_name "pool" |> index 1 |> validator IsPubkey |> takes_value true |> required true;
   with_name "stake_authority" |> index 2 |> validator IsPubkey |> takes_value true
     |> required true;
   with_name "withdraw_authority" |> long "withdraw-authority" |> validator IsValidSigner
     |> takes_value true;
   with_name "token_receiver" |> long "token-receiver" |> validator IsPubkey |> takes_value true;
   with_name "referrer" |> validator IsPubkey |> takes_value true] [].
(** ["deposit-sol"] *)
Definition deposit_sol_args : SubCommand := mkSubCommand "deposit-sol"
  [with_name "pool" |> index 1 |> validator IsPubkey |> takes_value true |> required true;
   with_name "amount" |> index 2 |> validator IsAmount |> takes_value true;
   with_name "from" |> long "from" |> validator IsValidSigner |> takes_value true;
   with_name "token_receiver" |> long "token-receiver" |> validator IsPubkey |> takes_value true;
   with_name "referrer" |> long "referrer" |> validator IsPubkey |> takes_value true] [].
(** ["deposit-wsol"] *)
Definition deposit_wsol_args : SubCommand := mkSubCommand "deposit-wsol"
  [with_name "pool" |> index 1 |> validator IsPubkey |> takes_value true |> required true;
   with_name "amount" |> index 2 |> validator IsAmount |> takes_value true;
   with_name "from" |> long "from" |> validator IsValidSigner |> takes_value true;
   with_name "token_receiver" |> long "token-receiver" |> validator IsPubkey |> takes_value true;
   with_name "referrer" |> long "referrer" |> validator IsPubkey |> takes_value true] [].
(** ["deposit-wsol-with-session"] *)
Definition deposit_wsol_with_session_args : SubCommand := mkSubCommand "deposit-wsol-with-session"
  [with_name "pool" |> index 1 |> validator IsPubkey |> takes_value true |> required true;
   with_name "amount" |> index 2 |> validator IsAmount |> takes_value true;
   with_name "from" |> long "from" |> validator IsValidSigner |> takes_value true] [].
(** ["withdraw-wsol-with-session"] *)
Definition withdraw_wsol_with_session_args : SubCommand := mkSubCommand "withdraw-wsol-with-session"
  [with_name "pool" |> index 1 |> validator IsPubkey |> takes_value true |> required true;
   with_name "amount" |> index 2 |> validator IsAmount |> takes_value true |> required true;
   with_name "from" |> long "from" |> validator IsValidSigner |> takes_value true;
   with_name "pool_account" |> long "pool-account" |> validator IsPubkey |> takes_value true] [].
(** ["list"] *)
Definition list_args : SubCommand := mkSubCommand "list"
  [with_name "pool" |> index 1 |> validator IsPubkey |> takes_value true |> required true] [].
(** ["update"] *)
Definition update_args : SubCommand := mkSubCommand "update"
  [with_name "pool" |> index 1 |> validator IsPubkey |> takes_value true |> required true;
   with_name "force" |> long "force" |> takes_value false;
   with_name "no_merge" |> long "no-merge" |> takes_value false;
   with_name "stale_only" |> long "stale-only" |> takes_value false] [].
(** ["withdraw-stake"] *)
Definition withdraw_stake_args : SubCommand := mkSubCommand "withdraw-stake"
  [with_name "pool" |> index 1 |> validator IsPubkey |> takes_value true |> required true;
   with_name "amount" |> index 2 |> validator IsAmount |> takes_value true |> required true;
   with_name "pool_account" |> long "pool-account" |> validator IsPubkey |> takes_value true;
   with_name "stake_receiver" |> long "stake-receiver" |> validator IsPubkey |> takes_value true
     |> requires "withdraw_from";
   with_name "vote_account" |> long "vote-account" |> validator IsPubkey |> takes_value true;
   with_name "use_reserve" |> long "use-reserve" |> takes_value false]
  [mkGroup "withdraw_from" ["use_reserve"; "vote_account"] false false].
(** ["withdraw-sol"] *)
Definition withdraw_sol_args : SubCommand := mkSubCommand "withdraw-sol"
  [with_name "pool" |> index 1 |> validator IsPubkey |> takes_value true |> required true;
   with_name "sol_receiver" |> index 2 |> validator IsValidPubkey |> takes_value true
     |> required true;
   with_name "amount" |> index 3 |> validator IsAmount |> takes_value true |> required true;
   with_name "pool_account" |> long "pool-account" |> validator IsPubkey |> takes_value true] [].
(** ["set-manager"] *)
Definition set_manager_args : SubCommand := mkSubCommand "set-manager"
  [with_name "pool" |> index 1 |> validator IsPubkey |> takes_value true |> required true;
   with_name "new_manager" |> long "new-manager" |> validator IsValidSigner |> takes_value true;
   with_name "new_fee_receiver" |> long "new-fee-receiver" |> validator IsPubkey
     |> takes_value true]
  [mkGroup "new_accounts" ["new_manager"; "new_fee_receiver"] true true].
(** ["set-staker"] *)
Definition set_staker_args : SubCommand := mkSubCommand "set-staker"
  [with_name "pool" |> index 1 |> validator IsPubkey |> takes_value true |> required true;
   with_name "new_staker" |> index 2 |> validator IsPubkey |> takes_value true] [].
(** ["set-funding-authority"] *)
Definition set_funding_authority_args : SubCommand := mkSubCommand "set-funding-authority"
  [with_name "pool" |> index 1 |> validator IsPubkey |> takes_value true |> required true;
   with_name "funding_type" |> index 2
     |> possible_values ["stake-deposit"; "sol-deposit"; "sol-withdraw"] |> takes_value true
     |> required true;
   with_name "new_authority" |> index 3 |> validator IsPubkey |> takes_value true;
   with_name "unset" |> long "unset" |> takes_value false]
  [mkGroup "validator" ["new_authority"; "unset"] true false].
(** ["set-fee"] *)
Definition set_fee_args : SubCommand := mkSubCommand "set-fee"
  [with_name "pool" |> index 1 |> validator IsPubkey |> takes_value true |> required true;
   with_name "fee_type" |> index 2
     |> possible_values ["epoch"; "stake-deposit"; "sol-deposit"; "stake-withdrawal"; "sol-withdrawal"]
     |> takes_value true |> required true;
   with_name "fee_numerator" |> index 3 |> validator (IsParsable 64) |> takes_value true
     |> required true;
   with_name "fee_denominator" |> index 4 |> validator (IsParsable 64) |> takes_value true
     |> required true] [].
(** ["set-referral-fee"] *)
Definition set_referral_fee_args : SubCommand := mkSubCommand "set-referral-fee"
  [with_name "pool" |> index 1 |> validator IsPubkey |> takes_value true |> required true;
   with_name "fee_type" |> index 2 |> possible_values ["stake"; "sol"] |> takes_value true
     |> required true;
   with_name "fee" |> index 3 |> validator IsValidPercentage |> takes_value true
     |> required true] [].
(** ["list-all"] *)
Definition list_all_args : SubCommand := mkSubCommand "list-all"
  [] [].

(** ** The whole command line *)
Section App.
Context `{K : Crates} `{!ClapUtils}.

(** The arguments of every subcommand. *)
Definition global_args : list Arg :=
  [(let arg := with_name "config_file" |> short "C" |> long "config" |> takes_value true |> global true in
    match config_file_path with Some config_file => default_value config_file arg | None => arg end);
   with_name "verbose" |> long "verbose" |> short "v" |> takes_value false |> global true;
   with_name "output_format" |> long "output" |> global true |> takes_value true
     |> possible_values ["json"; "json-compact"];
   with_name "dry_run" |> long "dry-run" |> takes_value false |> global true;
   with_name "no_update" |> long "no-update" |> takes_value false |> global true;
   with_name "json_rpc_url" |> long "url" |> takes_value true |> validator IsUrl |> global true;
   with_name "staker" |> long "staker" |> validator IsValidSigner |> takes_value true
     |> global true;
   with_name "manager" |> long "manager" |> validator IsValidSigner |> takes_value true
     |> global true;
   with_name "funding_authority" |> long "funding-authority" |> validator IsValidSigner
     |> takes_value true |> global true;
   with_name "token_owner" |> long "token-owner" |> validator IsValidSigner |> takes_value true
     |> global true;
   with_name "fee_payer" |> long "fee-payer" |> validator IsValidSigner |> takes_value true
     |> global true;
   compute_unit_price_arg |> validator (IsParsable 64) |> global true;
   with_name (ac_name COMPUTE_UNIT_LIMIT_ARG) |> long (ac_long COMPUTE_UNIT_LIMIT_ARG)
     |> takes_value true |> validator IsComputeUnitLimitOrSimulated |> global true;
   with_name "program_id" |> long "program-id" |> validator IsPubkey |> takes_value true
     |> global true].

Definition app : App := mkApp global_args
  [create_pool_args; create_token_metadata_args; update_token_metadata_args; add_validator_args;
   remove_validator_args; increase_validator_stake_args; decrease_validator_stake_args;
   set_preferred_validator_args; deposit_stake_args; deposit_all_stake_args; deposit_sol_args;
   deposit_wsol_args; deposit_wsol_with_session_args; withdraw_wsol_with_session_args;
   list_args; update_args; withdraw_stake_args; withdraw_sol_args; set_manager_args;
   set_staker_args; set_funding_authority_args; set_fee_args; set_referral_fee_args;
   list_all_args].
End App.
