(* ===== verification/CliMain.v ===== *)
(** * From the command line to a command (src/clients/cli/src/main.rs, [main])

    How [main] makes its configuration and the command to run from the matches of
    clap, and the whole of [main]: read, then run.  Reading can end the process
    ([exit(1)], an [Err]) or panic ([unwrap] and [unreachable!]). *)

From S2P Require Import Prelude Errors Fees Pool BigVec Borsh ValidatorList Runtime Checks.
From S2P Require Import Admin Deposit Instruction Builders Client Commands Output Main Clap CliApp.

#[local] Open Scope Z_scope.

(** ** The program's addresses (src/program/src/lib.rs)

    [declare_id!] reads an address from its text in base 58. *)
Definition base58_alphabet : string := "123456789ABCDEFGHJKLMNPQRSTUVWXYZabcdefghijkmnopqrstuvwxyz".
Definition base58_digit (c : Ascii.ascii) : option Z :=
  Z.of_nat <$> String.index 0 (String c EmptyString) base58_alphabet.
Fixpoint base58_value (acc : Z) (s : string) : option Z :=
  match s with
  | EmptyString => Some acc
  | String c s => d ← base58_digit c; base58_value (58 * acc + d) s
  end.
Definition declare_id (s : string) : option Pubkey :=
  v ← base58_value 0 s;
  if v <? 2 ^ 256 then array_of_bytes PUBKEY_BYTES (rev (le_encode 32 v)) else None.
Definition spl_stake_pool_id : Pubkey :=
  default pubkey_default (declare_id "SPoo1Ku8WFXoNDMHPsrGSTSG1Y47rzgn41SLUNakuHy").
Definition devnet_id : Pubkey :=
  default pubkey_default (declare_id "DPoo15wWDqpPJJtS2MUZ49aRxqz5ZaaJCJP4z8bLuib").

(** [str::contains] *)
Definition str_contains (hay needle : string) : bool :=
  bool_decide (is_Some (String.index 0 needle hay)).

(** [default_stake_pool_id] *)
Definition default_stake_pool_id (json_rpc_url : string) : Pubkey :=
  if str_contains json_rpc_url "devnet" then devnet_id else spl_stake_pool_id.

(** ** Reading arguments *)

Inductive Exit := ExitFailure.
Abbreviation Read := (result Exit).

Section CliMain.
Context `{Runtime} `{ClientIds} `{K : Crates} `{Node} `{!Texts} `{!ClapUtils}.

Section Matches.
Variable matches : ArgMatches.

(** [value_t!], [value_t_or_exit!] *)
Definition value_t {A} (parse : string -> option A) (name : string) : option A :=
  value_of matches name ≫= parse.
Definition value_t_or_exit {A} (parse : string -> option A) (name : string) : Read A :=
  ok_or ExitFailure (value_t parse name).
(** [pubkey_of], [keypair_of] *)
Definition pubkey_of (name : string) : option Pubkey := value_of matches name ≫= pubkey_of_text.
Definition keypair_of (name : string) : option Pubkey := value_of matches name ≫= keypair_of_text.
(** [get_signer] *)
Definition get_signer (keypair_name keypair_path : string) (allow_null_signer : bool) : Read Pubkey :=
  ok_or ExitFailure
    (signer_from_path (default keypair_path (value_of matches keypair_name)) keypair_name
       allow_null_signer).

(** [String::from_str], which always succeeds. *)
Definition parse_string (s : string) : option (list byte) := Some (String.list_byte_of_string s).
End Matches.

#[local] Open Scope string_scope.

(** ** The configuration *)

(** [OutputFormat] *)
Inductive OutputFormat := Display | DisplayVerbose | Json | JsonCompact.

(** The configuration with the fields that are not used for transactions. *)
Record Settings := mkSettings {
  settings_url : string;
  settings_verbose : bool;
  settings_output_format : OutputFormat;
  settings_config : Config;
}.

Definition read_cli_config (matches : ArgMatches) : CliConfig :=
  match value_of matches "config_file" with
  | Some config_file => default default_config (load_config config_file)
  | None => default_config
  end.

Definition read_output_format (matches : ArgMatches) (verbose : bool) : Read OutputFormat :=
  match value_of matches "output_format" with
  | Some value =>
      unwrap (snd <$> List.find (fun c => bool_decide (value = fst c))
                        [("json", Json); ("json-compact", JsonCompact)])
  | None => Ok (if verbose then DisplayVerbose else Display)
  end.

Definition read_config (cli_config : CliConfig) (matches : ArgMatches) : Read Settings :=
  let signer name := get_signer matches name (keypair_path cli_config) false in
  let url := default (json_rpc_url cli_config) (value_of matches "json_rpc_url") in
  staker ← signer "staker";
  funding_authority ←
    (if is_present matches "funding_authority" then Some <$> signer "funding_authority" else Ok None);
  manager ← signer "manager";
  token_owner ← signer "token_owner";
  fee_payer ← signer "fee_payer";
  let verbose := is_present matches "verbose" in
  let program_id := default (default_stake_pool_id url) (pubkey_of matches "program_id") in
  output_format ← read_output_format matches verbose;
  let dry_run := is_present matches "dry_run" in
  let no_update := is_present matches "no_update" in
  let compute_unit_price := value_t matches (parse_uint 64) (arg_name compute_unit_price_arg) in
  compute_unit_limit ← map_err (fun _ => ExitFailure)
    (configured_limit (value_of matches (ac_name COMPUTE_UNIT_LIMIT_ARG)) compute_unit_price);
  mret (mkSettings url verbose output_format
    (mkConfig program_id manager staker funding_authority token_owner fee_payer dry_run no_update
       compute_unit_price compute_unit_limit)).

(** ** The commands *)
Section Commands.
Variable cli_config : CliConfig.
Variable arg_matches : ArgMatches.

#[local] Notation pubkey_of := (pubkey_of arg_matches).
#[local] Notation keypair_of := (keypair_of arg_matches).
#[local] Notation value_of := (value_of arg_matches).
#[local] Notation value_t := (value_t arg_matches).
#[local] Notation value_t_or_exit := (value_t_or_exit arg_matches).
#[local] Notation is_present := (is_present arg_matches).
#[local] Notation get_signer := (get_signer arg_matches).

Definition read_create_pool : Read Command :=
  let deposit_authority := keypair_of "deposit_authority" in
  e_numerator ← value_t_or_exit (parse_uint 64) "epoch_fee_numerator";
  e_denominator ← value_t_or_exit (parse_uint 64) "epoch_fee_denominator";
  let w_numerator := value_t (parse_uint 64) "withdrawal_fee_numerator" in
  let w_denominator := value_t (parse_uint 64) "withdrawal_fee_denominator" in
  let d_numerator := value_t (parse_uint 64) "deposit_fee_numerator" in
  let d_denominator := value_t (parse_uint 64) "deposit_fee_denominator" in
  let referral_fee := value_t (parse_uint 8) "referral_fee" in
  max_validators ← value_t_or_exit (parse_uint 32) "max_validators";
  mret (CreatePool deposit_authority e_numerator e_denominator w_numerator w_denominator d_numerator
    d_denominator referral_fee max_validators (keypair_of "pool_keypair")
    (keypair_of "validator_list_keypair") (keypair_of "mint_keypair") (keypair_of "reserve_keypair")
    (is_present "unsafe_fees")).

Definition read_create_token_metadata : Read Command :=
  stake_pool_address ← unwrap (pubkey_of "pool");
  name ← value_t_or_exit parse_string "name";
  symbol ← value_t_or_exit parse_string "symbol";
  uri ← value_t_or_exit parse_string "uri";
  mret (CreateTokenMetadata stake_pool_address name symbol uri).

Definition read_update_token_metadata : Read Command :=
  stake_pool_address ← unwrap (pubkey_of "pool");
  name ← value_t_or_exit parse_string "name";
  symbol ← value_t_or_exit parse_string "symbol";
  uri ← value_t_or_exit parse_string "uri";
  mret (UpdateTokenMetadata stake_pool_address name symbol uri).

Definition read_add_validator : Read Command :=
  stake_pool_address ← unwrap (pubkey_of "pool");
  vote_account_address ← unwrap (pubkey_of "vote_account");
  mret (AddValidator stake_pool_address vote_account_address).

Definition read_remove_validator : Read Command :=
  stake_pool_address ← unwrap (pubkey_of "pool");
  vote_account ← unwrap (pubkey_of "vote_account");
  mret (RemoveValidator stake_pool_address vote_account).

Definition read_increase_validator_stake : Read Command :=
  stake_pool_address ← unwrap (pubkey_of "pool");
  vote_account ← unwrap (pubkey_of "vote_account");
  amount_str ← unwrap (value_of "amount");
  mret (IncreaseValidatorStake stake_pool_address vote_account amount_str).

Definition read_decrease_validator_stake : Read Command :=
  stake_pool_address ← unwrap (pubkey_of "pool");
  vote_account ← unwrap (pubkey_of "vote_account");
  amount_str ← unwrap (value_of "amount");
  mret (DecreaseValidatorStake stake_pool_address vote_account amount_str).

Definition read_set_preferred_validator : Read Command :=
  stake_pool_address ← unwrap (pubkey_of "pool");
  preferred_type ← unwrap (value_of "preferred_type");
  mret (SetPreferredValidator stake_pool_address preferred_type (pubkey_of "vote_account")).

Definition read_deposit_stake : Read Command :=
  stake_pool_address ← unwrap (pubkey_of "pool");
  stake_account ← unwrap (pubkey_of "stake_account");
  let token_receiver := pubkey_of "token_receiver" in
  let referrer := pubkey_of "referrer" in
  withdraw_authority ← get_signer "withdraw_authority" (keypair_path cli_config) false;
  mret (DepositStake stake_pool_address stake_account withdraw_authority token_receiver referrer).

Definition read_deposit_sol : Read Command :=
  stake_pool_address ← unwrap (pubkey_of "pool");
  let token_receiver := pubkey_of "token_receiver" in
  let referrer := pubkey_of "referrer" in
  let from := keypair_of "from" in
  amount_str ← unwrap (value_of "amount");
  mret (DepositSol stake_pool_address from token_receiver referrer amount_str).

Definition read_deposit_wsol_with_session : Read Command :=
  stake_pool_address ← unwrap (pubkey_of "pool");
  let from := keypair_of "from" in
  amount ← value_t_or_exit parse_f64 "amount";
  mret (DepositWsolWithSession stake_pool_address from amount).

Definition read_withdraw_wsol_with_session : Read Command :=
  stake_pool_address ← unwrap (pubkey_of "pool");
  let from := keypair_of "from" in
  let pool_account := pubkey_of "pool_account" in
  amount ← value_t_or_exit parse_f64 "amount";
  mret (WithdrawWsolWithSession stake_pool_address from pool_account amount).

Definition read_list : Read Command :=
  stake_pool_address ← unwrap (pubkey_of "pool");
  mret (List stake_pool_address).

Definition read_update : Read Command :=
  stake_pool_address ← unwrap (pubkey_of "pool");
  let no_merge := is_present "no_merge" in
  let force := is_present "force" in
  let stale_only := is_present "stale_only" in
  mret (Update stake_pool_address no_merge force stale_only).

Definition read_withdraw_stake : Read Command :=
  stake_pool_address ← unwrap (pubkey_of "pool");
  let vote_account := pubkey_of "vote_account" in
  let pool_account := pubkey_of "pool_account" in
  pool_amount ← value_t_or_exit parse_f64 "amount";
  let stake_receiver := pubkey_of "stake_receiver" in
  let use_reserve := is_present "use_reserve" in
  mret (WithdrawStake stake_pool_address vote_account pool_account pool_amount stake_receiver use_reserve).

Definition read_withdraw_sol : Read Command :=
  stake_pool_address ← unwrap (pubkey_of "pool");
  let pool_account := pubkey_of "pool_account" in
  pool_amount ← value_t_or_exit parse_f64 "amount";
  sol_receiver ← get_signer "sol_receiver" (keypair_path cli_config) true;
  mret (WithdrawSol stake_pool_address pool_account pool_amount sol_receiver).

(** The new manager is looked up under a name that no argument has, and found
    through the path that is passed as the default. *)
Definition read_set_manager : Read Command :=
  stake_pool_address ← unwrap (pubkey_of "pool");
  new_manager ←
    match value_of "new_manager" with
    | Some path => Some <$> get_signer "new-manager" path true
    | None => Ok None
    end;
  let new_fee_receiver := pubkey_of "new_fee_receiver" in
  mret (SetManager stake_pool_address new_manager new_fee_receiver).

Definition read_set_staker : Read Command :=
  stake_pool_address ← unwrap (pubkey_of "pool");
  new_staker ← unwrap (pubkey_of "new_staker");
  mret (SetStaker stake_pool_address new_staker).

Definition read_set_funding_authority : Read Command :=
  stake_pool_address ← unwrap (pubkey_of "pool");
  let new_authority := pubkey_of "new_authority" in
  funding_type ← unwrap (value_of "funding_type");
  mret (SetFundingAuthority stake_pool_address new_authority funding_type).

Definition read_set_fee : Read Command :=
  stake_pool_address ← unwrap (pubkey_of "pool");
  numerator ← value_t_or_exit (parse_uint 64) "fee_numerator";
  denominator ← value_t_or_exit (parse_uint 64) "fee_denominator";
  fee_type ← unwrap (value_of "fee_type");
  mret (SetFee stake_pool_address numerator denominator fee_type).

Definition read_set_referral_fee : Read Command :=
  stake_pool_address ← unwrap (pubkey_of "pool");
  fee ← value_t_or_exit (parse_uint 8) "fee";
  fee_type ← unwrap (value_of "fee_type");
  mret (SetReferralFee stake_pool_address fee fee_type).

Definition read_deposit_all_stake : Read Command :=
  stake_pool_address ← unwrap (pubkey_of "pool");
  stake_authority ← unwrap (pubkey_of "stake_authority");
  let token_receiver := pubkey_of "token_receiver" in
  let referrer := pubkey_of "referrer" in
  withdraw_authority ← get_signer "withdraw_authority" (keypair_path cli_config) false;
  mret (DepositAllStake stake_pool_address stake_authority withdraw_authority token_receiver referrer).

(** The [match] on the name of the subcommand. *)
Definition readers : list (string * Read Command) :=
  [("create-pool", read_create_pool); ("create-token-metadata", read_create_token_metadata);
   ("update-token-metadata", read_update_token_metadata); ("add-validator", read_add_validator);
   ("remove-validator", read_remove_validator);
   ("increase-validator-stake", read_increase_validator_stake);
   ("decrease-validator-stake", read_decrease_validator_stake);
   ("set-preferred-validator", read_set_preferred_validator); ("deposit-stake", read_deposit_stake);
   ("deposit-sol", read_deposit_sol); ("deposit-wsol-with-session", read_deposit_wsol_with_session);
   ("withdraw-wsol-with-session", read_withdraw_wsol_with_session); ("list", read_list);
   ("update", read_update); ("withdraw-stake", read_withdraw_stake); ("withdraw-sol", read_withdraw_sol);
   ("set-manager", read_set_manager); ("set-staker", read_set_staker);
   ("set-funding-authority", read_set_funding_authority); ("set-fee", read_set_fee);
   ("set-referral-fee", read_set_referral_fee); ("list-all", Ok ListAll);
   ("deposit-all-stake", read_deposit_all_stake)].
Definition read_command (name : string) : Read Command :=
  match List.find (fun r => String.eqb name (fst r)) readers with
  | Some (_, r) => r
  | None => Panic
  end.
End Commands.

(** ** The whole client *)

(** How the process ends; [Unfinished] is the search of [add-validator] cut short. *)
Inductive Outcome := Finished | Failed | Panicked | Unfinished.

(** [main], from the matches on: the matches of the whole command line, the name of
    the subcommand and its matches. *)
Definition client_main (fuel : nat) (matches : ArgMatches) (subcommand : string)
    (arg_matches : ArgMatches) (s : CliState) : Outcome * CliState :=
  let cli_config := read_cli_config matches in
  match read_config cli_config matches with
  | Ok settings =>
      match read_command cli_config arg_matches subcommand with
      | Ok command =>
          match main fuel (settings_config settings) command s with
          | (Ok (Some _), s) => (Finished, s)
          | (Ok None, s) => (Unfinished, s)
          | (Err _, s) => (Failed, s)
          | (Panic, s) => (Panicked, s)
          end
      | Err _ => (Failed, s)
      | Panic => (Panicked, s)
      end
  | Err _ => (Failed, s)
  | Panic => (Panicked, s)
  end.
End CliMain.
