(* ===== verification/CliCorrect.v ===== *)
(** * The command line is read as it is declared

    What clap guarantees for the declared command line is what [main] relies on
    when it reads it: which declared arguments are read as what, where the two do
    not fit together, and the whole client from the command line on. *)

From S2P Require Import Prelude Errors Fees Pool BigVec Borsh ValidatorList Runtime Checks.
From S2P Require Import Admin Deposit Instruction Builders Client Commands Output Main.
From S2P Require Import Clap CliApp CliMain.

#[local] Open Scope Z_scope.

(** ** Numbers *)

Lemma parse_digits_range w acc s n :
  0 <= acc < 2 ^ w -> parse_digits w acc s = Some n -> is_uint w n.
Proof.
  revert acc. induction s as [|c s IH]; intros acc Hacc Hp; cbn [parse_digits] in Hp.
  { by injection Hp as <-. }
  apply bind_Some in Hp as (d & Hd & Hp). apply bind_Some in Hp as (m & Hm & Hp).
  apply bind_Some in Hp as (k & Hk & Hp). apply (IH k); [|done].
  unfold digit_of in Hd. unfold checked_mul in Hm. unfold checked_add in Hk.
  repeat case_match; simplify_eq. lia.
Qed.
Lemma parse_uint_range w s n : 0 <= w -> parse_uint w s = Some n -> is_uint w n.
Proof.
  intros Hw. assert (0 < 2 ^ w) by (by apply Z.pow_pos_nonneg). unfold parse_uint.
  destruct s as [|c s]; [done|]. case_bool_decide; [destruct s; [done|]|];
    intros Hp; eapply parse_digits_range; [|done| |done]; lia.
Qed.

(** ** Reading *)

(** A reader that does not panic, ends the process only if [E], and otherwise
    gives a value with [P]. *)
Definition reads {A} (E : Prop) (P : A -> Prop) (r : Read A) : Prop :=
  match r with Ok a => P a | Err _ => E | Panic => False end.

Lemma reads_bind {A B} E P Q (r : Read A) (f : A -> Read B) :
  reads E P r -> (forall a, P a -> reads E Q (f a)) -> reads E Q (r ≫= f).
Proof. destruct r; cbn; auto. Qed.
Lemma reads_fmap {A B} E P Q (r : Read A) (f : A -> B) :
  reads E P r -> (forall a, P a -> Q (f a)) -> reads E Q (f <$> r).
Proof. destruct r; cbn; auto. Qed.
Lemma reads_unwrap {A} E (P : A -> Prop) o : (exists a, o = Some a /\ P a) -> reads E P (unwrap o).
Proof. intros (a & -> & Ha). done. Qed.
Lemma reads_ok_or {A} (E : Prop) (P : A -> Prop) o :
  (o = None -> E) -> (forall a, o = Some a -> P a) -> reads E P (ok_or ExitFailure o).
Proof. destruct o; cbn; auto. Qed.

Section Conforms.
Context `{K : Crates} `{!ClapUtils}.

(** What is documented of the checks and readers of the other crates. *)
Record ClapLaws : Prop := {
  pubkey_checked s : is_pubkey s = true -> is_Some (pubkey_of_text s);
  parsable_checked w s : is_parsable w s = true -> is_Some (parse_uint w s);
  percentage_checked s : is_valid_percentage s = true ->
    exists n, parse_uint 8 s = Some n /\ n <= 100;
  amount_checked s : is_amount s = true -> is_Some (parse_f64 s);
  price_arg_declared : compute_unit_price_arg =
    takes_value true (long "--with-compute-unit-price" (with_name "compute_unit_price"));
}.
Hypothesis laws : ClapLaws.

Definition find_arg (name : string) (args : list Arg) : option Arg :=
  List.find (fun a => String.eqb (arg_name a) name) args.

(** ** One declaration and its matches *)
Section Matches.
Variables (args : list Arg) (groups : list ArgGroup) (m : ArgMatches).
Hypothesis Hm : conforms args groups m = true.

Lemma conforms_arg name a :
  find_arg name args = Some a -> arg_conforms groups m a = true /\ arg_name a = name.
Proof.
  intros [Hin Hn]%List.find_some. apply String.eqb_eq in Hn. split; [|done].
  unfold conforms in Hm. apply andb_prop in Hm as [[Ha _]%andb_prop _].
  rewrite forallb_forall in Ha. by apply Ha.
Qed.
Lemma conforms_text name a t :
  find_arg name args = Some a -> value_of m name = Some t ->
  text_ok a t = true /\ forallb (present groups m) (arg_requires a) = true.
Proof.
  intros [Ha <-]%conforms_arg Ht. unfold arg_conforms in Ha. unfold value_of in Ht.
  destruct (m !! arg_name a) as [v|]; [|done]. cbn in Ht. subst v.
  by apply andb_prop in Ha as [[_ Ht]%andb_prop Hr].
Qed.
(** An argument that takes a value is present exactly with one. *)
Lemma present_value name a :
  find_arg name args = Some a -> arg_takes_value a = true ->
  is_present m name = true <-> is_Some (value_of m name).
Proof.
  intros [Ha <-]%conforms_arg Hv. unfold arg_conforms in Ha. unfold is_present, value_of.
  rewrite bool_decide_eq_true. destruct (m !! arg_name a) as [[t|]|]; [by split|by rewrite Hv in Ha|].
  by split; intros [].
Qed.
Lemma required_text name a :
  find_arg name args = Some a -> arg_takes_value a = true -> arg_required a = true ->
  exists t, value_of m name = Some t /\ text_ok a t = true.
Proof.
  intros Hf Hv Hr. assert (Hp : is_present m name = true).
  { pose proof (conforms_arg _ _ Hf) as [Ha <-]. unfold arg_conforms in Ha. unfold is_present.
    destruct (m !! arg_name a); [done|]. by rewrite Hr in Ha. }
  apply (present_value _ _ Hf Hv) in Hp as [t Ht]. exists t. split; [done|]. by eapply conforms_text.
Qed.
Lemma undeclared name : existsb (String.eqb name) (arg_name <$> args) = false -> is_present m name = false.
Proof.
  intros Hn. apply bool_decide_eq_false. intros [v Hv].
  unfold conforms in Hm. apply andb_prop in Hm as [_ Hk]. rewrite forallb_forall in Hk.
  rewrite Hk in Hn; [done|]. apply list_elem_of_In, list_elem_of_fmap. exists (name, v).
  by split; [|apply elem_of_map_to_list].
Qed.
Lemma conforms_group g : g ∈ groups -> group_conforms m g = true.
Proof.
  intros Hg%list_elem_of_In. unfold conforms in Hm.
  apply andb_prop in Hm as [[_ Hgs]%andb_prop _]. rewrite forallb_forall in Hgs. by apply Hgs.
Qed.

(** Arguments checked to be addresses. *)
Lemma checked_pubkey name a t :
  find_arg name args = Some a -> arg_validator a = Some IsPubkey -> value_of m name = Some t ->
  is_Some (pubkey_of m name).
Proof.
  intros Hf Hc Ht. pose proof (conforms_text _ _ _ Hf Ht) as [Hok _].
  unfold text_ok in Hok. rewrite Hc in Hok. apply andb_prop in Hok as [Hp _].
  unfold pubkey_of. rewrite Ht. by apply (pubkey_checked laws).
Qed.
Lemma reads_pubkey E name a :
  find_arg name args = Some a ->
  arg_takes_value a = true -> arg_required a = true -> arg_validator a = Some IsPubkey ->
  reads E (fun _ => True) (unwrap (pubkey_of m name)).
Proof.
  intros Hf Hv Hr Hc. destruct (required_text _ _ Hf Hv Hr) as (t & Ht & _).
  destruct (checked_pubkey _ _ _ Hf Hc Ht) as [k Hk]. apply reads_unwrap. by exists k.
Qed.
Lemma reads_text E name a :
  find_arg name args = Some a -> arg_takes_value a = true -> arg_required a = true ->
  reads E (fun t => text_ok a t = true) (unwrap (value_of m name)).
Proof.
  intros Hf Hv Hr. apply reads_unwrap. destruct (required_text _ _ Hf Hv Hr) as (t & Ht & Hok). by exists t.
Qed.
(** Arguments checked to be numbers. *)
Lemma checked_uint name a w t :
  find_arg name args = Some a -> arg_validator a = Some (IsParsable w) -> 0 <= w ->
  value_of m name = Some t -> exists n, value_t m (parse_uint w) name = Some n /\ is_uint w n.
Proof.
  intros Hf Hc Hw Ht. pose proof (conforms_text _ _ _ Hf Ht) as [Hok _].
  unfold text_ok in Hok. rewrite Hc in Hok. apply andb_prop in Hok as [Hp _].
  destruct (parsable_checked laws _ _ Hp) as [n Hn]. exists n. unfold value_t. rewrite Ht.
  split; [done|]. by eapply parse_uint_range.
Qed.
Lemma reads_uint E name a w :
  find_arg name args = Some a -> arg_takes_value a = true -> arg_required a = true ->
  arg_validator a = Some (IsParsable w) -> 0 <= w ->
  reads E (is_uint w) (value_t_or_exit m (parse_uint w) name).
Proof.
  intros Hf Hv Hr Hc Hw. destruct (required_text _ _ Hf Hv Hr) as (t & Ht & _).
  destruct (checked_uint _ _ _ _ Hf Hc Hw Ht) as (n & Hn & Hu).
  apply reads_ok_or; rewrite Hn; [done|]. by intros ? [=<-].
Qed.
Lemma reads_string E name a :
  find_arg name args = Some a -> arg_takes_value a = true -> arg_required a = true ->
  reads E (fun _ => True) (value_t_or_exit m parse_string name).
Proof.
  intros Hf Hv Hr. destruct (required_text _ _ Hf Hv Hr) as (t & Ht & _).
  apply reads_ok_or; [|done]. unfold value_t. by rewrite Ht.
Qed.
(** Amounts, which need not be required. *)
Lemma reads_amount (E : Prop) name a :
  find_arg name args = Some a -> arg_validator a = Some IsAmount ->
  (value_of m name = None -> E) -> reads E (fun _ => True) (value_t_or_exit m parse_f64 name).
Proof.
  intros Hf Hc HE. apply reads_ok_or; [|done]. unfold value_t.
  destruct (value_of m name) as [t|] eqn:Ht; [|auto]. pose proof (conforms_text _ _ _ Hf Ht) as [Hok _].
  unfold text_ok in Hok. rewrite Hc in Hok. apply andb_prop in Hok as [Hp _].
  destruct (amount_checked laws _ Hp) as [x Hx]. cbn. by rewrite Hx.
Qed.
Lemma reads_percentage E name a :
  find_arg name args = Some a -> arg_takes_value a = true -> arg_required a = true ->
  arg_validator a = Some IsValidPercentage ->
  reads E (fun n => 0 <= n <= 100) (value_t_or_exit m (parse_uint 8) name).
Proof.
  intros Hf Hv Hr Hc. destruct (required_text _ _ Hf Hv Hr) as (t & Ht & Hok).
  unfold text_ok in Hok. rewrite Hc in Hok. apply andb_prop in Hok as [Hp _].
  destruct (percentage_checked laws _ Hp) as (n & Hn & Hle). apply reads_ok_or; unfold value_t; rewrite Ht; cbn;
    rewrite Hn; [done|]. intros ? [=<-]. apply parse_uint_range in Hn; unfold is_uint in Hn; lia.
Qed.
End Matches.

(** A signer that cannot be loaded. *)
Definition signer_missing : Prop := exists path name allow, signer_from_path path name allow = None.
Lemma reads_signer (E : Prop) m name path allow :
  (signer_missing -> E) -> reads E (fun _ => True) (get_signer m name path allow).
Proof. intros HE. apply reads_ok_or; [|done]. intros Hn. apply HE. by eexists _, _, _. Qed.

(** ** The subcommands *)
Section Subcommands.
Variable cli_config : CliConfig.
Variable m : ArgMatches.

Definition declared (s : SubCommand) : Prop :=
  conforms (sub_args s ++ global_args) (sub_groups s) m = true.

(** The names of the arguments of every subcommand. *)
Lemma global_names : arg_name <$> global_args =
  ["config_file"; "verbose"; "output_format"; "dry_run"; "no_update"; "json_rpc_url"; "staker";
   "manager"; "funding_authority"; "token_owner"; "fee_payer"; "compute_unit_price";
   "compute_unit_limit"; "program_id"]%string.
Proof. unfold global_args. rewrite (price_arg_declared laws). by destruct config_file_path. Qed.

(** Options that hold a number, or a percentage. *)
Definition optional (P : Z -> Prop) (o : option Z) : Prop := forall n, o = Some n -> P n.

#[local] Open Scope string_scope.

(** What is known of a command that was read. *)
Definition typed_command (c : Command) : Prop :=
  match c with
  | CreatePool _ e_numerator e_denominator w_numerator w_denominator d_numerator d_denominator
      referral_fee max_validators _ _ _ _ _ =>
      is_uint 64 e_numerator /\ is_uint 64 e_denominator /\
      optional (is_uint 64) w_numerator /\ optional (is_uint 64) w_denominator /\
      optional (is_uint 64) d_numerator /\ optional (is_uint 64) d_denominator /\
      (is_Some w_numerator <-> is_Some w_denominator) /\
      (is_Some d_numerator <-> is_Some d_denominator) /\
      optional (fun n => 0 <= n <= 100)%Z referral_fee /\ is_uint 32 max_validators
  | IncreaseValidatorStake _ _ amount | DecreaseValidatorStake _ _ amount
  | DepositSol _ _ _ _ amount => is_amount amount = true
  | SetPreferredValidator _ preferred_type _ => preferred_type ∈ ["deposit"; "withdraw"]
  | WithdrawStake _ vote_account _ _ stake_receiver use_reserve =>
      (use_reserve = true -> vote_account = None) /\
      (is_Some stake_receiver -> use_reserve = true \/ is_Some vote_account)
  | SetManager _ new_manager new_fee_receiver => is_Some new_manager \/ is_Some new_fee_receiver
  | SetFundingAuthority _ _ funding_type => funding_type ∈ ["sol-deposit"; "stake-deposit"; "sol-withdraw"]
  | SetFee _ numerator denominator fee_type =>
      is_uint 64 numerator /\ is_uint 64 denominator /\
      fee_type ∈ ["epoch"; "stake-deposit"; "sol-deposit"; "stake-withdrawal"; "sol-withdrawal"]
  | SetReferralFee _ fee fee_type => (0 <= fee <= 100)%Z /\ fee_type ∈ ["sol"; "stake"]
  | _ => True
  end.

(** A text that is one of the declared values, as a member of any list of them. *)
Lemma declared_value a t l :
  text_ok a t = true -> arg_possible_values a <> [] ->
  forallb (fun v => existsb (String.eqb v) l) (arg_possible_values a) = true -> t ∈ l.
Proof.
  intros [_ Hv]%andb_prop Hne Hl. destruct (arg_possible_values a) as [|v vs] eqn:E; [done|].
  apply existsb_exists in Hv as (v' & Hin & ->%String.eqb_eq). rewrite forallb_forall in Hl.
  apply Hl, existsb_exists in Hin as (v'' & Hin & ->%String.eqb_eq). by apply list_elem_of_In.
Qed.

Ltac value_in := cbv beta in *; eapply declared_value; [eassumption|discriminate|reflexivity].

Ltac read_step :=
  lazymatch goal with
  | Hd : declared _ |- reads _ _ (unwrap (pubkey_of _ _)) =>
      eapply (reads_pubkey _ _ _ Hd); reflexivity
  | Hd : declared _ |- reads _ _ (unwrap (value_of _ _)) =>
      eapply (reads_text _ _ _ Hd); reflexivity
  | Hd : declared _ |- reads _ _ (value_t_or_exit _ parse_string _) =>
      eapply (reads_string _ _ _ Hd); reflexivity
  | Hd : declared _ |- reads _ _ (value_t_or_exit _ (parse_uint 8) _) =>
      eapply (reads_percentage _ _ _ Hd); reflexivity
  | Hd : declared _ |- reads _ _ (value_t_or_exit _ (parse_uint _) _) =>
      eapply (reads_uint _ _ _ Hd); [reflexivity..|lia]
  | |- reads _ _ (get_signer _ _ _ _) => apply reads_signer; auto
  | |- reads _ _ (mret _) => cbn [reads mret result_ret typed_command]
  | |- reads _ _ (unwrap (Some _) ≫= _) => cbn [unwrap mbind result_bind]; read_step
  | |- reads _ _ (_ ≫= _) => eapply reads_bind; [read_step|intros ? ?; read_step]
  | |- _ => idtac
  end.

(** An optional number of a declared argument. *)
Lemma optional_uint s name a w :
  declared s -> find_arg name (sub_args s ++ global_args) = Some a ->
  arg_validator a = Some (IsParsable w) -> (0 <= w)%Z ->
  optional (is_uint w) (value_t m (parse_uint w) name) /\
  (is_Some (value_t m (parse_uint w) name) <-> is_Some (value_of m name)).
Proof.
  intros Hd Hf Hc Hw. destruct (value_of m name) as [t|] eqn:Ht.
  - destruct (checked_uint _ _ _ Hd _ _ _ _ Hf Hc Hw Ht) as (n & Hn & Hu). rewrite Hn.
    split; [by intros ? [=<-]|by split].
  - unfold value_t. rewrite Ht. split; [by intros ? ?|by split; intros []].
Qed.
Lemma requires_value s name name' a a' :
  declared s ->
  find_arg name (sub_args s ++ global_args) = Some a -> arg_requires a = [name'] ->
  find_arg name' (sub_args s ++ global_args) = Some a' -> arg_takes_value a' = true ->
  List.find (fun g => String.eqb (group_name g) name') (sub_groups s) = None ->
  is_Some (value_of m name) -> is_Some (value_of m name').
Proof.
  intros Hd Hf Hr Hf' Hv Hg [t Ht]. pose proof (conforms_text _ _ _ Hd _ _ _ Hf Ht) as [_ Hp].
  apply (present_value _ _ _ Hd _ _ Hf' Hv).
  rewrite Hr in Hp. cbn in Hp. rewrite andb_true_r in Hp. apply orb_prop in Hp as [Hp|Hp]; [done|].
  apply existsb_exists in Hp as (g & Hin & [Hn _]%andb_prop). by rewrite (List.find_none _ _ Hg _ Hin) in Hn.
Qed.

Lemma read_create_pool_typed E : declared create_pool_args -> reads E typed_command (read_create_pool m).
Proof.
  intros Hd. unfold read_create_pool. cbv zeta.
  pose proof (optional_uint _ "withdrawal_fee_numerator" _ 64 Hd eq_refl eq_refl ltac:(lia)) as [? Hwn].
  pose proof (optional_uint _ "withdrawal_fee_denominator" _ 64 Hd eq_refl eq_refl ltac:(lia)) as [? Hwd].
  pose proof (optional_uint _ "deposit_fee_numerator" _ 64 Hd eq_refl eq_refl ltac:(lia)) as [? Hdn].
  pose proof (optional_uint _ "deposit_fee_denominator" _ 64 Hd eq_refl eq_refl ltac:(lia)) as [? Hdd].
  read_step. rewrite Hwn, Hwd, Hdn, Hdd. split_and!; try done.
  1,2: split; intros Hs; refine (requires_value _ _ _ _ _ Hd _ _ _ _ _ Hs); reflexivity.
  intros n Hn. unfold value_t in Hn. apply bind_Some in Hn as (t & Ht & Hn).
  pose proof (conforms_text _ _ _ Hd "referral_fee" _ t eq_refl Ht) as [[Hp _]%andb_prop _].
  destruct (percentage_checked laws _ Hp) as (k & Hk & Hle). simplify_eq.
  apply parse_uint_range in Hn; unfold is_uint in Hn; lia.
Qed.
Lemma read_token_metadata_typed E :
  (declared create_token_metadata_args -> reads E typed_command (read_create_token_metadata m)) /\
  (declared update_token_metadata_args -> reads E typed_command (read_update_token_metadata m)).
Proof. split; intros Hd; unfold read_create_token_metadata, read_update_token_metadata; by read_step. Qed.
Lemma read_validator_typed E :
  (declared add_validator_args -> reads E typed_command (read_add_validator m)) /\
  (declared remove_validator_args -> reads E typed_command (read_remove_validator m)).
Proof. split; intros Hd; unfold read_add_validator, read_remove_validator; by read_step. Qed.
Lemma read_stake_typed E :
  (declared increase_validator_stake_args -> is_Some (value_of m "amount") ->
    reads E typed_command (read_increase_validator_stake m)) /\
  (declared decrease_validator_stake_args -> is_Some (value_of m "amount") ->
    reads E typed_command (read_decrease_validator_stake m)) /\
  (declared deposit_sol_args -> is_Some (value_of m "amount") ->
    reads E typed_command (read_deposit_sol m)).
Proof.
  split_and!; intros Hd [t Ht];
    unfold read_increase_validator_stake, read_decrease_validator_stake, read_deposit_sol; rewrite Ht;
    cbv zeta; read_step.
  all: pose proof (conforms_text _ _ _ Hd "amount" _ t eq_refl Ht) as [[Hp _]%andb_prop _]; exact Hp.
Qed.
Lemma read_preferred_typed E :
  declared set_preferred_validator_args -> reads E typed_command (read_set_preferred_validator m).
Proof. intros Hd. unfold read_set_preferred_validator. read_step. value_in. Qed.
Lemma read_deposit_stake_typed (E : Prop) :
  (signer_missing -> E) ->
  (declared deposit_stake_args -> reads E typed_command (read_deposit_stake cli_config m)) /\
  (declared deposit_all_stake_args -> reads E typed_command (read_deposit_all_stake cli_config m)).
Proof.
  intros HE. split; intros Hd; unfold read_deposit_stake, read_deposit_all_stake; cbv zeta; by read_step.
Qed.
Lemma read_session_typed (E : Prop) :
  (declared deposit_wsol_with_session_args -> (value_of m "amount" = None -> E) ->
    reads E typed_command (read_deposit_wsol_with_session m)) /\
  (declared withdraw_wsol_with_session_args ->
    reads E typed_command (read_withdraw_wsol_with_session m)).
Proof.
  split; intros Hd; unfold read_deposit_wsol_with_session, read_withdraw_wsol_with_session; cbv zeta.
  - intros HE. read_step; [|done]. by eapply (reads_amount _ _ _ Hd).
  - destruct (required_text _ _ _ Hd "amount" _ eq_refl eq_refl eq_refl) as (t & Ht & _).
    read_step; [|done]. eapply (reads_amount _ _ _ Hd); [reflexivity|reflexivity|by rewrite Ht].
Qed.
Lemma read_pool_typed E :
  (declared list_args -> reads E typed_command (read_list m)) /\
  (declared update_args -> reads E typed_command (read_update m)).
Proof. split; intros Hd; unfold read_list, read_update; cbv zeta; by read_step. Qed.

Lemma present_pubkey s name a :
  declared s -> find_arg name (sub_args s ++ global_args) = Some a ->
  arg_takes_value a = true -> arg_validator a = Some IsPubkey ->
  is_present m name = true <-> is_Some (pubkey_of m name).
Proof.
  intros Hd Hf Hv Hc. rewrite (present_value _ _ _ Hd _ _ Hf Hv). split.
  - intros [t Ht]. by eapply checked_pubkey.
  - unfold pubkey_of. intros [k (t & Ht & _)%bind_Some]. by exists t.
Qed.
Lemma read_withdraw_stake_typed E :
  declared withdraw_stake_args -> reads E typed_command (read_withdraw_stake m).
Proof.
  intros Hd. destruct (required_text _ _ _ Hd "amount" _ eq_refl eq_refl eq_refl) as (t & Ht & _).
  pose proof (present_pubkey _ "vote_account" _ Hd eq_refl eq_refl eq_refl) as Hv.
  pose proof (conforms_group _ _ _ Hd _ (list_elem_of_here _ _)) as [_ Hg]%andb_prop.
  unfold read_withdraw_stake. cbv zeta. read_step.
  { eapply (reads_amount _ _ _ Hd); [reflexivity|reflexivity|by rewrite Ht]. }
  cbn in Hg. split.
  - intros Hu. rewrite Hu in Hg. destruct (pubkey_of m "vote_account") eqn:Ep; [|done].
    by rewrite (proj2 Hv) in Hg by done.
  - unfold pubkey_of at 1. intros [k (t' & Ht' & _)%bind_Some].
    pose proof (conforms_text _ _ _ Hd "stake_receiver" _ t' eq_refl Ht') as [_ Hp].
    cbn in Hp. rewrite andb_true_r in Hp. apply orb_prop in Hp as [Hp|Hp].
    + rewrite (undeclared _ _ _ Hd) in Hp; [done|]. by rewrite fmap_app, global_names.
    + cbn in Hp. destruct (is_present m "use_reserve"); [by left|right]. apply Hv.
      by destruct (is_present m "vote_account").
Qed.
Lemma read_withdraw_sol_typed (E : Prop) :
  (signer_missing -> E) ->
  declared withdraw_sol_args -> reads E typed_command (read_withdraw_sol cli_config m).
Proof.
  intros HE Hd. destruct (required_text _ _ _ Hd "amount" _ eq_refl eq_refl eq_refl) as (t & Ht & _).
  unfold read_withdraw_sol. cbv zeta. read_step; [|done].
  eapply (reads_amount _ _ _ Hd); [reflexivity|reflexivity|by rewrite Ht].
Qed.
Lemma read_set_manager_typed (E : Prop) :
  (signer_missing -> E) -> declared set_manager_args -> reads E typed_command (read_set_manager m).
Proof.
  intros HE Hd. pose proof (present_value _ _ _ Hd "new_manager" _ eq_refl eq_refl) as Hn.
  pose proof (present_pubkey _ "new_fee_receiver" _ Hd eq_refl eq_refl eq_refl) as Hf.
  pose proof (conforms_group _ _ _ Hd _ (list_elem_of_here _ _)) as [Hg _]%andb_prop.
  unfold read_set_manager. cbv zeta. eapply reads_bind; [read_step|intros P _].
  eapply (reads_bind _ (fun o => is_Some (value_of m "new_manager") -> is_Some o)).
  - destruct (value_of m "new_manager"); [|by cbn; intros []].
    eapply (reads_fmap _ (fun _ => True)); [by apply reads_signer|]. by intros k _ _; exists k.
  - intros o Ho. cbn. cbn in Hg. destruct (is_present m "new_manager") eqn:E1.
    + left. by apply Ho, Hn.
    + right. apply Hf. by destruct (is_present m "new_fee_receiver").
Qed.
Lemma read_set_staker_typed E :
  declared set_staker_args -> is_Some (value_of m "new_staker") ->
  reads E typed_command (read_set_staker m).
Proof.
  intros Hd [t Ht]. destruct (checked_pubkey _ _ _ Hd "new_staker" _ t eq_refl eq_refl Ht) as [k Hk].
  unfold read_set_staker. rewrite Hk. by read_step.
Qed.
Lemma read_manager_typed E :
  (declared set_funding_authority_args -> reads E typed_command (read_set_funding_authority m)) /\
  (declared set_fee_args -> reads E typed_command (read_set_fee m)) /\
  (declared set_referral_fee_args -> reads E typed_command (read_set_referral_fee m)).
Proof.
  split_and!; intros Hd; unfold read_set_funding_authority, read_set_fee, read_set_referral_fee; cbv zeta;
    read_step; cbv beta in *; split_and?; try (done || lia); value_in.
Qed.

(** Where the declaration and the reader do not fit together: a declared
    subcommand that no arm of the match handles, and optional arguments that are
    unwrapped. *)
Definition unhandled (name : string) : Prop :=
  name = "deposit-wsol" \/
  (name ∈ ["increase-validator-stake"; "decrease-validator-stake"; "deposit-sol"] /\
   value_of m "amount" = None) \/
  (name = "set-staker" /\ value_of m "new_staker" = None).
(** Why the process may end while its arguments are read. *)
Definition may_exit (name : string) : Prop :=
  signer_missing \/ (name = "deposit-wsol-with-session" /\ value_of m "amount" = None).

Lemma unhandled_panics name : unhandled name -> read_command cli_config m name = Panic.
Proof.
  intros [->|[[Hn Ha]|[-> Ha]]]; [done| |].
  - repeat (apply elem_of_cons in Hn as [->|Hn]); [..|by apply not_elem_of_nil in Hn].
    + change (read_increase_validator_stake m = Panic). unfold read_increase_validator_stake. rewrite Ha.
      by destruct (pubkey_of m "pool"), (pubkey_of m "vote_account").
    + change (read_decrease_validator_stake m = Panic). unfold read_decrease_validator_stake. rewrite Ha.
      by destruct (pubkey_of m "pool"), (pubkey_of m "vote_account").
    + change (read_deposit_sol m = Panic). unfold read_deposit_sol. rewrite Ha.
      by destruct (pubkey_of m "pool").
  - change (read_set_staker m = Panic). unfold read_set_staker, pubkey_of. rewrite Ha.
    by destruct (value_of m "pool" ≫= pubkey_of_text).
Qed.

Lemma given_or_not name : value_of m name = None \/ is_Some (value_of m name).
Proof. destruct (value_of m name); eauto. Qed.

(** Every declared subcommand is read to a well-typed command or is one of the
    unhandled cases. *)
Lemma read_command_typed s :
  s ∈ app_subcommands app -> declared s ->
  unhandled (sub_name s) \/ reads (may_exit (sub_name s)) typed_command (read_command cli_config m (sub_name s)).
Proof.
  intros Hs Hd. assert (HE : signer_missing -> may_exit (sub_name s)) by (intros Hm; by left).
  cbn [app app_subcommands] in Hs. unfold unhandled.
  repeat (apply elem_of_cons in Hs as [->|Hs]); [..|by apply not_elem_of_nil in Hs]; cbn [sub_name] in *.
  - right. by apply read_create_pool_typed.
  - right. by apply read_token_metadata_typed.
  - right. by apply read_token_metadata_typed.
  - right. by apply read_validator_typed.
  - right. by apply read_validator_typed.
  - destruct (given_or_not "amount"); [left; set_solver|right]. by apply read_stake_typed.
  - destruct (given_or_not "amount"); [left; set_solver|right]. by apply read_stake_typed.
  - right. by apply read_preferred_typed.
  - right. by apply read_deposit_stake_typed.
  - right. by apply read_deposit_stake_typed.
  - destruct (given_or_not "amount"); [left; set_solver|right]. by apply read_stake_typed.
  - left. by left.
  - right. apply read_session_typed; [done|]. intros Ha. by right.
  - right. by apply read_session_typed.
  - right. by apply read_pool_typed.
  - right. by apply read_pool_typed.
  - right. by apply read_withdraw_stake_typed.
  - right. by apply read_withdraw_sol_typed.
  - right. by apply read_set_manager_typed.
  - destruct (given_or_not "new_staker"); [left; set_solver|right]. by apply read_set_staker_typed.
  - right. by apply read_manager_typed.
  - right. by apply read_manager_typed.
  - right. by apply read_manager_typed.
  - by right.
Qed.
End Subcommands.

(** ** The configuration *)

Lemma find_global name a :
  find_arg name
    (takes_value true (with_name "config_file") :: tail global_args) = Some a ->
  name <> "config_file"%string -> find_arg name global_args = Some a.
Proof.
  intros Hf Hn. unfold find_arg in *. cbn [List.find global_args tail] in *.
  destruct config_file_path; cbn [arg_name takes_value global long short default_value with_name] in *;
    by rewrite (proj2 (String.eqb_neq _ _)) in * by done.
Qed.

Lemma read_config_typed cli_config m :
  conforms global_args [] m = true ->
  reads signer_missing
    (fun s => optional (is_uint 64) (compute_unit_price (settings_config s)))
    (read_config cli_config m).
Proof.
  intros Hm. unfold read_config. cbv zeta.
  eapply reads_bind; [by apply reads_signer|intros staker _].
  eapply (reads_bind _ (fun _ => True)).
  { destruct (is_present m "funding_authority"); [|done].
    eapply reads_fmap; [by apply reads_signer|done]. }
  intros funding _. do 3 (eapply reads_bind; [by apply reads_signer|intros ? _]).
  eapply (reads_bind _ (fun _ => True)).
  { unfold read_output_format. destruct (value_of m "output_format") as [t|] eqn:Ht; [|done].
    eapply (conforms_text _ _ _ Hm) in Ht as [Hok _]; [|by apply find_global].
    assert (Hin : t ∈ ["json"; "json-compact"]%string) by (by eapply declared_value).
    apply elem_of_cons in Hin as [->|Hin]; [done|]. by apply list_elem_of_singleton in Hin as ->. }
  intros format _. eapply (reads_bind _ (fun _ => True)).
  - destruct (configured_limit _ _) eqn:El; [done| |].
    + unfold configured_limit, unwrap in El. by repeat case_match.
    + destruct (value_of m (ac_name COMPUTE_UNIT_LIMIT_ARG)) as [t|] eqn:Ht; [|done].
      eapply (conforms_text _ _ _ Hm) in Ht as [[Hok _]%andb_prop _].
      2: { apply find_global; [|done]. cbn [global_args tail]. by rewrite (price_arg_declared laws). }
      exact (proj1 (checked_limit t _) Hok El).
  - intros limit _. cbn. intros n Hn. rewrite (price_arg_declared laws) in Hn.
    apply bind_Some in Hn as (t & _ & Hn). by eapply parse_uint_range.
Qed.

Lemma app_is_well_formed : app_well_formed app = true.
Proof.
  unfold app, global_args. rewrite (price_arg_declared laws). by destruct config_file_path; vm_compute.
Qed.

(** C19: the command line is typed.  The declaration meets what clap asks of it (no two
    arguments of a subcommand share a name or a form, positions are numbered from one
    without gaps and the required ones come first, groups and requirements name declared
    arguments).  For all matches that clap can return, reading the configuration never
    panics, and reading a subcommand gives a command whose numbers have their type, whose
    texts are ones the client knows, and whose exclusive or dependent arguments are given
    as declared; the process exits early only because a signer cannot be loaded or the
    amount of a session deposit is missing; and it panics exactly for the one subcommand
    that is declared but not handled, and for the optional arguments that are
    unwrapped. *)
Theorem arguments_well_typed cli_config :
  app_well_formed app = true /\
  (forall m, conforms global_args [] m = true ->
     reads signer_missing (fun s => optional (is_uint 64) (compute_unit_price (settings_config s)))
       (read_config cli_config m)) /\
  (forall m s, s ∈ app_subcommands app -> declared m s ->
     (read_command cli_config m (sub_name s) = Panic <-> unhandled m (sub_name s)) /\
     (unhandled m (sub_name s) \/
      reads (may_exit m (sub_name s)) typed_command (read_command cli_config m (sub_name s)))).
Proof.
  split_and!; [apply app_is_well_formed|apply read_config_typed|].
  intros m s Hs Hd. pose proof (read_command_typed cli_config m s Hs Hd) as Hr. split; [|done].
  split; [|apply unhandled_panics]. intros Hp. destruct Hr as [|Hr]; [done|]. by rewrite Hp in Hr.
Qed.
End Conforms.
