(* ===== verification/CliProgram.v ===== *)
(** * The client from its command line on

    Reading and running put together: the client does not panic on command lines
    that are read, and a dry run submits nothing.  Concrete checks and readers show
    that the assumptions can be met, and command lines that the declaration accepts
    but the client does not handle as it should. *)

From S2P Require Import Prelude Errors Fees Pool BigVec Borsh ValidatorList Runtime Platform Checks.
From S2P Require Import Scenario Admin Deposit Instruction Builders BuildersCorrect Client Commands Output.
From S2P Require Import Main ClientDemo ClientCorrect Signing Clap CliApp CliMain CliCorrect.

#[local] Open Scope Z_scope.

Section CliProgram.
Context `{R : Runtime} `{C : ClientIds} `{K : Crates} `{N : Node} `{T : !Texts} `{U : !ClapUtils}.

(** What a well-typed command needs beyond its type not to panic: the configured
    authorities are the pool's, texts fit their length, and an amount that passed the
    check of the command line can be converted. *)
Definition ready (config : Config) (c : Command) : Prop :=
  match c with
  | CreateTokenMetadata P name symbol uri | UpdateTokenMetadata P name symbol uri =>
      has_manager config P /\ Signing.short name /\ Signing.short symbol /\ Signing.short uri
  | RemoveValidator P _ => has_staker config P
  | IncreaseValidatorStake P _ amount | DecreaseValidatorStake P _ amount =>
      has_staker config P /\ is_Some (sol_str_to_lamports amount)
  | DepositSol _ _ _ _ amount => is_Some (sol_str_to_lamports amount)
  | SetManager P None _ => has_manager config P
  | CreatePool _ _ _ _ _ _ _ _ _ _ _ _ _ _ | AddValidator _ _ | WithdrawStake _ _ _ _ _ _
  | List _ | ListAll => False
  | _ => True
  end.

Lemma ready_covered config c : typed_command c -> ready config c -> covered config c.
Proof.
  destruct c as [| | | | | | | | | | | | | | | |P [k|] r| | | | | |]; cbn; try done.
  - by intros (_ & _ & Ht) _.
  - intros ([_ Hf] & Ht) _. done.
Qed.

Hypothesis crates : crates_laws.
Hypothesis clap : ClapLaws.
Hypothesis rent_known : forall h, exists b,
  rpc_get_minimum_balance_for_rent_exemption h token_account_len = Some b /\ is_uint 64 b.

(** The flag of the command line is the field of the configuration. *)
Lemma read_config_dry_run cli_config m settings :
  read_config cli_config m = Ok settings -> dry_run (settings_config settings) = is_present m "dry_run".
Proof.
  unfold read_config. cbv zeta. intros Hr.
  repeat (apply bind_Ok in Hr as (? & _ & Hr)). by injection Hr as <-.
Qed.

Definition submitted (e : Event) : bool := match e with Submitted _ _ => true | _ => false end.

Lemma client_main_adds fuel m name args s : exists new,
  history (client_main fuel m name args s).2 = history s ++ new /\
  (is_present m "dry_run" = true -> Forall (fun e => submitted e = false) new).
Proof.
  unfold client_main. cbv zeta. destruct (read_config _ m) as [settings| |] eqn:Hc.
  2,3: by exists []; rewrite app_nil_r.
  destruct (read_command _ args name) as [c| |]; [|by exists []; rewrite app_nil_r..].
  destruct (main_emits (settings_config settings) fuel c s) as (new & Hh & Hn & _).
  exists new. split.
  - by destruct (main _ _ _ _) as [[[]|?|] s'].
  - intros Hd. rewrite <- (read_config_dry_run _ _ _ Hc) in Hd.
    eapply Forall_impl; [exact Hn|]. intros [] He; try done. destruct He as [He _]. congruence.
Qed.

End CliProgram.

(** ** Concrete checks and command lines *)
Section CliDemo.
Import Demo Scenario.
#[local] Open Scope string_scope.

(** Keys are files named after their role; a hardware wallet is a signer, but not a
    file with a key. *)
Definition demo_key (path : string) : option Pubkey :=
  if String.eqb path "id.json" then Some payer_key
  else if String.eqb path "manager.json" then Some manager_key else None.
Definition demo_signer (path : string) : option Pubkey :=
  if String.eqb path "usb://ledger" then Some user_key else demo_key path.
Definition demo_pubkey (text : string) : option Pubkey :=
  if String.eqb text "pool" then Some pool_key else declare_id text.
Definition defined {A} (o : option A) : bool := match o with Some _ => true | None => false end.

Definition demo_utils : ClapUtils (H:=demo_crates) := {|
  is_url s := str_contains s "http";
  is_valid_signer s := defined (demo_signer s);
  is_pubkey s := defined (demo_pubkey s);
  is_valid_pubkey s := defined (demo_pubkey s) || defined (demo_signer s);
  is_keypair_or_ask_keyword s := defined (demo_key s);
  is_amount s := defined (parse_uint 64 s);
  is_valid_percentage s := match parse_uint 8 s with Some n => (n <=? 100)%Z | None => false end;
  is_parsable w s := defined (parse_uint w s);
  pubkey_of_text := demo_pubkey;
  keypair_of_text := demo_key;
  signer_from_path path _ _ := demo_signer path;
  parse_f64 s := (parse_uint 64 s : option (f64 (Crates:=demo_crates)));
  compute_unit_price_arg := takes_value true (long "--with-compute-unit-price" (with_name "compute_unit_price"));
  config_file_path := None;
  load_config _ := None;
  default_config := mkCliConfig "http://localhost" "id.json";
|}.

Lemma demo_clap : ClapLaws (H:=demo_utils).
Proof.
  constructor; try done.
  - intros s. cbn. destruct (demo_pubkey s); [by eexists|done].
  - intros w s. cbn. destruct (parse_uint w s); [by eexists|done].
  - intros s. cbn. destruct (parse_uint 8 s) as [n|]; [|done]. intros Hn%Z.leb_le. by exists n.
  - intros s. cbn. destruct (parse_uint 64 s); [by eexists|done].
Qed.

Definition no_arguments : ArgMatches := ∅.
Definition only_pool : ArgMatches := {["pool" := Some "pool"]}.
Definition pool_and_amount : ArgMatches := {["pool" := Some "pool"; "amount" := Some "5"]}.
Definition ledger_authority : ArgMatches :=
  {["epoch_fee_numerator" := Some "1"; "epoch_fee_denominator" := Some "100";
    "max_validators" := Some "10"; "deposit_authority" := Some "usb://ledger"]}.

#[local] Existing Instance demo_crates.
#[local] Existing Instance demo_utils.

Lemma arguments_well_typed_witness :
  app_well_formed app = true /\
  (read_command default_config only_pool "deposit-sol" = Panic <-> unhandled only_pool "deposit-sol") /\
  read_command default_config only_pool "deposit-sol" = Panic.
Proof.
  pose proof (arguments_well_typed demo_clap default_config) as (Hw & _ & Hr). split; [exact Hw|].
  assert (Hs : deposit_sol_args ∈ app_subcommands app)
    by (apply list_elem_of_In; cbn [app app_subcommands]; do 10 right; by left).
  assert (Hd : declared only_pool deposit_sol_args) by (vm_compute; reflexivity).
  destruct (Hr only_pool deposit_sol_args Hs Hd) as [Hp _]. split; [exact Hp|].
  apply (proj2 Hp). right. left. split; [|reflexivity]. apply list_elem_of_In. cbn. tauto.
Defined.


(** The subcommand [deposit-wsol] is offered, and panics however complete its
    arguments are. *)
Lemma deposit_wsol_unhandled :
  declared pool_and_amount deposit_wsol_args /\
  (client_main (H:=demo) (H0:=demo_ids) (H1:=demo_node world) (H2:=demo_texts) 1 no_arguments "deposit-wsol"
     pool_and_amount start).1 = Panicked.
Proof. split; [by vm_compute|reflexivity]. Qed.

(** A deposit authority that is a signer but not a key file passes the check of the
    command line, and the pool is created without one. *)
Lemma deposit_authority_dropped :
  declared ledger_authority create_pool_args /\
  value_of ledger_authority "deposit_authority" = Some "usb://ledger" /\
  exists rest, read_command default_config ledger_authority "create-pool" = Ok rest /\
    match rest with CreatePool deposit_authority _ _ _ _ _ _ _ _ _ _ _ _ _ => deposit_authority = None
    | _ => False end.
Proof. split_and!; [by vm_compute|reflexivity|]. eexists. split; [reflexivity|]. reflexivity. Qed.
End CliDemo.
